(** * WingTradeBot: signal intake and execution pipeline

  A shallow embedding of the TypeScript sources of the webhook server
  (src/server.ts), the webhook queue (src/utils/webhookQueue.ts), the
  market-data connection manager (src/utils/webSocketManager.ts), the
  database layer (src/database.ts: the duplicate lookup, the account
  settings, the schema and its migrations) and the broker client
  (src/services/simplefx.ts), followed by the properties of the
  specification that are settled against them and by further properties of
  the code.

  Conventions.
  - JavaScript numbers that carry prices, distances and volumes, and the
    timestamps that come with the quotes of the feed, are IEEE-754 binary64
    values: Rocq's primitive floats.  The clock, the timestamps read from it
    and counters are integers ([Z]).
  - [Date.now()] reads an explicit clock; an [await] on the network, the
    database or a timer is answered by an explicit environment (an oracle
    record or a script of responses), so every function below is total and
    can be evaluated.
  - A thrown [Error] is a value of an error type; the message text of the
    source is kept as a constructor, not as a formatted string. *)

From Stdlib Require Import ZArith Floats String Ascii List Bool Lia DecimalString.
From stdpp Require Import gmap strings list.

Set Warnings "-inexact-float,-register-all".
Local Open Scope Z_scope.

(** ** JavaScript values and library functions used by the sources *)

Module Js.

(** [Number] truthiness: [0], [-0] and [NaN] are falsy. *)
Definition truthy (x : float) : bool :=
  negb (PrimFloat.is_nan x) && negb (PrimFloat.eqb x 0%float).

Definition truthy_opt (x : option float) : bool :=
  match x with Some v => truthy v | None => false end.

(** The nearest binary64 value of an integer. *)
Definition Z2float (n : Z) : float :=
  SF2Prim (binary_normalize prec emax n 0 false).

(** The nearest binary64 value of the quotient of two positive integers. *)
Definition Q2float (num den : positive) : float :=
  SF2Prim (SFdiv prec emax (S754_finite false num 0) (S754_finite false den 0)).

(** [Number(x.toFixed(digits))]: [toFixed] picks the integer [n] for which
    [n / 10^digits] is closest to the exact value of [x] (the larger one on
    a tie, after the sign has been split off), prints it as a decimal, and
    [Number] reads the decimal back as the nearest binary64 value.  From
    [1e21] on [toFixed] prints [x] itself. *)
Definition toFixed_number (x : float) (digits : Z) : float :=
  match Prim2SF x with
  | S754_finite s m e =>
      if PrimFloat.leb 1e21%float (PrimFloat.abs x) then x
      else
        let scale := 10 ^ digits in
        let num := if 0 <=? e then Zpos m * 2 ^ e * scale else Zpos m * scale in
        let den := if 0 <=? e then 1 else 2 ^ (- e) in
        let n := (2 * num + den) / (2 * den) in
        match n, scale with
        | Zpos pn, Zpos ps =>
            let r := Q2float pn ps in if s then PrimFloat.opp r else r
        | _, _ => 0%float
        end
  | S754_zero _ => 0%float
  | _ => x
  end.

(** [Math.round]: the nearest integer, a tie going up. *)
Definition Math_round (x : float) : float :=
  match Prim2SF x with
  | S754_finite s m e =>
      if 0 <=? e then x
      else
        let v := if s then Zneg m else Zpos m in
        Z2float ((2 * v + 2 ^ (- e)) / (2 * 2 ^ (- e)))
  | _ => x
  end.

(** ASCII part of [String.prototype.toUpperCase]. *)
Definition upper_ascii (c : ascii) : ascii :=
  let n := nat_of_ascii c in
  if (Nat.leb 97 n && Nat.leb n 122)%bool then ascii_of_nat (n - 32) else c.

Fixpoint toUpperCase (s : string) : string :=
  match s with
  | EmptyString => EmptyString
  | String c r => String (upper_ascii c) (toUpperCase r)
  end.

Definition is_upper (c : ascii) : bool :=
  let n := nat_of_ascii c in (Nat.leb 65 n && Nat.leb n 90)%bool.

(** The rest of [s] after its longest run of capital letters, with the
    length of the run. *)
Fixpoint skip_upper (s : string) : nat * string :=
  match s with
  | String c r =>
      if is_upper c then let '(k, t) := skip_upper r in (S k, t) else (O, s)
  | EmptyString => (O, s)
  end.

(** [s.replace(/^[A-Z]+:/, '')]. *)
Definition strip_exchange_prefix (s : string) : string :=
  match skip_upper s with
  | (S _, String ":" rest) => rest
  | _ => s
  end.

(** [s.includes(sub)]. *)
Fixpoint includes (sub s : string) : bool :=
  String.prefix sub s ||
  match s with
  | EmptyString => false
  | String _ r => includes sub r
  end.

(** [list.includes(s)] on an array of strings. *)
Definition array_includes (l : list string) (s : string) : bool :=
  bool_decide (s ∈ l).

End Js.

(** ** Instrument specifications and price levels (src/server.ts) *)

Module Instruments.
Import Js.
Local Open Scope float_scope.

Inductive InstrumentType := index | forex.

Record InstrumentSpecs := {
  type : InstrumentType;
  pipValue : float;
  minDistance : float;
  decimals : Z;
  minTPDistance : float;
  minSLDistance : float
}.

Definition forexPairs : list string :=
  ["EURUSD"; "GBPUSD"; "USDJPY"; "AUDUSD"; "USDCAD"; "NZDUSD"; "EURGBP"; "EURJPY"; "GBPJPY"]%string.

Definition indices : list string :=
  ["US100"; "US30"; "NAS100"; "SPX500"; "GER40"; "UK100"; "JPN225"; "US500"; "TECH100"]%string.

Definition getInstrumentSpecs (symbol : string) : InstrumentSpecs :=
  let cleanSymbol := toUpperCase (strip_exchange_prefix symbol) in
  if array_includes indices cleanSymbol then
    {| type := index; pipValue := 1; minDistance := 20; decimals := 1;
       minTPDistance := 20; minSLDistance := 20 |}
  else if array_includes forexPairs cleanSymbol then
    let isJPYPair := includes "JPY" cleanSymbol in
    {| type := forex;
       pipValue := if isJPYPair then 0.01 else 0.0001;
       minDistance := if isJPYPair then 0.1 else 0.001;
       decimals := if isJPYPair then 3%Z else 5%Z;
       minTPDistance := 10; minSLDistance := 10 |}
  else
    {| type := forex; pipValue := 0.0001; minDistance := 0.001; decimals := 5;
       minTPDistance := 10; minSLDistance := 10 |}.

Definition isBuy (side : string) : bool :=
  bool_decide (side = "BUY"%string) || bool_decide (side = "B"%string).

Record PriceLevels := {
  takeProfitPrice : float;
  stopLossPrice : option float
}.

Definition calculatePriceLevels (side : string) (entryPrice takeProfitPips : float)
    (stopLossPips : option float) (specs : InstrumentSpecs) : PriceLevels :=
  let tp0 :=
    if isBuy side then entryPrice + takeProfitPips * pipValue specs
    else entryPrice - takeProfitPips * pipValue specs in
  let sl0 :=
    match stopLossPips with
    | Some sl =>
        if truthy sl then
          Some (if isBuy side then entryPrice - sl * pipValue specs
                else entryPrice + sl * pipValue specs)
        else None
    | None => None
    end in
  let fmt (p : float) : float :=
    match type specs with
    | index => Math_round (p * 10) / 10
    | forex => toFixed_number p (decimals specs)
    end in
  {| takeProfitPrice := fmt tp0;
     stopLossPrice :=
       match sl0 with
       | Some p => if truthy p then Some (fmt p) else Some p
       | None => None
       end |}.

(** The [error] texts of [validatePriceLevels]; the two distance errors keep
    the measured distance and the minimum that the text prints. *)
Inductive PriceError :=
| TPDistanceBelowMinimum (tpDistance minRequired : float)
| SLDistanceBelowMinimum (slDistance minRequired : float)
| BuyTPMustBeAboveEntry
| BuySLMustBeBelowEntry
| SellTPMustBeBelowEntry
| SellSLMustBeAboveEntry.

Inductive Validation := Valid | Invalid (error : PriceError).

Definition validatePriceLevels (side : string) (entryPrice takeProfitPrice : float)
    (stopLossPrice : option float) (specs : InstrumentSpecs) : Validation :=
  let tpDistance := abs (takeProfitPrice - entryPrice) / pipValue specs in
  let slDistance :=
    match stopLossPrice with
    | Some p => if truthy p then Some (abs (p - entryPrice) / pipValue specs) else None
    | None => None
    end in
  let minRequired := match type specs with index => 20 | forex => 10 end in
  if tpDistance <? minRequired then Invalid (TPDistanceBelowMinimum tpDistance minRequired)
  else if match slDistance with Some d => d <? minRequired | None => false end
  then Invalid (SLDistanceBelowMinimum (default 0 slDistance) minRequired)
  else if isBuy side then
    if takeProfitPrice <=? entryPrice then Invalid BuyTPMustBeAboveEntry
    else if match stopLossPrice with
            | Some p => truthy p && (entryPrice <=? p)
            | None => false
            end
    then Invalid BuySLMustBeBelowEntry
    else Valid
  else
    if entryPrice <=? takeProfitPrice then Invalid SellTPMustBeBelowEntry
    else if match stopLossPrice with
            | Some p => truthy p && (p <=? entryPrice)
            | None => false
            end
    then Invalid SellSLMustBeAboveEntry
    else Valid.

End Instruments.

(** ** Trading sessions (src/database.ts, src/server.ts and src/utils.ts) *)

Module Sessions.

Inductive Session := asia_session | london_session | new_york_session | limbo_session.

Definition msPerHour : Z := 3600000.

(** A [Date] holds a time value only within 8.64e15 ms of the epoch; outside
    it is the invalid date, whose getters return [NaN]. *)
Definition maxTimeValue : Z := 8640000000000000.

Definition timeClip (t : Z) : option Z :=
  if Z.abs t <=? maxTimeValue then Some t else None.

(** The time value of [new Date(timestamp)], [None] for the invalid date.
    The timestamp is a number read from a record of the broker or of the
    database: [None] stands for one that is missing or [NaN]. *)
Definition newDate (timestamp : option Z) : option Z :=
  match timestamp with
  | Some t => timeClip t
  | None => None
  end.

(** [Date.prototype.getUTCHours] of a valid time value. *)
Definition getUTCHours (t : Z) : Z := (t / msPerHour) mod 24.

(** [getCurrentTradingSession] of src/database.ts, the resolution used by the
    live trading gate; [now] is the time value of [new Date()]. *)
Definition getCurrentTradingSession (now : Z) : option Session :=
  let utcHour := getUTCHours now in
  if (6 <=? utcHour) && (utcHour <? 14) then Some london_session
  else if (12 <=? utcHour) && (utcHour <? 20) then Some new_york_session
  else if (2 <=? utcHour) && (utcHour <? 8) then Some limbo_session
  else if (22 <=? utcHour) || (utcHour <? 6) then Some asia_session
  else None.

(** The resolution used by the statistics: the function
    [getTradingSessionForTimestamp] that the handler of the statistics
    endpoint of src/server.ts declares for itself and applies to the open
    time of every closed order.  It returns the name of a session or
    ["unknown_session"].  For the invalid date [hours] is [NaN], every
    comparison is false and the last branch is taken.  (The function of the
    same name at the top level of src/server.ts is hidden by this one in the
    handler and is called nowhere else.) *)
Module Statistics.

Inductive SessionName := known (s : Session) | unknown_session.

Definition getTradingSessionForTimestamp (timestamp : option Z) : SessionName :=
  match newDate timestamp with
  | None => unknown_session
  | Some date =>
      let hours := getUTCHours date - 3 in
      let adjustedHours := if hours <? 0 then hours + 24 else hours in
      if (21 <=? adjustedHours) || (adjustedHours <? 5) then known asia_session
      else if (5 <=? adjustedHours) && (adjustedHours <? 10) then known london_session
      else if (10 <=? adjustedHours) && (adjustedHours <? 18) then known new_york_session
      else if (18 <=? adjustedHours) && (adjustedHours <? 21) then known limbo_session
      else unknown_session
  end.

End Statistics.

Definition etOffset : Z := -5 * 60 * 60 * 1000.

(** [getTradingSessionForTimestamp] as src/utils.ts exports it.  No module
    of the program imports it: it is a third set of hour bands, used by
    nothing.  [!timestamp] holds of a missing timestamp, of [NaN] and of 0;
    a comparison with the [NaN] hour of an invalid date is false, so every
    branch is skipped and the result is [null]. *)
Module Utils.

Definition getTradingSessionForTimestamp (timestamp : option Z) : option Session :=
  match timestamp with
  | None => None
  | Some timestamp =>
      if timestamp =? 0 then None
      else
        match timeClip timestamp with
        | None => None
        | Some t =>
            match timeClip (t + etOffset) with
            | None => None
            | Some et =>
                let hours := getUTCHours et in
                if (17 <=? hours) || (hours <? 1) then Some asia_session
                else if (1 <=? hours) && (hours <? 6) then Some london_session
                else if (6 <=? hours) && (hours <? 14) then Some new_york_session
                else if (14 <=? hours) && (hours <? 17) then Some limbo_session
                else None
            end
        end
  end.

End Utils.

(** The hour bands that the comments of [getCurrentTradingSession] give to
    the four sessions, as predicates on the UTC hour. *)
Definition gate_window (s : Session) (h : Z) : bool :=
  match s with
  | london_session => (6 <=? h) && (h <? 14)
  | new_york_session => (12 <=? h) && (h <? 20)
  | limbo_session => (2 <=? h) && (h <? 8)
  | asia_session => (22 <=? h) || (h <? 6)
  end.

End Sessions.

(** ** Market-data connection manager (src/utils/webSocketManager.ts) *)

Module Quotes.
Import Js.

(** A JavaScript [Map] with string keys iterates in insertion order: [set] on
    a present key keeps its place, [delete] followed by [set] moves it to the
    end. *)
Definition JsMap (V : Type) : Type := list (string * V).

Fixpoint map_get {V} (m : JsMap V) (k : string) : option V :=
match m with
| [] => None
| (k', v) :: r => if bool_decide (k' = k) then Some v else map_get r k
end.

Fixpoint map_set {V} (m : JsMap V) (k : string) (v : V) : JsMap V :=
match m with
| [] => [(k, v)]
| (k', v') :: r => if bool_decide (k' = k) then (k, v) :: r else (k', v') :: map_set r k v
end.

Fixpoint map_delete {V} (m : JsMap V) (k : string) : JsMap V :=
match m with
| [] => []
| (k', v') :: r => if bool_decide (k' = k) then r else (k', v') :: map_delete r k
end.

Definition map_values {V} (m : JsMap V) : list V := map snd m.

(** A stored quote and the market data made of it.  The timestamp is the
    number that [handleMessage] makes of the field [t] of the feed, which it
    does not check: [NaN] when the message had none. *)
Record Quote := {
  q_bid : float;
  q_ask : float;
  q_timestamp : float
}.

Record MarketData := {
  symbol : string;
  bid : float;
  ask : float;
  timestamp : float;
  isStale : bool
}.

(** [ws_open] is [ws.readyState === WebSocket.OPEN]; [disconnectAt] is the
    expiry of the pending [disconnectTimer], if one is set. *)
Record ConnectionInfo := {
  ws_open : bool;
  symbols : gset string;
  lastActivity : Z;
  requestId : Z;
  quotes : gmap string Quote;
  disconnectAt : option Z;
  createdAt : Z;
  reconnectCount : Z
}.

(** The first element [d[0]] of a quote message of the feed, as the JSON
    text of the message gives it.  A field that is missing, or that holds no
    number, is [NaN] here: an [undefined] value is falsy as [NaN] is, and the
    arithmetic and the comparisons of the program turn it into [NaN]. *)
Record FeedQuote := {
  fq_s : string;
  fq_b : float;
  fq_a : float;
  fq_t : float
}.

(** What the network answers at an [await]: the outcome of opening a socket,
    and what ends a wait for a quote.  [QuoteEvent elapsed own q] is the first
    [quoteUpdate] event for the awaited symbol, [elapsed] ms into the wait,
    emitted by the waiting connection itself ([own]) or by another one. *)
Inductive Response :=
| Opened (elapsed : Z)
| OpenFailed (elapsed : Z)
| OpenTimedOut
| QuoteEvent (elapsed : Z) (own : bool) (q : FeedQuote)
| NoQuote.

Inductive Error :=
| WebSocketConnectionTimeout
| WebSocketError
| FailedToEstablish (maxRetries : nat) (lastError : option Error)
| ReceivedStaleQuote (sym : string) (age : float)
| ConnectionNotHealthy (sym : string)
| TimeoutWaitingForQuote (sym : string) (timeout : Z)
| FailedToGetMarketData (sym : string) (maxRetries : nat) (lastError : option Error).

(** The manager object together with the clock and the responses still to
    come. *)
Record Manager := {
  connections : JsMap ConnectionInfo;
  totalReconnects : Z;
  now : Z;
  script : list Response
}.

Definition CONNECTION_TIMEOUT : Z := 30000.
Definition PRICE_STALE_THRESHOLD : Z := 10000.
Definition MAX_CONNECTION_RETRIES : nat := 3.
Definition MAX_ORDER_RETRIES : nat := 3.
Definition CONNECTION_RETRY_DELAY_BASE : Z := 1000.
Definition QUOTE_TIMEOUT : Z := 8000.
Definition OPEN_TIMEOUT : Z := 10000.

(** An asynchronous method: it returns, throws, or finds that the script of
    responses has no fitting answer left. *)
Inductive Outcome (A : Type) :=
| Returned (a : A)
| Thrown (e : Error)
| ScriptEnded.
Arguments Returned {A} a.
Arguments Thrown {A} e.
Arguments ScriptEnded {A}.

Definition M (A : Type) : Type := Manager -> Outcome A * Manager.

Definition ret {A} (a : A) : M A := fun w => (Returned a, w).
Definition throw {A} (e : Error) : M A := fun w => (Thrown e, w).
Definition bind {A B} (m : M A) (k : A -> M B) : M B :=
fun w => match m w with
         | (Returned a, w') => k a w'
         | (Thrown e, w') => (Thrown e, w')
         | (ScriptEnded, w') => (ScriptEnded, w')
         end.
Definition try_catch {A} (m : M A) (handler : Error -> M A) : M A :=
fun w => match m w with
         | (Thrown e, w') => handler e w'
         | r => r
         end.

Declare Scope mgr_scope.
Delimit Scope mgr_scope with mgr.
Notation "'let*' x ':=' m 'in' k" := (bind m (fun x => k))
  (at level 10, x name, m at level 100, k at level 200) : mgr_scope.
Notation "m ';;' k" := (bind m (fun _ => k))
  (at level 100, k at level 200, right associativity) : mgr_scope.
Local Open Scope mgr_scope.

Definition Date_now : M Z := fun w => (Returned (now w), w).

Definition elapse (ms : Z) : M unit :=
fun w => (Returned tt, {| connections := connections w; totalReconnects := totalReconnects w;
                          now := now w + ms; script := script w |}).

(** [await new Promise(resolve => setTimeout(resolve, delay))]. *)
Definition sleep (delay : Z) : M unit := elapse delay.

Definition next_response : M Response :=
fun w => match script w with
         | [] => (ScriptEnded, w)
         | r :: rest => (Returned r, {| connections := connections w;
                                         totalReconnects := totalReconnects w;
                                         now := now w; script := rest |})
         end.

Definition get_connection (key : string) : M (option ConnectionInfo) :=
fun w => (Returned (map_get (connections w) key), w).

Definition set_connection (key : string) (c : ConnectionInfo) : M unit :=
fun w => (Returned tt, {| connections := map_set (connections w) key c;
                          totalReconnects := totalReconnects w;
                          now := now w; script := script w |}).

Definition delete_connection (key : string) : M unit :=
fun w => (Returned tt, {| connections := map_delete (connections w) key;
                          totalReconnects := totalReconnects w;
                          now := now w; script := script w |}).

Definition count_reconnect : M unit :=
fun w => (Returned tt, {| connections := connections w;
                          totalReconnects := totalReconnects w + 1;
                          now := now w; script := script w |}).

Fixpoint insert_sorted (s : string) (l : list string) : list string :=
match l with
| [] => [s]
| x :: r => if String.leb s x then s :: l else x :: insert_sorted s r
end.

(** [symbols.sort().join(",")]. *)
Definition getConnectionKey (syms : list string) : string :=
String.concat "," (foldr insert_sorted [] syms).

Definition isConnectionHealthy (t : Z) (c : ConnectionInfo) : bool :=
ws_open c && (t - lastActivity c <? CONNECTION_TIMEOUT).

(** [(Date.now() - timestamp) > this.PRICE_STALE_THRESHOLD], with [t] for
    [Date.now()]: a comparison of numbers, which is false when the timestamp
    is [NaN]. *)
Definition isQuoteStale (t : Z) (quote_timestamp : float) : bool :=
(Z2float PRICE_STALE_THRESHOLD <? Z2float t - quote_timestamp)%float.

Definition cleanupConnection (c : ConnectionInfo) : ConnectionInfo :=
{| ws_open := ws_open c; symbols := ∅; lastActivity := lastActivity c;
   requestId := requestId c; quotes := ∅; disconnectAt := None;
   createdAt := createdAt c; reconnectCount := reconnectCount c |}.

Definition closeConnection (c : ConnectionInfo) : ConnectionInfo :=
cleanupConnection
  {| ws_open := false; symbols := symbols c; lastActivity := lastActivity c;
     requestId := requestId c; quotes := quotes c; disconnectAt := None;
     createdAt := createdAt c; reconnectCount := reconnectCount c |}.

Definition resetDisconnectTimer (t : Z) (c : ConnectionInfo) : ConnectionInfo :=
{| ws_open := ws_open c; symbols := symbols c; lastActivity := lastActivity c;
   requestId := requestId c; quotes := quotes c;
   disconnectAt := Some (t + CONNECTION_TIMEOUT);
   createdAt := createdAt c; reconnectCount := reconnectCount c |}.

(** Two requests are sent: the subscription and the last-price request. *)
Definition subscribeToSymbol (c : ConnectionInfo) (sym : string) : ConnectionInfo :=
if ws_open c then
  {| ws_open := ws_open c; symbols := {[sym]} ∪ symbols c; lastActivity := lastActivity c;
     requestId := requestId c + 2; quotes := quotes c; disconnectAt := disconnectAt c;
     createdAt := createdAt c; reconnectCount := reconnectCount c |}
else c.

Definition requestFreshQuote (c : ConnectionInfo) : ConnectionInfo :=
if ws_open c then
  {| ws_open := ws_open c; symbols := symbols c; lastActivity := lastActivity c;
     requestId := requestId c + 1; quotes := quotes c; disconnectAt := disconnectAt c;
     createdAt := createdAt c; reconnectCount := reconnectCount c |}
else c.

(** [if (timestamp && timestamp < 1000000000000) timestamp = timestamp * 1000]:
    a feed timestamp below 1e12 is taken to be in seconds; [0] and [NaN] are
    falsy and stay. *)
Definition feed_timestamp (t : float) : float :=
if truthy t && (t <? 1000000000000)%float then (t * 1000)%float else t.

(** [handleMessage] on a quote message: the connection after it, and the
    [quoteUpdate] event it emits when the symbol is one of its own. *)
Definition handleMessage (t : Z) (c : ConnectionInfo) (q : FeedQuote)
  : ConnectionInfo * option (string * Quote) :=
let quote := {| q_bid := fq_b q; q_ask := fq_a q; q_timestamp := feed_timestamp (fq_t q) |} in
if bool_decide (fq_s q ∈ symbols c) then
  ({| ws_open := ws_open c; symbols := symbols c; lastActivity := t;
      requestId := requestId c; quotes := <[fq_s q := quote]> (quotes c);
      disconnectAt := disconnectAt c;
      createdAt := createdAt c; reconnectCount := reconnectCount c |},
   Some (fq_s q, quote))
else
  ({| ws_open := ws_open c; symbols := symbols c; lastActivity := t;
      requestId := requestId c; quotes := quotes c; disconnectAt := disconnectAt c;
      createdAt := createdAt c; reconnectCount := reconnectCount c |},
   None).

(** [establishConnection]: the connection record is built before the socket
    opens; on [open] every requested symbol is subscribed and the disconnect
    timer is set. *)
Definition establishConnection (syms : list string) : M ConnectionInfo :=
let* created := Date_now in
let fresh := {| ws_open := true; symbols := ∅; lastActivity := created; requestId := 0;
                quotes := ∅; disconnectAt := None; createdAt := created;
                reconnectCount := 0 |} in
let* r := next_response in
match r with
| Opened elapsed =>
    elapse elapsed ;;
    let* t := Date_now in
    ret (resetDisconnectTimer t (foldl subscribeToSymbol fresh syms))
| OpenFailed elapsed => elapse elapsed ;; throw WebSocketError
| OpenTimedOut => elapse OPEN_TIMEOUT ;; throw WebSocketConnectionTimeout
| _ => fun w => (ScriptEnded, w)
end.

(** The loop of [createConnection], entered at [attempt] with
    [maxRetries - attempt + 1 = remaining] rounds to go. *)
Fixpoint createConnection_from (remaining : nat) (attempt : Z) (maxRetries : nat)
    (syms : list string) (lastError : option Error) : M ConnectionInfo :=
match remaining with
| O => throw (FailedToEstablish maxRetries lastError)
| S remaining' =>
    try_catch (establishConnection syms)
      (fun error =>
         (if attempt <? Z.of_nat maxRetries then sleep (attempt * 2000) else ret tt) ;;
         createConnection_from remaining' (attempt + 1) maxRetries syms (Some error))
end.

Definition createConnection (syms : list string) (maxRetries : nat) : M ConnectionInfo :=
createConnection_from maxRetries 1 maxRetries syms None.

(** [existingQuote && !this.isQuoteStale(existingQuote.timestamp)]. *)
Definition freshQuote (t : Z) (c : ConnectionInfo) (sym : string) : option Quote :=
match quotes c !! sym with
| Some existingQuote =>
    if isQuoteStale t (q_timestamp existingQuote) then None else Some existingQuote
| None => None
end.

(** The listener of [waitForQuote] and its timeout: the request for a fresh
    quote is sent, then either the timeout fires or the first [quoteUpdate]
    event for [sym] arrives, which is checked for staleness on arrival. *)
Definition awaitQuoteUpdate (key : string) (c : ConnectionInfo) (sym : string) (timeout : Z)
  : M Quote :=
set_connection key (requestFreshQuote c) ;;
let* r := next_response in
match r with
| NoQuote => elapse timeout ;; throw (TimeoutWaitingForQuote sym timeout)
| QuoteEvent elapsed own q =>
    if (0 <=? elapsed) && (elapsed <? timeout) && bool_decide (fq_s q = sym)
       && (negb own || bool_decide (sym ∈ symbols c)) then
      elapse elapsed ;;
      let* t := Date_now in
      (if own then set_connection key (fst (handleMessage t (requestFreshQuote c) q))
       else ret tt) ;;
      let ts := feed_timestamp (fq_t q) in
      if isQuoteStale t ts then throw (ReceivedStaleQuote sym (Z2float t - ts)%float)
      else ret {| q_bid := fq_b q; q_ask := fq_a q; q_timestamp := ts |}
    else fun w => (ScriptEnded, w)
| _ => fun w => (ScriptEnded, w)
end.

(** [waitForQuote] on the connection [c] stored under [key]. *)
Definition waitForQuote (key : string) (c : ConnectionInfo) (sym : string) (timeout : Z)
  : M Quote :=
let* t0 := Date_now in
match freshQuote t0 c sym with
| Some existingQuote => ret existingQuote
| None =>
    if negb (isConnectionHealthy t0 c) then throw (ConnectionNotHealthy sym)
    else awaitQuoteUpdate key c sym timeout
end.

Definition toMarketData (sym : string) (q : Quote) : MarketData :=
{| symbol := sym; bid := q_bid q; ask := q_ask q; timestamp := q_timestamp q;
   isStale := false |}.

(** The connection that a round of [connectForOrder] works with: the stored
    one when it is healthy, a new one otherwise. *)
Definition ensureConnection (sym : string) : M ConnectionInfo :=
let connectionKey := getConnectionKey [sym] in
let* found := get_connection connectionKey in
let* t0 := Date_now in
match found with
| Some c =>
    if isConnectionHealthy t0 c then ret c
    else
      set_connection connectionKey (closeConnection c) ;;
      delete_connection connectionKey ;;
      let* c' := createConnection [sym] MAX_CONNECTION_RETRIES in
      set_connection connectionKey c' ;; ret c'
| None =>
    let* c' := createConnection [sym] MAX_CONNECTION_RETRIES in
    set_connection connectionKey c' ;; ret c'
end.

(** One round of the [try] block of [connectForOrder]. *)
Definition connectForOrder_try (sym : string) : M MarketData :=
let connectionKey := getConnectionKey [sym] in
let* c0 := ensureConnection sym in
let connection :=
  if bool_decide (sym ∈ symbols c0) then c0 else subscribeToSymbol c0 sym in
set_connection connectionKey connection ;;
let* t1 := Date_now in
match freshQuote t1 connection sym with
| Some existingQuote =>
    set_connection connectionKey (resetDisconnectTimer t1 connection) ;;
    ret (toMarketData sym existingQuote)
| None =>
    let* quote := waitForQuote connectionKey connection sym QUOTE_TIMEOUT in
    let* t2 := Date_now in
    if isQuoteStale t2 (q_timestamp quote)
    then throw (ReceivedStaleQuote sym (Z2float t2 - q_timestamp quote)%float)
    else
      let* after := get_connection connectionKey in
      match after with
      | Some c => set_connection connectionKey (resetDisconnectTimer t2 c)
      | None => ret tt
      end ;;
      ret (toMarketData sym quote)
end.

(** The [catch] block of [connectForOrder]: the failed connection is closed
    and forgotten, and all but the last round wait before the next one. *)
Definition connectForOrder_catch (sym : string) (attempt : Z) (maxRetries : nat) : M unit :=
let connectionKey := getConnectionKey [sym] in
let* failed := get_connection connectionKey in
match failed with
| Some c => set_connection connectionKey (closeConnection c) ;; delete_connection connectionKey
| None => ret tt
end ;;
if attempt <? Z.of_nat maxRetries then sleep (attempt * CONNECTION_RETRY_DELAY_BASE)
else ret tt.

Fixpoint connectForOrder_from (remaining : nat) (attempt : Z) (maxRetries : nat)
    (sym : string) (lastError : option Error) : M MarketData :=
match remaining with
| O => throw (FailedToGetMarketData sym maxRetries lastError)
| S remaining' =>
    try_catch (connectForOrder_try sym)
      (fun error =>
         connectForOrder_catch sym attempt maxRetries ;;
         connectForOrder_from remaining' (attempt + 1) maxRetries sym (Some error))
end.

Definition connectForOrder (sym : string) (maxRetries : nat) : M MarketData :=
connectForOrder_from maxRetries 1 maxRetries sym None.

(** [getQuoteForSymbol]: the first connection, in insertion order, that
    tracks the symbol and holds a quote that is not stale. *)
Definition getQuoteForSymbol (w : Manager) (sym : string) : option Quote :=
let usable (c : ConnectionInfo) : option Quote :=
  if bool_decide (sym ∈ symbols c) then freshQuote (now w) c sym else None in
list_find is_Some (map usable (map_values (connections w))) ≫= snd.

Definition forceReconnectForSymbol (sym : string) : M MarketData :=
let connectionKey := getConnectionKey [sym] in
let* existing := get_connection connectionKey in
match existing with
| Some c =>
    count_reconnect ;;
    set_connection connectionKey (closeConnection c) ;;
    delete_connection connectionKey
| None => ret tt
end ;;
connectForOrder sym MAX_ORDER_RETRIES.

Definition isMarketDataValid (marketData : MarketData) : bool :=
let b := bid marketData in
let a := ask marketData in
if negb (truthy b) || negb (truthy a) || (b <=? 0)%float || (a <=? 0)%float then false
else if (a <=? b)%float then false
else if negb (truthy (timestamp marketData)) || (timestamp marketData <=? 0)%float then false
else
  let spread := (a - b)%float in
  let midPrice := ((b + a) / 2)%float in
  let spreadPercentage := (spread / midPrice * 100)%float in
  if (5 <? spreadPercentage)%float then false else true.

Definition getMarketDataWithRetry (sym : string) : M MarketData :=
let* marketData := connectForOrder sym MAX_ORDER_RETRIES in
if negb (isMarketDataValid marketData) then forceReconnectForSymbol sym
else
  let* t := Date_now in
  if isStale marketData || isQuoteStale t (timestamp marketData)
  then forceReconnectForSymbol sym
  else ret marketData.

End Quotes.

(** ** Execution orchestrator: [placeTradeWithRetry] (src/server.ts) *)

Module Orchestrator.
Import Js Instruments.

(** The arguments of [placeTrade] (src/services/simplefx.ts). *)
Record TradeRequest := {
  req_side : string;
  req_amount : float;
  req_loginNumber : string;
  req_takeProfitPrice : float;
  req_stopLossPrice : option float;
  req_reality : string;
  req_symbol : string;
  req_useSecondaryApi : bool
}.

(** What [processWebhookData] reads of a successful answer:
    [data.marketOrders[0].order] and [spreadAtOpen]. *)
Record TradeResult := {
  order_id : Z;
  order_symbol : string;
  order_side : string;
  order_volume : float;
  order_openPrice : float;
  order_takeProfit : float;
  order_stopLoss : option float;
  spreadAtOpen : float
}.

(** A failed broker call: the HTTP status of the response, if there was
    one. *)
Record BrokerError := { response_status : option Z }.

Inductive Error :=
| MarketDataError (e : Quotes.Error)
| MarketPriceTooOld (sym : string)
| InvalidPriceLevels (e : PriceError)
| PlaceTradeError (e : BrokerError)
| LastErrorUndefined.

(** The answers of the two awaited collaborators at each attempt: the
    connection manager's [getMarketDataWithRetry] and the broker call
    [placeTrade]. *)
Record Environment := {
  marketDataAt : nat -> Quotes.MarketData + Quotes.Error;
  placeTradeAt : nat -> TradeRequest -> TradeResult + BrokerError
}.

Record TradeArgs := {
  side : string;
  amount : float;
  loginNumber : string;
  takeProfitPips : float;
  stopLossPips : option float;
  reality : string;
  symbol : string;
  useSecondaryApi : bool
}.

(** What an execution does to the outside, in order. *)
Inductive Action :=
| FetchMarketData (attempt : nat)
| PlaceTrade (attempt : nat) (request : TradeRequest)
| Wait (delay : Z).

(** The body of the [try] block at one attempt. *)
Definition attemptTrade (env : Environment) (args : TradeArgs) (attempt : nat)
  : (TradeResult + Error) * list Action :=
let instrumentSpecs := getInstrumentSpecs (symbol args) in
match marketDataAt env attempt with
| inr e => (inr (MarketDataError e), [FetchMarketData attempt])
| inl marketData =>
    if Quotes.isStale marketData
    then (inr (MarketPriceTooOld (symbol args)), [FetchMarketData attempt])
    else
      let entryPrice :=
        if isBuy (side args) then Quotes.ask marketData else Quotes.bid marketData in
      let levels :=
        calculatePriceLevels (side args) entryPrice (takeProfitPips args)
          (stopLossPips args) instrumentSpecs in
      match validatePriceLevels (side args) entryPrice (takeProfitPrice levels)
              (stopLossPrice levels) instrumentSpecs with
      | Invalid e => (inr (InvalidPriceLevels e), [FetchMarketData attempt])
      | Valid =>
          let request :=
            {| req_side := side args; req_amount := amount args;
               req_loginNumber := loginNumber args;
               req_takeProfitPrice := takeProfitPrice levels;
               req_stopLossPrice := stopLossPrice levels;
               req_reality := reality args; req_symbol := symbol args;
               req_useSecondaryApi := useSecondaryApi args |} in
          match placeTradeAt env attempt request with
          | inl result => (inl result, [FetchMarketData attempt; PlaceTrade attempt request])
          | inr e =>
              (inr (PlaceTradeError e), [FetchMarketData attempt; PlaceTrade attempt request])
          end
      end
end.

(** The [for] loop entered at [attempt], with [remaining] rounds to go.  After
    the loop [lastError] is thrown; it is undefined when the loop never
    ran. *)
Fixpoint placeTradeWithRetry_from (env : Environment) (args : TradeArgs)
    (maxRetries remaining attempt : nat) (lastError : option Error)
  : (TradeResult + Error) * list Action :=
match remaining with
| O => (inr (default LastErrorUndefined lastError), [])
| S remaining' =>
    match attemptTrade env args attempt with
    | (inl result, actions) => (inl result, actions)
    | (inr error, actions) =>
        let backoff :=
          if (attempt <? maxRetries)%nat then [Wait (Z.of_nat attempt * 2000)] else [] in
        let '(outcome, rest) :=
          placeTradeWithRetry_from env args maxRetries remaining' (S attempt) (Some error) in
        (outcome, actions ++ backoff ++ rest)
    end
end.

Definition placeTradeWithRetry (env : Environment) (args : TradeArgs) (maxRetries : nat)
  : (TradeResult + Error) * list Action :=
placeTradeWithRetry_from env args maxRetries maxRetries 1 None.

Definition defaultMaxRetries : nat := 3.

(** Readings of a list of actions. *)
Definition fetches (actions : list Action) : nat :=
length (omap (fun a => match a with FetchMarketData k => Some k | _ => None end) actions).


Definition placements (actions : list Action) : list (nat * TradeRequest) :=
omap (fun a => match a with PlaceTrade k r => Some (k, r) | _ => None end) actions.



End Orchestrator.

(** ** Durable tables and the duplicate lookup (src/database.ts) *)

Module Database.

Record ProcessedRow := {
  alert_id : string;
  account_number : string;
  processed_at : Z
}.

(** The columns of [sfx_historical_orders] that the pipeline reads back. *)
Record OrderRow := {
  order_id : Z;
  order_login : string;
  order_alert_id : string;
  order_symbol : string;
  order_side : string
}.

Record Tables := {
  processed_webhook_ids : list ProcessedRow;
  sfx_historical_orders : list OrderRow
}.

(** A template literal prints an undefined value as ["undefined"]. *)
Definition interpolate (v : option string) : string := default "undefined"%string v.

(** [`${alertId}_${login}`]: the [alertId] field that [processWebhookData]
    gives to the order it stores, and the key of the in-memory set of
    processed ids. *)
Definition alertKey (alertId : option string) (login : string) : string :=
(interpolate alertId +:+ "_" +:+ login)%string.

(** [SELECT * FROM processed_webhook_ids WHERE alert_id = ? AND account_number = ?];
    an undefined parameter is bound as [NULL], which equals nothing. *)
Definition selectProcessed (tables : Tables) (alertId : option string) (loginNumber : string)
  : option ProcessedRow :=
match alertId with
| Some a =>
    snd <$> list_find
      (fun row => alert_id row = a /\ account_number row = loginNumber)
      (processed_webhook_ids tables)
| None => None
end.

(** [SELECT * FROM sfx_historical_orders WHERE alert_id = ? AND login = ?]. *)
Definition selectOrder (tables : Tables) (alertId : option string) (loginNumber : string)
  : option OrderRow :=
match alertId with
| Some a =>
    snd <$> list_find
      (fun row => order_alert_id row = a /\ order_login row = loginNumber)
      (sfx_historical_orders tables)
| None => None
end.

(** [orderExistsWithAlertId]; [available] tells whether the database answers,
    and on an error the function returns [false]. *)
Definition orderExistsWithAlertId (available : bool) (tables : Tables)
    (alertId : option string) (loginNumber : string) : bool :=
if available then
  match selectProcessed tables alertId loginNumber with
  | Some _ => true
  | None =>
      match selectOrder tables alertId loginNumber with
      | Some _ => true
      | None => false
      end
  end
else false.

(** [INSERT OR IGNORE INTO processed_webhook_ids]: the pair is unique. *)
Definition insertProcessed (tables : Tables) (alertId loginNumber : string) (t : Z) : Tables :=
match selectProcessed tables (Some alertId) loginNumber with
| Some _ => tables
| None =>
    {| processed_webhook_ids :=
         processed_webhook_ids tables ++
         [{| alert_id := alertId; account_number := loginNumber; processed_at := t |}];
       sfx_historical_orders := sfx_historical_orders tables |}
end.

(** [INSERT INTO sfx_historical_orders ... ON CONFLICT(order_id) DO UPDATE]. *)
Definition upsertOrder (tables : Tables) (row : OrderRow) : Tables :=
{| processed_webhook_ids := processed_webhook_ids tables;
   sfx_historical_orders :=
     if bool_decide (Exists (fun r => order_id r = order_id row) (sfx_historical_orders tables))
     then map (fun r => if bool_decide (order_id r = order_id row) then row else r)
              (sfx_historical_orders tables)
     else sfx_historical_orders tables ++ [row] |}.

(** Rows by [processed_at], latest first; of two rows with the same time the
    earlier row of the table comes first. *)
Fixpoint insertByRecency (row : ProcessedRow) (sorted : list ProcessedRow) : list ProcessedRow :=
match sorted with
| [] => [row]
| r :: rest =>
    if processed_at r <? processed_at row then row :: sorted
    else r :: insertByRecency row rest
end.

Definition byRecency (rows : list ProcessedRow) : list ProcessedRow :=
foldl (fun sorted row => insertByRecency row sorted) [] rows.

Definition sameRow (r1 r2 : ProcessedRow) : bool :=
bool_decide (alert_id r1 = alert_id r2) && bool_decide (account_number r1 = account_number r2).

(** [DELETE FROM processed_webhook_ids WHERE rowid NOT IN (SELECT rowid ...
    ORDER BY processed_at DESC LIMIT 500)]. *)
Definition keepMostRecent (limit : nat) (tables : Tables) : Tables :=
let kept := take limit (byRecency (processed_webhook_ids tables)) in
{| processed_webhook_ids :=
     List.filter (fun r => existsb (sameRow r) kept) (processed_webhook_ids tables);
   sfx_historical_orders := sfx_historical_orders tables |}.

(** [DELETE FROM processed_webhook_ids WHERE processed_at < ?]. *)
Definition deleteOlderThan (cutoff : Z) (tables : Tables) : Tables :=
{| processed_webhook_ids :=
     List.filter (fun r => negb (processed_at r <? cutoff)) (processed_webhook_ids tables);
   sfx_historical_orders := sfx_historical_orders tables |}.

(** [rows.map(row => `${row.alert_id}_${row.account_number}`)] of the whole
    table. *)
Definition processedKeys (tables : Tables) : list string :=
map (fun row => alertKey (Some (alert_id row)) (account_number row))
    (processed_webhook_ids tables).

Arguments upsertOrder : simpl never.
Arguments insertProcessed : simpl never.
Arguments keepMostRecent : simpl never.
Arguments deleteOlderThan : simpl never.
Arguments orderExistsWithAlertId : simpl never.

End Database.

(** ** Webhook queue (src/utils/webhookQueue.ts) and webhook processing
    (src/server.ts) *)

Module Pipeline.
Import Js Instruments Sessions Database.

(** The two constants of src/config.ts that the pipeline reads; the file is
    not part of the repository. *)
Record Config := {
  DEFAULT_ACCOUNT_NUMBER : string;
  SECONDARY_API_ACCOUNTS : list string
}.

(** The fields of the webhook payload, under their one-letter names: action,
    take profit, stop loss, login, size, maximal size, reality, symbol and
    alert id.  A field that the payload lacks is [None]. *)
Record AlertData := {
  d_a : option string;
  d_t : option float;
  d_s : option float;
  d_l : option string;
  d_z : option float;
  d_m : option float;
  d_r : option float;
  d_sy : option string;
  d_id : option string
}.

(** A string is truthy unless it is undefined or empty. *)
Definition present (s : option string) : option string :=
match s with
| Some EmptyString => None
| other => other
end.

(** Strict equality [===] of two optional numbers. *)
Definition sameNumber (x y : option float) : bool :=
match x, y with
| None, None => true
| Some u, Some v => PrimFloat.eqb u v
| _, _ => false
end.

Definition showZ (z : Z) : string := DecimalString.NilZero.string_of_int (Z.to_int z).

Record WebhookJob := {
  job_id : string;
  job_data : AlertData;
  job_timestamp : Z;
  job_retries : nat;
  job_accountNumber : string
}.

(** A started listener of the [processWebhook] event: a call of
    [processWebhookData] that settles the promise numbered [task_promise]. *)
Record Task := {
  task_promise : nat;
  task_data : AlertData
}.

(** A request to [/webhook] that has read the database and not yet looked at
    the queue. *)
Record Handler := {
  h_data : AlertData;
  h_login : string;
  h_alertId : string
}.

Record State := {
  config : Config;
  clock : Z;
  tables : Tables;
  processedIds : list string;
  queue : list WebhookJob;
  processing : bool;
  awaited : option (nat * WebhookJob);
  listeners : list Task;
  timers : list (Z * WebhookJob);
  handlers : list Handler;
  pendingOrders : gmap string (gset string);
  promises : nat
}.

Definition set_clock (v : Z) (st : State) : State :=
{| config := config st; clock := v; tables := tables st; processedIds := processedIds st;
   queue := queue st; processing := processing st; awaited := awaited st;
   listeners := listeners st; timers := timers st; handlers := handlers st;
   pendingOrders := pendingOrders st; promises := promises st |}.

Definition set_tables (v : Tables) (st : State) : State :=
{| config := config st; clock := clock st; tables := v; processedIds := processedIds st;
   queue := queue st; processing := processing st; awaited := awaited st;
   listeners := listeners st; timers := timers st; handlers := handlers st;
   pendingOrders := pendingOrders st; promises := promises st |}.

Definition set_processedIds (v : list string) (st : State) : State :=
{| config := config st; clock := clock st; tables := tables st; processedIds := v;
   queue := queue st; processing := processing st; awaited := awaited st;
   listeners := listeners st; timers := timers st; handlers := handlers st;
   pendingOrders := pendingOrders st; promises := promises st |}.

Definition set_queue (v : list WebhookJob) (st : State) : State :=
{| config := config st; clock := clock st; tables := tables st; processedIds := processedIds st;
   queue := v; processing := processing st; awaited := awaited st;
   listeners := listeners st; timers := timers st; handlers := handlers st;
   pendingOrders := pendingOrders st; promises := promises st |}.

Definition set_processing (v : bool) (st : State) : State :=
{| config := config st; clock := clock st; tables := tables st; processedIds := processedIds st;
   queue := queue st; processing := v; awaited := awaited st;
   listeners := listeners st; timers := timers st; handlers := handlers st;
   pendingOrders := pendingOrders st; promises := promises st |}.

Definition set_awaited (v : option (nat * WebhookJob)) (st : State) : State :=
{| config := config st; clock := clock st; tables := tables st; processedIds := processedIds st;
   queue := queue st; processing := processing st; awaited := v;
   listeners := listeners st; timers := timers st; handlers := handlers st;
   pendingOrders := pendingOrders st; promises := promises st |}.

Definition set_listeners (v : list Task) (st : State) : State :=
{| config := config st; clock := clock st; tables := tables st; processedIds := processedIds st;
   queue := queue st; processing := processing st; awaited := awaited st;
   listeners := v; timers := timers st; handlers := handlers st;
   pendingOrders := pendingOrders st; promises := promises st |}.

Definition set_timers (v : list (Z * WebhookJob)) (st : State) : State :=
{| config := config st; clock := clock st; tables := tables st; processedIds := processedIds st;
   queue := queue st; processing := processing st; awaited := awaited st;
   listeners := listeners st; timers := v; handlers := handlers st;
   pendingOrders := pendingOrders st; promises := promises st |}.

Definition set_handlers (v : list Handler) (st : State) : State :=
{| config := config st; clock := clock st; tables := tables st; processedIds := processedIds st;
   queue := queue st; processing := processing st; awaited := awaited st;
   listeners := listeners st; timers := timers st; handlers := v;
   pendingOrders := pendingOrders st; promises := promises st |}.

Definition set_pendingOrders (v : gmap string (gset string)) (st : State) : State :=
{| config := config st; clock := clock st; tables := tables st; processedIds := processedIds st;
   queue := queue st; processing := processing st; awaited := awaited st;
   listeners := listeners st; timers := timers st; handlers := handlers st;
   pendingOrders := v; promises := promises st |}.

Definition set_promises (v : nat) (st : State) : State :=
{| config := config st; clock := clock st; tables := tables st; processedIds := processedIds st;
   queue := queue st; processing := processing st; awaited := awaited st;
   listeners := listeners st; timers := timers st; handlers := handlers st;
   pendingOrders := pendingOrders st; promises := v |}.

(** [Set.prototype.add] on a set kept in insertion order, and [new Set(array)]. *)
Definition setAdd (k : string) (ids : list string) : list string :=
if bool_decide (k ∈ ids) then ids else ids ++ [k].

Definition setOf (keys : list string) : list string :=
foldl (fun ids k => setAdd k ids) [] keys.

(** The server after start-up, before any request: the set of processed ids
    has been loaded from the table. *)
Definition initial (cfg : Config) (t0 : Z) (db : Tables) : State :=
{| config := cfg; clock := t0; tables := db; processedIds := setOf (processedKeys db);
   queue := []; processing := false; awaited := None; listeners := []; timers := [];
   handlers := []; pendingOrders := ∅; promises := 0 |}.

(** *** The queue *)

Definition maxRetries : nat := 3.
Definition retryDelay : Z := 2000.
Definition duplicateWindow : Z := 30000.
Definition processedIdsLimit : nat := 1000.
Definition processedIdsKept : nat := 500.

Definition checkForDuplicate (st : State) (data : AlertData) (accountNumber : string) : bool :=
let now := clock st in
match present (d_id data) with
| Some i => bool_decide (alertKey (Some i) accountNumber ∈ processedIds st)
| None => false
end
|| existsb (fun job =>
      bool_decide (d_id (job_data job) = d_id data)
      && bool_decide (job_accountNumber job = accountNumber)
      && (now - job_timestamp job <? duplicateWindow)) (queue st)
|| existsb (fun job =>
      bool_decide (job_accountNumber job = accountNumber)
      && bool_decide (d_sy (job_data job) = d_sy data)
      && bool_decide (d_a (job_data job) = d_a data)
      && sameNumber (d_z (job_data job)) (d_z data)
      && (now - job_timestamp job <? duplicateWindow)) (queue st).

(** [cleanupOldProcessedIds], inside its [try]: the table keeps its 500 most
    recent rows and the set is reloaded from it. *)
Definition cleanupOldProcessedIds (st : State) : State :=
let kept := keepMostRecent processedIdsKept (tables st) in
set_processedIds (setOf (processedKeys kept)) (set_tables kept st).

(** [storeProcessedId]; when the database does not answer, the error is
    logged and nothing is stored.  The column [alert_id] is [NOT NULL], so an
    undefined id is added to the set and its insertion fails. *)
Definition storeProcessedId (available : bool) (alertId : option string)
    (accountNumber : string) (st : State) : State :=
if available then
  let st1 := set_processedIds (setAdd (alertKey alertId accountNumber) (processedIds st)) st in
  match alertId with
  | Some a =>
      let st2 := set_tables (insertProcessed (tables st1) a accountNumber (clock st1)) st1 in
      if (processedIdsLimit <? length (processedIds st2))%nat
      then cleanupOldProcessedIds st2 else st2
  | None => st1
  end
else st.

(** [cleanupProcessedIds], run every five minutes. *)
Definition cleanupProcessedIds (available : bool) (st : State) : State :=
if available then
  let oneDayAgo := clock st - 24 * 60 * 60 * 1000 in
  let st1 := set_tables (deleteOlderThan oneDayAgo (tables st)) st in
  let st2 :=
    if (1000 <? length (processed_webhook_ids (tables st1)))%nat
    then cleanupOldProcessedIds st1 else st1 in
  set_processedIds (setOf (processedKeys (tables st2))) st2
else st.

(** The answers of the [/webhook] endpoint. *)
Inductive Answer :=
| AlertAlreadyProcessed
| DuplicateIgnored
| Queued (jobId : string).

Inductive TaskError :=
| LoginRequired
| ValidSymbolRequired
| UnsupportedSymbol (sym : string)
| InvalidPipValue
| ExclusiveModeRejected
| SessionDisabled (session : Session)
| BuyOnlyMode
| SellOnlyMode
| OrderAlreadyProcessed
| OrderAlreadyBeingProcessed
| MaxLimitReached
| OnlyOneOrderPerSide
| BrokerQueryFailed
| TradeFailed (e : Orchestrator.Error)
| NoCurrentMarketPrice
| DatabaseWriteFailed.

(** The observable history: the answers of the endpoint; a job taken from the
    queue, with the promise its listeners settle; a listener of that promise
    running [processWebhookData]; each call of the broker's order placement;
    the end of a run of [processWebhookData], without an error when the order
    was placed and stored and the alert id stored as processed; the
    [jobFailed] event. *)
Inductive Entry :=
| Answered (alertId : option string) (login : string) (answer : Answer)
| Dequeued (jobId : string) (promise : nat)
| Listener (promise : nat)
| BrokerCall (alertId : option string) (login : string) (attempt : nat) (accepted : bool)
| Finished (alertId : option string) (login : option string) (error : option TaskError)
| JobFailed (jobId : string).

(** The part of [processJob] before the event is emitted. *)
Definition markProcessed (job : WebhookJob) (ids : list string) : list string :=
match present (d_id (job_data job)) with
| Some i =>
    let ids' := setAdd (alertKey (Some i) (job_accountNumber job)) ids in
    if (processedIdsLimit <? length ids')%nat
    then drop (length ids' - processedIdsKept) ids'
    else ids'
| None => ids
end.

(** The head of the [while] loop of [processQueue]: with the queue empty the
    loop ends; otherwise the first job is taken, [processJob] marks its key
    and emits [processWebhook], which starts the two listeners that
    src/server.ts registers for the event, and the loop awaits the promise. *)
Definition whileQueue (st : State) : State * list Entry :=
match queue st with
| [] => (set_awaited None (set_processing false st), [])
| job :: rest =>
    let p := promises st in
    let started := {| task_promise := p; task_data := job_data job |} in
    (set_promises (S p)
       (set_awaited (Some (p, job))
          (set_listeners (listeners st ++ [started; started])
             (set_processedIds (markProcessed job (processedIds st))
                (set_queue rest st)))),
     [Dequeued (job_id job) p])
end.

Definition processQueue (st : State) : State * list Entry :=
if processing st || bool_decide (queue st = []) then (st, [])
else whileQueue (set_processing true st).

Definition add (data : AlertData) (accountNumber : string) (st : State)
  : string * State * list Entry :=
let now := clock st in
let jobId :=
  (default (showZ now) (present (d_id data)) +:+ "_" +:+ accountNumber +:+ "_" +:+ showZ now)%string in
let job := {| job_id := jobId; job_data := data; job_timestamp := now; job_retries := 0;
              job_accountNumber := accountNumber |} in
let st1 := set_queue (queue st ++ [job]) st in
let '(st2, entries) := if processing st1 then (st1, []) else processQueue st1 in
(jobId, st2, entries).

(** The continuation of [processQueue] when the promise [p] settles: only the
    first settlement of the awaited promise counts.  A fulfilled job has its
    id added to the set; a rejected one is pushed back after a delay that
    doubles with each retry, up to [maxRetries] times, and then reported by
    the [jobFailed] event. *)
Definition settle (p : nat) (fulfilled : bool) (st : State) : State * list Entry :=
match awaited st with
| Some (p', job) =>
    if bool_decide (p = p') then
      if fulfilled then
        whileQueue (set_processedIds (setAdd (job_id job) (processedIds st)) st)
      else if (job_retries job <? maxRetries)%nat then
        let retried := {| job_id := job_id job; job_data := job_data job;
                          job_timestamp := job_timestamp job;
                          job_retries := S (job_retries job);
                          job_accountNumber := job_accountNumber job |} in
        let due := clock st + retryDelay * 2 ^ Z.of_nat (job_retries job) in
        whileQueue (set_timers (timers st ++ [(due, retried)]) st)
      else
        let '(st1, entries) := whileQueue st in
        (st1, JobFailed (job_id job) :: entries)
    else (st, [])
| None => (st, [])
end.

(** The callback of the retry timer. *)
Definition requeue (i : nat) (st : State) : State * list Entry :=
match timers st !! i with
| Some (due, job) =>
    if due <=? clock st then
      let st1 := set_queue (queue st ++ [job]) (set_timers (delete i (timers st)) st) in
      if processing st1 then (st1, []) else processQueue st1
    else (st, [])
| None => (st, [])
end.

(** *** The [/webhook] endpoint *)

(** The handler up to its [await] of the duplicate lookup; [random] is the
    text of [Math.random()]. *)
Definition receiveWebhook (data : AlertData) (random : string) (available : bool) (st : State)
  : State * list Entry :=
let login := default (DEFAULT_ACCOUNT_NUMBER (config st)) (present (d_l data)) in
let alertId := default (showZ (clock st) +:+ "_" +:+ random)%string (present (d_id data)) in
if orderExistsWithAlertId available (tables st) (Some alertId) login
then (st, [Answered (d_id data) login AlertAlreadyProcessed])
else
  (set_handlers (handlers st ++ [{| h_data := data; h_login := login; h_alertId := alertId |}]) st,
   []).

(** The rest of the handler. *)
Definition resumeWebhook (i : nat) (st : State) : State * list Entry :=
match handlers st !! i with
| Some h =>
    let st1 := set_handlers (delete i (handlers st)) st in
    if checkForDuplicate st1 (h_data h) (h_login h)
    then (st1, [Answered (d_id (h_data h)) (h_login h) DuplicateIgnored])
    else
      let '(jobId, st2, entries) := add (h_data h) (h_login h) st1 in
      (st2, entries ++ [Answered (d_id (h_data h)) (h_login h) (Queued jobId)])
| None => (st, [])
end.

(** *** Processing of a queued webhook *)

(** [parts[parts.length - 1]] of [rawSymbol.split(":")]. *)
Fixpoint afterLastColon (s : string) : string :=
match s with
| EmptyString => EmptyString
| String c r =>
    if includes ":" r then afterLastColon r
    else if bool_decide (c = ":"%char) then r else s
end.

Definition isSpace (c : ascii) : bool :=
let n := nat_of_ascii c in (n =? 32)%nat || ((9 <=? n)%nat && (n <=? 13)%nat).

Fixpoint trimStart (s : string) : string :=
match s with
| String c r => if isSpace c then trimStart r else s
| EmptyString => EmptyString
end.

Definition reverse_string (s : string) : string :=
string_of_list_ascii (rev (list_ascii_of_string s)).

Definition trim (s : string) : string :=
reverse_string (trimStart (reverse_string (trimStart s))).

Definition supportedSymbols : list string := ["EURUSD"; "GBPUSD"; "US100"; "US500"]%string.

Definition validatePipValues (takeProfit stopLoss : option float) (sym : string)
    (specs : InstrumentSpecs) : bool :=
match takeProfit with
| None => false
| Some tp =>
    if negb (truthy tp) || (tp <=? 0)%float then false
    else if match stopLoss with Some sl => (sl <=? 0)%float | None => false end then false
    else
      let minPips :=
        if bool_decide (sym = "US100"%string) then 10%float
        else match type specs with index => 10%float | forex => 5%float end in
      if (tp <? minPips)%float then false
      else if match stopLoss with
              | Some sl => truthy sl && (sl <? minPips)%float
              | None => false
              end
      then false
      else true
end.

(** [convertTradingViewPips] passes both values through for either type of
    instrument. *)
Definition convertTradingViewPips (takeProfit : float) (stopLoss : option float)
    (specs : InstrumentSpecs) : float * option float :=
match type specs with
| index => (takeProfit, stopLoss)
| forex => (takeProfit, stopLoss)
end.

Definition isOrderPending (st : State) (loginNumber side : string) : bool :=
match pendingOrders st !! loginNumber with
| Some pendingSides => bool_decide (toUpperCase side ∈ pendingSides)
| None => false
end.

Definition addPendingOrder (loginNumber side : string) (st : State) : State :=
let pendingSides := default ∅ (pendingOrders st !! loginNumber) in
set_pendingOrders (<[loginNumber := {[toUpperCase side]} ∪ pendingSides]> (pendingOrders st)) st.

Definition removePendingOrder (loginNumber side : string) (st : State) : State :=
match pendingOrders st !! loginNumber with
| Some pendingSides =>
    let remaining := pendingSides ∖ {[toUpperCase side]} in
    if bool_decide (remaining = ∅)
    then set_pendingOrders (delete loginNumber (pendingOrders st)) st
    else set_pendingOrders (<[loginNumber := remaining]> (pendingOrders st)) st
| None => st
end.

(** A row of [account_settings]. *)
Record AccountSettings := {
  trading_mode : string;
  exclusive_mode : Z;
  asia_session_enabled : Z;
  london_session_enabled : Z;
  new_york_session_enabled : Z;
  limbo_session_enabled : Z
}.

Definition sessionSetting (settings : AccountSettings) (session : Session) : Z :=
match session with
| asia_session => asia_session_enabled settings
| london_session => london_session_enabled settings
| new_york_session => new_york_session_enabled settings
| limbo_session => limbo_session_enabled settings
end.

(** What the collaborators answer during one run of [processWebhookData]:
    the settings row, the three queries of the broker's open orders ([None]
    when the query throws), the market data and broker answers of the
    orchestrator, the quote read after the placement, and whether the
    database answers the duplicate lookup, the two order updates and the
    storing of the processed id. *)
Record TaskEnv := {
  accountSettings : AccountSettings;
  totalOpenOrders : option nat;
  lookupAvailable : bool;
  totalOpenVolume : option float;
  ordersOnSameSide : option nat;
  trading : Orchestrator.Environment;
  lastQuote : option Quotes.Quote;
  upsertAvailable : bool;
  updateMaxSizeAvailable : bool;
  storeAvailable : bool
}.

Definition brokerCalls (env : Orchestrator.Environment) (alertId : option string)
    (login : string) (actions : list Orchestrator.Action) : list Entry :=
map (fun '(k, request) =>
       BrokerCall alertId login k
         (match Orchestrator.placeTradeAt env k request with inl _ => true | inr _ => false end))
    (Orchestrator.placements actions).

(** The end of the critical section: the order is placed through
    [placeTradeWithRetry], stored, and the alert id is stored as processed.
    The column [login] of the stored order has the type [TEXT] and receives
    [Number.parseInt(login)]: the login itself when it is a decimal number
    written without sign or leading zeros, as the account numbers are. *)
Definition placeAndRecord (env : TaskEnv) (data : AlertData) (login action sym : string)
    (takeProfit : float) (stopLoss : option float) (st : State)
  : option TaskError * State * list Entry :=
let alertId := d_id data in
let st1 := addPendingOrder login action st in
let args :=
  {| Orchestrator.side := action;
     Orchestrator.amount := default PrimFloat.nan (d_z data);
     Orchestrator.loginNumber := login;
     Orchestrator.takeProfitPips := takeProfit;
     Orchestrator.stopLossPips := stopLoss;
     Orchestrator.reality := if sameNumber (d_r data) (Some 1%float) then "LIVE" else "DEMO";
     Orchestrator.symbol := sym;
     Orchestrator.useSecondaryApi := array_includes (SECONDARY_API_ACCOUNTS (config st)) login |} in
let '(outcome, actions) :=
  Orchestrator.placeTradeWithRetry (trading env) args Orchestrator.defaultMaxRetries in
let calls := brokerCalls (trading env) alertId login actions in
match outcome with
| inr e => (Some (TradeFailed e), st1, calls)
| inl result =>
    match lastQuote env with
    | None => (Some NoCurrentMarketPrice, removePendingOrder login action st1, calls)
    | Some _ =>
        if negb (upsertAvailable env) then (Some DatabaseWriteFailed, st1, calls)
        else
          let row :=
            {| order_id := Orchestrator.order_id result;
               order_login := login;
               order_alert_id := alertKey alertId login;
               order_symbol := Orchestrator.order_symbol result;
               order_side := Orchestrator.order_side result |} in
          let st2 := set_tables (upsertOrder (tables st1) row) st1 in
          if negb (updateMaxSizeAvailable env) then (Some DatabaseWriteFailed, st2, calls)
          else
            let st3 := removePendingOrder login action st2 in
            (None, storeProcessedId (storeAvailable env) alertId login st3, calls)
    end
end.

(** The checks of the critical section from the duplicate check on. *)
Definition checkAndPlace (env : TaskEnv) (data : AlertData) (login action sym : string)
    (takeProfit : float) (stopLoss : option float) (st : State)
  : option TaskError * State * list Entry :=
let size := default PrimFloat.nan (d_z data) in
let max_Size := default 0.01%float (d_m data) in
if orderExistsWithAlertId (lookupAvailable env) (tables st) (d_id data) login
then (Some OrderAlreadyProcessed, st, [])
else
  match totalOpenVolume env with
  | None => (Some BrokerQueryFailed, st, [])
  | Some openVolume =>
      let newTotalVolume := (openVolume + size)%float in
      if isOrderPending st login action then (Some OrderAlreadyBeingProcessed, st, [])
      else if (max_Size <? newTotalVolume)%float then (Some MaxLimitReached, st, [])
      else
        match ordersOnSameSide env with
        | None => (Some BrokerQueryFailed, st, [])
        | Some sameSide =>
            if (0 <? sameSide)%nat then (Some OnlyOneOrderPerSide, st, [])
            else placeAndRecord env data login action sym takeProfit stopLoss st
        end
  end.

(** The inner [try] block of [processWebhookData], entered with the lock of
    [login] held: exclusive mode, trading session and trading mode first. *)
Definition criticalSection (env : TaskEnv) (data : AlertData) (login action sym : string)
    (takeProfit : float) (stopLoss : option float) (st : State)
  : option TaskError * State * list Entry :=
let settings := accountSettings env in
let afterSession :=
  if bool_decide (trading_mode settings = "BUY_ONLY"%string)
     && negb (bool_decide (action = "B"%string))
  then (Some BuyOnlyMode, st, [])
  else if bool_decide (trading_mode settings = "SELL_ONLY"%string)
          && negb (bool_decide (action = "S"%string))
  then (Some SellOnlyMode, st, [])
  else checkAndPlace env data login action sym takeProfit stopLoss st in
let afterExclusive :=
  match getCurrentTradingSession (clock st) with
  | Some session =>
      if bool_decide (sessionSetting settings session = 1) then afterSession
      else (Some (SessionDisabled session), st, [])
  | None => afterSession
  end in
if bool_decide (exclusive_mode settings = 1) then
  match totalOpenOrders env with
  | None => (Some BrokerQueryFailed, st, [])
  | Some openOrders =>
      if (0 <? openOrders)%nat then (Some ExclusiveModeRejected, st, [])
      else afterExclusive
  end
else afterExclusive.

(** [processWebhookData], run from its start to its end: the checks of the
    payload, then the critical section under the lock of the login; the
    [catch] of the critical section removes the pending marker before the
    error is thrown on.  The lock itself, and the calls that wait for it,
    are in [Serializer] below, where a call that runs alone is shown to do
    what this function does. *)
Definition processWebhookData (env : TaskEnv) (data : AlertData) (st : State)
  : option TaskError * State * list Entry :=
let action := default "UNKNOWN"%string (present (d_a data)) in
let rawSymbol := default "EURUSD"%string (d_sy data) in
let sym :=
  trim (toUpperCase (if includes ":" rawSymbol then afterLastColon rawSymbol else rawSymbol)) in
let finish (login : option string) (error : option TaskError) (st' : State) (entries : list Entry) :=
  (error, st', entries ++ [Finished (d_id data) login error]) in
match present (d_l data) with
| None => finish None (Some LoginRequired) st []
| Some login =>
    if bool_decide (sym = EmptyString) then finish (Some login) (Some ValidSymbolRequired) st []
    else if negb (array_includes supportedSymbols sym)
    then finish (Some login) (Some (UnsupportedSymbol sym)) st []
    else
      let instrumentSpecs := getInstrumentSpecs sym in
      if negb (validatePipValues (d_t data) (d_s data) sym instrumentSpecs)
      then finish (Some login) (Some InvalidPipValue) st []
      else
        let '(takeProfit, stopLoss) :=
          convertTradingViewPips (default PrimFloat.nan (d_t data)) (d_s data) instrumentSpecs in
        match criticalSection env data login action sym takeProfit stopLoss st with
        | (Some error, st', entries) =>
            finish (Some login) (Some error) (removePendingOrder login action st') entries
        | (None, st', entries) => finish (Some login) None st' entries
        end
end.

(** *** Executions *)

Inductive Event :=
| Tick (elapsed : Z)
| Receive (data : AlertData) (random : string) (available : bool)
| Resume (i : nat)
| Run (i : nat) (env : TaskEnv)
| Fire (i : nat)
| Cleanup (available : bool).

(** A started listener runs [processWebhookData] and settles its promise. *)
Definition runTask (i : nat) (env : TaskEnv) (st : State) : State * list Entry :=
match listeners st !! i with
| Some task =>
    let st1 := set_listeners (delete i (listeners st)) st in
    let '(error, st2, entries) := processWebhookData env (task_data task) st1 in
    let '(st3, more) := settle (task_promise task) (bool_decide (error = None)) st2 in
    (st3, Listener (task_promise task) :: entries ++ more)
| None => (st, [])
end.

Definition step (st : State) (ev : Event) : State * list Entry :=
match ev with
| Tick elapsed => (if 0 <=? elapsed then set_clock (clock st + elapsed) st else st, [])
| Receive data random available => receiveWebhook data random available st
| Resume i => resumeWebhook i st
| Run i env => runTask i env st
| Fire i => requeue i st
| Cleanup available => (cleanupProcessedIds available st, [])
end.

Fixpoint run (st : State) (events : list Event) : State * list Entry :=
match events with
| [] => (st, [])
| ev :: rest =>
    let '(st1, entries) := step st ev in
    let '(st2, more) := run st1 rest in
    (st2, entries ++ more)
end.

(** The payload is a delivery of the signal. *)
Definition concerns (alertId login : string) (data : AlertData) : bool :=
bool_decide (d_id data = Some alertId) && bool_decide (present (d_l data) = Some login).

(** The periodic sweep, run in [st], keeps the processed id of the signal:
    its row, if the table has one, is not older than a day, and the table
    holds no more than 1000 rows that recent, so that the second deletion of
    the sweep does not run. *)
Definition sweepKeeps (alertId login : string) (st : State) : bool :=
let oneDayAgo := clock st - 24 * 60 * 60 * 1000 in
match selectProcessed (tables st) (Some alertId) login with
| Some row =>
    negb (processed_at row <? oneDayAgo)
    && (length (processed_webhook_ids (deleteOlderThan oneDayAgo (tables st))) <=? 1000)%nat
| None => true
end.

(** The signal is stored as processed, in the table and in the set. *)
Definition isStored (alertId login : string) (st : State) : bool :=
bool_decide (is_Some (selectProcessed (tables st) (Some alertId) login))
&& bool_decide (alertKey (Some alertId) login ∈ processedIds st).

(** An event that the duplicate detection of the signal can depend on: when
    it is a run of [processWebhookData] for the signal, the database answers
    its lookup, and takes its processed id unless the signal is stored
    already; when it is the periodic sweep, it keeps the processed id of the
    signal.  The other events, the runs for other signals among them, are
    under no condition. *)
Definition dependable (alertId login : string) (st : State) (ev : Event) : bool :=
match ev with
| Run i env =>
    match listeners st !! i with
    | Some task =>
        if concerns alertId login (task_data task)
        then lookupAvailable env && (storeAvailable env || isStored alertId login st)
        else true
    | None => true
    end
| Cleanup available => negb available || sweepKeeps alertId login st
| _ => true
end.

(** A state whose set of processed ids cannot grow past its limit within one
    event (an event adds three ids at most). *)
Definition roomy (st : State) : bool :=
(length (processedIds st) + 3 <=? processedIdsLimit)%nat.

(** An execution within the retention of the processed id of the signal:
    every event is dependable for it, and the set of processed ids stays
    below its limit, so that no sweep by the size of the set runs. *)
Fixpoint retained (alertId login : string) (st : State) (events : list Event) : bool :=
match events with
| [] => true
| ev :: rest =>
    dependable alertId login st ev && roomy st && retained alertId login (fst (step st ev)) rest
end.

(** *** Reading the history of a signal *)

(** The signal is stored as processed: its row is in the table and its key
    is in the set. *)
Definition stored (alertId login : string) (st : State) : Prop :=
is_Some (selectProcessed (tables st) (Some alertId) login) /\
alertKey (Some alertId) login ∈ processedIds st.

(** The run of [processWebhookData] that placed and stored the order of the
    signal. *)
Definition executed (alertId login : string) : Entry :=
Finished (Some alertId) (Some login) None.

(** An entry that is no execution of the signal: not a call of the broker
    for it, not a run for it that ends without an error, and not an answer to
    it other than one of the two duplicate answers. *)
Definition settled (alertId login : string) (e : Entry) : Prop :=
match e with
| BrokerCall a l _ _ => ~ (a = Some alertId /\ l = login)
| Finished a l error => a = Some alertId -> l = Some login -> error <> None
| Answered a l answer =>
    a = Some alertId -> l = login ->
    answer = AlertAlreadyProcessed \/ answer = DuplicateIgnored
| Dequeued _ _ | Listener _ | JobFailed _ => True
end.

(** From [st] to [st'] no processed id is lost, in the table or in the set,
    and the set gains [n] ids at most. *)
Definition grows (n : nat) (st st' : State) : Prop :=
processed_webhook_ids (tables st) ⊆ processed_webhook_ids (tables st') /\
processedIds st ⊆ processedIds st' /\
(length (processedIds st') <= length (processedIds st) + n)%nat.

End Pipeline.

(** ** Per-account serializer: [getMutex] and the lock of [processWebhookData]
    (src/server.ts) *)

Module Serializer.

(** A [Mutex] of the async-mutex package: [acquire] takes the lock when it is
    free and queues the caller otherwise; the releaser hands the lock to the
    first queued caller, or frees it when nobody waits. *)
Record Mutex := {
  locked : bool;
  waiting : list nat
}.

(** Where a call of [processWebhookData] stands with respect to the lock:
    before [getMutex], suspended in [await mutex.acquire()], inside the inner
    [try] block, or past its [finally]; [Left] keeps how the block ended,
    [None] for a normal end and the error for a rejection or an exception. *)
Inductive Phase :=
| NotStarted
| Waiting
| Critical
| Left (error : option Pipeline.TaskError).

Record Call := {
  login : string;
  phase : Phase
}.

Inductive Event :=
| Acquired (call : nat) (loginNumber : string)
| Released (call : nat) (loginNumber : string).

(** The locks of the server.  [loginMutexes] is the [Map] of that name, from
    a login to its [Mutex]; a [Mutex] is an object, known by its reference,
    and [objects] holds the state of every [Mutex] that has been created,
    under its reference.  [mutexOf] is the constant [mutex] of each call
    that has passed [getMutex]: the object whose [acquire] the call awaits
    and whose releaser it holds. *)
Record World := {
  loginMutexes : gmap string nat;
  objects : list Mutex;
  calls : list Call;
  mutexOf : gmap nat nat;
  trace : list Event
}.

(** [getMutex]: [if (!loginMutexes.has(login)) loginMutexes.set(login, new
    Mutex()); return loginMutexes.get(login)!].  The mutex of a login is
    created on first use, stored in the map, and is the same object from
    then on. *)
Definition getMutex (loginNumber : string) (w : World) : nat * World :=
match loginMutexes w !! loginNumber with
| Some mutex => (mutex, w)
| None =>
    let mutex := length (objects w) in
    (mutex,
     {| loginMutexes := <[loginNumber := mutex]> (loginMutexes w);
        objects := objects w ++ [{| locked := false; waiting := [] |}];
        calls := calls w; mutexOf := mutexOf w; trace := trace w |})
end.

Definition setPhase (i : nat) (p : Phase) (cs : list Call) : list Call :=
match cs !! i with
| Some c => <[i := {| login := login c; phase := p |}]> cs
| None => cs
end.

(** [mutex.acquire()], called by the call [i] of login [l]: the lock is
    taken at once when it is free, and the call is queued otherwise. *)
Definition Mutex_acquire (mutex : nat) (i : nat) (l : string) (w : World) : World :=
match objects w !! mutex with
| Some m =>
    if locked m then
      {| loginMutexes := loginMutexes w;
         objects := <[mutex := {| locked := true; waiting := waiting m ++ [i] |}]> (objects w);
         calls := setPhase i Waiting (calls w);
         mutexOf := mutexOf w;
         trace := trace w |}
    else
      {| loginMutexes := loginMutexes w;
         objects := <[mutex := {| locked := true; waiting := waiting m |}]> (objects w);
         calls := setPhase i Critical (calls w);
         mutexOf := mutexOf w;
         trace := trace w ++ [Acquired i l] |}
| None => w
end.

(** The releaser that [mutex.acquire()] gave to the call [i] of login [l]:
    the lock passes to the first queued call, which enters its critical
    section, or becomes free when nobody waits. *)
Definition Mutex_release (mutex : nat) (i : nat) (l : string) (w : World) : World :=
match objects w !! mutex with
| Some m =>
    match waiting m with
    | next :: rest =>
        {| loginMutexes := loginMutexes w;
           objects := <[mutex := {| locked := true; waiting := rest |}]> (objects w);
           calls := setPhase next Critical (calls w);
           mutexOf := mutexOf w;
           trace := trace w ++ Released i l ::
                    match calls w !! next with
                    | Some c => [Acquired next (login c)]
                    | None => []
                    end |}
    | [] =>
        {| loginMutexes := loginMutexes w;
           objects := <[mutex := {| locked := false; waiting := [] |}]> (objects w);
           calls := calls w;
           mutexOf := mutexOf w;
           trace := trace w ++ [Released i l] |}
    end
| None => w
end.

(** [const mutex = getMutex(login); const release = await mutex.acquire()]. *)
Definition acquire (i : nat) (w : World) : World :=
match calls w !! i with
| Some {| login := l; phase := NotStarted |} =>
    let '(mutex, w1) := getMutex l w in
    Mutex_acquire mutex i l
      {| loginMutexes := loginMutexes w1; objects := objects w1; calls := calls w1;
         mutexOf := <[i := mutex]> (mutexOf w1); trace := trace w1 |}
| _ => w
end.

(** The end of the inner [try] block, on any path: its [finally] calls
    [release()], the releaser of the mutex that the call acquired. *)
Definition leave (i : nat) (error : option Pipeline.TaskError) (w : World) : World :=
match calls w !! i with
| Some {| login := l; phase := Critical |} =>
    match mutexOf w !! i with
    | Some mutex =>
        Mutex_release mutex i l
          {| loginMutexes := loginMutexes w; objects := objects w;
             calls := setPhase i (Left error) (calls w);
             mutexOf := mutexOf w; trace := trace w |}
    | None => w
    end
| _ => w
end.

(** What the scheduler picks next: a call reaches its [acquire], or a call
    inside the critical section ends it. *)
Inductive Move :=
| Begin (call : nat)
| End_ (call : nat) (error : option Pipeline.TaskError).

Definition move (w : World) (m : Move) : World :=
match m with
| Begin i => acquire i w
| End_ i error => leave i error w
end.

Definition schedule (w : World) (moves : list Move) : World := foldl move w moves.

(** The calls of [processWebhookData] for the given logins, none started,
    with no mutex created yet. *)
Definition start (logins : list string) : World :=
{| loginMutexes := ∅;
   objects := [];
   calls := map (fun l => {| login := l; phase := NotStarted |}) logins;
   mutexOf := ∅;
   trace := [] |}.

(** Reading a trace: who holds the lock of each login.  The reading fails on
    an [Acquired] for a login whose lock is held and on a [Released] by a call
    that does not hold it. *)
Fixpoint holders (events : list Event) (held : gmap string nat) : option (gmap string nat) :=
match events with
| [] => Some held
| Acquired i l :: rest =>
    match held !! l with
    | None => holders rest (<[l := i]> held)
    | Some _ => None
    end
| Released i l :: rest =>
    if bool_decide (held !! l = Some i) then holders rest (delete l held) else None
end.

(** The state of the mutex that the map holds for a login. *)
Definition mutexFor (w : World) (l : string) : option Mutex :=
loginMutexes w !! l ≫= fun mutex => objects w !! mutex.

(** The state of the locks agrees with the calls and with the trace: the
    trace reads as a history in which the lock of each login is held by the
    one call of that login that is inside its critical section; the mutex of
    a login is locked exactly when it is held; the calls queued on it are
    distinct suspended calls of its login; a call that has left its critical
    section has released the lock; every login of the map has a mutex of its
    own among the objects; and a call that waits or is inside holds the
    mutex of its login. *)
Definition consistent (w : World) : Prop :=
exists held : gmap string nat,
  holders (trace w) ∅ = Some held /\
  (forall l i, held !! l = Some i <-> calls w !! i = Some {| login := l; phase := Critical |}) /\
  (forall l m, mutexFor w l = Some m ->
     (locked m = true <-> is_Some (held !! l)) /\
     (locked m = false -> waiting m = []) /\
     NoDup (waiting m) /\
     (forall i, i ∈ waiting m -> calls w !! i = Some {| login := l; phase := Waiting |})) /\
  (forall l, loginMutexes w !! l = None -> held !! l = None) /\
  (forall i l error, calls w !! i = Some {| login := l; phase := Left error |} ->
     Released i l ∈ trace w) /\
  (forall l mutex, loginMutexes w !! l = Some mutex -> (mutex < length (objects w))%nat) /\
  (forall l l' mutex,
     loginMutexes w !! l = Some mutex -> loginMutexes w !! l' = Some mutex -> l = l') /\
  (forall i l,
     calls w !! i = Some {| login := l; phase := Waiting |} \/
     calls w !! i = Some {| login := l; phase := Critical |} ->
     is_Some (mutexOf w !! i) /\ mutexOf w !! i = loginMutexes w !! l).

(** *** The calls of [processWebhookData] around their locks *)

(** What the checks of [processWebhookData] before [getMutex] make of a
    payload. *)
Record Accepted := {
  c_login : string;
  c_action : string;
  c_symbol : string;
  c_takeProfit : float;
  c_stopLoss : option float
}.

(** The part of [processWebhookData] before [getMutex]: the payload is
    refused with an error, which is thrown before any lock is asked for, or
    the call goes on to the lock of its login. *)
Definition checkPayload (data : Pipeline.AlertData) : option string * Pipeline.TaskError + Accepted :=
let action := default "UNKNOWN"%string (Pipeline.present (Pipeline.d_a data)) in
let rawSymbol := default "EURUSD"%string (Pipeline.d_sy data) in
let sym :=
  Pipeline.trim (Js.toUpperCase (if Js.includes ":" rawSymbol
                                 then Pipeline.afterLastColon rawSymbol else rawSymbol)) in
match Pipeline.present (Pipeline.d_l data) with
| None => inl (None, Pipeline.LoginRequired)
| Some login =>
    if bool_decide (sym = EmptyString) then inl (Some login, Pipeline.ValidSymbolRequired)
    else if negb (Js.array_includes Pipeline.supportedSymbols sym)
    then inl (Some login, Pipeline.UnsupportedSymbol sym)
    else
      let instrumentSpecs := Instruments.getInstrumentSpecs sym in
      if negb (Pipeline.validatePipValues (Pipeline.d_t data) (Pipeline.d_s data) sym
                 instrumentSpecs)
      then inl (Some login, Pipeline.InvalidPipValue)
      else
        let '(takeProfit, stopLoss) :=
          Pipeline.convertTradingViewPips (default PrimFloat.nan (Pipeline.d_t data))
            (Pipeline.d_s data) instrumentSpecs in
        inr {| c_login := login; c_action := action; c_symbol := sym;
               c_takeProfit := takeProfit; c_stopLoss := stopLoss |}
end.

(** The server with calls of [processWebhookData] in flight: the payload of
    each call, the calls that have been started, the locks, the state that
    the critical sections work on, and the history that the calls write. *)
Record Server := {
  payloads : list Pipeline.AlertData;
  started : gset nat;
  locks : World;
  state : Pipeline.State;
  history : list Pipeline.Entry
}.

(** A call runs from its start to its [await mutex.acquire()], unless the
    checks refuse its payload. *)
Definition enter (i : nat) (s : Server) : Server :=
match payloads s !! i with
| Some data =>
    if bool_decide (i ∈ started s) then s
    else
      match checkPayload data with
      | inl (login, error) =>
          {| payloads := payloads s; started := {[i]} ∪ started s; locks := locks s;
             state := state s;
             history := history s ++ [Pipeline.Finished (Pipeline.d_id data) login (Some error)] |}
      | inr _ =>
          {| payloads := payloads s; started := {[i]} ∪ started s;
             locks := acquire i (locks s);
             state := state s; history := history s |}
      end
| None => s
end.

(** A call that is inside its critical section runs it to its end: the
    inner [try] block is [Pipeline.criticalSection]; on an error the
    [catch] removes the pending marker and throws the error on; the
    [finally] releases the lock on either path.  The block is run in one
    step, on the state as it is when the block ends: what the calls of
    other logins do while it awaits the database or the broker comes
    before or after it. *)
Definition exit (i : nat) (env : Pipeline.TaskEnv) (s : Server) : Server :=
match payloads s !! i, calls (locks s) !! i with
| Some data, Some {| login := _; phase := Critical |} =>
    match checkPayload data with
    | inr c =>
        let '(error, st', entries) :=
          Pipeline.criticalSection env data (c_login c) (c_action c) (c_symbol c)
            (c_takeProfit c) (c_stopLoss c) (state s) in
        let st'' :=
          match error with
          | Some _ => Pipeline.removePendingOrder (c_login c) (c_action c) st'
          | None => st'
          end in
        {| payloads := payloads s; started := started s;
           locks := leave i error (locks s);
           state := st'';
           history := history s ++ entries
                      ++ [Pipeline.Finished (Pipeline.d_id data) (Some (c_login c)) error] |}
    | inl _ => s
    end
| _, _ => s
end.

Inductive Step :=
| Enter (call : nat)
| Exit (call : nat) (env : Pipeline.TaskEnv).

Definition step (s : Server) (st : Step) : Server :=
match st with
| Enter i => enter i s
| Exit i env => exit i env s
end.

Definition run (s : Server) (steps : list Step) : Server := foldl step s steps.

(** The login under which a call asks for its lock. *)
Definition loginOf (data : Pipeline.AlertData) : string :=
default EmptyString (Pipeline.present (Pipeline.d_l data)).

(** Calls of [processWebhookData] with the given payloads, none started, on
    the state [st]. *)
Definition submit (data : list Pipeline.AlertData) (st : Pipeline.State) : Server :=
{| payloads := data; started := ∅; locks := start (map loginOf data);
   state := st; history := [] |}.

End Serializer.

(** ** Invariants of the queue, the locks and the connections

    Predicates over the states of the models above, used to state what the
    functions keep. *)

Module Invariants.
Import Database Pipeline.

(** The pair that [processed_webhook_ids] declares [UNIQUE]. *)
Definition rowKey (row : ProcessedRow) : string * string :=
(alert_id row, account_number row).

(** The fields of the queue. *)
Definition sameQueue (st st' : State) : Prop :=
queue st' = queue st /\ processing st' = processing st /\ awaited st' = awaited st /\
timers st' = timers st.

(** The queue is busy exactly while it awaits a job, and an idle queue is
    empty; no job has been retried more often than the cap. *)
Definition orderly (st : State) : Prop :=
(processing st = true <-> is_Some (awaited st)) /\
(processing st = false -> queue st = []) /\
Forall (fun job => (job_retries job <= maxRetries)%nat) (queue st) /\
Forall (fun timer => (job_retries timer.2 <= maxRetries)%nat) (timers st) /\
(forall p job, awaited st = Some (p, job) -> (job_retries job <= maxRetries)%nat).

(** A call that is suspended in [acquire] is queued on the mutex of its
    login. *)
Definition enqueued (w : Serializer.World) : Prop :=
forall i l,
  Serializer.calls w !! i = Some {| Serializer.login := l; Serializer.phase := Serializer.Waiting |} ->
  exists m, Serializer.mutexFor w l = Some m /\ i ∈ Serializer.waiting m.

(** The calls of a server and their payloads: the locks are consistent, a
    call asks for the lock of the login of its payload, and a call that has
    passed [getMutex] has a payload that the checks let through. *)
Definition orderlyServer (s : Serializer.Server) : Prop :=
Serializer.consistent (Serializer.locks s) /\
map Serializer.login (Serializer.calls (Serializer.locks s))
= map Serializer.loginOf (Serializer.payloads s) /\
(forall i c,
   Serializer.calls (Serializer.locks s) !! i = Some c ->
   Serializer.phase c <> Serializer.NotStarted ->
   exists data acc,
     Serializer.payloads s !! i = Some data /\ Serializer.checkPayload data = inr acc).

(** A method of the connection manager that works on the connection of one
    key only: the keys of the map stay distinct, the connections under other
    keys and the count of forced reconnects stay as they are. *)
Definition confined {A} (key : string) (m : Quotes.M A) : Prop :=
forall w,
  NoDup (Quotes.connections w).*1 ->
  NoDup (Quotes.connections (m w).2).*1 /\
  (forall k, k <> key ->
     Quotes.map_get (Quotes.connections (m w).2) k = Quotes.map_get (Quotes.connections w) k) /\
  Quotes.totalReconnects (m w).2 = Quotes.totalReconnects w.

End Invariants.

(** ** Account settings (src/database.ts) and their endpoint (src/server.ts) *)

Module Settings.
Import Js.

(** A row of [account_settings]. *)
Record Row := {
  login : Z;
  trading_mode : string;
  asia_session : Z;
  london_session : Z;
  new_york_session : Z;
  limbo_session : Z;
  exclusive_mode : Z;
  last_updated : Z
}.

(** The database handle: whether it answers, and the table, keyed by its
    [INTEGER PRIMARY KEY].  A statement on a database that does not answer
    throws. *)
Record Db := {
  answers : bool;
  account_settings : gmap Z Row
}.

Definition set_rows (rows : gmap Z Row) (db : Db) : Db :=
{| answers := answers db; account_settings := rows |}.

(** What [getAccountSettings] returns: the stored row, or the object of
    default settings, which keeps the login as it was given. *)
Inductive Result :=
| Stored (row : Row)
| Defaults (loginNumber : string) (now : Z).

(** The fields of a result that [processWebhookData] reads. *)
Definition toAccountSettings (r : Result) : Pipeline.AccountSettings :=
match r with
| Stored row =>
    {| Pipeline.trading_mode := trading_mode row;
       Pipeline.exclusive_mode := exclusive_mode row;
       Pipeline.asia_session_enabled := asia_session row;
       Pipeline.london_session_enabled := london_session row;
       Pipeline.new_york_session_enabled := new_york_session row;
       Pipeline.limbo_session_enabled := limbo_session row |}
| Defaults _ _ =>
    {| Pipeline.trading_mode := "NORMAL";
       Pipeline.exclusive_mode := 0;
       Pipeline.asia_session_enabled := 1;
       Pipeline.london_session_enabled := 1;
       Pipeline.new_york_session_enabled := 1;
       Pipeline.limbo_session_enabled := 1 |}
end.

(** The row that the [INSERT] statements of [setAccountTradingMode] and
    [updateExclusiveMode] write: [VALUES (?, ?, 1, 1, 1, 1, ?, ?)]. *)
Definition newRow (k : Z) (tradingMode : string) (exclusive now : Z) : Row :=
{| login := k; trading_mode := tradingMode; asia_session := 1; london_session := 1;
   new_york_session := 1; limbo_session := 1; exclusive_mode := exclusive;
   last_updated := now |}.

(** [SET trading_mode = ?, last_updated = ?]. *)
Definition withTradingMode (tradingMode : string) (now : Z) (r : Row) : Row :=
{| login := login r; trading_mode := tradingMode; asia_session := asia_session r;
   london_session := london_session r; new_york_session := new_york_session r;
   limbo_session := limbo_session r; exclusive_mode := exclusive_mode r;
   last_updated := now |}.

(** [SET exclusive_mode = ?, last_updated = ?]. *)
Definition withExclusiveMode (exclusive now : Z) (r : Row) : Row :=
{| login := login r; trading_mode := trading_mode r; asia_session := asia_session r;
   london_session := london_session r; new_york_session := new_york_session r;
   limbo_session := limbo_session r; exclusive_mode := exclusive; last_updated := now |}.

(** The session fields of the argument of [updateSessionSettings]; an absent
    field is [None]. *)
Record SessionSettings := {
  set_asia_session : option Z;
  set_london_session : option Z;
  set_new_york_session : option Z;
  set_limbo_session : option Z
}.

(** The [SET] clause that [updateSessionSettings] builds: the fields that are
    given, and [last_updated]. *)
Definition withSessions (sessionSettings : SessionSettings) (now : Z) (r : Row) : Row :=
{| login := login r; trading_mode := trading_mode r;
   asia_session := default (asia_session r) (set_asia_session sessionSettings);
   london_session := default (london_session r) (set_london_session sessionSettings);
   new_york_session := default (new_york_session r) (set_new_york_session sessionSettings);
   limbo_session := default (limbo_session r) (set_limbo_session sessionSettings);
   exclusive_mode := exclusive_mode r; last_updated := now |}.

Section Statements.

(** The login is bound as text to a column of integer affinity: [rowid] is
    the integer that SQLite reads the text as, if it reads as one.  A
    comparison with a text that is no integer matches no row, and its
    insertion fails with a datatype mismatch. *)
Variable rowid : string -> option Z.

(** [SELECT * FROM account_settings WHERE login = ?]. *)
Definition selectSettings (db : Db) (loginNumber : string) : option Row :=
rowid loginNumber ≫= fun k => account_settings db !! k.

(** [UPDATE account_settings SET ... WHERE login = ?]. *)
Definition updateSettings (change : Row -> Row) (loginNumber : string) (db : Db) : Db :=
match rowid loginNumber with
| Some k => set_rows (alter change k (account_settings db)) db
| None => db
end.

(** [INSERT INTO account_settings (...) VALUES (?, ?, 1, 1, 1, 1, ?, ?)],
    reached only when the login has no row; [None] when it throws. *)
Definition insertSettings (loginNumber tradingMode : string) (exclusive now : Z) (db : Db)
  : option Db :=
match rowid loginNumber with
| Some k =>
    Some (set_rows (<[k := newRow k tradingMode exclusive now]> (account_settings db)) db)
| None => None
end.

Definition setAccountTradingMode (now : Z) (loginNumber tradingMode : string) (db : Db)
  : bool * Db :=
if answers db then
  match selectSettings db loginNumber with
  | None =>
      match insertSettings loginNumber tradingMode 0 now db with
      | Some db' => (true, db')
      | None => (false, db)
      end
  | Some _ =>
      (true, updateSettings (withTradingMode tradingMode now) loginNumber db)
  end
else (false, db).

Definition updateExclusiveMode (now : Z) (loginNumber : string) (enabled : bool) (db : Db)
  : bool * Db :=
if answers db then
  match selectSettings db loginNumber with
  | None =>
      match insertSettings loginNumber "NORMAL" (if enabled then 1 else 0) now db with
      | Some db' => (true, db')
      | None => (false, db)
      end
  | Some _ =>
      (true, updateSettings (withExclusiveMode (if enabled then 1 else 0) now) loginNumber db)
  end
else (false, db).

(** [getAccountSettings]: a login without a row gets one through
    [setAccountTradingMode], whose outcome is not looked at, and the default
    object is returned; so it is on an error. *)
Definition getAccountSettings (now : Z) (loginNumber : string) (db : Db) : Result * Db :=
if answers db then
  match selectSettings db loginNumber with
  | Some row => (Stored row, db)
  | None =>
      (Defaults loginNumber now, snd (setAccountTradingMode now loginNumber "NORMAL" db))
  end
else (Defaults loginNumber now, db).

(** [updateSessionSettings]: the current settings are read first, which
    creates the row of a new login; the list of updates always holds
    [last_updated], so the [UPDATE] always runs. *)
Definition updateSessionSettings (now : Z) (loginNumber : string)
    (sessionSettings : SessionSettings) (db : Db) : bool * Db :=
let db1 := snd (getAccountSettings now loginNumber db) in
if answers db1 then
  (true, updateSettings (withSessions sessionSettings now) loginNumber db1)
else (false, db1).

(** A value of the JSON body of a request; [JObject] is any object or
    array. *)
Inductive Json :=
| JNumber (x : float)
| JBoolean (b : bool)
| JString (s : string)
| JNull
| JObject.

Definition json_truthy (v : Json) : bool :=
match v with
| JNumber x => truthy x
| JBoolean b => b
| JString s => negb (bool_decide (s = EmptyString))
| JNull => false
| JObject => true
end.

(** The fields that [POST /api/account-settings/:loginNumber] reads of the
    body; a field that the body lacks is [None]. *)
Record Body := {
  body_tradingMode : option Json;
  body_exclusive_mode : option Json;
  body_asia_session : option Json;
  body_london_session : option Json;
  body_new_york_session : option Json;
  body_limbo_session : option Json
}.

Inductive Response :=
| BadRequest
| ServerError
| Settled (settings : Result).

Definition flag (v : option Json) : option Z :=
(fun x => if json_truthy x then 1 else 0) <$> v.

(** The handler of [POST /api/account-settings/:loginNumber], from its end:
    the session fields that the body holds are written as 1 or 0, and the
    settings are read back for the response. *)
Definition postSessions (now : Z) (loginNumber : string) (body : Body) (db : Db)
  : Response * Db :=
let sessionSettings :=
  {| set_asia_session := flag (body_asia_session body);
     set_london_session := flag (body_london_session body);
     set_new_york_session := flag (body_new_york_session body);
     set_limbo_session := flag (body_limbo_session body) |} in
let db1 :=
  if bool_decide (is_Some (set_asia_session sessionSettings))
     || bool_decide (is_Some (set_london_session sessionSettings))
     || bool_decide (is_Some (set_new_york_session sessionSettings))
     || bool_decide (is_Some (set_limbo_session sessionSettings))
  then snd (updateSessionSettings now loginNumber sessionSettings db)
  else db in
let '(settings, db2) := getAccountSettings now loginNumber db1 in
(Settled settings, db2).

(** [exclusive_mode === 1 || exclusive_mode === true]. *)
Definition exclusiveRequested (v : Json) : bool :=
match v with
| JNumber x => PrimFloat.eqb x 1
| JBoolean b => b
| _ => false
end.

(** Before that, the exclusive mode, when the body holds the field. *)
Definition postExclusiveMode (now : Z) (loginNumber : string) (body : Body) (db : Db)
  : Response * Db :=
match body_exclusive_mode body with
| Some v =>
    let '(success, db1) := updateExclusiveMode now loginNumber (exclusiveRequested v) db in
    if success then postSessions now loginNumber body db1 else (ServerError, db1)
| None => postSessions now loginNumber body db
end.

(** The handler: first the trading mode, when the body holds a truthy one.
    The route matches a non-empty login only. *)
Definition postAccountSettings (now : Z) (loginNumber : string) (body : Body) (db : Db)
  : Response * Db :=
match body_tradingMode body with
| Some v =>
    if json_truthy v then
      match v with
      | JString tradingMode =>
          if array_includes ["NORMAL"; "BUY_ONLY"; "SELL_ONLY"]%string tradingMode then
            let '(success, db1) := setAccountTradingMode now loginNumber tradingMode db in
            if success then postExclusiveMode now loginNumber body db1 else (ServerError, db1)
          else (BadRequest, db)
      | _ => (BadRequest, db)
      end
    else postExclusiveMode now loginNumber body db
| None => postExclusiveMode now loginNumber body db
end.

End Statements.

End Settings.

(** ** Schema of the database and its migrations (src/database.ts) *)

Module Schema.

Record Column := {
  name : string;
  type : string;
  defaultValue : option string
}.

(** The database handle: whether it answers; the tables of the file, each
    with its columns in the order of [PRAGMA table_info] (a table that does
    not exist has no entry); and the names of its indexes.  SQLite compares
    the names of tables, indexes and columns without regard to the case of
    ASCII letters: a table or an index stands here under its name in lower
    case, as every statement of the program writes it, and a column under
    its name as declared, which is what [PRAGMA table_info] returns.  The
    program creates no view, trigger or virtual table, and none is
    modelled. *)
Record Db := {
  answers : bool;
  tables : gmap string (list Column);
  indexes : gset string
}.

Definition set_tables (v : gmap string (list Column)) (db : Db) : Db :=
{| answers := answers db; tables := v; indexes := indexes db |}.

Definition set_indexes (v : gset string) (db : Db) : Db :=
{| answers := answers db; tables := tables db; indexes := v |}.

Definition column (n t : string) : Column := {| name := n; type := t; defaultValue := None |}.

Definition getExpectedColumns : list Column :=
[ column "order_id" "TEXT"; column "login" "TEXT"; column "symbol" "TEXT";
  column "side" "TEXT"; column "volume" "REAL"; column "open_price" "REAL";
  column "close_price" "REAL"; column "take_profit" "REAL"; column "stop_loss" "REAL";
  column "open_time" "INTEGER"; column "close_time" "INTEGER"; column "profit" "REAL";
  column "swap" "REAL"; column "commission" "REAL"; column "reality" "TEXT";
  column "leverage" "INTEGER"; column "margin" "REAL"; column "margin_rate" "REAL";
  column "request_id" "TEXT"; column "is_fifo" "INTEGER";
  column "ob_reference_price" "REAL"; column "real_sl_pips" "REAL";
  column "real_tp_pips" "REAL"; column "bid_at_open" "REAL"; column "ask_at_open" "REAL";
  column "spread_at_open" "REAL"; column "consider_ob_reference" "INTEGER";
  column "max_size" "REAL"; column "duration_in_minutes" "INTEGER";
  column "last_update_time" "INTEGER"; column "alert_id" "TEXT";
  {| name := "maxobalert"; type := "INTEGER"; defaultValue := Some "NULL" |};
  column "alert_threshold" "REAL"; column "diff_op_ob" "REAL"; column "timeframe" "TEXT";
  column "exchange" "TEXT"; column "findObType" "TEXT"; column "filterFvgs" "INTEGER";
  column "fvgDistance" "REAL"; column "lineHeight" "TEXT"; column "filterFractal" "TEXT"
]%string.

(** [PRAGMA table_info(tableName)]: no row for a table that does not
    exist. *)
Definition table_info (db : Db) (tableName : string) : list Column :=
default [] (tables db !! tableName).

(** [columns.some(col => col.name === columnName)]. *)
Definition hasColumn (columns : list Column) (columnName : string) : bool :=
existsb (fun col => bool_decide (name col = columnName)) columns.

(** Two names that SQLite takes for the same. *)
Definition sameName (a b : string) : bool :=
bool_decide (Js.toUpperCase a = Js.toUpperCase b).

(** The table declares a column that SQLite finds under [columnName]. *)
Definition declares (columns : list Column) (columnName : string) : bool :=
existsb (fun col => sameName (name col) columnName) columns.

(** The largest number of columns of a table, [SQLITE_MAX_COLUMN] as SQLite
    is compiled by default. *)
Definition SQLITE_MAX_COLUMN : nat := 2000.

(** [columnExists]: [false] on an error. *)
Definition columnExists (db : Db) (tableName columnName : string) : bool :=
if answers db then hasColumn (table_info db tableName) columnName else false.

(** [ALTER TABLE tableName ADD COLUMN ...]: [None] when the statement throws,
    which it does when the database does not answer, when the table does not
    exist, when the table declares a column of that name, in whatever case
    of its letters ("duplicate column name"), and when the table is full
    ("too many columns"). *)
Definition addColumn (tableName : string) (col : Column) (db : Db) : option Db :=
if answers db then
  match tables db !! tableName with
  | Some columns =>
      if declares columns (name col) then None
      else if (SQLITE_MAX_COLUMN <=? length columns)%nat then None
      else Some (set_tables (<[tableName := columns ++ [col]]> (tables db)) db)
  | None => None
  end
else None.

(** [CREATE TABLE IF NOT EXISTS]; [None] when it throws: the database does
    not answer, or no table but an index has the name. *)
Definition createTableIfNotExists (tableName : string) (columns : list Column) (db : Db)
  : option Db :=
if answers db then
  match tables db !! tableName with
  | Some _ => Some db
  | None =>
      if bool_decide (tableName ∈ indexes db) then None
      else Some (set_tables (<[tableName := columns]> (tables db)) db)
  end
else None.

(** [CREATE INDEX IF NOT EXISTS indexName ON tableName(columnNames)]; [None]
    when it throws: the database does not answer, the table does not exist,
    a table has the name of the index, or no index has the name and the
    table lacks one of the columns. *)
Definition createIndexIfNotExists (indexName tableName : string) (columnNames : list string)
    (db : Db) : option Db :=
if answers db then
  match tables db !! tableName with
  | Some columns =>
      if bool_decide (is_Some (tables db !! indexName)) then None
      else if bool_decide (indexName ∈ indexes db) then Some db
      else if forallb (declares columns) columnNames
      then Some (set_indexes ({[indexName]} ∪ indexes db) db)
      else None
  | None => None
  end
else None.

Record Validation := {
  isValid : bool;
  missingColumns : list string
}.

(** [validateDatabaseSchema]; the texts of [errors] are left out. *)
Definition validateDatabaseSchema (db : Db) : Validation :=
if answers db then
  let actualColumns := table_info db "sfx_historical_orders" in
  let missing :=
    omap (fun expectedCol =>
            if hasColumn actualColumns (name expectedCol) then None
            else Some (name expectedCol))
         getExpectedColumns in
  {| isValid := bool_decide (missing = []); missingColumns := missing |}
else {| isValid := false; missingColumns := [] |}.

(** [addMissingColumn]: whether it succeeded, and the database after it. *)
Definition addMissingColumn (tableName : string) (col : Column) (db : Db) : bool * Db :=
if columnExists db tableName (name col) then (true, db)
else
  match addColumn tableName col db with
  | Some db' => (true, db')
  | None => (false, db)
  end.

Record MigrationResult := {
  result_column : string;
  result_success : bool
}.

(** The loop of [runDatabaseMigrations] over the missing columns. *)
Fixpoint addMissingColumns (missing : list string) (db : Db) : list MigrationResult * Db :=
match missing with
| [] => ([], db)
| missingColumnName :: rest =>
    match list_find (fun col => name col = missingColumnName) getExpectedColumns with
    | None =>
        let '(results, db') := addMissingColumns rest db in
        ({| result_column := missingColumnName; result_success := false |} :: results, db')
    | Some (_, expectedCol) =>
        let '(success, db1) := addMissingColumn "sfx_historical_orders" expectedCol db in
        let '(results, db') := addMissingColumns rest db1 in
        ({| result_column := missingColumnName; result_success := success |} :: results, db')
    end
end.

(** [runDatabaseMigrations]: [success] and [results], and the database after
    it. *)
Definition runDatabaseMigrations (db : Db) : bool * list MigrationResult * Db :=
let validation := validateDatabaseSchema db in
if isValid validation then (true, [], db)
else
  let '(results, db') := addMissingColumns (missingColumns validation) db in
  (isValid (validateDatabaseSchema db'), results, db').

(** [db.exec] of several statements: they run in order and the first that
    throws ends the run, with the earlier ones done. *)
Fixpoint execAll (statements : list (Db -> option Db)) (db : Db) : bool * Db :=
match statements with
| [] => (true, db)
| statement :: rest =>
    match statement db with
    | Some db' => execAll rest db'
    | None => (false, db)
    end
end.

Definition integerDefault (n d : string) : Column :=
{| name := n; type := "INTEGER"; defaultValue := Some d |}.

(** [migrateAccountSettings]: the table is read once, before the session
    columns are added. *)
Definition migrateAccountSettings (db : Db) : bool * Db :=
if answers db then
  let tableInfo := table_info db "account_settings" in
  let '(ok, db1) :=
    if negb (hasColumn tableInfo "asia_session") then
      execAll [addColumn "account_settings" (integerDefault "asia_session" "1");
               addColumn "account_settings" (integerDefault "london_session" "1");
               addColumn "account_settings" (integerDefault "new_york_session" "1");
               addColumn "account_settings" (integerDefault "limbo_session" "1")] db
    else (true, db) in
  if ok then
    if negb (hasColumn tableInfo "exclusive_mode") then
      execAll [addColumn "account_settings" (integerDefault "exclusive_mode" "0")] db1
    else (true, db1)
  else (false, db1)
else (false, db).

Definition migrateMaxobalertColumn (db : Db) : bool * Db :=
if negb (columnExists db "sfx_historical_orders" "maxobalert") then
  match addColumn "sfx_historical_orders" (integerDefault "maxobalert" "NULL") db with
  | Some db' => (true, db')
  | None => (false, db)
  end
else (true, db).

(** The columns of the three [CREATE TABLE IF NOT EXISTS] statements of
    [initializeDatabase], with their declared types and defaults; the key
    and [NOT NULL] constraints are no part of [PRAGMA table_info]'s type. *)
Definition created_sfx_historical_orders : list Column :=
[ column "order_id" "TEXT"; column "login" "TEXT"; column "symbol" "TEXT";
  column "side" "TEXT"; column "volume" "REAL"; column "open_price" "REAL";
  column "close_price" "REAL"; column "take_profit" "REAL"; column "stop_loss" "REAL";
  column "open_time" "INTEGER"; column "close_time" "INTEGER"; column "profit" "REAL";
  column "swap" "REAL"; column "commission" "REAL"; column "reality" "TEXT";
  column "leverage" "INTEGER"; column "margin" "REAL"; column "margin_rate" "REAL";
  column "request_id" "TEXT"; column "is_fifo" "INTEGER";
  column "ob_reference_price" "REAL"; column "real_sl_pips" "REAL";
  column "real_tp_pips" "REAL"; column "bid_at_open" "REAL"; column "ask_at_open" "REAL";
  column "spread_at_open" "REAL"; column "consider_ob_reference" "INTEGER";
  column "max_size" "REAL"; column "duration_in_minutes" "INTEGER";
  column "last_update_time" "INTEGER"; column "alert_id" "TEXT";
  integerDefault "maxobalert" "NULL";
  column "alert_threshold" "REAL"; column "diff_op_ob" "REAL"; column "timeframe" "TEXT";
  column "exchange" "TEXT"; column "findObType" "TEXT"; column "filterFvgs" "INTEGER";
  column "fvgDistance" "REAL"; column "lineHeight" "TEXT"; column "filterFractal" "TEXT"
]%string.

Definition created_account_settings : list Column :=
[ column "login" "INTEGER";
  {| name := "trading_mode"; type := "TEXT"; defaultValue := Some "'NORMAL'" |};
  integerDefault "asia_session" "1"; integerDefault "london_session" "1";
  integerDefault "new_york_session" "1"; integerDefault "limbo_session" "1";
  integerDefault "exclusive_mode" "0"; column "last_updated" "INTEGER"
]%string.

Definition created_processed_webhook_ids : list Column :=
[ column "id" "INTEGER"; column "alert_id" "TEXT"; column "account_number" "TEXT";
  column "processed_at" "INTEGER"
]%string.

(** [initializeDatabase] on its first call, after the file has been opened:
    [None] when one of its own statements throws.  The results of the
    migrations are not looked at. *)
Definition initializeDatabase (db : Db) : option Db :=
db1 ← createTableIfNotExists "sfx_historical_orders" created_sfx_historical_orders db;
db2 ← createTableIfNotExists "account_settings" created_account_settings db1;
db3 ← createTableIfNotExists "processed_webhook_ids" created_processed_webhook_ids db2;
db3' ← createIndexIfNotExists "idx_processed_webhook_ids_lookup" "processed_webhook_ids"
         ["alert_id"; "account_number"] db3;
let db4 :=
  if negb (isValid (validateDatabaseSchema db3')) then snd (runDatabaseMigrations db3')
  else db3' in
let db5 := snd (migrateAccountSettings db4) in
Some (snd (migrateMaxobalertColumn db5)).

(** The columns that the [INSERT] of [upsertOrder] names. *)
Definition upsertOrder_columns : list string :=
[ "order_id"; "login"; "symbol"; "side"; "volume"; "open_price"; "close_price";
  "take_profit"; "stop_loss"; "open_time"; "close_time"; "profit"; "swap"; "commission";
  "reality"; "leverage"; "margin"; "margin_rate"; "request_id"; "is_fifo";
  "ob_reference_price"; "real_sl_pips"; "real_tp_pips"; "bid_at_open"; "ask_at_open";
  "spread_at_open"; "consider_ob_reference"; "max_size"; "duration_in_minutes";
  "last_update_time"; "alert_id"; "maxobalert"; "diff_op_ob"; "timeframe"; "exchange";
  "findObType"; "filterFvgs"; "fvgDistance"; "lineHeight"; "filterFractal" ]%string.

(** From [db] to [db'] the database answers as before, every table keeps
    its columns, in their order, with new ones after them at most, and every
    index is kept. *)
Definition extends (db db' : Db) : Prop :=
answers db' = answers db /\
(forall t cols, tables db !! t = Some cols ->
   exists added, tables db' !! t = Some (cols ++ added)) /\
indexes db ⊆ indexes db'.

Arguments getExpectedColumns : simpl never.

End Schema.

(** ** Broker client (src/services/simplefx.ts) *)

Module Broker.
Import Js Instruments.

(** [Number.parseInt(s)] with no radix: leading white space is skipped, a
    sign is read, a [0x] prefix selects base 16, and the longest run of
    digits is the value; without a digit the result is [NaN]. *)
Definition digitValue (c : ascii) : option Z :=
let n := Z.of_nat (nat_of_ascii c) in
if (48 <=? n) && (n <=? 57) then Some (n - 48)
else if (97 <=? n) && (n <=? 122) then Some (n - 87)
else if (65 <=? n) && (n <=? 90) then Some (n - 55)
else None.

Fixpoint readDigits (radix : Z) (s : string) (value : option Z) : option Z :=
match s with
| String c r =>
    match digitValue c with
    | Some d =>
        if d <? radix then readDigits radix r (Some (default 0 value * radix + d)) else value
    | None => value
    end
| EmptyString => value
end.

Definition parseInt (s : string) : float :=
let s1 := Pipeline.trimStart s in
let '(negative, s2) :=
  match s1 with
  | String "-" r => (true, r)
  | String "+" r => (false, r)
  | _ => (false, s1)
  end in
let '(radix, s3) :=
  match s2 with
  | String "0" (String "x" r) | String "0" (String "X" r) => (16, r)
  | _ => (10, s2)
  end in
match readDigits radix s3 None with
| None => PrimFloat.nan
| Some 0 => if negative then (-0)%float else 0%float
| Some v => Z2float (if negative then - v else v)
end.

(** The cached tokens of the module. *)
Record Tokens := {
  accessToken : option string;
  secondaryAccessToken : option string;
  tokenExpiration : option Z;
  secondaryTokenExpiration : option Z
}.

(** An order of [data.marketOrders] as the open-order queries read it. *)
Record ActiveOrder := {
  active_side : option string;
  active_volume : option float
}.

(** The answer of the broker to a request: the [data] of the response, as
    far as the callers read it, or an error with the status of its response,
    if it has one. *)
Inductive Reply :=
| TokenReply (token : option string)
| ActiveOrdersReply (marketOrders : option (list ActiveOrder))
| MarketOrderReply (marketOrders : option (list Orchestrator.TradeResult))
| Rejected (status : option Z).

(** The body of a request to [/trading/orders/market]. *)
Record RequestBody := {
  Reality : string;
  Login : float;
  Symbol : string;
  Side : string;
  Volume : float;
  TakeProfit : float;
  StopLoss : option float;
  IsFIFO : bool;
  RequestId : string;
  Activity : string
}.

Inductive Request :=
| AuthRequest (secondary : bool)
| ActiveOrdersRequest (login : float) (reality : string) (page limit : Z) (token : string)
| MarketOrderRequest (body : RequestBody) (token : string).

Inductive Error :=
| RequestFailed (status : option Z)
| VolumeBelowMinimum (amount minLotSize : float)
| NoMarketQuote (sym : string)
| NoMarketQuoteAfterTokenRetry (sym : string)
| InvalidApiResponse.

(** The module with its surroundings: the clock; the replies still to come,
    each with the time it takes; the quote that the connection manager holds
    for a symbol at a time; and the requests sent so far. *)
Record World := {
  tokens : Tokens;
  now : Z;
  script : list (Z * Reply);
  quoteAt : string -> Z -> option Quotes.Quote;
  sent : list Request
}.

Inductive Outcome (A : Type) :=
| Returned (a : A)
| Thrown (e : Error)
| ScriptEnded.
Arguments Returned {A} a.
Arguments Thrown {A} e.
Arguments ScriptEnded {A}.

Definition M (A : Type) : Type := World -> Outcome A * World.

Definition ret {A} (a : A) : M A := fun w => (Returned a, w).
Definition throw {A} (e : Error) : M A := fun w => (Thrown e, w).
Definition bind {A B} (m : M A) (k : A -> M B) : M B :=
fun w => match m w with
         | (Returned a, w') => k a w'
         | (Thrown e, w') => (Thrown e, w')
         | (ScriptEnded, w') => (ScriptEnded, w')
         end.
Definition try_catch {A} (m : M A) (handler : Error -> M A) : M A :=
fun w => match m w with
         | (Thrown e, w') => handler e w'
         | r => r
         end.

Declare Scope api_scope.
Delimit Scope api_scope with api.
Notation "'let*' x ':=' m 'in' k" := (bind m (fun x => k))
  (at level 10, x name, m at level 100, k at level 200) : api_scope.
Notation "m ';;' k" := (bind m (fun _ => k))
  (at level 100, k at level 200, right associativity) : api_scope.
Local Open Scope api_scope.

Definition Date_now : M Z := fun w => (Returned (now w), w).

Definition get_tokens : M Tokens := fun w => (Returned (tokens w), w).

Definition set_tokens (t : Tokens) : M unit :=
fun w => (Returned tt, {| tokens := t; now := now w; script := script w;
                          quoteAt := quoteAt w; sent := sent w |}).

(** [webSocketManager.getQuoteForSymbol(symbol)]. *)
Definition getQuoteForSymbol (sym : string) : M (option Quotes.Quote) :=
fun w => (Returned (quoteAt w sym (now w)), w).

(** [await axios.post(...)]: the request goes out and the next reply of the
    script comes back after its time; a rejected request throws. *)
Definition post (request : Request) : M Reply :=
fun w =>
  match script w with
  | [] => (ScriptEnded, w)
  | (elapsed, reply) :: rest =>
      let w' := {| tokens := tokens w; now := now w + elapsed; script := rest;
                   quoteAt := quoteAt w; sent := sent w ++ [request] |} in
      match reply with
      | Rejected status => (Thrown (RequestFailed status), w')
      | _ => (Returned reply, w')
      end
  end.

Definition unexpected {A} : M A := fun w => (ScriptEnded, w).

Definition hour : Z := 3600000.

(** A cached token is used when it is a non-empty string whose expiry is set
    and lies ahead. *)
Definition cached (token : option string) (expiration : option Z) (t : Z) : option string :=
match Pipeline.present token, expiration with
| Some tok, Some e => if negb (e =? 0) && (t <? e) then Some tok else None
| _, _ => None
end.

Definition getAccessToken (useSecondaryApi : bool) : M string :=
let* t := Date_now in
let* held := get_tokens in
if useSecondaryApi then
  match cached (secondaryAccessToken held) (secondaryTokenExpiration held) t with
  | Some tok => ret tok
  | None =>
      let* response := post (AuthRequest true) in
      match response with
      | TokenReply token =>
          let* held' := get_tokens in
          set_tokens {| accessToken := accessToken held';
                        secondaryAccessToken := token;
                        tokenExpiration := tokenExpiration held';
                        secondaryTokenExpiration := Some (t + hour) |} ;;
          ret (default EmptyString (Pipeline.present token))
      | _ => unexpected
      end
  end
else
  match cached (accessToken held) (tokenExpiration held) t with
  | Some tok => ret tok
  | None =>
      let* response := post (AuthRequest false) in
      match response with
      | TokenReply token =>
          let* held' := get_tokens in
          set_tokens {| accessToken := token;
                        secondaryAccessToken := secondaryAccessToken held';
                        tokenExpiration := Some (t + hour);
                        secondaryTokenExpiration := secondaryTokenExpiration held' |} ;;
          ret (default EmptyString (Pipeline.present token))
      | _ => unexpected
      end
  end.

Definition clearAccessTokens (clearSecondary : bool) : M unit :=
let* held := get_tokens in
set_tokens {| accessToken := None;
              secondaryAccessToken := if clearSecondary then None else secondaryAccessToken held;
              tokenExpiration := None;
              secondaryTokenExpiration :=
                if clearSecondary then None else secondaryTokenExpiration held |}.

Definition unauthorized (e : Error) : bool :=
match e with
| RequestFailed (Some 401) => true
| _ => false
end.

(** One request to [/trading/orders/active] with the token of the given key;
    a missing [marketOrders] is read as an empty array. *)
Definition requestActiveOrders (loginNumber reality : string) (page limit : Z)
    (useSecondaryApi : bool) : M (list ActiveOrder) :=
let* token := getAccessToken useSecondaryApi in
let* response := post (ActiveOrdersRequest (parseInt loginNumber) reality page limit token) in
match response with
| ActiveOrdersReply marketOrders => ret (default [] marketOrders)
| _ => unexpected
end.

(** [getActiveOrders]: the first request uses the secondary key also for the
    login 3979937; after a 401 the tokens are cleared and the request is sent
    once more, both according to [useSecondaryApi] as it was passed. *)
Definition getActiveOrders (loginNumber reality : string) (useSecondaryApi : bool)
    (page limit : Z) : M (list ActiveOrder) :=
let shouldUseSecondaryApi := useSecondaryApi || bool_decide (loginNumber = "3979937"%string) in
try_catch (requestActiveOrders loginNumber reality page limit shouldUseSecondaryApi)
  (fun error =>
     if unauthorized error then
       clearAccessTokens useSecondaryApi ;;
       requestActiveOrders loginNumber reality page limit useSecondaryApi
     else throw error).

(** What [placeTrade] returns: the [data] of the response and the spread at
    the time the request was built. *)
Record TradeResponse := {
  response_marketOrders : list Orchestrator.TradeResult;
  response_spreadAtOpen : float
}.

Definition formatPriceForAPI (specs : InstrumentSpecs) (price : float) : float :=
match type specs with
| index => (Math_round (price * 10) / 10)%float
| forex => toFixed_number price (decimals specs)
end.

(** The part of [placeTrade] that its [try] block and its retry share: the
    quote is read for the spread, the order is sent, and an answer without a
    market order is an error. *)
Definition sendMarketOrder (requestBody : RequestBody) (sym : string) (specs : InstrumentSpecs)
    (useSecondaryApi : bool) (noQuote : Error) : M TradeResponse :=
let* lastQuote := getQuoteForSymbol sym in
match lastQuote with
| None => throw noQuote
| Some quote =>
    let spreadAtOpen := ((Quotes.q_ask quote - Quotes.q_bid quote) / pipValue specs)%float in
    let* token := getAccessToken useSecondaryApi in
    let* response := post (MarketOrderRequest requestBody token) in
    match response with
    | MarketOrderReply (Some (order :: orders)) =>
        ret {| response_marketOrders := order :: orders;
               response_spreadAtOpen := spreadAtOpen |}
    | MarketOrderReply _ => throw InvalidApiResponse
    | _ => unexpected
    end
end.

Definition placeTrade (side : string) (amount : float) (loginNumber : string)
    (takeProfitPrice : float) (stopLossPrice : option float) (reality sym : string)
    (useSecondaryApi : bool) : M TradeResponse :=
let shouldUseSecondaryApi := useSecondaryApi || bool_decide (loginNumber = "3979937"%string) in
let instrumentSpecs := getInstrumentSpecs sym in
let minLotSize := match type instrumentSpecs with index => 0.1 | forex => 0.01 end%float in
if (amount <? minLotSize)%float then throw (VolumeBelowMinimum amount minLotSize)
else
  let* t := Date_now in
  let requestBody :=
    {| Reality := toUpperCase reality;
       Login := parseInt loginNumber;
       Symbol := sym;
       Side := if bool_decide (side = "B"%string) then "BUY"
               else if bool_decide (side = "S"%string) then "SELL" else toUpperCase side;
       Volume := amount;
       TakeProfit := formatPriceForAPI instrumentSpecs takeProfitPrice;
       StopLoss :=
         match stopLossPrice with
         | Some p => if truthy p then Some (formatPriceForAPI instrumentSpecs p) else None
         | None => None
         end;
       IsFIFO := false;
       RequestId := ("TV_" +:+ Pipeline.showZ t)%string;
       Activity := "TradingView Webhook Order" |} in
  try_catch
    (sendMarketOrder requestBody sym instrumentSpecs shouldUseSecondaryApi (NoMarketQuote sym))
    (fun error =>
       if unauthorized error then
         clearAccessTokens shouldUseSecondaryApi ;;
         sendMarketOrder requestBody sym instrumentSpecs shouldUseSecondaryApi
           (NoMarketQuoteAfterTokenRetry sym)
       else throw error).

(** Readings of a list of requests. *)
Definition marketOrdersSent (requests : list Request) : list RequestBody :=
omap (fun r => match r with MarketOrderRequest body _ => Some body | _ => None end) requests.

Definition authRequestsSent (requests : list Request) : list bool :=
omap (fun r => match r with AuthRequest secondary => Some secondary | _ => None end) requests.

End Broker.

(** ** Pip value of the order statistics (src/server.ts) *)

Module PipValues.
Import Js.
Local Open Scope float_scope.


End PipValues.

(** * Properties *)

Section PriceValidation.
Import Js Instruments.
Local Open Scope float_scope.

(** C6.  For a buy on EURUSD, whose specification has pip value 0.0001 and a
    minimum distance of 10 pips, at entry price 1.10000: a take-profit
    distance of 5 pips is rejected by [validatePriceLevels] as below the
    minimum, and a distance of 50 pips is accepted, the computed target
    price being exactly 1.10500. *)
Theorem C6_eurusd_take_profit_validation :
  let specs := getInstrumentSpecs "EURUSD" in
  let entry := 1.10000 in
  let near := calculatePriceLevels "BUY" entry 5 None specs in
  let far := calculatePriceLevels "BUY" entry 50 None specs in
  type specs = forex /\ pipValue specs = 0.0001 /\ minTPDistance specs = 10 /\
  (exists d, validatePriceLevels "BUY" entry (takeProfitPrice near) (stopLossPrice near) specs
             = Invalid (TPDistanceBelowMinimum d 10) /\ (d <? 10) = true) /\
  validatePriceLevels "BUY" entry (takeProfitPrice far) (stopLossPrice far) specs = Valid /\
  takeProfitPrice far = 1.10500.
Proof.
  cbv zeta.
  split; [vm_compute; reflexivity |].
  split; [vm_compute; reflexivity |].
  split; [vm_compute; reflexivity |].
  split; [eexists; split; vm_compute; reflexivity |].
  split; vm_compute; reflexivity.
Qed.

End PriceValidation.

Section SessionWindows.
Import Sessions.

Lemma getUTCHours_range t : 0 <= getUTCHours t < 24.
Proof. unfold getUTCHours. apply Z.mod_pos_bound. lia. Qed.

(** C8, as stated, fails: at 20:00 UTC the gate resolves no session at all,
    and at 13:00 UTC it resolves London where the statistics resolve New
    York; the bands that the gate declares for London and New York overlap
    at 12:00 and 13:00 UTC. *)
Lemma C8_gate_gap_and_disagreement :
  getCurrentTradingSession (20 * msPerHour) = None /\
  getCurrentTradingSession (13 * msPerHour) = Some london_session /\
  Statistics.getTradingSessionForTimestamp (Some (13 * msPerHour))
  = Statistics.known new_york_session /\
  gate_window london_session 13 = true /\ gate_window new_york_session 13 = true.
Proof. repeat split; vm_compute; reflexivity. Qed.

Lemma getUTCHours_eastern t :
  getUTCHours (t + etOffset) = (getUTCHours t - 5) mod 24.
Proof.
  unfold getUTCHours, etOffset, msPerHour.
  replace (t + -5 * 60 * 60 * 1000) with (t + (-5) * 3600000) by lia.
  rewrite Z.div_add by lia.
  rewrite Zminus_mod_idemp_l. f_equal; lia.
Qed.

Lemma eastern_hour_cases h :
  0 <= h < 24 ->
  (h < 5 /\ (h - 5) mod 24 = h + 19) \/ (5 <= h /\ (h - 5) mod 24 = h - 5).
Proof.
  intros Hh. destruct (Z_lt_ge_dec h 5) as [Hlt | Hge].
  - left. split; [lia |].
    replace (h - 5) with (h + 19 + (-1) * 24) by lia.
    rewrite Z.mod_add by lia. apply Z.mod_small. lia.
  - right. split; [lia |]. apply Z.mod_small. lia.
Qed.

Ltac hour_cases :=
  repeat match goal with
         | |- context [?a <=? ?b] => destruct (Z.leb_spec a b)
         | |- context [?a <? ?b] => destruct (Z.ltb_spec a b)
         end; simpl.

Lemma gate_by_hour t :
  let h := getUTCHours t in
  (getCurrentTradingSession t = Some london_session <-> 6 <= h < 14) /\
  (getCurrentTradingSession t = Some new_york_session <-> 14 <= h < 20) /\
  (getCurrentTradingSession t = Some limbo_session <-> 2 <= h < 6) /\
  (getCurrentTradingSession t = Some asia_session <-> 22 <= h \/ h < 2) /\
  (getCurrentTradingSession t = None <-> 20 <= h < 22).
Proof.
  intros h. unfold getCurrentTradingSession. fold h.
  pose proof (getUTCHours_range t) as Hr. fold h in Hr.
  hour_cases; repeat split; intros; try discriminate; try lia; try reflexivity.
Qed.

(** The session of the statistics, by the UTC hour of a valid time value. *)
Lemma statistics_by_hour t :
  Z.abs t <= maxTimeValue ->
  Statistics.getTradingSessionForTimestamp (Some t)
  = let h := getUTCHours t in
    if h <? 8 then Statistics.known asia_session
    else if h <? 13 then Statistics.known london_session
    else if h <? 21 then Statistics.known new_york_session
    else Statistics.known limbo_session.
Proof.
  intros Hv. cbv zeta.
  unfold Statistics.getTradingSessionForTimestamp, newDate, timeClip.
  destruct (Z.leb_spec (Z.abs t) maxTimeValue) as [_ | ?]; [| lia].
  pose proof (getUTCHours_range t) as Hr.
  generalize dependent (getUTCHours t). intros h Hr.
  destruct (Z.ltb_spec (h - 3) 0); hour_cases; try reflexivity; lia.
Qed.

Lemma statistics_invalid t :
  maxTimeValue < Z.abs t ->
  Statistics.getTradingSessionForTimestamp (Some t) = Statistics.unknown_session.
Proof.
  intros Hv. unfold Statistics.getTradingSessionForTimestamp, newDate, timeClip.
  destruct (Z.leb_spec (Z.abs t) maxTimeValue) as [? | _]; [lia | reflexivity].
Qed.

(** The session of src/utils.ts, by the UTC hour of a time value other than
    0 that is a valid date together with its Eastern shift. *)
Lemma utils_by_hour t :
  t <> 0 -> Z.abs t <= maxTimeValue -> Z.abs (t + etOffset) <= maxTimeValue ->
  Utils.getTradingSessionForTimestamp (Some t)
  = let h := getUTCHours t in
    if h <? 6 then Some asia_session
    else if h <? 11 then Some london_session
    else if h <? 19 then Some new_york_session
    else if h <? 22 then Some limbo_session
    else Some asia_session.
Proof.
  intros H0 H1 H2. cbv zeta. unfold Utils.getTradingSessionForTimestamp, timeClip.
  destruct (Z.eqb_spec t 0) as [? | _]; [contradiction |].
  destruct (Z.leb_spec (Z.abs t) maxTimeValue) as [_ | ?]; [| lia].
  destruct (Z.leb_spec (Z.abs (t + etOffset)) maxTimeValue) as [_ | ?]; [| lia].
  rewrite getUTCHours_eastern.
  pose proof (getUTCHours_range t) as Hr.
  generalize dependent (getUTCHours t). intros h Hr.
  destruct (eastern_hour_cases h Hr) as [[Hlt ->] | [Hge ->]];
    hour_cases; try reflexivity; try lia.
Qed.

Lemma utils_none t :
  Utils.getTradingSessionForTimestamp (Some t) = None <->
  t = 0 \/ maxTimeValue < Z.abs t \/ maxTimeValue < Z.abs (t + etOffset).
Proof.
  destruct (Z.eq_dec t 0) as [-> | Hne]; [split; [left; reflexivity | reflexivity] |].
  destruct (Z_le_gt_dec (Z.abs t) maxTimeValue) as [H1 | H1].
  - destruct (Z_le_gt_dec (Z.abs (t + etOffset)) maxTimeValue) as [H2 | H2].
    + rewrite (utils_by_hour t Hne H1 H2). cbv zeta. split.
      * hour_cases; discriminate.
      * intros [? | [? | ?]]; [contradiction | lia | lia].
    + split; [right; right; lia |]. intros _.
      unfold Utils.getTradingSessionForTimestamp, timeClip.
      destruct (Z.eqb_spec t 0); [reflexivity |].
      destruct (Z.leb_spec (Z.abs t) maxTimeValue); [| reflexivity].
      destruct (Z.leb_spec (Z.abs (t + etOffset)) maxTimeValue); [lia | reflexivity].
  - split; [right; left; lia |]. intros _.
    unfold Utils.getTradingSessionForTimestamp, timeClip.
    destruct (Z.eqb_spec t 0); [reflexivity |].
    destruct (Z.leb_spec (Z.abs t) maxTimeValue); [lia | reflexivity].
Qed.

(** C8, amended.  The gate resolves by first match, so it assigns at most
    one session: London for the UTC hours 6-13, New York for 14-19, Limbo
    for 2-5, Asia for 22-1, and none for the hours 20 and 21.  The
    statistics resolve the open time of an order by a function of their
    own: Asia for the UTC hours 0-7, London for 8-12, New York for 13-20,
    Limbo for 21-23, and [unknown_session] exactly for an open time that is
    no valid date.  The gate and the statistics give the same session
    exactly at the UTC hours 0-1, 8-12 and 14-19 of a valid date.  The
    function that src/utils.ts exports and nothing imports is a third
    definition: it gives one of the four sessions to every time value other
    than 0 whose Eastern shift is a valid date ([null] otherwise), and
    agrees with the gate exactly at the UTC hours 22-1, 6-10 and 14-18. *)
Theorem C8_session_resolution (t : Z) :
  let h := getUTCHours t in
  let statistics := Statistics.getTradingSessionForTimestamp (Some t) in
  (getCurrentTradingSession t = Some london_session <-> 6 <= h < 14) /\
  (getCurrentTradingSession t = Some new_york_session <-> 14 <= h < 20) /\
  (getCurrentTradingSession t = Some limbo_session <-> 2 <= h < 6) /\
  (getCurrentTradingSession t = Some asia_session <-> 22 <= h \/ h < 2) /\
  (getCurrentTradingSession t = None <-> 20 <= h < 22) /\
  (statistics = Statistics.known asia_session <-> Z.abs t <= maxTimeValue /\ h < 8) /\
  (statistics = Statistics.known london_session <->
     Z.abs t <= maxTimeValue /\ 8 <= h < 13) /\
  (statistics = Statistics.known new_york_session <->
     Z.abs t <= maxTimeValue /\ 13 <= h < 21) /\
  (statistics = Statistics.known limbo_session <-> Z.abs t <= maxTimeValue /\ 21 <= h) /\
  (statistics = Statistics.unknown_session <-> maxTimeValue < Z.abs t) /\
  Statistics.getTradingSessionForTimestamp None = Statistics.unknown_session /\
  ((exists s, getCurrentTradingSession t = Some s /\ statistics = Statistics.known s) <->
     Z.abs t <= maxTimeValue /\ (h < 2 \/ 8 <= h < 13 \/ 14 <= h < 20)) /\
  (Utils.getTradingSessionForTimestamp (Some t) = None <->
     t = 0 \/ maxTimeValue < Z.abs t \/ maxTimeValue < Z.abs (t + etOffset)) /\
  (Utils.getTradingSessionForTimestamp (Some t) = None \/
   (getCurrentTradingSession t = Utils.getTradingSessionForTimestamp (Some t) <->
      22 <= h \/ h < 2 \/ 6 <= h < 11 \/ 14 <= h < 19)).
Proof.
  intros h statistics.
  destruct (gate_by_hour t) as (Hl & Hn & Hb & Ha & Hnone). fold h in Hl, Hn, Hb, Ha, Hnone.
  repeat (split; [assumption |]).
  pose proof (getUTCHours_range t) as Hr. fold h in Hr.
  assert (Hstat : (Z.abs t <= maxTimeValue /\
                   statistics = (if h <? 8 then Statistics.known asia_session
                                 else if h <? 13 then Statistics.known london_session
                                 else if h <? 21 then Statistics.known new_york_session
                                 else Statistics.known limbo_session)) \/
                  (maxTimeValue < Z.abs t /\ statistics = Statistics.unknown_session)).
  { destruct (Z_le_gt_dec (Z.abs t) maxTimeValue) as [H1 | H1].
    - left. split; [exact H1 |]. exact (statistics_by_hour t H1).
    - right. split; [lia |]. apply statistics_invalid. lia. }
  assert (Hgate : getCurrentTradingSession t =
                  (if h <? 2 then Some asia_session
                   else if h <? 6 then Some limbo_session
                   else if h <? 14 then Some london_session
                   else if h <? 20 then Some new_york_session
                   else if h <? 22 then None
                   else Some asia_session)).
  { unfold getCurrentTradingSession. fold h. hour_cases; try reflexivity; lia. }
  clearbody statistics.
  split; [| split; [| split; [| split; [| split; [| split; [| split; [| split]]]]]]].
  - destruct Hstat as [[Hv ->] | [Hv ->]];
      [hour_cases; split; intros; try discriminate; try lia; try (split; [lia | lia]); intuition lia
      | split; [discriminate | lia]].
  - destruct Hstat as [[Hv ->] | [Hv ->]];
      [hour_cases; split; intros; try discriminate; try lia; try reflexivity; intuition lia
      | split; [discriminate | lia]].
  - destruct Hstat as [[Hv ->] | [Hv ->]];
      [hour_cases; split; intros; try discriminate; try lia; try reflexivity; intuition lia
      | split; [discriminate | lia]].
  - destruct Hstat as [[Hv ->] | [Hv ->]];
      [hour_cases; split; intros; try discriminate; try lia; try reflexivity; intuition lia
      | split; [discriminate | lia]].
  - destruct Hstat as [[Hv ->] | [Hv ->]];
      [hour_cases; split; intros; try discriminate; try lia
      | split; [intros _; exact Hv | reflexivity]].
  - reflexivity.
  - rewrite Hgate. destruct Hstat as [[Hv ->] | [Hv ->]].
    + hour_cases; split;
        first [ intros (s & Hs1 & Hs2); try discriminate;
                first [ split; [exact Hv | lia]
                      | exfalso; congruence ]
              | intros [_ Hh]; first [ lia | eexists; split; reflexivity ] ].
    + split; [intros (s & _ & Hs); discriminate | lia].
  - exact (utils_none t).
  - destruct (Z.eq_dec t 0) as [-> | Hne]; [left; reflexivity |].
    destruct (Z_le_gt_dec (Z.abs t) maxTimeValue) as [H1 | H1];
      [| left; apply utils_none; lia].
    destruct (Z_le_gt_dec (Z.abs (t + etOffset)) maxTimeValue) as [H2 | H2];
      [| left; apply utils_none; lia].
    right. rewrite (utils_by_hour t Hne H1 H2). cbv zeta. fold h. rewrite Hgate.
    hour_cases; split; intros; try discriminate; try lia; try reflexivity.
Qed.

End SessionWindows.

Section HistoricalFallback.
Import Database Pipeline.

Lemma append_eq_self (a s : string) : (a +:+ s)%string = a -> s = EmptyString.
Proof.
induction a as [| c a IH]; simpl; intros H.
- exact H.
- injection H as H. exact (IH H).
Qed.

Lemma alertKey_differs (alertId login : string) : alertKey (Some alertId) login <> alertId.
Proof.
unfold alertKey, interpolate. simpl. intros H.
apply append_eq_self in H. discriminate H.
Qed.

Lemma upsertOrder_rows (db : Tables) (new row : OrderRow) :
  row ∈ sfx_historical_orders (upsertOrder db new) ->
  row ∈ sfx_historical_orders db \/ row = new.
Proof.
unfold upsertOrder. simpl. case_bool_decide as Hex.
- intros Hin. apply list_elem_of_fmap in Hin as (r & -> & Hr).
  case_bool_decide; [right; reflexivity | left; exact Hr].
- intros Hin. apply elem_of_app in Hin as [Hin | Hin]; [left; exact Hin |].
  apply list_elem_of_singleton in Hin. right. exact Hin.
Qed.

Lemma tables_removePendingOrder login side st :
  tables (removePendingOrder login side st) = tables st.
Proof.
unfold removePendingOrder. destruct (pendingOrders st !! login); [| reflexivity].
case_bool_decide; reflexivity.
Qed.

Lemma processedIds_removePendingOrder login side st :
  processedIds (removePendingOrder login side st) = processedIds st.
Proof.
unfold removePendingOrder. destruct (pendingOrders st !! login); [| reflexivity].
case_bool_decide; reflexivity.
Qed.

Lemma clock_removePendingOrder login side st :
  clock (removePendingOrder login side st) = clock st.
Proof.
unfold removePendingOrder. destruct (pendingOrders st !! login); [| reflexivity].
case_bool_decide; reflexivity.
Qed.

Lemma orders_insertProcessed db a l t :
  sfx_historical_orders (insertProcessed db a l t) = sfx_historical_orders db.
Proof. unfold insertProcessed. destruct (selectProcessed db (Some a) l); reflexivity. Qed.

Lemma orders_storeProcessedId available alertId login st :
  sfx_historical_orders (tables (storeProcessedId available alertId login st))
  = sfx_historical_orders (tables st).
Proof.
unfold storeProcessedId. destruct available; [| reflexivity].
destruct alertId as [a |]; [| reflexivity].
match goal with |- context [if ?b then _ else _] => destruct b end; simpl;
  apply orders_insertProcessed.
Qed.

(** Every row that the end of the critical section adds to the orders carries
    the alert key of the signal. *)
Lemma placeAndRecord_rows env data login action sym tp sl st row :
  row ∈ sfx_historical_orders (tables (placeAndRecord env data login action sym tp sl st).1.2) ->
  row ∈ sfx_historical_orders (tables st) \/
  (order_alert_id row = alertKey (d_id data) login /\ order_login row = login).
Proof.
unfold placeAndRecord.
destruct (Orchestrator.placeTradeWithRetry _ _ _) as [[result | e] actions];
  cbn [fst snd tables set_tables addPendingOrder set_pendingOrders];
  [| intros H; left; exact H].
destruct (lastQuote env); cbn [fst snd];
  [| rewrite tables_removePendingOrder; intros H; left; exact H].
destruct (upsertAvailable env); cbn [fst snd negb tables]; [| intros H; left; exact H].
destruct (updateMaxSizeAvailable env); cbn [fst snd negb].
- rewrite orders_storeProcessedId, tables_removePendingOrder. cbn [tables set_tables].
  intros H. apply upsertOrder_rows in H as [H | ->]; [left; exact H | right; split; reflexivity].
- cbn [tables set_tables].
  intros H. apply upsertOrder_rows in H as [H | ->]; [left; exact H | right; split; reflexivity].
Qed.

(** The row that is written is in the table afterwards. *)
Lemma upsertOrder_stores (db : Tables) (row : OrderRow) :
  row ∈ sfx_historical_orders (upsertOrder db row).
Proof.
unfold upsertOrder. simpl. case_bool_decide as Hex.
- apply Exists_exists in Hex as (r & Hr & Hid).
  apply list_elem_of_fmap. exists r. split; [| exact Hr].
  rewrite bool_decide_eq_true_2 by exact Hid. reflexivity.
- apply elem_of_app. right. apply list_elem_of_singleton. reflexivity.
Qed.

(** When the end of the critical section reports no error, the order is in
    the table under the alert key of the signal. *)
Lemma placeAndRecord_stores env data login action sym tp sl st :
  (placeAndRecord env data login action sym tp sl st).1.1 = None ->
  exists row,
    row ∈ sfx_historical_orders (tables (placeAndRecord env data login action sym tp sl st).1.2) /\
    order_alert_id row = alertKey (d_id data) login /\ order_login row = login.
Proof.
unfold placeAndRecord.
destruct (Orchestrator.placeTradeWithRetry _ _ _) as [[result | e] actions];
  cbn [fst snd tables set_tables addPendingOrder set_pendingOrders];
  [| discriminate].
destruct (lastQuote env); cbn [fst snd]; [| discriminate].
destruct (upsertAvailable env); cbn [fst snd negb tables]; [| discriminate].
destruct (updateMaxSizeAvailable env); cbn [fst snd negb]; [| discriminate].
intros _. rewrite orders_storeProcessedId, tables_removePendingOrder. cbn [tables set_tables].
eexists. split; [apply upsertOrder_stores |]. split; reflexivity.
Qed.

Lemma checkAndPlace_cases env data login action sym tp sl st
    (P : option TaskError * State * list Entry -> Prop) :
  (forall error, P (Some error, st, [])) ->
  P (placeAndRecord env data login action sym tp sl st) ->
  P (checkAndPlace env data login action sym tp sl st).
Proof.
intros Hstop Hplace. unfold checkAndPlace. cbv zeta.
destruct (orderExistsWithAlertId _ _ _ _); [apply Hstop |].
destruct (totalOpenVolume env); [| apply Hstop].
destruct (isOrderPending st login action); [apply Hstop |].
destruct (_ <? _)%float; [apply Hstop |].
destruct (ordersOnSameSide env) as [n |]; [| apply Hstop].
destruct (0 <? n)%nat; [apply Hstop | exact Hplace].
Qed.

Lemma criticalSection_cases env data login action sym tp sl st
    (P : option TaskError * State * list Entry -> Prop) :
  (forall error, P (Some error, st, [])) ->
  P (placeAndRecord env data login action sym tp sl st) ->
  P (criticalSection env data login action sym tp sl st).
Proof.
intros Hstop Hplace.
pose proof (checkAndPlace_cases env data login action sym tp sl st P Hstop Hplace) as Hcheck.
unfold criticalSection. cbv zeta.
assert (Hmode : P (if bool_decide (trading_mode (accountSettings env) = "BUY_ONLY"%string)
                      && negb (bool_decide (action = "B"%string))
                   then (Some BuyOnlyMode, st, [])
                   else if bool_decide (trading_mode (accountSettings env) = "SELL_ONLY"%string)
                           && negb (bool_decide (action = "S"%string))
                   then (Some SellOnlyMode, st, [])
                   else checkAndPlace env data login action sym tp sl st)).
{ destruct (_ && _); [apply Hstop |]. destruct (_ && _); [apply Hstop | exact Hcheck]. }
assert (Hsession :
          P match Sessions.getCurrentTradingSession (clock st) with
            | Some session =>
                if bool_decide (sessionSetting (accountSettings env) session = 1)
                then if bool_decide (trading_mode (accountSettings env) = "BUY_ONLY"%string)
                        && negb (bool_decide (action = "B"%string))
                     then (Some BuyOnlyMode, st, [])
                     else if bool_decide
                               (trading_mode (accountSettings env) = "SELL_ONLY"%string)
                             && negb (bool_decide (action = "S"%string))
                     then (Some SellOnlyMode, st, [])
                     else checkAndPlace env data login action sym tp sl st
                else (Some (SessionDisabled session), st, [])
            | None =>
                if bool_decide (trading_mode (accountSettings env) = "BUY_ONLY"%string)
                   && negb (bool_decide (action = "B"%string))
                then (Some BuyOnlyMode, st, [])
                else if bool_decide (trading_mode (accountSettings env) = "SELL_ONLY"%string)
                        && negb (bool_decide (action = "S"%string))
                then (Some SellOnlyMode, st, [])
                else checkAndPlace env data login action sym tp sl st
            end).
{ destruct (Sessions.getCurrentTradingSession (clock st)) as [session |]; [| exact Hmode].
  destruct (bool_decide (sessionSetting (accountSettings env) session = 1));
    [exact Hmode | apply Hstop]. }
destruct (bool_decide (exclusive_mode (accountSettings env) = 1)); [| exact Hsession].
destruct (totalOpenOrders env) as [n |]; [| apply Hstop].
destruct (0 <? n)%nat; [apply Hstop | exact Hsession].
Qed.

(** The orders across the critical section. *)
Lemma criticalSection_orders env data login action sym tp sl st :
  let r := criticalSection env data login action sym tp sl st in
  (r.1.1 = None ->
   exists row, row ∈ sfx_historical_orders (tables r.1.2) /\
     order_alert_id row = alertKey (d_id data) login /\ order_login row = login) /\
  (forall row, row ∈ sfx_historical_orders (tables r.1.2) ->
     row ∈ sfx_historical_orders (tables st) \/
     (order_alert_id row = alertKey (d_id data) login /\ order_login row = login)).
Proof.
cbv zeta. apply criticalSection_cases.
- intros error. simpl. split; [discriminate | intros row H; left; exact H].
- split; [apply placeAndRecord_stores | intros row; apply placeAndRecord_rows].
Qed.

(** The orders across a run of [processWebhookData]: a run without an error
    leaves a row with the alert key of its signal, and every row that a run
    adds carries that key. *)
Lemma processWebhookData_orders env data st :
  let r := processWebhookData env data st in
  (r.1.1 = None ->
   exists l row, present (d_l data) = Some l /\
     row ∈ sfx_historical_orders (tables r.1.2) /\
     order_alert_id row = alertKey (d_id data) l) /\
  (forall row, row ∈ sfx_historical_orders (tables r.1.2) ->
     row ∈ sfx_historical_orders (tables st) \/
     exists l, present (d_l data) = Some l /\
       order_alert_id row = alertKey (d_id data) l).
Proof.
cbv zeta. unfold processWebhookData. cbv zeta.
destruct (present (d_l data)) as [login |];
  [| simpl; split; [discriminate | intros row Hin; left; exact Hin]].
case_bool_decide;
  [simpl; split; [discriminate | intros row Hin; left; exact Hin] |].
destruct (negb _);
  [simpl; split; [discriminate | intros row Hin; left; exact Hin] |].
destruct (negb _);
  [simpl; split; [discriminate | intros row Hin; left; exact Hin] |].
destruct (convertTradingViewPips _ _ _) as [takeProfit stopLoss].
match goal with |- context [criticalSection ?e ?d ?l ?a ?s ?t ?sl ?s0] =>
  pose proof (criticalSection_orders e d l a s t sl s0) as [Hdone Hrow]
end.
cbv zeta in Hdone, Hrow.
destruct (criticalSection _ _ _ _ _ _ _ _) as [[[error |] st'] entries]; simpl in *.
- split; [discriminate |].
  intros row Hin. rewrite tables_removePendingOrder in Hin.
  destruct (Hrow row Hin) as [Hold | [Hnew _]]; [left; exact Hold |].
  right. exists login. split; [reflexivity | exact Hnew].
- split.
  + intros _. destruct (Hdone eq_refl) as (row & Hin & Hkey & _).
    exists login, row. split; [reflexivity |]. split; [exact Hin | exact Hkey].
  + intros row Hin. destruct (Hrow row Hin) as [Hold | [Hnew _]]; [left; exact Hold |].
    right. exists login. split; [reflexivity | exact Hnew].
Qed.

(** The lookup in the historical orders finds an order exactly when a row
    carries the queried alert id and login. *)
Lemma selectOrder_is_Some (db : Tables) (alertId login : string) :
  is_Some (selectOrder db (Some alertId) login) <->
  exists row, row ∈ sfx_historical_orders db /\
    order_alert_id row = alertId /\ order_login row = login.
Proof.
unfold selectOrder. rewrite fmap_is_Some. split.
- intros [[i row] Hfind]. apply list_find_Some in Hfind as (Hi & Hrow & _).
  exists row. split; [| exact Hrow]. apply list_elem_of_lookup. exists i. exact Hi.
- intros (row & Hin & Hrow).
  exact (list_find_elem_of _ _ row Hin Hrow).
Qed.

(** C10, as stated, fails: the fallback does match an order that the
    execution path recorded, namely for another signal.  The signal ["A1"]
    of login ["123"] is executed on an empty database and its order is
    stored under the alert id ["A1_123"]; the table of processed ids holds
    no row for the alert id ["A1_123"], and yet [orderExistsWithAlertId]
    answers [true] for it, through the historical orders, so that a webhook
    with that id is answered as already processed. *)
Lemma C10_history_fallback_matches_another_signal :
  let cfg := {| DEFAULT_ACCOUNT_NUMBER := "100"; SECONDARY_API_ACCOUNTS := [] |} in
  let s0 := initial cfg 1700000000000
              {| processed_webhook_ids := []; sfx_historical_orders := [] |} in
  let signal := {| d_a := Some "B"; d_t := Some 50%float; d_s := None; d_l := Some "123";
                   d_z := Some 0.01%float; d_m := None; d_r := None;
                   d_sy := Some "EURUSD"; d_id := Some "A1" |}%string in
  let other := {| d_a := Some "B"; d_t := Some 50%float; d_s := None; d_l := Some "123";
                  d_z := Some 0.01%float; d_m := None; d_r := None;
                  d_sy := Some "GBPUSD"; d_id := Some "A1_123" |}%string in
  let settings := {| trading_mode := "NORMAL"; exclusive_mode := 0;
                     asia_session_enabled := 1; london_session_enabled := 1;
                     new_york_session_enabled := 1; limbo_session_enabled := 1 |} in
  let quote := {| Quotes.symbol := "EURUSD"; Quotes.bid := 1.1%float;
                  Quotes.ask := 1.1002%float; Quotes.timestamp := 1700000000000;
                  Quotes.isStale := false |} in
  let filled := {| Orchestrator.order_id := 77; Orchestrator.order_symbol := "EURUSD";
                   Orchestrator.order_side := "BUY"; Orchestrator.order_volume := 0.01%float;
                   Orchestrator.order_openPrice := 1.1002%float;
                   Orchestrator.order_takeProfit := 1.1052%float;
                   Orchestrator.order_stopLoss := None;
                   Orchestrator.spreadAtOpen := 2%float |} in
  let env :=
    {| accountSettings := settings; totalOpenOrders := Some 0%nat; lookupAvailable := true;
       totalOpenVolume := Some 0%float; ordersOnSameSide := Some 0%nat;
       trading := {| Orchestrator.marketDataAt := fun _ => inl quote;
                     Orchestrator.placeTradeAt := fun _ _ => inl filled |};
       lastQuote := Some {| Quotes.q_bid := 1.1%float; Quotes.q_ask := 1.1002%float;
                            Quotes.q_timestamp := 1700000000000 |};
       upsertAvailable := true; updateMaxSizeAvailable := true; storeAvailable := true |} in
  let recorded := {| order_id := 77; order_login := "123"; order_alert_id := "A1_123";
                     order_symbol := "EURUSD"; order_side := "BUY" |} in
  let db := tables (processWebhookData env signal s0).1.2 in
  (processWebhookData env signal s0).1.1 = None /\
  sfx_historical_orders db = [recorded] /\
  processed_webhook_ids db
  = [{| alert_id := "A1"; account_number := "123"; processed_at := 1700000000000 |}] /\
  selectProcessed db (Some "A1_123"%string) "123" = None /\
  selectOrder db (Some "A1_123"%string) "123" = Some recorded /\
  orderExistsWithAlertId true db (Some "A1_123"%string) "123" = true /\
  snd (receiveWebhook other "0.5" true (processWebhookData env signal s0).1.2)
  = [Answered (Some "A1_123"%string) "123" AlertAlreadyProcessed].
Proof. repeat split; vm_compute; reflexivity. Qed.

(** C10, amended.  The order that the execution path stores for a signal
    carries the alert id [alertId ++ "_" ++ login], which differs from the
    raw [alertId] for every login.  The lookup of [orderExistsWithAlertId]
    in the historical orders finds an order exactly when a row carries the
    queried id and login, and the function answers what the table of
    processed ids or that lookup finds.  A run of [processWebhookData]
    without an error leaves an order under the concatenated key of its
    signal, and every order that a run adds carries that key: so a run for
    the queried alert id never makes the lookup find an order, and the
    duplicate detection of a signal's own order rests on the processed ids;
    the lookup comes to find an order only by a run for another signal,
    whose alert id followed by ["_"] and its login is the queried id. *)
Theorem C10_history_fallback_never_matches
    (alertId login : string) (available : bool) (db : Tables) :
  alertKey (Some alertId) login <> alertId /\
  (is_Some (selectOrder db (Some alertId) login) <->
     exists row, row ∈ sfx_historical_orders db /\
       order_alert_id row = alertId /\ order_login row = login) /\
  orderExistsWithAlertId available db (Some alertId) login
  = available && (bool_decide (is_Some (selectProcessed db (Some alertId) login))
                  || bool_decide (is_Some (selectOrder db (Some alertId) login))) /\
  (forall env data st,
     let r := processWebhookData env data st in
     (r.1.1 = None ->
      exists l row, present (d_l data) = Some l /\
        row ∈ sfx_historical_orders (tables r.1.2) /\
        order_alert_id row = alertKey (d_id data) l) /\
     (forall row, row ∈ sfx_historical_orders (tables r.1.2) ->
        row ∈ sfx_historical_orders (tables st) \/
        exists l, present (d_l data) = Some l /\
          order_alert_id row = alertKey (d_id data) l) /\
     (d_id data = Some alertId ->
      is_Some (selectOrder (tables r.1.2) (Some alertId) login) ->
      is_Some (selectOrder (tables st) (Some alertId) login)) /\
     (is_Some (selectOrder (tables r.1.2) (Some alertId) login) ->
      is_Some (selectOrder (tables st) (Some alertId) login) \/
      exists l, present (d_l data) = Some l /\ alertId = alertKey (d_id data) l)).
Proof.
split; [apply alertKey_differs |].
split; [apply selectOrder_is_Some |]. split.
- unfold orderExistsWithAlertId. destruct available; [| reflexivity].
  destruct (selectProcessed db (Some alertId) login) as [r |];
    [rewrite bool_decide_eq_true_2 by (eexists; reflexivity); reflexivity |].
  rewrite (bool_decide_eq_false_2 (is_Some None)) by (intros [? ?]; discriminate).
  destruct (selectOrder db (Some alertId) login) as [r |];
    [rewrite bool_decide_eq_true_2 by (eexists; reflexivity); reflexivity |].
  rewrite (bool_decide_eq_false_2 (is_Some None)) by (intros [? ?]; discriminate).
  reflexivity.
- intros env data st. cbv zeta.
  destruct (processWebhookData_orders env data st) as [Hdone Hrow]. cbv zeta in Hdone, Hrow.
  assert (Hfound :
    is_Some (selectOrder (tables (processWebhookData env data st).1.2) (Some alertId) login) ->
    is_Some (selectOrder (tables st) (Some alertId) login) \/
    exists l, present (d_l data) = Some l /\ alertId = alertKey (d_id data) l).
  { intros Hsome. apply selectOrder_is_Some in Hsome as (row & Hin & Hid & Hl).
    destruct (Hrow row Hin) as [Hold | (l & Hlogin & Hkey)].
    - left. apply selectOrder_is_Some. exists row. split; [exact Hold |]. split; assumption.
    - right. exists l. split; [exact Hlogin |]. rewrite <- Hid. exact Hkey. }
  split; [exact Hdone |]. split; [exact Hrow |]. split; [| exact Hfound].
  intros Hid Hsome. destruct (Hfound Hsome) as [Hold | (l & _ & Hkey)]; [exact Hold |].
  rewrite Hid in Hkey. exfalso. exact (alertKey_differs alertId l (eq_sym Hkey)).
Qed.

End HistoricalFallback.

Section RetryLoop.
Import Orchestrator.

Variables (env : Environment) (args : TradeArgs).

(** An attempt fetches market data once, first, places at most one order and
    never waits. *)
Lemma attemptTrade_actions k :
  (attemptTrade env args k).2 = [FetchMarketData k] \/
  exists request,
    (attemptTrade env args k).2 = [FetchMarketData k; PlaceTrade k request] /\
    (attemptTrade env args k).1
    = match placeTradeAt env k request with
      | inl result => inl result
      | inr e => inr (PlaceTradeError e)
      end.
Proof.
unfold attemptTrade.
destruct (marketDataAt env k) as [md | e]; [| left; reflexivity].
destruct (Quotes.isStale md); [left; reflexivity |].
destruct (Instruments.validatePriceLevels _ _ _ _ _); [| left; reflexivity].
match goal with
| |- context [placeTradeAt env k ?r] =>
    right; exists r; destruct (placeTradeAt env k r); split; reflexivity
end.
Qed.

Lemma attemptTrade_invalid k e :
  (attemptTrade env args k).1 = inr (InvalidPriceLevels e) ->
  (attemptTrade env args k).2 = [FetchMarketData k].
Proof.
intros H. destruct (attemptTrade_actions k) as [Ha | (request & Ha & Hr)]; [exact Ha |].
rewrite Hr in H. destruct (placeTradeAt env k request); discriminate H.
Qed.








End RetryLoop.

Section RetryBehaviour.
Import Orchestrator.

Lemma attemptTrade_starts (env : Environment) (args : TradeArgs) k :
  exists more, (attemptTrade env args k).2 = FetchMarketData k :: more.
Proof.
destruct (attemptTrade_actions env args k) as [-> | (request & -> & _)]; eexists; reflexivity.
Qed.



(** C5, as stated, fails: a buy on EURUSD with a take profit of 5 pips fails
    the validation of its price levels at the first attempt, and the
    orchestrator goes on to a second and a third attempt of the sequence. *)
Lemma C5_validation_failure_runs_three_attempts :
  let quote := {| Quotes.symbol := "EURUSD"; Quotes.bid := 1.0998; Quotes.ask := 1.1;
                  Quotes.timestamp := 1700000000000; Quotes.isStale := false |} in
  let filled := {| order_id := 77; order_symbol := "EURUSD"; order_side := "BUY";
                   order_volume := 0.01; order_openPrice := 1.1; order_takeProfit := 1.105;
                   order_stopLoss := None; spreadAtOpen := 2 |} in
  let env := {| marketDataAt := fun _ => inl quote; placeTradeAt := fun _ _ => inl filled |} in
  let args := {| side := "BUY"; amount := 0.01; loginNumber := "123"; takeProfitPips := 5;
                 stopLossPips := None; reality := "DEMO"; symbol := "EURUSD";
                 useSecondaryApi := false |} in
  (exists d, (attemptTrade env args 1).1
             = inr (InvalidPriceLevels (Instruments.TPDistanceBelowMinimum d 10))) /\
  (placeTradeWithRetry env args defaultMaxRetries).2
  = [FetchMarketData 1; Wait 2000; FetchMarketData 2; Wait 4000; FetchMarketData 3] /\
  fetches (placeTradeWithRetry env args defaultMaxRetries).2 = 3%nat.
Proof.
intros quote filled env args.
split; [eexists; vm_compute; reflexivity |].
split; vm_compute; reflexivity.
Qed.

(** C5, amended.  An attempt whose price levels fail the validation places
    no order and ends like any other failed attempt: the error is caught by
    the retry loop, so after a failed validation at the first attempt the
    orchestrator waits 2 s and fetches market data again, and when the
    validation fails at all three attempts it throws the error of the third
    one without having placed an order. *)
Theorem C5_validation_failure_is_retried (env : Environment) (args : TradeArgs) :
  let run := placeTradeWithRetry env args defaultMaxRetries in
  (forall k e,
     (attemptTrade env args k).1 = inr (InvalidPriceLevels e) ->
     (attemptTrade env args k).2 = [FetchMarketData k]) /\
  (forall e1,
     (attemptTrade env args 1).1 = inr (InvalidPriceLevels e1) ->
     exists more, run.2 = FetchMarketData 1 :: Wait 2000 :: FetchMarketData 2 :: more) /\
  (forall e1 e2 e3,
     (attemptTrade env args 1).1 = inr (InvalidPriceLevels e1) ->
     (attemptTrade env args 2).1 = inr (InvalidPriceLevels e2) ->
     (attemptTrade env args 3).1 = inr (InvalidPriceLevels e3) ->
     run = (inr (InvalidPriceLevels e3),
            [FetchMarketData 1; Wait 2000; FetchMarketData 2; Wait 4000; FetchMarketData 3])).
Proof.
intros run. split; [intros k e; apply attemptTrade_invalid |]. split.
- intros e1 H1. pose proof (attemptTrade_invalid env args 1 e1 H1) as A1.
  destruct (attemptTrade_starts env args 2) as [more2 A2].
  subst run. unfold placeTradeWithRetry, defaultMaxRetries. cbn [placeTradeWithRetry_from].
  destruct (attemptTrade env args 1) as [o1 a1]. simpl in H1, A1. subst o1 a1.
  destruct (attemptTrade env args 2) as [[r2 | e2] a2]; simpl in A2; subst a2.
  + eexists. reflexivity.
  + destruct (attemptTrade env args 3) as [[r3 | e3] a3]; eexists; reflexivity.
- intros e1 e2 e3 H1 H2 H3.
  pose proof (attemptTrade_invalid env args 1 e1 H1) as A1.
  pose proof (attemptTrade_invalid env args 2 e2 H2) as A2.
  pose proof (attemptTrade_invalid env args 3 e3 H3) as A3.
  subst run. unfold placeTradeWithRetry, defaultMaxRetries. cbn [placeTradeWithRetry_from].
  destruct (attemptTrade env args 1) as [o1 a1]. simpl in H1, A1. subst o1 a1.
  destruct (attemptTrade env args 2) as [o2 a2]. simpl in H2, A2. subst o2 a2.
  destruct (attemptTrade env args 3) as [o3 a3]. simpl in H3, A3. subst o3 a3.
  reflexivity.
Qed.

(** The buy on EURUSD with a take profit of 5 pips, on a steady quote. *)
Lemma C5_validation_retry_witness :
  let quote := {| Quotes.symbol := "EURUSD"; Quotes.bid := 1.0998; Quotes.ask := 1.1;
                  Quotes.timestamp := 1700000000000; Quotes.isStale := false |} in
  let filled := {| order_id := 77; order_symbol := "EURUSD"; order_side := "BUY";
                   order_volume := 0.01; order_openPrice := 1.1; order_takeProfit := 1.105;
                   order_stopLoss := None; spreadAtOpen := 2 |} in
  let env := {| marketDataAt := fun _ => inl quote; placeTradeAt := fun _ _ => inl filled |} in
  let args := {| side := "BUY"; amount := 0.01; loginNumber := "123"; takeProfitPips := 5;
                 stopLossPips := None; reality := "DEMO"; symbol := "EURUSD";
                 useSecondaryApi := false |} in
  exists e, placeTradeWithRetry env args defaultMaxRetries
            = (inr (InvalidPriceLevels e),
               [FetchMarketData 1; Wait 2000; FetchMarketData 2; Wait 4000; FetchMarketData 3]).
Proof.
intros quote filled env args.
destruct (C5_validation_failure_is_retried env args) as (_ & _ & H).
eexists. eapply H; vm_compute; reflexivity.
Defined.

End RetryBehaviour.

Section QuoteFreshness.
Import Quotes.
Local Open Scope mgr_scope.

Lemma bind_Returned {A B} (m : M A) (k : A -> M B) w b w' :
  bind m k w = (Returned b, w') ->
  exists a w1, m w = (Returned a, w1) /\ k a w1 = (Returned b, w').
Proof.
unfold bind. destruct (m w) as [[a | e |] w1]; intros H; try discriminate H.
exists a, w1. split; [reflexivity | exact H].
Qed.

Lemma try_catch_Returned {A} (m : M A) (handler : Error -> M A) w a w' :
  try_catch m handler w = (Returned a, w') ->
  m w = (Returned a, w') \/
  exists e w1, m w = (Thrown e, w1) /\ handler e w1 = (Returned a, w').
Proof.
unfold try_catch. destruct (m w) as [[a0 | e |] w1]; intros H.
- left. exact H.
- right. exists e, w1. split; [reflexivity | exact H].
- discriminate H.
Qed.

(** A quote without a timestamp is stale at no time. *)
Lemma isQuoteStale_nan t : isQuoteStale t PrimFloat.nan = false.
Proof.
unfold isQuoteStale.
rewrite FloatAxioms.ltb_spec, FloatAxioms.sub_spec.
change (Prim2SF PrimFloat.nan) with S754_nan.
generalize (Prim2SF (Js.Z2float t)). intros x.
generalize (Prim2SF (Js.Z2float PRICE_STALE_THRESHOLD)). intros y.
assert (Hsub : SF64sub x S754_nan = S754_nan)
  by (destruct x as [s | s | | s m e]; reflexivity).
rewrite Hsub. destruct y as [s | s | | s m e]; try reflexivity; destruct s; reflexivity.
Qed.

Lemma freshQuote_Some t c sym q :
  freshQuote t c sym = Some q -> isQuoteStale t (q_timestamp q) = false.
Proof.
unfold freshQuote. destruct (quotes c !! sym) as [existing |]; [| discriminate].
destruct (isQuoteStale t (q_timestamp existing)) eqn:Hs; [discriminate |].
intros [= <-]. exact Hs.
Qed.

(** The primitive steps that leave the clock alone. *)
Lemma Date_now_Returned w t w' : Date_now w = (Returned t, w') -> t = now w /\ w' = w.
Proof. unfold Date_now. intros [= <- <-]. split; reflexivity. Qed.

Lemma set_connection_Returned key c w u w' :
  set_connection key c w = (Returned u, w') -> now w' = now w.
Proof. unfold set_connection. intros [= _ <-]. reflexivity. Qed.

Lemma get_connection_Returned key w r w' :
  get_connection key w = (Returned r, w') -> w' = w.
Proof. unfold get_connection. intros [= _ <-]. reflexivity. Qed.

Lemma ret_Returned {A} (a b : A) w w' : ret a w = (Returned b, w') -> a = b /\ w' = w.
Proof. unfold ret. intros [= <- <-]. split; reflexivity. Qed.

(** A round of [connectForOrder] that returns market data has just checked
    its quote against the clock. *)
Lemma connectForOrder_try_fresh sym w md w' :
  connectForOrder_try sym w = (Returned md, w') ->
  isQuoteStale (now w') (timestamp md) = false /\ isStale md = false.
Proof.
unfold connectForOrder_try. intros H.
apply bind_Returned in H as (c0 & w1 & _ & H).
apply bind_Returned in H as (u & w2 & Hset & H).
apply bind_Returned in H as (t1 & w3 & Ht1 & H).
apply Date_now_Returned in Ht1 as [-> ->].
destruct (freshQuote (now w2) _ sym) as [existing |] eqn:Hfresh.
- apply bind_Returned in H as (u' & w4 & Hset' & H).
  apply ret_Returned in H as [<- ->].
  apply set_connection_Returned in Hset'. rewrite Hset'.
  split; [| reflexivity]. simpl. exact (freshQuote_Some _ _ _ _ Hfresh).
- apply bind_Returned in H as (quote & w4 & _ & H).
  apply bind_Returned in H as (t2 & w5 & Ht2 & H).
  apply Date_now_Returned in Ht2 as [-> ->].
  destruct (isQuoteStale (now w4) (q_timestamp quote)) eqn:Hstale; [discriminate H |].
  apply bind_Returned in H as (after & w6 & Hget & H).
  apply get_connection_Returned in Hget as ->.
  apply bind_Returned in H as (u' & w7 & Hafter & H).
  apply ret_Returned in H as [<- ->].
  assert (Hnow : now w7 = now w4).
  { destruct after as [c |].
    - exact (set_connection_Returned _ _ _ _ _ Hafter).
    - apply ret_Returned in Hafter as [_ ->]. reflexivity. }
  rewrite Hnow. split; [exact Hstale | reflexivity].
Qed.

Lemma connectForOrder_from_fresh remaining attempt maxRetries sym lastError w md w' :
  connectForOrder_from remaining attempt maxRetries sym lastError w = (Returned md, w') ->
  isQuoteStale (now w') (timestamp md) = false /\ isStale md = false.
Proof.
revert attempt lastError w. induction remaining as [| remaining IH]; intros attempt lastError w H.
- discriminate H.
- cbn [connectForOrder_from] in H.
  apply try_catch_Returned in H as [H | (e & w1 & _ & H)].
  + exact (connectForOrder_try_fresh _ _ _ _ H).
  + apply bind_Returned in H as (u & w2 & _ & H). exact (IH _ _ _ H).
Qed.

Lemma connectForOrder_fresh sym maxRetries w md w' :
  connectForOrder sym maxRetries w = (Returned md, w') ->
  isQuoteStale (now w') (timestamp md) = false /\ isStale md = false.
Proof. apply connectForOrder_from_fresh. Qed.

Lemma forceReconnectForSymbol_fresh sym w md w' :
  forceReconnectForSymbol sym w = (Returned md, w') ->
  isQuoteStale (now w') (timestamp md) = false /\ isStale md = false.
Proof.
unfold forceReconnectForSymbol. intros H.
apply bind_Returned in H as (existing & w1 & _ & H).
apply bind_Returned in H as (u & w2 & _ & H).
exact (connectForOrder_fresh _ _ _ _ _ H).
Qed.

Lemma getMarketDataWithRetry_fresh sym w md w' :
  getMarketDataWithRetry sym w = (Returned md, w') ->
  isQuoteStale (now w') (timestamp md) = false /\ isStale md = false.
Proof.
unfold getMarketDataWithRetry. intros H.
apply bind_Returned in H as (first & w1 & Hfirst & H).
destruct (isMarketDataValid first); simpl in H;
  [| exact (forceReconnectForSymbol_fresh _ _ _ _ H)].
apply bind_Returned in H as (t & w2 & Ht & H).
apply Date_now_Returned in Ht as [-> ->].
destruct (isStale first || isQuoteStale (now w1) (timestamp first)) eqn:Hcheck.
- exact (forceReconnectForSymbol_fresh _ _ _ _ H).
- apply ret_Returned in H as [<- ->].
  apply orb_false_iff in Hcheck as [Hs Hq]. split; assumption.
Qed.

Lemma getQuoteForSymbol_fresh w sym q :
  getQuoteForSymbol w sym = Some q -> isQuoteStale (now w) (q_timestamp q) = false.
Proof.
unfold getQuoteForSymbol. intros H.
destruct (list_find is_Some _) as [[i found] |] eqn:Hfind; [| discriminate H].
simpl in H. subst found.
apply list_find_Some in Hfind as (Hi & _ & _).
apply list_lookup_fmap_Some in Hi as (c & Hc & _).
destruct (bool_decide (sym ∈ symbols c)); [| discriminate Hc].
symmetry in Hc. exact (freshQuote_Some _ _ _ _ Hc).
Qed.

(** A stale quote that ends the wait is an error of the wait. *)
Lemma awaitQuoteUpdate_stale key c sym w elapsed own q rest :
  script w = QuoteEvent elapsed own q :: rest ->
  0 <= elapsed < QUOTE_TIMEOUT ->
  fq_s q = sym ->
  (own = true -> sym ∈ symbols c) ->
  isQuoteStale (now w + elapsed) (feed_timestamp (fq_t q)) = true ->
  exists w',
    awaitQuoteUpdate key c sym QUOTE_TIMEOUT w
    = (Thrown (ReceivedStaleQuote sym
                 (Js.Z2float (now w + elapsed) - feed_timestamp (fq_t q))%float), w').
Proof.
intros Hscript Hel Hsym Hown Hs.
unfold awaitQuoteUpdate, bind, set_connection, next_response. simpl. rewrite Hscript.
assert (Hguard : (0 <=? elapsed) && (elapsed <? QUOTE_TIMEOUT) && bool_decide (fq_s q = sym)
                 && (negb own || bool_decide (sym ∈ symbols c)) = true).
{ rewrite !andb_true_iff. repeat split.
  - apply Z.leb_le. lia.
  - apply Z.ltb_lt. lia.
  - apply bool_decide_eq_true. exact Hsym.
  - destruct own; [| reflexivity]. simpl. apply bool_decide_eq_true. apply Hown. reflexivity. }
rewrite Hguard. unfold elapse, Date_now. simpl.
destruct own; unfold set_connection, ret; simpl; rewrite Hs; eexists; reflexivity.
Qed.

(** C3: the code departs from it on a quote that comes without a timestamp.
    The freshness threshold is 10 seconds, and what [connectForOrder],
    [getMarketDataWithRetry] and [getQuoteForSymbol] return has passed the
    check [(Date.now() - timestamp) > 10000] with the answer [false] on the
    clock at the return; a quote event that the check finds stale makes the
    wait throw.  But the check answers [false] at every time for a quote
    whose message had no field [t].  In the first execution below the feed
    sends such a quote to each of two new connections: the first is refused
    by [isMarketDataValid], the second comes from the forced reconnection
    and is returned by [getMarketDataWithRetry] with no timestamp.  In the
    second execution [connectForOrder] is called again 25 seconds after the
    quote was received, and returns the stored quote. *)
Theorem C3_quote_without_timestamp_is_returned :
  let untimed := {| fq_s := "EURUSD"; fq_b := 1.0998; fq_a := 1.1; fq_t := PrimFloat.nan |} in
  let returned := {| symbol := "EURUSD"; bid := 1.0998; ask := 1.1;
                     timestamp := PrimFloat.nan; isStale := false |} in
  let w0 := {| connections := []; totalReconnects := 0; now := 1700000000000;
               script := [Opened 200; QuoteEvent 300 true untimed;
                          Opened 50; QuoteEvent 100 true untimed] |} in
  let w1 := {| connections := []; totalReconnects := 0; now := 1700000000000;
               script := [Opened 200; QuoteEvent 300 true untimed] |} in
  PRICE_STALE_THRESHOLD = 10000 /\
  (getMarketDataWithRetry "EURUSD" w0).1 = Returned returned /\
  now (getMarketDataWithRetry "EURUSD" w0).2 = 1700000000650 /\
  (let twice := (connectForOrder "EURUSD" MAX_ORDER_RETRIES ;; elapse 25000 ;;
                 connectForOrder "EURUSD" MAX_ORDER_RETRIES) w1 in
   twice.1 = Returned returned /\ now twice.2 = 1700000025500 /\ script twice.2 = []) /\
  (forall t, isQuoteStale t (timestamp returned) = false) /\
  (forall sym maxRetries w md w',
     connectForOrder sym maxRetries w = (Returned md, w') ->
     isQuoteStale (now w') (timestamp md) = false /\ isStale md = false) /\
  (forall sym w md w',
     getMarketDataWithRetry sym w = (Returned md, w') ->
     isQuoteStale (now w') (timestamp md) = false /\ isStale md = false) /\
  (forall w sym q,
     getQuoteForSymbol w sym = Some q -> isQuoteStale (now w) (q_timestamp q) = false) /\
  (forall key c sym w elapsed own q rest,
     script w = QuoteEvent elapsed own q :: rest ->
     0 <= elapsed < QUOTE_TIMEOUT ->
     fq_s q = sym ->
     (own = true -> sym ∈ symbols c) ->
     isQuoteStale (now w + elapsed) (feed_timestamp (fq_t q)) = true ->
     exists w',
       awaitQuoteUpdate key c sym QUOTE_TIMEOUT w
       = (Thrown (ReceivedStaleQuote sym
                    (Js.Z2float (now w + elapsed) - feed_timestamp (fq_t q))%float), w')).
Proof.
cbv zeta.
split; [reflexivity |]. split; [vm_compute; reflexivity |].
split; [vm_compute; reflexivity |].
split; [repeat split; vm_compute; reflexivity |].
split; [intros t; apply isQuoteStale_nan |].
split; [exact connectForOrder_fresh |].
split; [exact getMarketDataWithRetry_fresh |].
split; [exact getQuoteForSymbol_fresh | exact awaitQuoteUpdate_stale].
Qed.

End QuoteFreshness.

Section QuoteValidity.
Import Quotes.
Local Open Scope mgr_scope.

(** What [isMarketDataValid] accepts: both prices are numbers other than
    zero, neither is at or below zero, the ask is not at or below the bid, the
    timestamp is a number above zero, and the spread is not above 5 % of the
    middle price. *)
Lemma isMarketDataValid_true md :
  isMarketDataValid md = true ->
  Js.truthy (bid md) = true /\ Js.truthy (ask md) = true /\
  (bid md <=? 0)%float = false /\ (ask md <=? 0)%float = false /\
  (ask md <=? bid md)%float = false /\
  Js.truthy (timestamp md) = true /\ (timestamp md <=? 0)%float = false /\
  (5 <? (ask md - bid md) / ((bid md + ask md) / 2) * 100)%float = false.
Proof.
unfold isMarketDataValid.
destruct (negb (Js.truthy (bid md)) || negb (Js.truthy (ask md))
          || (bid md <=? 0)%float || (ask md <=? 0)%float) eqn:H1; [discriminate |].
destruct (ask md <=? bid md)%float eqn:H2; [discriminate |].
destruct (negb (Js.truthy (timestamp md)) || (timestamp md <=? 0)%float) eqn:H3;
  [discriminate |].
destruct (5 <? _)%float eqn:H4; [discriminate |]. intros _.
apply orb_false_iff in H1 as [H1 Ha]. apply orb_false_iff in H1 as [H1 Hb].
apply orb_false_iff in H1 as [Htb Hta].
apply orb_false_iff in H3 as [Htt Ht0].
apply negb_false_iff in Htb, Hta, Htt.
repeat split; assumption.
Qed.

(** On the direct path the data that [getMarketDataWithRetry] returns have
    passed [isMarketDataValid]. *)
Lemma getMarketDataWithRetry_direct sym w first w1 :
  connectForOrder sym MAX_ORDER_RETRIES w = (Returned first, w1) ->
  isMarketDataValid first = true ->
  isQuoteStale (now w1) (timestamp first) = false ->
  getMarketDataWithRetry sym w = (Returned first, w1).
Proof.
intros Hfirst Hvalid Hfresh. unfold getMarketDataWithRetry, bind.
rewrite Hfirst, Hvalid. simpl. unfold Date_now. rewrite Hfresh.
destruct (connectForOrder_fresh _ _ _ _ _ Hfirst) as [_ ->]. reflexivity.
Qed.

(** C9 fails on the forced-reconnection path.  The first quote has a zero
    bid, so [getMarketDataWithRetry] forces a reconnection; the quote that the
    new connection delivers has its ask below its bid, and it is returned
    without passing [isMarketDataValid]. *)
Lemma C9_forced_reconnection_returns_unvalidated_data :
  let inverted := {| symbol := "EURUSD"; bid := 1.3; ask := 1.2;
                     timestamp := 1700000000500; isStale := false |} in
  let w0 := {| connections := []; totalReconnects := 0; now := 1700000000000;
               script := [Opened 200;
                          QuoteEvent 300 true
                            {| fq_s := "EURUSD"; fq_b := 0; fq_a := 1.1002;
                               fq_t := 1700000000400 |};
                          Opened 50;
                          QuoteEvent 100 true
                            {| fq_s := "EURUSD"; fq_b := 1.3; fq_a := 1.2;
                               fq_t := 1700000000500 |}] |} in
  (getMarketDataWithRetry "EURUSD" w0).1 = Returned inverted /\
  isMarketDataValid inverted = false /\
  (ask inverted <=? bid inverted)%float = true.
Proof. repeat split; vm_compute; reflexivity. Qed.

End QuoteValidity.

Section MutualExclusion.
Import Serializer.
Import Invariants.

Lemma holders_app t1 t2 held :
  holders (t1 ++ t2) held = holders t1 held ≫= holders t2.
Proof.
revert held. induction t1 as [| [i l | i l] t1 IH]; intros held; simpl.
- reflexivity.
- destruct (held !! l); [reflexivity | apply IH].
- case_bool_decide; [apply IH | reflexivity].
Qed.

Lemma setPhase_lookup i p cs c j :
  cs !! i = Some c ->
  setPhase i p cs !! j
  = if decide (i = j) then Some {| login := login c; phase := p |} else cs !! j.
Proof.
intros Hi. unfold setPhase. rewrite Hi.
destruct (decide (i = j)) as [<- | Hne].
- apply list_lookup_insert_eq. apply lookup_lt_Some in Hi. exact Hi.
- apply list_lookup_insert_ne. exact Hne.
Qed.

Lemma consistent_start logins : consistent (start logins).
Proof.
exists ∅. simpl. split; [reflexivity |]. split.
{ intros l i. rewrite lookup_empty. split; [discriminate |].
  intros H. apply list_lookup_fmap_Some in H as (x & Hx & _). discriminate Hx. }
split.
{ intros l m H. unfold mutexFor in H. simpl in H. rewrite lookup_empty in H. discriminate H. }
split; [intros l _; apply lookup_empty |].
split.
{ intros i l error H. apply list_lookup_fmap_Some in H as (x & Hx & _). discriminate Hx. }
split; [intros l mutex H; rewrite lookup_empty in H; discriminate H |].
split; [intros l l' mutex H; rewrite lookup_empty in H; discriminate H |].
intros i l [H | H]; apply list_lookup_fmap_Some in H as (x & Hx & _); discriminate Hx.
Qed.

Lemma Call_eta (c : Call) : {| login := login c; phase := phase c |} = c.
Proof. destruct c. reflexivity. Qed.

(** The state of the mutex of a login after the object of one login has
    changed: the other logins have other objects. *)
Lemma mutexFor_update w l mutex m' cs mo tr l' :
  consistent w ->
  loginMutexes w !! l = Some mutex ->
  mutexFor {| loginMutexes := loginMutexes w; objects := <[mutex := m']> (objects w);
              calls := cs; mutexOf := mo; trace := tr |} l'
  = if decide (l' = l) then Some m' else mutexFor w l'.
Proof.
intros (held & _ & _ & _ & _ & _ & Hvalid & Hinj & _) Hl. unfold mutexFor. simpl.
destruct (decide (l' = l)) as [-> | Hne].
- rewrite Hl. simpl. apply list_lookup_insert_eq. exact (Hvalid l mutex Hl).
- destruct (loginMutexes w !! l') as [mutex' |] eqn:Hl'; [| reflexivity]. simpl.
  apply list_lookup_insert_ne. intros <-. apply Hne. exact (Hinj l' l mutex Hl' Hl).
Qed.

(** [getMutex] on consistent locks: the mutex that it returns is the one
    that the map holds for the login from then on, and a new mutex is
    free. *)
Lemma consistent_getMutex l w :
  consistent w ->
  consistent (getMutex l w).2 /\
  loginMutexes (getMutex l w).2 !! l = Some (getMutex l w).1 /\
  (mutexFor w l = None -> mutexFor (getMutex l w).2 l = Some {| locked := false; waiting := [] |}) /\
  (forall m, mutexFor w l = Some m -> mutexFor (getMutex l w).2 l = Some m) /\
  (forall l', l' <> l -> mutexFor (getMutex l w).2 l' = mutexFor w l') /\
  calls (getMutex l w).2 = calls w /\ trace (getMutex l w).2 = trace w /\
  mutexOf (getMutex l w).2 = mutexOf w.
Proof.
intros Hc. unfold getMutex. destruct (loginMutexes w !! l) as [mutex |] eqn:Hl; simpl.
- split; [exact Hc |]. split; [exact Hl |].
  split.
  { intros Hnone. exfalso. destruct Hc as (held & _ & _ & _ & _ & _ & Hvalid & _).
    unfold mutexFor in Hnone. rewrite Hl in Hnone. simpl in Hnone.
    apply lookup_ge_None in Hnone. pose proof (Hvalid l mutex Hl). lia. }
  split; [intros m Hm; exact Hm |]. repeat split.
- assert (Hview : forall l',
            mutexFor {| loginMutexes := <[l := length (objects w)]> (loginMutexes w);
                        objects := objects w ++ [{| locked := false; waiting := [] |}];
                        calls := calls w; mutexOf := mutexOf w; trace := trace w |} l'
            = if decide (l' = l) then Some {| locked := false; waiting := [] |}
              else mutexFor w l').
  { destruct Hc as (held & _ & _ & _ & _ & _ & Hvalid & _).
    intros l'. unfold mutexFor. simpl. destruct (decide (l' = l)) as [-> | Hne].
    - rewrite lookup_insert_eq. simpl. rewrite lookup_app_r by lia.
      rewrite Nat.sub_diag. reflexivity.
    - rewrite lookup_insert_ne by congruence.
      destruct (loginMutexes w !! l') as [mutex' |] eqn:Hl'; [| reflexivity]. simpl.
      apply lookup_app_l. exact (Hvalid l' mutex' Hl'). }
  split.
  2: { split; [apply lookup_insert_eq |]. split.
       - intros _. rewrite Hview. destruct (decide (l = l)); [reflexivity | contradiction].
       - split; [intros m Hm; unfold mutexFor in Hm; rewrite Hl in Hm; discriminate Hm |].
         split; [| repeat split].
         intros l' Hne. rewrite Hview. destruct (decide (l' = l)); [contradiction | reflexivity]. }
  destruct Hc as (held & Htrace & Hheld & Hmutex & Hnone & Hleft & Hvalid & Hinj & Hown).
  exists held. simpl. split; [exact Htrace |]. split; [exact Hheld |]. split.
  { intros l' m Hm. rewrite Hview in Hm. destruct (decide (l' = l)) as [-> | Hne].
    - injection Hm as <-. simpl. rewrite (Hnone l Hl).
      split; [split; [discriminate | intros [? ?]; discriminate] |].
      split; [reflexivity |]. split; [apply NoDup_nil_2 |].
      intros i Hi. apply elem_of_nil in Hi. contradiction.
    - exact (Hmutex l' m Hm). }
  split.
  { intros l' Hl'. destruct (decide (l' = l)) as [-> | Hne].
    - rewrite lookup_insert_eq in Hl'. discriminate Hl'.
    - rewrite lookup_insert_ne in Hl' by congruence. exact (Hnone l' Hl'). }
  split; [exact Hleft |]. split.
  { intros l' mutex Hm. rewrite length_app. simpl. destruct (decide (l' = l)) as [-> | Hne].
    - rewrite lookup_insert_eq in Hm. injection Hm as <-. lia.
    - rewrite lookup_insert_ne in Hm by congruence. pose proof (Hvalid l' mutex Hm). lia. }
  split.
  { intros l1 l2 mutex H1 H2.
    destruct (decide (l1 = l)) as [-> | Hne1]; destruct (decide (l2 = l)) as [-> | Hne2].
    - reflexivity.
    - rewrite lookup_insert_eq in H1. injection H1 as <-.
      rewrite lookup_insert_ne in H2 by congruence. pose proof (Hvalid l2 _ H2). lia.
    - rewrite lookup_insert_eq in H2. injection H2 as <-.
      rewrite lookup_insert_ne in H1 by congruence. pose proof (Hvalid l1 _ H1). lia.
    - rewrite lookup_insert_ne in H1, H2 by congruence. exact (Hinj l1 l2 mutex H1 H2). }
  intros i l' Hi. destruct (Hown i l' Hi) as [Hsome Heq]. split; [exact Hsome |].
  destruct (decide (l' = l)) as [-> | Hne].
  + rewrite Heq, Hl in Hsome. destruct Hsome as [? Hsome]. discriminate Hsome.
  + rewrite lookup_insert_ne by congruence. exact Heq.
Qed.

(** A call that has not started may note a mutex as its own. *)
Lemma consistent_note w i l mutex :
  consistent w ->
  calls w !! i = Some {| login := l; phase := NotStarted |} ->
  consistent {| loginMutexes := loginMutexes w; objects := objects w; calls := calls w;
                mutexOf := <[i := mutex]> (mutexOf w); trace := trace w |}.
Proof.
intros (held & Htrace & Hheld & Hmutex & Hnone & Hleft & Hvalid & Hinj & Hown) Hi.
exists held. simpl. repeat (split; [assumption |]).
intros j l' Hj. assert (Hne : i <> j).
{ intros <-. rewrite Hi in Hj. destruct Hj as [Hj | Hj]; discriminate Hj. }
rewrite lookup_insert_ne by exact Hne. exact (Hown j l' Hj).
Qed.

(** A call that has not started takes a free lock. *)
Lemma consistent_take w i l mutex m :
  consistent w ->
  calls w !! i = Some {| login := l; phase := NotStarted |} ->
  loginMutexes w !! l = Some mutex ->
  mutexOf w !! i = Some mutex ->
  objects w !! mutex = Some m ->
  locked m = false ->
  consistent
    {| loginMutexes := loginMutexes w;
       objects := <[mutex := {| locked := true; waiting := waiting m |}]> (objects w);
       calls := setPhase i Critical (calls w);
       mutexOf := mutexOf w;
       trace := trace w ++ [Acquired i l] |}.
Proof.
intros Hc Hi Hlm Hmo Hm Hfree.
pose proof (fun m' cs mo tr l' => mutexFor_update w l mutex m' cs mo tr l' Hc Hlm) as Hview.
destruct Hc as (held & Htrace & Hheld & Hmutex & Hnone & Hleft & Hvalid & Hinj & Hown).
assert (Hfor : mutexFor w l = Some m) by (unfold mutexFor; rewrite Hlm; exact Hm).
assert (Hwait : waiting m = []) by (apply (Hmutex l m Hfor); exact Hfree).
assert (Hl : held !! l = None).
{ destruct (Hmutex l m Hfor) as (Hlocked & _).
  destruct (held !! l) eqn:Hh; [| reflexivity].
  rewrite Hfree in Hlocked. destruct Hlocked as [_ Hlocked].
  discriminate Hlocked. eexists. reflexivity. }
exists (<[l := i]> held). simpl. split.
{ rewrite holders_app, Htrace. simpl. rewrite Hl. reflexivity. }
split.
{ intros l' j. rewrite (setPhase_lookup _ _ _ _ _ Hi). simpl.
  destruct (decide (l = l')) as [<- | Hne].
  - rewrite lookup_insert_eq. destruct (decide (i = j)) as [<- | Hij].
    + split; reflexivity.
    + rewrite <- Hheld, Hl. split; [intros [= ?]; contradiction | discriminate].
  - rewrite lookup_insert_ne by exact Hne. destruct (decide (i = j)) as [<- | Hij].
    + rewrite Hheld, Hi. split; [discriminate | intros [= ?]; contradiction].
    + apply Hheld. }
split.
{ intros l' m' Hm'. rewrite Hview in Hm'. destruct (decide (l' = l)) as [-> | Hne].
  - injection Hm' as <-. simpl. rewrite lookup_insert_eq, Hwait.
    split; [split; [intros _; eexists; reflexivity | reflexivity] |].
    split; [reflexivity |]. split; [apply NoDup_nil_2 |].
    intros j Hj. apply elem_of_nil in Hj. contradiction.
  - rewrite lookup_insert_ne by congruence.
    destruct (Hmutex l' m' Hm') as (H1 & H2 & H3 & H4).
    split; [exact H1 |]. split; [exact H2 |]. split; [exact H3 |].
    intros j Hj. rewrite (setPhase_lookup _ _ _ _ _ Hi).
    destruct (decide (i = j)) as [<- | Hij]; [| apply H4; exact Hj].
    apply H4 in Hj. rewrite Hi in Hj. discriminate Hj. }
split.
{ intros l' Hl'. destruct (decide (l = l')) as [<- | Hne].
  - rewrite Hlm in Hl'. discriminate Hl'.
  - rewrite lookup_insert_ne by exact Hne. apply Hnone. exact Hl'. }
split.
{ intros j l' error Hj. rewrite (setPhase_lookup _ _ _ _ _ Hi) in Hj.
  destruct (decide (i = j)) as [<- | Hij]; [discriminate Hj |].
  apply elem_of_app. left. exact (Hleft _ _ _ Hj). }
split; [intros l' mutex' Hl'; rewrite length_insert; exact (Hvalid l' mutex' Hl') |].
split; [exact Hinj |].
intros j l' Hj. rewrite !(setPhase_lookup _ _ _ _ _ Hi) in Hj. simpl in Hj.
destruct (decide (i = j)) as [<- | Hij].
- destruct Hj as [Hj | Hj]; [discriminate Hj |]. injection Hj as <-.
  rewrite Hmo, Hlm. split; [eexists; reflexivity | reflexivity].
- exact (Hown j l' Hj).
Qed.

(** A call that has not started queues on a held lock. *)
Lemma consistent_queue w i l mutex m :
  consistent w ->
  calls w !! i = Some {| login := l; phase := NotStarted |} ->
  loginMutexes w !! l = Some mutex ->
  mutexOf w !! i = Some mutex ->
  objects w !! mutex = Some m ->
  locked m = true ->
  consistent
    {| loginMutexes := loginMutexes w;
       objects := <[mutex := {| locked := true; waiting := waiting m ++ [i] |}]> (objects w);
       calls := setPhase i Waiting (calls w);
       mutexOf := mutexOf w;
       trace := trace w |}.
Proof.
intros Hc Hi Hlm Hmo Hm Hlk.
pose proof (fun m' cs mo tr l' => mutexFor_update w l mutex m' cs mo tr l' Hc Hlm) as Hview.
destruct Hc as (held & Htrace & Hheld & Hmutex & Hnone & Hleft & Hvalid & Hinj & Hown).
assert (Hfor : mutexFor w l = Some m) by (unfold mutexFor; rewrite Hlm; exact Hm).
exists held. simpl. split; [exact Htrace |]. split.
{ intros l' j. rewrite (setPhase_lookup _ _ _ _ _ Hi). simpl.
  destruct (decide (i = j)) as [<- | Hij]; [| apply Hheld].
  rewrite Hheld, Hi. split; discriminate. }
split.
{ intros l' m' Hm'. rewrite Hview in Hm'. destruct (decide (l' = l)) as [-> | Hne].
  - injection Hm' as <-. simpl.
    destruct (Hmutex l m Hfor) as (H1 & H2 & H3 & H4).
    split; [split; [intros _; apply H1; exact Hlk | reflexivity] |].
    split; [discriminate |]. split.
    + apply NoDup_app. split; [exact H3 |]. split; [| apply NoDup_singleton].
      intros x Hx Hx'. apply list_elem_of_singleton in Hx'. subst x.
      apply H4 in Hx. rewrite Hi in Hx. discriminate Hx.
    + intros j Hj. rewrite (setPhase_lookup _ _ _ _ _ Hi). simpl.
      destruct (decide (i = j)) as [<- | Hij]; [reflexivity |].
      apply elem_of_app in Hj as [Hj | Hj]; [apply H4; exact Hj |].
      apply list_elem_of_singleton in Hj. congruence.
  - destruct (Hmutex l' m' Hm') as (H1 & H2 & H3 & H4).
    split; [exact H1 |]. split; [exact H2 |]. split; [exact H3 |].
    intros j Hj. rewrite (setPhase_lookup _ _ _ _ _ Hi).
    destruct (decide (i = j)) as [<- | Hij]; [| apply H4; exact Hj].
    apply H4 in Hj. rewrite Hi in Hj. discriminate Hj. }
split; [exact Hnone |].
split.
{ intros j l' error Hj. rewrite (setPhase_lookup _ _ _ _ _ Hi) in Hj.
  destruct (decide (i = j)) as [<- | Hij]; [discriminate Hj |].
  exact (Hleft _ _ _ Hj). }
split; [intros l' mutex' Hl'; rewrite length_insert; exact (Hvalid l' mutex' Hl') |].
split; [exact Hinj |].
intros j l' Hj. rewrite !(setPhase_lookup _ _ _ _ _ Hi) in Hj. simpl in Hj.
destruct (decide (i = j)) as [<- | Hij].
- destruct Hj as [Hj | Hj]; [| discriminate Hj]. injection Hj as <-.
  rewrite Hmo, Hlm. split; [eexists; reflexivity | reflexivity].
- exact (Hown j l' Hj).
Qed.

Lemma consistent_acquire i w : consistent w -> consistent (acquire i w).
Proof.
intros Hc. unfold acquire.
destruct (calls w !! i) as [[l ph] |] eqn:Hi; [| exact Hc].
destruct ph; try exact Hc.
destruct (consistent_getMutex l w Hc) as (Hc1 & Hl1 & _ & _ & _ & Hcalls & _ & _).
destruct (getMutex l w) as [mutex w1]. simpl in *.
assert (Hi1 : calls w1 !! i = Some {| login := l; phase := NotStarted |})
  by (rewrite Hcalls; exact Hi).
pose proof (consistent_note w1 i l mutex Hc1 Hi1) as Hc2.
set (w2 := {| loginMutexes := loginMutexes w1; objects := objects w1; calls := calls w1;
              mutexOf := <[i := mutex]> (mutexOf w1); trace := trace w1 |}) in *.
unfold Mutex_acquire.
destruct (objects w2 !! mutex) as [m |] eqn:Hm; [| exact Hc2].
destruct (locked m) eqn:Hlk.
- apply (consistent_queue w2 i l mutex m Hc2 Hi1 Hl1); [apply lookup_insert_eq | exact Hm | exact Hlk].
- apply (consistent_take w2 i l mutex m Hc2 Hi1 Hl1); [apply lookup_insert_eq | exact Hm | exact Hlk].
Qed.

(** The worlds that [acquire] makes: the mutex of the login, a new and free
    one when the login had none, is noted by the call, and is taken or
    queued on. *)
Lemma acquire_cases i w l :
  consistent w ->
  calls w !! i = Some {| login := l; phase := NotStarted |} ->
  exists mutex m w2,
    consistent w2 /\ calls w2 = calls w /\ trace w2 = trace w /\
    loginMutexes w2 !! l = Some mutex /\ mutexOf w2 !! i = Some mutex /\
    objects w2 !! mutex = Some m /\
    (mutexFor w l = Some m \/ (mutexFor w l = None /\ m = {| locked := false; waiting := [] |})) /\
    (forall l', l' <> l -> mutexFor w2 l' = mutexFor w l') /\
    acquire i w
    = if locked m then
        {| loginMutexes := loginMutexes w2;
           objects := <[mutex := {| locked := true; waiting := waiting m ++ [i] |}]> (objects w2);
           calls := setPhase i Waiting (calls w2);
           mutexOf := mutexOf w2;
           trace := trace w2 |}
      else
        {| loginMutexes := loginMutexes w2;
           objects := <[mutex := {| locked := true; waiting := waiting m |}]> (objects w2);
           calls := setPhase i Critical (calls w2);
           mutexOf := mutexOf w2;
           trace := trace w2 ++ [Acquired i l] |}.
Proof.
intros Hc Hi. unfold acquire. rewrite Hi.
destruct (consistent_getMutex l w Hc) as (Hc1 & Hl1 & Hnew & Hold & Hframe & Hcalls & Htrace & Hmo).
destruct (getMutex l w) as [mutex w1]. simpl in *.
assert (Hi1 : calls w1 !! i = Some {| login := l; phase := NotStarted |})
  by (rewrite Hcalls; exact Hi).
pose proof (consistent_note w1 i l mutex Hc1 Hi1) as Hc2.
set (w2 := {| loginMutexes := loginMutexes w1; objects := objects w1; calls := calls w1;
              mutexOf := <[i := mutex]> (mutexOf w1); trace := trace w1 |}) in *.
assert (Hm : exists m, objects w1 !! mutex = Some m).
{ destruct Hc1 as (held & _ & _ & _ & _ & _ & Hvalid & _).
  apply lookup_lt_is_Some_2. exact (Hvalid l mutex Hl1). }
destruct Hm as [m Hm]. exists mutex, m, w2.
split; [exact Hc2 |]. split; [exact Hcalls |]. split; [exact Htrace |].
split; [exact Hl1 |]. split; [apply lookup_insert_eq |]. split; [exact Hm |].
assert (Hfor1 : mutexFor w1 l = Some m) by (unfold mutexFor; rewrite Hl1; exact Hm).
split.
{ destruct (mutexFor w l) as [m0 |] eqn:Hfor.
  - left. rewrite (Hold m0 eq_refl) in Hfor1. exact Hfor1.
  - right. split; [reflexivity |]. rewrite (Hnew eq_refl) in Hfor1. congruence. }
split; [exact Hframe |].
unfold Mutex_acquire. change (objects w2) with (objects w1). rewrite Hm. reflexivity.
Qed.

(** What a critical call knows of its mutex. *)
Lemma critical_mutex w i l :
  consistent w ->
  calls w !! i = Some {| login := l; phase := Critical |} ->
  exists mutex m,
    mutexOf w !! i = Some mutex /\ loginMutexes w !! l = Some mutex /\
    objects w !! mutex = Some m /\ locked m = true.
Proof.
intros (held & Htrace & Hheld & Hmutex & Hnone & Hleft & Hvalid & Hinj & Hown) Hi.
destruct (Hown i l (or_intror Hi)) as [[mutex Hmo] Heq].
exists mutex. rewrite Hmo in Heq. symmetry in Heq.
destruct (lookup_lt_is_Some_2 (objects w) mutex (Hvalid l mutex Heq)) as [m Hm].
exists m. split; [exact Hmo |]. split; [exact Heq |]. split; [exact Hm |].
assert (Hfor : mutexFor w l = Some m) by (unfold mutexFor; rewrite Heq; exact Hm).
apply (Hmutex l m Hfor). exists i. apply Hheld. exact Hi.
Qed.

(** The last call of a login leaves: the lock becomes free. *)
Lemma consistent_free w i l error mutex m :
  consistent w ->
  calls w !! i = Some {| login := l; phase := Critical |} ->
  loginMutexes w !! l = Some mutex ->
  objects w !! mutex = Some m ->
  waiting m = [] ->
  consistent
    {| loginMutexes := loginMutexes w;
       objects := <[mutex := {| locked := false; waiting := [] |}]> (objects w);
       calls := setPhase i (Left error) (calls w);
       mutexOf := mutexOf w;
       trace := trace w ++ [Released i l] |}.
Proof.
intros Hc Hi Hlm Hm Hwait.
pose proof (fun m' cs mo tr l' => mutexFor_update w l mutex m' cs mo tr l' Hc Hlm) as Hview.
destruct Hc as (held & Htrace & Hheld & Hmutex & Hnone & Hleft & Hvalid & Hinj & Hown).
assert (Hl : held !! l = Some i) by (apply Hheld; exact Hi).
exists (delete l held). simpl. split.
{ rewrite holders_app, Htrace. simpl. rewrite bool_decide_eq_true_2 by exact Hl. reflexivity. }
split.
{ intros l' j. rewrite (setPhase_lookup _ _ _ _ _ Hi). simpl.
  destruct (decide (l = l')) as [<- | Hne].
  - rewrite lookup_delete_eq. destruct (decide (i = j)) as [<- | Hij]; [split; discriminate |].
    rewrite <- Hheld, Hl. split; [discriminate | intros [= ?]; contradiction].
  - rewrite lookup_delete_ne by exact Hne. destruct (decide (i = j)) as [<- | Hij].
    + rewrite Hheld, Hi. split; [intros [= ?]; contradiction | discriminate].
    + apply Hheld. }
split.
{ intros l' m' Hm'. rewrite Hview in Hm'. destruct (decide (l' = l)) as [-> | Hne].
  - injection Hm' as <-. simpl. rewrite lookup_delete_eq.
    split; [split; [discriminate | intros [? ?]; discriminate] |].
    split; [reflexivity |]. split; [apply NoDup_nil_2 |].
    intros j Hj. apply elem_of_nil in Hj. contradiction.
  - rewrite lookup_delete_ne by congruence.
    destruct (Hmutex l' m' Hm') as (H1 & H2 & H3 & H4).
    split; [exact H1 |]. split; [exact H2 |]. split; [exact H3 |].
    intros j Hj. rewrite (setPhase_lookup _ _ _ _ _ Hi).
    destruct (decide (i = j)) as [<- | Hij]; [| apply H4; exact Hj].
    apply H4 in Hj. rewrite Hi in Hj. discriminate Hj. }
split.
{ intros l' Hl'. destruct (decide (l = l')) as [<- | Hne].
  - apply lookup_delete_eq.
  - rewrite lookup_delete_ne by exact Hne. apply Hnone. exact Hl'. }
split.
{ intros j l' error' Hj. rewrite (setPhase_lookup _ _ _ _ _ Hi) in Hj. simpl in Hj.
  apply elem_of_app. destruct (decide (i = j)) as [<- | Hij].
  - right. injection Hj as <- _. apply list_elem_of_singleton. reflexivity.
  - left. exact (Hleft _ _ _ Hj). }
split; [intros l' mutex' Hl'; rewrite length_insert; exact (Hvalid l' mutex' Hl') |].
split; [exact Hinj |].
intros j l' Hj. rewrite !(setPhase_lookup _ _ _ _ _ Hi) in Hj. simpl in Hj.
destruct (decide (i = j)) as [<- | Hij]; [destruct Hj as [Hj | Hj]; discriminate Hj |].
exact (Hown j l' Hj).
Qed.

(** A call leaves while others wait: the lock passes to the first of them. *)
Lemma consistent_handover w i l error mutex m next rest :
  consistent w ->
  calls w !! i = Some {| login := l; phase := Critical |} ->
  loginMutexes w !! l = Some mutex ->
  objects w !! mutex = Some m ->
  waiting m = next :: rest ->
  consistent
    {| loginMutexes := loginMutexes w;
       objects := <[mutex := {| locked := true; waiting := rest |}]> (objects w);
       calls := setPhase next Critical (setPhase i (Left error) (calls w));
       mutexOf := mutexOf w;
       trace := trace w ++ [Released i l; Acquired next l] |}.
Proof.
intros Hc Hi Hlm Hm Hwait.
pose proof (fun m' cs mo tr l' => mutexFor_update w l mutex m' cs mo tr l' Hc Hlm) as Hview.
destruct Hc as (held & Htrace & Hheld & Hmutex & Hnone & Hleft & Hvalid & Hinj & Hown).
assert (Hfor : mutexFor w l = Some m) by (unfold mutexFor; rewrite Hlm; exact Hm).
assert (Hl : held !! l = Some i) by (apply Hheld; exact Hi).
destruct (Hmutex l m Hfor) as (_ & _ & Hnodup & Hqueued). rewrite Hwait in Hnodup, Hqueued.
assert (Hnext : calls w !! next = Some {| login := l; phase := Waiting |}).
{ apply Hqueued. apply elem_of_cons. left. reflexivity. }
assert (Hin : i <> next) by (intros ->; rewrite Hi in Hnext; discriminate Hnext).
assert (Hnext' : setPhase i (Left error) (calls w) !! next
                 = Some {| login := l; phase := Waiting |}).
{ rewrite (setPhase_lookup _ _ _ _ _ Hi). destruct (decide (i = next)); [contradiction |].
  exact Hnext. }
assert (Hcalls : forall j,
          setPhase next Critical (setPhase i (Left error) (calls w)) !! j
          = if decide (next = j) then Some {| login := l; phase := Critical |}
            else if decide (i = j) then Some {| login := l; phase := Left error |}
            else calls w !! j).
{ intros j. rewrite (setPhase_lookup _ _ _ _ _ Hnext'). simpl.
  destruct (decide (next = j)); [reflexivity |].
  apply (setPhase_lookup _ _ _ _ _ Hi). }
exists (<[l := next]> held). simpl. split.
{ rewrite holders_app, Htrace. simpl. rewrite bool_decide_eq_true_2 by exact Hl.
  rewrite lookup_delete_eq. rewrite insert_delete_eq. reflexivity. }
split.
{ intros l' j. rewrite Hcalls.
  destruct (decide (l = l')) as [<- | Hne].
  - rewrite lookup_insert_eq. destruct (decide (next = j)) as [<- | Hnj]; [split; reflexivity |].
    destruct (decide (i = j)) as [<- | Hij];
      [split; [intros [= ?]; contradiction | discriminate] |].
    rewrite <- Hheld, Hl. split; [intros [= ?]; contradiction | intros [= ?]; contradiction].
  - rewrite lookup_insert_ne by exact Hne.
    destruct (decide (next = j)) as [<- | Hnj].
    + rewrite Hheld, Hnext. split; [discriminate | intros [= ?]; contradiction].
    + destruct (decide (i = j)) as [<- | Hij]; [| apply Hheld].
      rewrite Hheld, Hi. split; [intros [= ?]; contradiction | discriminate]. }
split.
{ intros l' m' Hm'. rewrite Hview in Hm'. destruct (decide (l' = l)) as [-> | Hne].
  - injection Hm' as <-. simpl. rewrite lookup_insert_eq.
    split; [split; [intros _; eexists; reflexivity | reflexivity] |].
    split; [discriminate |].
    apply NoDup_cons in Hnodup as [Hfresh Hnodup].
    split; [exact Hnodup |].
    intros j Hj. rewrite Hcalls.
    destruct (decide (next = j)) as [<- | Hnj]; [contradiction |].
    assert (Hj' : calls w !! j = Some {| login := l; phase := Waiting |}).
    { apply Hqueued. apply elem_of_cons. right. exact Hj. }
    destruct (decide (i = j)) as [<- | Hij]; [rewrite Hi in Hj'; discriminate Hj' | exact Hj'].
  - rewrite lookup_insert_ne by congruence.
    destruct (Hmutex l' m' Hm') as (H1 & H2 & H3 & H4).
    split; [exact H1 |]. split; [exact H2 |]. split; [exact H3 |].
    intros j Hj. rewrite Hcalls. apply H4 in Hj.
    destruct (decide (next = j)) as [<- | Hnj];
      [rewrite Hnext in Hj; injection Hj as Heq; congruence |].
    destruct (decide (i = j)) as [<- | Hij]; [rewrite Hi in Hj; discriminate Hj | exact Hj]. }
split.
{ intros l' Hl'. destruct (decide (l = l')) as [<- | Hne].
  - rewrite Hlm in Hl'. discriminate Hl'.
  - rewrite lookup_insert_ne by exact Hne. apply Hnone. exact Hl'. }
split.
{ intros j l' error' Hj. rewrite Hcalls in Hj. apply elem_of_app.
  destruct (decide (next = j)) as [<- | Hnj]; [discriminate Hj |].
  destruct (decide (i = j)) as [<- | Hij].
  - right. injection Hj as <- _. apply elem_of_cons. left. reflexivity.
  - left. exact (Hleft _ _ _ Hj). }
split; [intros l' mutex' Hl'; rewrite length_insert; exact (Hvalid l' mutex' Hl') |].
split; [exact Hinj |].
intros j l' Hj. rewrite !Hcalls in Hj.
destruct (decide (next = j)) as [<- | Hnj].
- destruct Hj as [Hj | Hj]; [discriminate Hj |]. injection Hj as <-.
  exact (Hown next l (or_introl Hnext)).
- destruct (decide (i = j)) as [<- | Hij]; [destruct Hj as [Hj | Hj]; discriminate Hj |].
  exact (Hown j l' Hj).
Qed.

(** The worlds that [leave] makes. *)
Lemma leave_cases i error w l :
  consistent w ->
  calls w !! i = Some {| login := l; phase := Critical |} ->
  exists mutex m,
    loginMutexes w !! l = Some mutex /\ objects w !! mutex = Some m /\ locked m = true /\
    leave i error w
    = match waiting m with
      | next :: rest =>
          {| loginMutexes := loginMutexes w;
             objects := <[mutex := {| locked := true; waiting := rest |}]> (objects w);
             calls := setPhase next Critical (setPhase i (Left error) (calls w));
             mutexOf := mutexOf w;
             trace := trace w ++ [Released i l; Acquired next l] |}
      | [] =>
          {| loginMutexes := loginMutexes w;
             objects := <[mutex := {| locked := false; waiting := [] |}]> (objects w);
             calls := setPhase i (Left error) (calls w);
             mutexOf := mutexOf w;
             trace := trace w ++ [Released i l] |}
      end.
Proof.
intros Hc Hi. destruct (critical_mutex w i l Hc Hi) as (mutex & m & Hmo & Hlm & Hm & Hlk).
exists mutex, m. split; [exact Hlm |]. split; [exact Hm |]. split; [exact Hlk |].
unfold leave. rewrite Hi, Hmo. unfold Mutex_release. simpl. rewrite Hm.
destruct (waiting m) as [| next rest] eqn:Hwait; [reflexivity |].
destruct Hc as (held & _ & _ & Hmutex & _).
assert (Hfor : mutexFor w l = Some m) by (unfold mutexFor; rewrite Hlm; exact Hm).
destruct (Hmutex l m Hfor) as (_ & _ & _ & Hqueued).
assert (Hnext : calls w !! next = Some {| login := l; phase := Waiting |}).
{ apply Hqueued. rewrite Hwait. apply elem_of_cons. left. reflexivity. }
rewrite (setPhase_lookup _ _ _ _ _ Hi).
destruct (decide (i = next)) as [-> | _]; [rewrite Hi in Hnext; discriminate Hnext |].
rewrite Hnext. reflexivity.
Qed.

Lemma consistent_leave i error w : consistent w -> consistent (leave i error w).
Proof.
intros Hc.
destruct (calls w !! i) as [[l ph] |] eqn:Hi;
  [| unfold leave; rewrite Hi; exact Hc].
destruct ph; try (unfold leave; rewrite Hi; exact Hc).
destruct (leave_cases i error w l Hc Hi) as (mutex & m & Hlm & Hm & _ & ->).
destruct (waiting m) as [| next rest] eqn:Hwait.
- exact (consistent_free w i l error mutex m Hc Hi Hlm Hm Hwait).
- exact (consistent_handover w i l error mutex m next rest Hc Hi Hlm Hm Hwait).
Qed.

Lemma consistent_schedule w moves : consistent w -> consistent (schedule w moves).
Proof.
revert w. induction moves as [| mv moves IH]; intros w Hc; [exact Hc |].
simpl. apply IH. destruct mv as [i | i error]; simpl.
- apply consistent_acquire. exact Hc.
- apply consistent_leave. exact Hc.
Qed.

(** Between two acquisitions of the lock of a login lies the release by the
    first holder. *)
Lemma holders_release_between i l between held held' :
  held !! l = Some i ->
  holders between held = Some held' ->
  held' !! l = None ->
  Released i l ∈ between.
Proof.
revert held. induction between as [| [j l' | j l'] between IH]; intros held Hl Hrun Hfree.
- simpl in Hrun. injection Hrun as <-. rewrite Hl in Hfree. discriminate Hfree.
- simpl in Hrun. destruct (held !! l') eqn:Hl'; [discriminate Hrun |].
  apply elem_of_cons. right. apply (IH (<[l' := j]> held)); [| exact Hrun | exact Hfree].
  rewrite lookup_insert_ne; [exact Hl |]. intros ->. rewrite Hl in Hl'. discriminate Hl'.
- simpl in Hrun. case_bool_decide as Hj; [| discriminate Hrun].
  destruct (decide (l = l')) as [<- | Hne].
  + rewrite Hl in Hj. injection Hj as <-. apply elem_of_cons. left. reflexivity.
  + apply elem_of_cons. right. apply (IH (delete l' held)); [| exact Hrun | exact Hfree].
    rewrite lookup_delete_ne; [exact Hl |]. intros ->. contradiction.
Qed.


Lemma map_login_setPhase i p cs : map login (setPhase i p cs) = map login cs.
Proof.
unfold setPhase. destruct (cs !! i) as [c |] eqn:Hi; [| reflexivity].
apply list_eq. intros j. rewrite !list_lookup_fmap.
destruct (decide (i = j)) as [<- | Hne].
- rewrite list_lookup_insert_eq by (apply lookup_lt_Some in Hi; exact Hi).
  rewrite Hi. reflexivity.
- rewrite list_lookup_insert_ne by exact Hne. reflexivity.
Qed.

(** A move keeps the logins of the calls, and a call that has not started
    stays so unless the move is its own start. *)
Lemma acquire_calls i w :
  consistent w ->
  map login (calls (acquire i w)) = map login (calls w) /\
  (forall j, j <> i -> calls (acquire i w) !! j = calls w !! j).
Proof.
intros Hc.
destruct (calls w !! i) as [[l ph] |] eqn:Hi;
  [| unfold acquire; rewrite Hi; split; [reflexivity | intros; reflexivity]].
destruct ph; try (unfold acquire; rewrite Hi; split; [reflexivity | intros; reflexivity]).
destruct (acquire_cases i w l Hc Hi) as (mutex & m & w2 & _ & Hcalls & _ & _ & _ & _ & _ & _ & ->).
destruct (locked m); simpl; rewrite Hcalls.
- split; [apply map_login_setPhase |]. intros j Hne.
  rewrite (setPhase_lookup _ _ _ _ j Hi). destruct (decide (i = j)); [congruence | reflexivity].
- split; [apply map_login_setPhase |]. intros j Hne.
  rewrite (setPhase_lookup _ _ _ _ j Hi). destruct (decide (i = j)); [congruence | reflexivity].
Qed.

Lemma leave_calls i error w :
  consistent w ->
  map login (calls (leave i error w)) = map login (calls w) /\
  (forall j c, calls w !! j = Some c -> phase c = NotStarted ->
     calls (leave i error w) !! j = Some c).
Proof.
intros Hc.
destruct (calls w !! i) as [[l ph] |] eqn:Hi;
  [| unfold leave; rewrite Hi; split; [reflexivity | intros j c H _; exact H]].
destruct ph; try (unfold leave; rewrite Hi; split; [reflexivity | intros j c H _; exact H]).
destruct (leave_cases i error w l Hc Hi) as (mutex & m & Hlm & Hm & _ & ->).
destruct (waiting m) as [| next rest] eqn:Hwait; simpl.
- split; [apply map_login_setPhase |]. intros j c Hj Hph.
  rewrite (setPhase_lookup _ _ _ _ j Hi).
  destruct (decide (i = j)) as [<- | _]; [| exact Hj].
  rewrite Hi in Hj. injection Hj as <-. discriminate Hph.
- split; [rewrite !map_login_setPhase; reflexivity |]. intros j c Hj Hph.
  assert (Hnext : calls w !! next = Some {| login := l; phase := Waiting |}).
  { destruct Hc as (held & _ & _ & Hmutex & _).
    assert (Hfor : mutexFor w l = Some m) by (unfold mutexFor; rewrite Hlm; exact Hm).
    apply (Hmutex l m Hfor). rewrite Hwait. apply elem_of_cons. left. reflexivity. }
  assert (Hnext' : setPhase i (Left error) (calls w) !! next
                   = Some {| login := l; phase := Waiting |}).
  { rewrite (setPhase_lookup _ _ _ _ _ Hi).
    destruct (decide (i = next)) as [-> | _]; [rewrite Hi in Hnext; discriminate Hnext |].
    exact Hnext. }
  rewrite (setPhase_lookup _ _ _ _ j Hnext').
  destruct (decide (next = j)) as [<- | _];
    [rewrite Hnext in Hj; injection Hj as <-; discriminate Hph |].
  rewrite (setPhase_lookup _ _ _ _ j Hi).
  destruct (decide (i = j)) as [<- | _]; [| exact Hj].
  rewrite Hi in Hj. injection Hj as <-. discriminate Hph.
Qed.

(** [processWebhookData], run from its start to its end, is the checks of
    the payload, the critical section, the [catch] and the end of the run. *)
Lemma processWebhookData_checkPayload env data st :
  Pipeline.processWebhookData env data st
  = match checkPayload data with
    | inl (login, error) =>
        (Some error, st, [Pipeline.Finished (Pipeline.d_id data) login (Some error)])
    | inr c =>
        let '(error, st', entries) :=
          Pipeline.criticalSection env data (c_login c) (c_action c) (c_symbol c)
            (c_takeProfit c) (c_stopLoss c) st in
        (error,
         match error with
         | Some _ => Pipeline.removePendingOrder (c_login c) (c_action c) st'
         | None => st'
         end,
         entries ++ [Pipeline.Finished (Pipeline.d_id data) (Some (c_login c)) error])
    end.
Proof.
unfold Pipeline.processWebhookData, checkPayload. cbv zeta.
destruct (Pipeline.present (Pipeline.d_l data)) as [login |]; [| reflexivity].
case_bool_decide; [reflexivity |].
destruct (negb (Js.array_includes _ _)); [reflexivity |].
destruct (negb (Pipeline.validatePipValues _ _ _ _)); [reflexivity |].
destruct (Pipeline.convertTradingViewPips _ _ _) as [takeProfit stopLoss]. simpl.
destruct (Pipeline.criticalSection _ _ _ _ _ _ _ _) as [[[error |] st'] entries]; reflexivity.
Qed.

Lemma checkPayload_login data c :
  checkPayload data = inr c -> loginOf data = c_login c.
Proof.
unfold checkPayload, loginOf. cbv zeta.
destruct (Pipeline.present (Pipeline.d_l data)) as [login |]; [| discriminate].
case_bool_decide; [discriminate |].
destruct (negb (Js.array_includes _ _)); [discriminate |].
destruct (negb (Pipeline.validatePipValues _ _ _ _)); [discriminate |].
destruct (Pipeline.convertTradingViewPips _ _ _) as [takeProfit stopLoss].
intros [= <-]. reflexivity.
Qed.

Lemma orderlyServer_submit data st : orderlyServer (submit data st).
Proof.
split; [apply consistent_start |]. split.
- simpl. rewrite map_map. simpl. apply map_id.
- intros i c Hi Hph. simpl in Hi. apply list_lookup_fmap_Some in Hi as (l & -> & _).
  contradiction Hph. reflexivity.
Qed.

Lemma orderlyServer_step s st : orderlyServer s -> orderlyServer (step s st).
Proof.
intros (Hc & Hlogins & Hpast). destruct st as [i | i env]; simpl.
- unfold enter. destruct (payloads s !! i) as [data |] eqn:Hdata; [| repeat split; assumption].
  case_bool_decide; [repeat split; assumption |].
  destruct (checkPayload data) as [[login error] | acc] eqn:Hcheck; simpl.
  + repeat split; assumption.
  + destruct (acquire_calls i (locks s) Hc) as [Hl Hother].
    unfold orderlyServer. cbn [locks payloads].
    split; [apply consistent_acquire; exact Hc |]. split; [rewrite Hl; exact Hlogins |].
    intros j c Hj Hph. destruct (decide (j = i)) as [-> | Hne].
    * exists data, acc. split; assumption.
    * rewrite (Hother j Hne) in Hj. exact (Hpast j c Hj Hph).
- unfold exit. destruct (payloads s !! i) as [data |] eqn:Hdata; [| repeat split; assumption].
  destruct (calls (locks s) !! i) as [[l ph] |] eqn:Hi; [| repeat split; assumption].
  destruct ph; try (repeat split; assumption).
  destruct (checkPayload data) as [[login error] | acc] eqn:Hcheck; [repeat split; assumption |].
  destruct (Pipeline.criticalSection _ _ _ _ _ _ _ _) as [[error st'] entries]. simpl.
  destruct (leave_calls i error (locks s) Hc) as [Hl Hstay].
  unfold orderlyServer. cbn [locks payloads].
  split; [apply consistent_leave; exact Hc |]. split; [rewrite Hl; exact Hlogins |].
  intros j c Hj Hph.
  assert (Hlen : length (calls (leave i error (locks s))) = length (calls (locks s))).
  { rewrite <- (length_map login), Hl, length_map. reflexivity. }
  destruct (calls (locks s) !! j) as [c0 |] eqn:Hj0.
  + destruct (phase c0) eqn:Hph0;
      try (apply (Hpast j c0 Hj0); rewrite Hph0; discriminate).
    exfalso. rewrite (Hstay j c0 Hj0 Hph0) in Hj. injection Hj as <-. contradiction.
  + exfalso. apply lookup_ge_None in Hj0. apply lookup_lt_Some in Hj. lia.
Qed.

Lemma orderlyServer_run steps : forall s, orderlyServer s -> orderlyServer (run s steps).
Proof.
induction steps as [| st steps IH]; intros s Hs; [exact Hs |].
simpl. apply IH. apply orderlyServer_step. exact Hs.
Qed.

(** The locks of a server move as the scheduler of the locks moves them. *)
Lemma locks_run steps : forall s,
  exists moves, locks (run s steps) = schedule (locks s) moves.
Proof.
induction steps as [| st steps IH]; intros s; [exists []; reflexivity |].
simpl. destruct (IH (step s st)) as [moves Hmoves]. rewrite Hmoves.
assert (Hstep : locks (step s st) = locks s \/ exists mv, locks (step s st) = move (locks s) mv).
{ destruct st as [i | i env]; simpl.
  - unfold enter. destruct (payloads s !! i); [| left; reflexivity].
    case_bool_decide; [left; reflexivity |].
    destruct (checkPayload _) as [[login error] | acc]; [left; reflexivity |].
    right. exists (Begin i). reflexivity.
  - unfold exit. destruct (payloads s !! i); [| left; reflexivity].
    destruct (calls (locks s) !! i) as [[l ph] |]; [| left; reflexivity].
    destruct ph; try (left; reflexivity).
    destruct (checkPayload _) as [[login error] | acc]; [left; reflexivity |].
    destruct (Pipeline.criticalSection _ _ _ _ _ _ _ _) as [[error st'] entries].
    right. exists (End_ i error). reflexivity. }
destruct Hstep as [-> | [mv ->]]; [exists moves; reflexivity |].
exists (mv :: moves). reflexivity.
Qed.

(** What the locks of any schedule satisfy. *)
Lemma schedule_exclusion (w : World) :
  consistent w ->
  (forall i j l,
     calls w !! i = Some {| login := l; phase := Critical |} ->
     calls w !! j = Some {| login := l; phase := Critical |} ->
     i = j) /\
  (forall before i l between j after,
     trace w = before ++ Acquired i l :: between ++ Acquired j l :: after ->
     Released i l ∈ between) /\
  (forall i l error,
     calls w !! i = Some {| login := l; phase := Left error |} ->
     Released i l ∈ trace w) /\
  (forall l mutex m,
     loginMutexes w !! l = Some mutex -> objects w !! mutex = Some m -> locked m = true ->
     exists i, calls w !! i = Some {| login := l; phase := Critical |}).
Proof.
intros (held & Htrace & Hheld & Hmutex & Hnone & Hleft & _).
split.
{ intros i j l Hi Hj. apply Hheld in Hi, Hj. rewrite Hi in Hj. injection Hj as ->. reflexivity. }
split.
{ intros before i l between j after Hsplit. rewrite Hsplit in Htrace.
  rewrite holders_app in Htrace.
  destruct (holders before ∅) as [h1 |]; [| discriminate Htrace].
  simpl in Htrace. destruct (h1 !! l) eqn:Hfree1; [discriminate Htrace |].
  rewrite holders_app in Htrace.
  destruct (holders between (<[l := i]> h1)) as [h2 |] eqn:Hbetween; [| discriminate Htrace].
  simpl in Htrace. destruct (h2 !! l) eqn:Hfree2; [discriminate Htrace |].
  apply (holders_release_between i l between (<[l := i]> h1) h2);
    [apply lookup_insert_eq | exact Hbetween | exact Hfree2]. }
split; [exact Hleft |].
intros l mutex m Hlm Hm Hlocked.
assert (Hfor : mutexFor w l = Some m) by (unfold mutexFor; rewrite Hlm; exact Hm).
destruct (Hmutex l m Hfor) as (Hheld' & _).
destruct (proj1 Hheld' Hlocked) as [i Hi]. exists i. apply Hheld. exact Hi.
Qed.

(** A call that runs alone. *)
Lemma run_alone payload env st :
  let alone := run (submit [payload] st) [Enter 0; Exit 0 env] in
  let r := Pipeline.processWebhookData env payload st in
  state alone = r.1.2 /\ history alone = r.2 /\
  (forall acc, checkPayload payload = inr acc ->
     calls (locks alone) = [{| login := c_login acc; phase := Left r.1.1 |}] /\
     trace (locks alone) = [Acquired 0 (c_login acc); Released 0 (c_login acc)]).
Proof.
cbv zeta.
rewrite (processWebhookData_checkPayload env payload st).
unfold run, submit. cbn [foldl step]. unfold enter. cbn [payloads started].
change ([payload] !! 0%nat) with (Some payload).
rewrite bool_decide_eq_false_2 by (apply not_elem_of_empty).
destruct (checkPayload payload) as [[login error] | acc] eqn:Hcheck.
- simpl. split; [reflexivity |]. split; [reflexivity |]. intros acc Hacc. discriminate Hacc.
- assert (Hacq : acquire 0 (start (map loginOf [payload]))
                 = {| loginMutexes := {[ c_login acc := 0%nat ]};
                      objects := [{| locked := true; waiting := [] |}];
                      calls := [{| login := c_login acc; phase := Critical |}];
                      mutexOf := {[ 0%nat := 0%nat ]};
                      trace := [Acquired 0 (c_login acc)] |}).
  { simpl. rewrite (checkPayload_login payload acc Hcheck).
    unfold acquire, start, getMutex. simpl. rewrite lookup_empty. simpl.
    unfold Mutex_acquire. simpl. rewrite insert_empty. reflexivity. }
  cbn [locks payloads state history started]. rewrite Hacq. unfold exit.
  cbn [locks payloads state history started calls]. change ([payload] !! 0%nat) with (Some payload).
  cbn [lookup list_lookup]. rewrite Hcheck.
  destruct (Pipeline.criticalSection _ _ _ _ _ _ _ _) as [[error st'] entries]. simpl.
  split; [reflexivity |]. split; [reflexivity |]. intros acc' [= <-].
  unfold leave. simpl. rewrite lookup_singleton_eq. unfold Mutex_release. simpl.
  split; reflexivity.
Qed.

(** C4.  For any calls of [processWebhookData], whatever their payloads and
    the state they work on, and any order in which they reach the lock and
    end their critical sections.  Two calls of the same login are never
    inside the critical section together.  In the history of the locks,
    between two entries into the critical section of a login lies the
    release by the call that entered first.  A call that has left its
    critical section has released the lock, and a locked mutex is held by a
    call that is inside.  The end of the critical section of a call that is
    inside, whatever the collaborators answer and so on every path, with
    the order placed, with a rejection or with an exception: the call has
    left with the outcome of [Pipeline.criticalSection], the [catch] has
    removed the pending marker on an error, and the [finally] has released
    the mutex of the login, which has passed to the first waiting call or
    is free.  A call that runs alone does what [Pipeline.processWebhookData]
    does. *)
Theorem C4_mutual_exclusion_and_release
    (data : list Pipeline.AlertData) (st : Pipeline.State) (steps : list Step) :
  let s := run (submit data st) steps in
  let w := locks s in
  (forall i j l,
     calls w !! i = Some {| login := l; phase := Critical |} ->
     calls w !! j = Some {| login := l; phase := Critical |} ->
     i = j) /\
  (forall before i l between j after,
     trace w = before ++ Acquired i l :: between ++ Acquired j l :: after ->
     Released i l ∈ between) /\
  (forall i l error,
     calls w !! i = Some {| login := l; phase := Left error |} ->
     Released i l ∈ trace w) /\
  (forall l mutex m,
     loginMutexes w !! l = Some mutex -> objects w !! mutex = Some m -> locked m = true ->
     exists i, calls w !! i = Some {| login := l; phase := Critical |}) /\
  (forall i l env,
     calls w !! i = Some {| login := l; phase := Critical |} ->
     exists payload acc mutex m,
       payloads s !! i = Some payload /\ checkPayload payload = inr acc /\ c_login acc = l /\
       loginMutexes w !! l = Some mutex /\ objects w !! mutex = Some m /\
       let r := Pipeline.criticalSection env payload l (c_action acc) (c_symbol acc)
                  (c_takeProfit acc) (c_stopLoss acc) (state s) in
       let s' := exit i env s in
       calls (locks s') !! i = Some {| login := l; phase := Left r.1.1 |} /\
       state s' = match r.1.1 with
                  | Some _ => Pipeline.removePendingOrder l (c_action acc) r.1.2
                  | None => r.1.2
                  end /\
       history s' = history s ++ r.2 ++ [Pipeline.Finished (Pipeline.d_id payload) (Some l) r.1.1] /\
       trace (locks s')
       = trace w ++ Released i l ::
           match waiting m with next :: _ => [Acquired next l] | [] => [] end /\
       objects (locks s') !! mutex
       = Some match waiting m with
              | next :: rest => {| locked := true; waiting := rest |}
              | [] => {| locked := false; waiting := [] |}
              end) /\
  (forall payload env,
     let alone := run (submit [payload] st) [Enter 0; Exit 0 env] in
     let r := Pipeline.processWebhookData env payload st in
     state alone = r.1.2 /\ history alone = r.2 /\
     (forall acc, checkPayload payload = inr acc ->
        calls (locks alone) = [{| login := c_login acc; phase := Left r.1.1 |}] /\
        trace (locks alone) = [Acquired 0 (c_login acc); Released 0 (c_login acc)])).
Proof.
intros s w.
destruct (orderlyServer_run steps _ (orderlyServer_submit data st)) as (Hc & Hlogins & Hpast).
fold s in Hc, Hlogins, Hpast. fold w in Hc, Hlogins, Hpast.
destruct (schedule_exclusion w Hc) as (H1 & H2 & H3 & H4).
split; [exact H1 |]. split; [exact H2 |]. split; [exact H3 |]. split; [exact H4 |].
split.
- intros i l env Hi.
  destruct (Hpast i _ Hi ltac:(discriminate)) as (payload & acc & Hpayload & Hcheck).
  assert (Hl : c_login acc = l).
  { rewrite <- (checkPayload_login payload acc Hcheck).
    assert (Hx : map login (calls w) !! i = Some l)
      by (rewrite list_lookup_fmap, Hi; reflexivity).
    rewrite Hlogins, list_lookup_fmap, Hpayload in Hx. injection Hx as ->. reflexivity. }
  destruct (leave_cases i
              (Pipeline.criticalSection env payload l (c_action acc) (c_symbol acc)
                 (c_takeProfit acc) (c_stopLoss acc) (state s)).1.1 w l Hc Hi)
    as (mutex & m & Hlm & Hm & _ & Hleave).
  exists payload, acc, mutex, m.
  split; [exact Hpayload |]. split; [exact Hcheck |]. split; [exact Hl |].
  split; [exact Hlm |]. split; [exact Hm |]. cbv zeta.
  unfold exit. rewrite Hpayload. fold w. rewrite Hi, Hcheck, Hl.
  destruct (Pipeline.criticalSection env payload l (c_action acc) (c_symbol acc)
              (c_takeProfit acc) (c_stopLoss acc) (state s)) as [[error st'] entries].
  cbn [fst snd locks state history] in *. rewrite Hleave.
  assert (Hlen : (mutex < length (objects w))%nat) by (apply lookup_lt_Some in Hm; exact Hm).
  destruct (waiting m) as [| next rest] eqn:Hwait; cbn [calls trace objects].
  + split.
    { rewrite (setPhase_lookup _ _ _ _ i Hi). destruct (decide (i = i)); [reflexivity | contradiction]. }
    split; [reflexivity |]. split; [reflexivity |]. split; [reflexivity |].
    apply list_lookup_insert_eq. exact Hlen.
  + assert (Hnext : calls w !! next = Some {| login := l; phase := Waiting |}).
    { destruct Hc as (held & _ & _ & Hmutex & _).
      assert (Hfor : mutexFor w l = Some m) by (unfold mutexFor; rewrite Hlm; exact Hm).
      apply (Hmutex l m Hfor). rewrite Hwait. apply elem_of_cons. left. reflexivity. }
    assert (Hnext' : setPhase i (Left error) (calls w) !! next
                     = Some {| login := l; phase := Waiting |}).
    { rewrite (setPhase_lookup _ _ _ _ _ Hi).
      destruct (decide (i = next)) as [-> | _]; [rewrite Hi in Hnext; discriminate Hnext |].
      exact Hnext. }
    split.
    { rewrite (setPhase_lookup _ _ _ _ i Hnext').
      destruct (decide (next = i)) as [-> | _]; [rewrite Hi in Hnext; discriminate Hnext |].
      rewrite (setPhase_lookup _ _ _ _ i Hi).
      destruct (decide (i = i)); [reflexivity | contradiction]. }
    split; [reflexivity |]. split; [reflexivity |]. split; [reflexivity |].
    apply list_lookup_insert_eq. exact Hlen.
- intros payload env. exact (run_alone payload env st).
Qed.

(** Three webhooks of login ["123"] reach the lock one after the other.  The
    first places its order; the second, a replay of the first, enters when
    the first has released and is rejected; the third enters when the
    second has released, and the broker refuses its order.  Each of them
    has released the lock. *)
Lemma C4_three_calls_witness :
  let cfg := {| Pipeline.DEFAULT_ACCOUNT_NUMBER := "100";
                Pipeline.SECONDARY_API_ACCOUNTS := [] |} in
  let st := Pipeline.initial cfg 1700000000000
              {| Database.processed_webhook_ids := [];
                 Database.sfx_historical_orders := [] |} in
  let signal (id : string) :=
    {| Pipeline.d_a := Some "B"; Pipeline.d_t := Some 50%float;
       Pipeline.d_s := None; Pipeline.d_l := Some "123";
       Pipeline.d_z := Some 0.01%float; Pipeline.d_m := None;
       Pipeline.d_r := None; Pipeline.d_sy := Some "EURUSD";
       Pipeline.d_id := Some id |}%string in
  let settings := {| Pipeline.trading_mode := "NORMAL"; Pipeline.exclusive_mode := 0;
                     Pipeline.asia_session_enabled := 1; Pipeline.london_session_enabled := 1;
                     Pipeline.new_york_session_enabled := 1;
                     Pipeline.limbo_session_enabled := 1 |} in
  let quote := {| Quotes.symbol := "EURUSD"; Quotes.bid := 1.1%float;
                  Quotes.ask := 1.1002%float; Quotes.timestamp := 1700000000000;
                  Quotes.isStale := false |} in
  let filled := {| Orchestrator.order_id := 77; Orchestrator.order_symbol := "EURUSD";
                   Orchestrator.order_side := "BUY"; Orchestrator.order_volume := 0.01%float;
                   Orchestrator.order_openPrice := 1.1002%float;
                   Orchestrator.order_takeProfit := 1.1052%float;
                   Orchestrator.order_stopLoss := None;
                   Orchestrator.spreadAtOpen := 2%float |} in
  let refused := {| Orchestrator.response_status := Some 500 |} in
  let env (accepts : bool) :=
    {| Pipeline.accountSettings := settings; Pipeline.totalOpenOrders := Some 0%nat;
       Pipeline.lookupAvailable := true; Pipeline.totalOpenVolume := Some 0%float;
       Pipeline.ordersOnSameSide := Some 0%nat;
       Pipeline.trading := {| Orchestrator.marketDataAt := fun _ => inl quote;
                              Orchestrator.placeTradeAt :=
                                fun _ _ => if accepts then inl filled else inr refused |};
       Pipeline.lastQuote := Some {| Quotes.q_bid := 1.1%float; Quotes.q_ask := 1.1002%float;
                                     Quotes.q_timestamp := 1700000000000 |};
       Pipeline.upsertAvailable := true; Pipeline.updateMaxSizeAvailable := true;
       Pipeline.storeAvailable := true |} in
  let steps := [Enter 0; Enter 1; Enter 2; Exit 0 (env true); Exit 1 (env true);
                Exit 2 (env false)] in
  let s := run (submit [signal "A1"; signal "A1"; signal "A2"] st) steps in
  trace (locks s)
  = [Acquired 0 "123"; Released 0 "123"; Acquired 1 "123"; Released 1 "123";
     Acquired 2 "123"; Released 2 "123"] /\
  calls (locks s)
  = [{| login := "123"; phase := Left None |};
     {| login := "123"; phase := Left (Some Pipeline.OrderAlreadyProcessed) |};
     {| login := "123";
        phase := Left (Some (Pipeline.TradeFailed (Orchestrator.PlaceTradeError refused))) |}] /\
  Released 0 "123" ∈ [Released 0 "123"].
Proof.
intros cfg st signal settings quote filled refused env steps s.
split; [vm_compute; reflexivity |].
split; [vm_compute; reflexivity |].
destruct (C4_mutual_exclusion_and_release [signal "A1"; signal "A1"; signal "A2"] st steps)
  as (_ & H & _).
apply (H [] 0%nat "123"%string [Released 0 "123"] 1%nat
         [Released 1 "123"; Acquired 2 "123"; Released 2 "123"]).
vm_compute. reflexivity.
Defined.

End MutualExclusion.

Section Idempotency.
Import Database Pipeline.

Lemma selectProcessed_is_Some db a l :
  is_Some (selectProcessed db (Some a) l) <->
  exists row, row ∈ processed_webhook_ids db /\ alert_id row = a /\ account_number row = l.
Proof.
unfold selectProcessed. split.
- intros [row Hrow].
  destruct (list_find _ (processed_webhook_ids db)) as [[i r] |] eqn:Hfind; [| discriminate Hrow].
  apply list_find_Some in Hfind as (Hi & [Ha Hl] & _).
  exists r. split; [| split; assumption].
  apply list_elem_of_lookup. exists i. exact Hi.
- intros (row & Hin & Ha & Hl).
  destruct (list_find_elem_of
              (fun row => alert_id row = a /\ account_number row = l)
              (processed_webhook_ids db) row Hin (conj Ha Hl)) as [[i r] Hfind].
  rewrite Hfind. eexists. reflexivity.
Qed.

Lemma processed_insertProcessed db a l t :
  processed_webhook_ids db ⊆ processed_webhook_ids (insertProcessed db a l t) /\
  is_Some (selectProcessed (insertProcessed db a l t) (Some a) l).
Proof.
unfold insertProcessed.
destruct (selectProcessed db (Some a) l) as [row |] eqn:Hsel.
- split; [reflexivity |]. rewrite Hsel. eexists. reflexivity.
- split.
  + simpl. intros x Hx. apply elem_of_app. left. exact Hx.
  + apply selectProcessed_is_Some.
    exists {| alert_id := a; account_number := l; processed_at := t |}.
    split; [| split; reflexivity].
    simpl. apply elem_of_app. right. apply list_elem_of_singleton. reflexivity.
Qed.

Lemma processed_upsertOrder db row :
  processed_webhook_ids (upsertOrder db row) = processed_webhook_ids db.
Proof. reflexivity. Qed.

Lemma setAdd_elem k ids : k ∈ setAdd k ids.
Proof.
unfold setAdd. case_bool_decide as H; [exact H |].
apply elem_of_app. right. apply list_elem_of_singleton. reflexivity.
Qed.

Lemma setAdd_subseteq k ids : ids ⊆ setAdd k ids.
Proof.
unfold setAdd. case_bool_decide; [reflexivity |].
intros x Hx. apply elem_of_app. left. exact Hx.
Qed.

Lemma setAdd_length k ids : (length (setAdd k ids) <= S (length ids))%nat.
Proof.
unfold setAdd. case_bool_decide; [lia |]. rewrite length_app. simpl. lia.
Qed.

Lemma grows_refl n st : grows n st st.
Proof. unfold grows. split; [reflexivity |]. split; [reflexivity | lia]. Qed.

Lemma grows_same n st st' :
  processed_webhook_ids (tables st') = processed_webhook_ids (tables st) ->
  processedIds st' = processedIds st -> grows n st st'.
Proof.
intros Ht Hp. unfold grows. rewrite Ht, Hp. split; [reflexivity |]. split; [reflexivity | lia].
Qed.

Lemma grows_trans n m st1 st2 st3 :
  grows n st1 st2 -> grows m st2 st3 -> grows (n + m) st1 st3.
Proof.
intros (T1 & I1 & L1) (T2 & I2 & L2). unfold grows.
split; [etransitivity; eassumption |]. split; [etransitivity; eassumption | lia].
Qed.

Lemma grows_weaken n m st st' : (n <= m)%nat -> grows n st st' -> grows m st st'.
Proof. intros Hle (T & I & L). unfold grows. split; [exact T |]. split; [exact I | lia]. Qed.

Lemma stored_grows n a l st st' : grows n st st' -> stored a l st -> stored a l st'.
Proof.
intros (T & I & _) [Hrow Hkey]. split.
- apply selectProcessed_is_Some in Hrow as (row & Hin & Ha & Hl).
  apply selectProcessed_is_Some. exists row. split; [apply T; exact Hin | split; assumption].
- apply I. exact Hkey.
Qed.

Lemma grows_removePendingOrder login side st : grows 0 st (removePendingOrder login side st).
Proof.
unfold grows. rewrite tables_removePendingOrder, processedIds_removePendingOrder.
split; [reflexivity |]. split; [reflexivity | lia].
Qed.

Lemma grows_addPendingOrder login side st : grows 0 st (addPendingOrder login side st).
Proof. apply grows_same; reflexivity. Qed.

Lemma storeProcessedId_room available alertId login st :
  (length (processedIds st) + 1 <= processedIdsLimit)%nat ->
  storeProcessedId available alertId login st
  = if available then
      let st1 := set_processedIds (setAdd (alertKey alertId login) (processedIds st)) st in
      match alertId with
      | Some a => set_tables (insertProcessed (tables st1) a login (clock st1)) st1
      | None => st1
      end
    else st.
Proof.
intros Hroom. unfold storeProcessedId. destruct available; [| reflexivity].
destruct alertId as [a |]; [| reflexivity]. cbv zeta.
match goal with |- (if ?b then _ else _) = _ => assert (Hb : b = false) end.
{ apply Nat.ltb_ge. simpl.
  pose proof (setAdd_length (alertKey (Some a) login) (processedIds st)). lia. }
rewrite Hb. reflexivity.
Qed.

Lemma storeProcessedId_grows available alertId login st :
  (length (processedIds st) + 1 <= processedIdsLimit)%nat ->
  grows 1 st (storeProcessedId available alertId login st).
Proof.
intros Hroom. rewrite storeProcessedId_room by exact Hroom.
destruct available; [| apply grows_refl].
pose proof (setAdd_subseteq (alertKey alertId login) (processedIds st)) as Hsub.
pose proof (setAdd_length (alertKey alertId login) (processedIds st)) as Hlen.
destruct alertId as [a |]; unfold grows; simpl.
- split; [apply processed_insertProcessed |]. split; [exact Hsub | lia].
- split; [reflexivity |]. split; [exact Hsub | lia].
Qed.

Lemma storeProcessedId_stored a l st :
  (length (processedIds st) + 1 <= processedIdsLimit)%nat ->
  stored a l (storeProcessedId true (Some a) l st).
Proof.
intros Hroom. rewrite storeProcessedId_room by exact Hroom. unfold stored. simpl.
split; [apply processed_insertProcessed | apply setAdd_elem].
Qed.

Lemma markProcessed_room job ids :
  (length ids + 1 <= processedIdsLimit)%nat ->
  ids ⊆ markProcessed job ids /\
  (length (markProcessed job ids) <= length ids + 1)%nat /\
  (forall i, present (d_id (job_data job)) = Some i ->
     alertKey (Some i) (job_accountNumber job) ∈ markProcessed job ids).
Proof.
intros Hroom. unfold markProcessed.
destruct (present (d_id (job_data job))) as [i |]; cbv zeta.
- pose proof (setAdd_length (alertKey (Some i) (job_accountNumber job)) ids) as Hlen.
  match goal with |- context [if ?b then _ else _] => assert (Hb : b = false) end.
  { apply Nat.ltb_ge. lia. }
  rewrite Hb. split; [apply setAdd_subseteq |]. split; [lia |].
  intros i' [= <-]. apply setAdd_elem.
- split; [reflexivity |]. split; [lia | discriminate].
Qed.

Lemma whileQueue_spec st :
  (length (processedIds st) + 1 <= processedIdsLimit)%nat ->
  grows 1 st (whileQueue st).1 /\
  (forall a l, Forall (settled a l) (whileQueue st).2).
Proof.
intros Hroom. unfold whileQueue. destruct (queue st) as [| job rest]; simpl.
- split; [apply grows_same; reflexivity |]. intros a l. apply Forall_nil_2.
- destruct (markProcessed_room job (processedIds st) Hroom) as (Hsub & Hlen & _).
  split.
  + unfold grows. simpl. split; [reflexivity |]. split; [exact Hsub | exact Hlen].
  + intros a l. apply Forall_cons. split; [exact I | apply Forall_nil_2].
Qed.

Lemma processQueue_spec st :
  (length (processedIds st) + 1 <= processedIdsLimit)%nat ->
  grows 1 st (processQueue st).1 /\
  (forall a l, Forall (settled a l) (processQueue st).2).
Proof.
intros Hroom. unfold processQueue.
destruct (processing st || bool_decide (queue st = [])).
- simpl. split; [apply grows_refl |]. intros a l. apply Forall_nil_2.
- exact (whileQueue_spec (set_processing true st) Hroom).
Qed.

Lemma settle_spec p fulfilled st :
  (length (processedIds st) + 2 <= processedIdsLimit)%nat ->
  grows 2 st (settle p fulfilled st).1 /\
  (forall a l, Forall (settled a l) (settle p fulfilled st).2).
Proof.
intros Hroom. unfold settle.
destruct (awaited st) as [[p' job] |];
  [| simpl; split; [apply grows_refl | intros; apply Forall_nil_2]].
case_bool_decide;
  [| simpl; split; [apply grows_refl | intros; apply Forall_nil_2]].
destruct fulfilled.
- pose proof (setAdd_subseteq (job_id job) (processedIds st)) as Hsub.
  pose proof (setAdd_length (job_id job) (processedIds st)) as Hlen.
  destruct (whileQueue_spec (set_processedIds (setAdd (job_id job) (processedIds st)) st))
    as [Hg Hs]; [simpl; lia |].
  split; [| exact Hs].
  apply (grows_trans 1 1 st (set_processedIds (setAdd (job_id job) (processedIds st)) st));
    [| exact Hg].
  unfold grows. simpl. split; [reflexivity |]. split; [exact Hsub | lia].
- destruct (job_retries job <? maxRetries)%nat.
  + match goal with |- context [whileQueue ?s] =>
      destruct (whileQueue_spec s) as [Hg Hs]; [simpl; lia |] end.
    split; [| exact Hs]. apply (grows_weaken 1 2); [lia |]. exact Hg.
  + destruct (whileQueue_spec st) as [Hg Hs]; [lia |].
    destruct (whileQueue st) as [st1 entries]. simpl in *.
    split; [apply (grows_weaken 1 2); [lia | exact Hg] |].
    intros a l. apply Forall_cons. split; [exact I | apply Hs].
Qed.

Lemma orderExists_stored db a l :
  is_Some (selectProcessed db (Some a) l) -> orderExistsWithAlertId true db (Some a) l = true.
Proof. intros [row Hrow]. unfold orderExistsWithAlertId. rewrite Hrow. reflexivity. Qed.

Lemma brokerCalls_are_calls env alertId login actions :
  Forall (fun e => exists k ok, e = BrokerCall alertId login k ok)
         (brokerCalls env alertId login actions).
Proof.
unfold brokerCalls. apply Forall_fmap. apply Forall_forall.
intros [k request] _. simpl. eexists _, _. reflexivity.
Qed.

(** The end of the critical section loses no processed id, reports only
    calls of the broker for its signal, and when it ends without an error and
    the database took the id, the signal is stored. *)
Lemma placeAndRecord_spec env data login action sym tp sl st :
  (length (processedIds st) + 1 <= processedIdsLimit)%nat ->
  let r := placeAndRecord env data login action sym tp sl st in
  grows 1 st r.1.2 /\
  Forall (fun e => exists k ok, e = BrokerCall (d_id data) login k ok) r.2 /\
  (r.1.1 = None -> storeAvailable env = true ->
   forall a, d_id data = Some a -> stored a login r.1.2).
Proof.
intros Hroom. unfold placeAndRecord.
destruct (Orchestrator.placeTradeWithRetry _ _ _) as [[result | e] actions]; cbv zeta.
2: { simpl. split; [apply grows_same; reflexivity |].
     split; [apply brokerCalls_are_calls | discriminate]. }
destruct (lastQuote env).
2: { simpl. split;
       [apply grows_same;
          [rewrite tables_removePendingOrder | rewrite processedIds_removePendingOrder];
          reflexivity |].
     split; [apply brokerCalls_are_calls | discriminate]. }
destruct (upsertAvailable env); simpl.
2: { split; [apply grows_same; reflexivity |].
     split; [apply brokerCalls_are_calls | discriminate]. }
destruct (updateMaxSizeAvailable env); simpl.
2: { split; [apply grows_same; reflexivity |].
     split; [apply brokerCalls_are_calls | discriminate]. }
match goal with |- context [storeProcessedId _ _ _ ?s] => set (st3 := s) end.
assert (Hsame : processed_webhook_ids (tables st3) = processed_webhook_ids (tables st)
                /\ processedIds st3 = processedIds st).
{ subst st3. rewrite tables_removePendingOrder, processedIds_removePendingOrder.
  split; reflexivity. }
destruct Hsame as [Ht3 Hp3].
assert (Hroom3 : (length (processedIds st3) + 1 <= processedIdsLimit)%nat)
  by (rewrite Hp3; exact Hroom).
split.
- apply (grows_trans 0 1 st st3); [| apply storeProcessedId_grows; exact Hroom3].
  apply grows_same; assumption.
- split; [apply brokerCalls_are_calls |].
  intros _ Hstore a Ha. rewrite Hstore, Ha. apply storeProcessedId_stored. exact Hroom3.
Qed.

Lemma checkAndPlace_spec env data login action sym tp sl st :
  (length (processedIds st) + 1 <= processedIdsLimit)%nat ->
  let r := checkAndPlace env data login action sym tp sl st in
  grows 1 st r.1.2 /\
  Forall (fun e => exists k ok, e = BrokerCall (d_id data) login k ok) r.2 /\
  (r.1.1 = None -> storeAvailable env = true ->
   forall a, d_id data = Some a -> stored a login r.1.2) /\
  (forall a, d_id data = Some a -> lookupAvailable env = true ->
     is_Some (selectProcessed (tables st) (Some a) login) ->
     r = (Some OrderAlreadyProcessed, st, [])).
Proof.
intros Hroom.
assert (Hstop : forall error : TaskError,
          let r := (Some error, st, @nil Entry) in
          grows 1 st r.1.2 /\
          Forall (fun e => exists k ok, e = BrokerCall (d_id data) login k ok) r.2 /\
          (r.1.1 = None -> storeAvailable env = true ->
           forall a, d_id data = Some a -> stored a login r.1.2)).
{ intros error. simpl. split; [apply grows_same; reflexivity |].
  split; [apply Forall_nil_2 | discriminate]. }
unfold checkAndPlace. cbv zeta.
destruct (orderExistsWithAlertId (lookupAvailable env) (tables st) (d_id data) login) eqn:Hexists.
{ destruct (Hstop OrderAlreadyProcessed) as (H1 & H2 & H3).
  split; [exact H1 |]. split; [exact H2 |]. split; [exact H3 | reflexivity]. }
assert (Hfresh : forall a, d_id data = Some a -> lookupAvailable env = true ->
                   is_Some (selectProcessed (tables st) (Some a) login) -> False).
{ intros a Ha Hl Hrow. rewrite Ha, Hl, (orderExists_stored _ _ _ Hrow) in Hexists.
  discriminate Hexists. }
assert (Hdone : forall r : option TaskError * State * list Entry,
          grows 1 st r.1.2 /\
          Forall (fun e => exists k ok, e = BrokerCall (d_id data) login k ok) r.2 /\
          (r.1.1 = None -> storeAvailable env = true ->
           forall a, d_id data = Some a -> stored a login r.1.2) ->
          grows 1 st r.1.2 /\
          Forall (fun e => exists k ok, e = BrokerCall (d_id data) login k ok) r.2 /\
          (r.1.1 = None -> storeAvailable env = true ->
           forall a, d_id data = Some a -> stored a login r.1.2) /\
          (forall a, d_id data = Some a -> lookupAvailable env = true ->
             is_Some (selectProcessed (tables st) (Some a) login) ->
             r = (Some OrderAlreadyProcessed, st, []))).
{ intros r (H1 & H2 & H3). split; [exact H1 |]. split; [exact H2 |]. split; [exact H3 |].
  intros a Ha Hl Hrow. destruct (Hfresh a Ha Hl Hrow). }
destruct (totalOpenVolume env) as [openVolume |]; [| apply Hdone, Hstop].
destruct (isOrderPending st login action); [apply Hdone, Hstop |].
destruct (_ <? _)%float; [apply Hdone, Hstop |].
destruct (ordersOnSameSide env) as [sameSide |]; [| apply Hdone, Hstop].
destruct (0 <? sameSide)%nat; [apply Hdone, Hstop |].
apply Hdone. exact (placeAndRecord_spec env data login action sym tp sl st Hroom).
Qed.

Lemma criticalSection_spec env data login action sym tp sl st :
  (length (processedIds st) + 1 <= processedIdsLimit)%nat ->
  let r := criticalSection env data login action sym tp sl st in
  grows 1 st r.1.2 /\
  Forall (fun e => exists k ok, e = BrokerCall (d_id data) login k ok) r.2 /\
  (r.1.1 = None -> storeAvailable env = true ->
   forall a, d_id data = Some a -> stored a login r.1.2) /\
  (forall a, d_id data = Some a -> lookupAvailable env = true ->
     is_Some (selectProcessed (tables st) (Some a) login) ->
     r.1.1 <> None /\ r.1.2 = st /\ r.2 = []).
Proof.
intros Hroom.
assert (Hstop : forall error : TaskError,
          let r := (Some error, st, @nil Entry) in
          grows 1 st r.1.2 /\
          Forall (fun e => exists k ok, e = BrokerCall (d_id data) login k ok) r.2 /\
          (r.1.1 = None -> storeAvailable env = true ->
           forall a, d_id data = Some a -> stored a login r.1.2) /\
          (forall a, d_id data = Some a -> lookupAvailable env = true ->
             is_Some (selectProcessed (tables st) (Some a) login) ->
             r.1.1 <> None /\ r.1.2 = st /\ r.2 = [])).
{ intros error. simpl. split; [apply grows_same; reflexivity |].
  split; [apply Forall_nil_2 |]. split; [discriminate |].
  intros a _ _ _. split; [discriminate | split; reflexivity]. }
assert (Hplace :
          let r := checkAndPlace env data login action sym tp sl st in
          grows 1 st r.1.2 /\
          Forall (fun e => exists k ok, e = BrokerCall (d_id data) login k ok) r.2 /\
          (r.1.1 = None -> storeAvailable env = true ->
           forall a, d_id data = Some a -> stored a login r.1.2) /\
          (forall a, d_id data = Some a -> lookupAvailable env = true ->
             is_Some (selectProcessed (tables st) (Some a) login) ->
             r.1.1 <> None /\ r.1.2 = st /\ r.2 = [])).
{ destruct (checkAndPlace_spec env data login action sym tp sl st Hroom) as (H1 & H2 & H3 & H4).
  cbv zeta. split; [exact H1 |]. split; [exact H2 |]. split; [exact H3 |].
  intros a Ha Hl Hrow. rewrite (H4 a Ha Hl Hrow). simpl.
  split; [discriminate | split; reflexivity]. }
unfold criticalSection. cbv zeta.
assert (Hmode :
          let r := if bool_decide (trading_mode (accountSettings env) = "BUY_ONLY"%string)
                      && negb (bool_decide (action = "B"%string))
                   then (Some BuyOnlyMode, st, [])
                   else if bool_decide (trading_mode (accountSettings env) = "SELL_ONLY"%string)
                           && negb (bool_decide (action = "S"%string))
                   then (Some SellOnlyMode, st, [])
                   else checkAndPlace env data login action sym tp sl st in
          grows 1 st r.1.2 /\
          Forall (fun e => exists k ok, e = BrokerCall (d_id data) login k ok) r.2 /\
          (r.1.1 = None -> storeAvailable env = true ->
           forall a, d_id data = Some a -> stored a login r.1.2) /\
          (forall a, d_id data = Some a -> lookupAvailable env = true ->
             is_Some (selectProcessed (tables st) (Some a) login) ->
             r.1.1 <> None /\ r.1.2 = st /\ r.2 = [])).
{ cbv zeta. destruct (_ && _); [apply Hstop |]. destruct (_ && _); [apply Hstop | exact Hplace]. }
cbv zeta in Hmode.
assert (Hsession :
          let r := match Sessions.getCurrentTradingSession (clock st) with
                   | Some session =>
                       if bool_decide (sessionSetting (accountSettings env) session = 1)
                       then if bool_decide (trading_mode (accountSettings env) = "BUY_ONLY"%string)
                               && negb (bool_decide (action = "B"%string))
                            then (Some BuyOnlyMode, st, [])
                            else if bool_decide
                                      (trading_mode (accountSettings env) = "SELL_ONLY"%string)
                                    && negb (bool_decide (action = "S"%string))
                            then (Some SellOnlyMode, st, [])
                            else checkAndPlace env data login action sym tp sl st
                       else (Some (SessionDisabled session), st, [])
                   | None =>
                       if bool_decide (trading_mode (accountSettings env) = "BUY_ONLY"%string)
                          && negb (bool_decide (action = "B"%string))
                       then (Some BuyOnlyMode, st, [])
                       else if bool_decide
                                 (trading_mode (accountSettings env) = "SELL_ONLY"%string)
                               && negb (bool_decide (action = "S"%string))
                       then (Some SellOnlyMode, st, [])
                       else checkAndPlace env data login action sym tp sl st
                   end in
          grows 1 st r.1.2 /\
          Forall (fun e => exists k ok, e = BrokerCall (d_id data) login k ok) r.2 /\
          (r.1.1 = None -> storeAvailable env = true ->
           forall a, d_id data = Some a -> stored a login r.1.2) /\
          (forall a, d_id data = Some a -> lookupAvailable env = true ->
             is_Some (selectProcessed (tables st) (Some a) login) ->
             r.1.1 <> None /\ r.1.2 = st /\ r.2 = [])).
{ cbv zeta. destruct (Sessions.getCurrentTradingSession (clock st)) as [session |];
    [| exact Hmode].
  destruct (bool_decide (sessionSetting (accountSettings env) session = 1));
    [exact Hmode | apply Hstop]. }
cbv zeta in Hsession.
destruct (bool_decide (exclusive_mode (accountSettings env) = 1)); [| exact Hsession].
destruct (totalOpenOrders env) as [openOrders |]; [| apply Hstop].
destruct (0 <? openOrders)%nat; [apply Hstop | exact Hsession].
Qed.

(** A run of [processWebhookData]: its entries are calls of the broker for
    its signal followed by its end. *)
Lemma processWebhookData_spec env data st :
  (length (processedIds st) + 1 <= processedIdsLimit)%nat ->
  exists error st' calls,
    processWebhookData env data st
    = (error, st', calls ++ [Finished (d_id data) (present (d_l data)) error]) /\
    grows 1 st st' /\
    (forall e, e ∈ calls ->
       exists l k ok, present (d_l data) = Some l /\ e = BrokerCall (d_id data) l k ok) /\
    (error = None -> storeAvailable env = true ->
     forall a l, d_id data = Some a -> present (d_l data) = Some l -> stored a l st') /\
    (forall a l, d_id data = Some a -> present (d_l data) = Some l ->
       lookupAvailable env = true ->
       is_Some (selectProcessed (tables st) (Some a) l) ->
       error <> None /\ calls = []).
Proof.
intros Hroom. unfold processWebhookData. cbv zeta.
assert (Hstop : forall (login : option string) (error : TaskError),
          present (d_l data) = login ->
          exists error' st' calls,
            (Some error, st, [] ++ [Finished (d_id data) login (Some error)])
            = (error', st', calls ++ [Finished (d_id data) (present (d_l data)) error']) /\
            grows 1 st st' /\
            (forall e, e ∈ calls ->
               exists l k ok, present (d_l data) = Some l /\ e = BrokerCall (d_id data) l k ok) /\
            (error' = None -> storeAvailable env = true ->
             forall a l, d_id data = Some a -> present (d_l data) = Some l -> stored a l st') /\
            (forall a l, d_id data = Some a -> present (d_l data) = Some l ->
               lookupAvailable env = true ->
               is_Some (selectProcessed (tables st) (Some a) l) ->
               error' <> None /\ calls = [])).
{ intros login error <-. exists (Some error), st, [].
  split; [reflexivity |]. split; [apply grows_same; reflexivity |].
  split; [intros e He; apply elem_of_nil in He; contradiction |].
  split; [discriminate |]. intros a l _ _ _ _. split; [discriminate | reflexivity]. }
destruct (present (d_l data)) as [login |] eqn:Hlogin; [| apply Hstop; reflexivity].
destruct (bool_decide (_ = EmptyString)); [apply Hstop; reflexivity |].
destruct (negb (Js.array_includes supportedSymbols _)); [apply Hstop; reflexivity |].
destruct (negb (validatePipValues _ _ _ _)); [apply Hstop; reflexivity |].
destruct (convertTradingViewPips _ _ _) as [takeProfit stopLoss].
match goal with |- context [criticalSection env data login ?action ?sym takeProfit stopLoss st] =>
  pose proof (criticalSection_spec env data login action sym takeProfit stopLoss st Hroom)
    as Hcs;
  destruct (criticalSection env data login action sym takeProfit stopLoss st)
    as [[[error |] st'] entries] eqn:Hrun
end; cbv zeta in Hcs; simpl in Hcs; destruct Hcs as (Hg & Hcalls & Hstored & Hdup).
- match goal with |- context [removePendingOrder login ?action st'] =>
    exists (Some error), (removePendingOrder login action st'), entries end.
  split; [reflexivity |]. split.
  { apply (grows_trans 1 0 st st') ; [exact Hg | apply grows_removePendingOrder]. }
  split.
  { intros e He. rewrite Forall_forall in Hcalls. destruct (Hcalls e He) as (k & ok & ->).
    exists login, k, ok. split; reflexivity. }
  split; [discriminate |].
  intros a l Ha [= <-] Hl Hrow. destruct (Hdup a Ha Hl Hrow) as (_ & _ & ->).
  split; [discriminate | reflexivity].
- exists None, st', entries. split; [reflexivity |]. split; [exact Hg |]. split.
  { intros e He. rewrite Forall_forall in Hcalls. destruct (Hcalls e He) as (k & ok & ->).
    exists login, k, ok. split; reflexivity. }
  split.
  { intros _ Hstore a l Ha [= <-]. exact (Hstored eq_refl Hstore a Ha). }
  intros a l Ha [= <-] Hl Hrow. destruct (Hdup a Ha Hl Hrow) as (Hne & _). contradiction.
Qed.

Lemma roomy_le st n :
  roomy st = true -> (n <= 3)%nat -> (length (processedIds st) + n <= processedIdsLimit)%nat.
Proof. unfold roomy. intros H Hn. apply Nat.leb_le in H. lia. Qed.

Lemma settled_executed a l : ~ settled a l (executed a l).
Proof. unfold settled, executed. intros H. exact (H eq_refl eq_refl eq_refl). Qed.

Lemma split_at_unique {A} (x y : A) l1 l2 n1 n2 :
  l1 ++ y :: l2 = n1 ++ x :: n2 -> x ∉ l1 -> x ∉ l2 -> n1 = l1 /\ y = x /\ n2 = l2.
Proof.
revert n1. induction l1 as [| z l1 IH]; intros n1 Heq H1 H2.
- destruct n1 as [| z n1]; simpl in Heq.
  + injection Heq as -> ->. repeat split.
  + injection Heq as -> ->. exfalso. apply H2. apply elem_of_app. right.
    apply elem_of_cons. left. reflexivity.
- destruct n1 as [| z' n1]; simpl in Heq.
  + injection Heq as -> _. exfalso. apply H1. apply elem_of_cons. left. reflexivity.
  + injection Heq as -> Heq.
    destruct (IH n1 Heq) as (-> & -> & ->); [| exact H2 | repeat split].
    intros Hin. apply H1. apply elem_of_cons. right. exact Hin.
Qed.

(** What a run of a listener adds to the history: the listener, the calls
    of the broker for its signal, the end of the run, and what the queue does
    when the promise settles. *)
Lemma runTask_spec i env st :
  roomy st = true ->
  (runTask i env st = (st, [])) \/
  exists task error calls more,
    listeners st !! i = Some task /\
    (runTask i env st).2
    = Listener (task_promise task)
      :: (calls ++ [Finished (d_id (task_data task)) (present (d_l (task_data task))) error])
         ++ more /\
    grows 3 st (runTask i env st).1 /\
    (forall a l, Forall (settled a l) more) /\
    (forall e, e ∈ calls ->
       exists l k ok, present (d_l (task_data task)) = Some l /\
                      e = BrokerCall (d_id (task_data task)) l k ok) /\
    (error = None -> storeAvailable env = true ->
     forall a l, d_id (task_data task) = Some a -> present (d_l (task_data task)) = Some l ->
       stored a l (runTask i env st).1) /\
    (forall a l, d_id (task_data task) = Some a -> present (d_l (task_data task)) = Some l ->
       lookupAvailable env = true ->
       stored a l st -> error <> None /\ calls = []).
Proof.
intros Hroomy.
unfold runTask. destruct (listeners st !! i) as [task |] eqn:Htask; [| left; reflexivity].
right. set (st1 := set_listeners (delete i (listeners st)) st).
destruct (processWebhookData_spec env (task_data task) st1)
  as (error & st2 & calls & Hrun & Hg & Hcalls & Hstored & Hdup).
{ exact (roomy_le st 1 Hroomy ltac:(lia)). }
rewrite Hrun.
destruct Hg as (Ht & Hi & Hl).
destruct (settle_spec (task_promise task) (bool_decide (error = None)) st2) as [Hg2 Hmore].
{ pose proof (roomy_le st 3 Hroomy ltac:(lia)). simpl in Hl. lia. }
destruct (settle (task_promise task) (bool_decide (error = None)) st2) as [st3 more]. simpl in *.
exists task, error, calls, more.
split; [reflexivity |]. split; [reflexivity |]. split.
{ apply (grows_trans 1 2 st st2); [| exact Hg2]. unfold grows. split; [exact Ht |]. split; assumption. }
split; [exact Hmore |]. split; [exact Hcalls |]. split.
- intros Herr Hstore a l Ha Hlg. apply (stored_grows 2 a l st2 st3 Hg2).
  exact (Hstored Herr Hstore a l Ha Hlg).
- intros a l Ha Hlg Hlookup [Hrow Hkey]. exact (Hdup a l Ha Hlg Hlookup Hrow).
Qed.

Lemma not_executed_settled a l es : (forall a' l', Forall (settled a' l') es) -> executed a l ∉ es.
Proof.
intros H Hin. specialize (H a l). rewrite Forall_forall in H.
exact (settled_executed a l (H _ Hin)).
Qed.

(** The events other than the run of a listener and the sweep: no
    processed id is lost, no run ends, and a stored signal gets a duplicate
    answer. *)
Lemma step_other_spec st ev :
  (forall i env, ev <> Run i env) ->
  (forall available, ev <> Cleanup available) ->
  roomy st = true ->
  grows 3 st (step st ev).1 /\
  (forall a l, executed a l ∉ (step st ev).2) /\
  (forall a l, a <> EmptyString -> stored a l st -> Forall (settled a l) (step st ev).2).
Proof.
intros Hrun Hsweep Hroomy.
pose proof (roomy_le st 1 Hroomy ltac:(lia)) as Hroom.
destruct ev as [elapsed | data random available | i | i env | i | available]; simpl.
- split; [destruct (0 <=? elapsed); apply grows_same; reflexivity |].
  split; [intros a l Hin; apply elem_of_nil in Hin; contradiction |].
  intros a l _ _. apply Forall_nil_2.
- unfold receiveWebhook. cbv zeta.
  destruct (orderExistsWithAlertId _ _ _ _); simpl.
  + split; [apply grows_same; reflexivity |]. split.
    * intros a l Hin. apply list_elem_of_singleton in Hin. discriminate Hin.
    * intros a l _ _. apply Forall_cons. split; [| apply Forall_nil_2].
      simpl. intros _ _. left. reflexivity.
  + split; [apply grows_same; reflexivity |].
    split; [intros a l Hin; apply elem_of_nil in Hin; contradiction |].
    intros a l _ _. apply Forall_nil_2.
- unfold resumeWebhook. destruct (handlers st !! i) as [h |]; simpl.
  2: { split; [apply grows_same; reflexivity |].
       split; [intros a l Hin; apply elem_of_nil in Hin; contradiction |].
       intros a l _ _. apply Forall_nil_2. }
  set (st1 := set_handlers (delete i (handlers st)) st).
  destruct (checkForDuplicate st1 (h_data h) (h_login h)) eqn:Hdup; simpl.
  + split; [apply grows_same; reflexivity |]. split.
    * intros a l Hin. apply list_elem_of_singleton in Hin. discriminate Hin.
    * intros a l _ _. apply Forall_cons. split; [| apply Forall_nil_2].
      simpl. intros _ _. right. reflexivity.
  + unfold add. cbv zeta.
    match goal with |- context [set_queue ?q st1] => set (st2 := set_queue q st1) end.
    assert (Hq : grows 1 st (if processing st2 then (st2, []) else processQueue st2).1 /\
                 forall a l, Forall (settled a l)
                               (if processing st2 then (st2, []) else processQueue st2).2).
    { destruct (processing st2).
      - simpl. split; [apply grows_same; reflexivity | intros; apply Forall_nil_2].
      - exact (processQueue_spec st2 Hroom). }
    destruct (if processing st2 then (st2, []) else processQueue st2) as [st3 entries].
    simpl in Hq. destruct Hq as [Hg Hs]. simpl.
    split; [apply (grows_weaken 1 3); [lia | exact Hg] |]. split.
    * intros a l Hin. apply elem_of_app in Hin as [Hin | Hin].
      -- exact (not_executed_settled a l entries Hs Hin).
      -- apply list_elem_of_singleton in Hin. discriminate Hin.
    * intros a l Ha [_ Hkey]. apply Forall_app. split; [apply Hs |].
      apply Forall_cons. split; [| apply Forall_nil_2].
      simpl. intros Hid Hlogin. exfalso.
      unfold checkForDuplicate in Hdup. rewrite Hid in Hdup.
      assert (Hpresent : present (Some a) = Some a) by (destruct a; [contradiction | reflexivity]).
      rewrite Hpresent, Hlogin in Hdup.
      rewrite (bool_decide_eq_true_2 _ Hkey) in Hdup. discriminate Hdup.
- exfalso. exact (Hrun i env eq_refl).
- unfold requeue. destruct (timers st !! i) as [[due job] |]; simpl.
  2: { split; [apply grows_same; reflexivity |].
       split; [intros a l Hin; apply elem_of_nil in Hin; contradiction |].
       intros a l _ _. apply Forall_nil_2. }
  destruct (due <=? clock st); simpl.
  2: { split; [apply grows_same; reflexivity |].
       split; [intros a l Hin; apply elem_of_nil in Hin; contradiction |].
       intros a l _ _. apply Forall_nil_2. }
  match goal with |- context [processQueue ?s] => set (st2 := s) end.
  assert (Hq : grows 1 st (if processing st2 then (st2, []) else processQueue st2).1 /\
               forall a l, Forall (settled a l)
                             (if processing st2 then (st2, []) else processQueue st2).2).
  { destruct (processing st2).
    - simpl. split; [apply grows_same; reflexivity | intros; apply Forall_nil_2].
    - exact (processQueue_spec st2 Hroom). }
  destruct Hq as [Hg Hs].
  split; [apply (grows_weaken 1 3); [lia | exact Hg] |]. split.
  + intros a l. exact (not_executed_settled a l _ Hs).
  + intros a l _ _. apply Hs.
- exfalso. exact (Hsweep available eq_refl).
Qed.

Lemma step_grows st ev :
  (forall available, ev <> Cleanup available) ->
  roomy st = true -> grows 3 st (step st ev).1.
Proof.
intros Hsweep Hroomy. destruct ev as [| | | i env | |];
  try (apply step_other_spec; [discriminate | exact Hsweep | exact Hroomy]).
simpl. destruct (runTask_spec i env st Hroomy)
  as [-> | (task & error & calls & more & _ & _ & Hg & _)].
- simpl. apply grows_same; reflexivity.
- exact Hg.
Qed.

Lemma elem_of_setAdd k ids x : x ∈ setAdd k ids <-> x = k \/ x ∈ ids.
Proof.
unfold setAdd. case_bool_decide as Hk.
- split; [intros H; right; exact H | intros [-> | H]; assumption].
- rewrite elem_of_app, list_elem_of_singleton. tauto.
Qed.

Lemma setOf_from keys : forall acc x,
  x ∈ foldl (fun ids k => setAdd k ids) acc keys <-> x ∈ acc \/ x ∈ keys.
Proof.
induction keys as [| k keys IH]; intros acc x; simpl.
- rewrite elem_of_nil. tauto.
- rewrite IH, elem_of_setAdd, elem_of_cons. tauto.
Qed.

Lemma elem_of_setOf keys x : x ∈ setOf keys <-> x ∈ keys.
Proof. unfold setOf. rewrite setOf_from, elem_of_nil. tauto. Qed.

Lemma elem_of_filter_list {A} (f : A -> bool) l x :
  x ∈ List.filter f l <-> x ∈ l /\ f x = true.
Proof. rewrite !list_elem_of_In. apply filter_In. Qed.

(** A sweep that keeps the processed id of a stored signal leaves the signal
    stored: its row stays in the table, and the set is loaded from the
    table. *)
Lemma cleanupProcessedIds_stored a l available st :
  negb available || sweepKeeps a l st = true ->
  stored a l st -> stored a l (cleanupProcessedIds available st).
Proof.
intros Hkeep Hst. unfold cleanupProcessedIds. destruct available; [| exact Hst].
simpl in Hkeep. unfold sweepKeeps in Hkeep. cbv zeta in Hkeep. cbv zeta.
destruct Hst as [[row Hrow] _]. rewrite Hrow in Hkeep.
apply andb_true_iff in Hkeep as [Hage Hsize].
cbn [tables set_tables].
assert (Hsmall : (1000 <? length (processed_webhook_ids
                    (deleteOlderThan (clock st - 24 * 60 * 60 * 1000) (tables st))))%nat = false).
{ apply Nat.ltb_ge. apply Nat.leb_le in Hsize. exact Hsize. }
rewrite Hsmall.
assert (Hin : row ∈ processed_webhook_ids
                      (deleteOlderThan (clock st - 24 * 60 * 60 * 1000) (tables st)) /\
              alert_id row = a /\ account_number row = l).
{ unfold selectProcessed in Hrow.
  destruct (list_find _ (processed_webhook_ids (tables st))) as [[i r] |] eqn:Hfind;
    [| discriminate Hrow].
  simpl in Hrow. injection Hrow as ->.
  apply list_find_Some in Hfind as (Hi & Hkey & _). split; [| exact Hkey].
  unfold deleteOlderThan. simpl. apply elem_of_filter_list.
  split; [apply list_elem_of_lookup; exists i; exact Hi | exact Hage]. }
destruct Hin as (Hin & Ha & Hl). split.
- cbn [tables set_tables set_processedIds]. apply selectProcessed_is_Some.
  exists row. split; [exact Hin | split; assumption].
- cbn [processedIds set_processedIds tables set_tables]. apply elem_of_setOf.
  unfold processedKeys. apply list_elem_of_fmap. exists row.
  split; [rewrite Ha, Hl; reflexivity | exact Hin].
Qed.

Lemma concerns_true a l data :
  concerns a l data = true <-> d_id data = Some a /\ present (d_l data) = Some l.
Proof. unfold concerns. rewrite andb_true_iff, !bool_decide_eq_true. reflexivity. Qed.

(** Once a signal is stored, an event adds no execution of it. *)
Lemma step_stored a l st ev :
  a <> EmptyString ->
  dependable a l st ev = true -> roomy st = true ->
  stored a l st ->
  stored a l (step st ev).1 /\ Forall (settled a l) (step st ev).2.
Proof.
intros Ha Hdep Hroomy Hst.
destruct ev as [elapsed | data random available | i | i env | i | available].
6: { simpl. split; [exact (cleanupProcessedIds_stored a l available st Hdep Hst) |].
     apply Forall_nil_2. }
all: split;
  [apply (stored_grows 3 a l st); [apply step_grows; [discriminate | exact Hroomy] | exact Hst] |].
all: try (apply step_other_spec;
          [discriminate | discriminate | exact Hroomy | exact Ha | exact Hst]).
simpl. simpl in Hdep.
destruct (runTask_spec i env st Hroomy)
  as [-> | (task & error & calls & more & Htask & -> & _ & Hmore & Hcalls & _ & Hdup)].
{ apply Forall_nil_2. }
rewrite Htask in Hdep.
apply Forall_cons. split; [exact I |]. apply Forall_app. split; [| apply Hmore].
destruct (decide (d_id (task_data task) = Some a /\ present (d_l (task_data task)) = Some l))
  as [[Hid Hlogin] | Hother].
- rewrite (proj2 (concerns_true a l (task_data task)) (conj Hid Hlogin)) in Hdep.
  apply andb_true_iff in Hdep as [Hlookup _].
  destruct (Hdup a l Hid Hlogin Hlookup Hst) as [Herr ->]. simpl.
  apply Forall_cons. split; [| apply Forall_nil_2]. simpl. intros _ _. exact Herr.
- apply Forall_app. split.
  + apply Forall_forall. intros e He.
    destruct (Hcalls e He) as (l' & k & ok & Hl' & ->). simpl.
    intros [Hid <-]. apply Hother. split; assumption.
  + apply Forall_cons. split; [| apply Forall_nil_2]. simpl.
    intros Hid Hlogin. exfalso. apply Hother. split; assumption.
Qed.

(** The event in which a signal is executed stores it, and adds no further
    execution of it. *)
Lemma step_executed a l st ev n1 n2 :
  dependable a l st ev = true -> roomy st = true ->
  (step st ev).2 = n1 ++ executed a l :: n2 ->
  stored a l (step st ev).1 /\ Forall (settled a l) n2.
Proof.
intros Hdep Hroomy Hsplit.
assert (Hin : executed a l ∈ (step st ev).2).
{ rewrite Hsplit. apply elem_of_app. right. apply elem_of_cons. left. reflexivity. }
destruct ev as [elapsed | data random available | i | i env | i | available].
6: { simpl in Hin. apply elem_of_nil in Hin. contradiction. }
all: try (exfalso; revert Hin; apply step_other_spec;
          [discriminate | discriminate | exact Hroomy]).
simpl in *.
destruct (runTask_spec i env st Hroomy)
  as [Hnone | (task & error & calls & more & Htask & Hentries & _ & Hmore & Hcalls & Hstored & Hdup)].
{ rewrite Hnone in Hin. apply elem_of_nil in Hin. contradiction. }
rewrite Htask in Hdep.
rewrite Hentries in Hsplit.
destruct n1 as [| first n1]; [discriminate Hsplit |].
simpl in Hsplit. injection Hsplit as _ Hsplit.
rewrite <- app_assoc in Hsplit. simpl in Hsplit.
apply split_at_unique in Hsplit as (_ & Hfinished & <-).
- unfold executed in Hfinished. injection Hfinished as Hid Hlogin ->.
  rewrite (proj2 (concerns_true a l (task_data task)) (conj Hid Hlogin)) in Hdep.
  apply andb_true_iff in Hdep as [Hlookup Hstore].
  apply orb_true_iff in Hstore as [Hstore | Hbefore].
  + split; [exact (Hstored eq_refl Hstore a l Hid Hlogin) | apply Hmore].
  + exfalso. unfold isStored in Hbefore. apply andb_true_iff in Hbefore as [Hrow Hkey].
    apply bool_decide_eq_true in Hrow, Hkey.
    destruct (Hdup a l Hid Hlogin Hlookup (conj Hrow Hkey)) as [Herr _].
    contradiction Herr. reflexivity.
- intros Hc. destruct (Hcalls _ Hc) as (l' & k & ok & _ & Hcall). discriminate Hcall.
- exact (not_executed_settled a l more Hmore).
Qed.

Lemma run_cons st ev events :
  run st (ev :: events) = ((run (step st ev).1 events).1, (step st ev).2 ++ (run (step st ev).1 events).2).
Proof.
simpl. destruct (step st ev) as [st1 entries]. simpl.
destruct (run st1 events) as [st2 more]. reflexivity.
Qed.

(** Once a signal is stored, an execution within the retention adds no
    execution of it. *)
Lemma run_stored a l st events :
  a <> EmptyString ->
  retained a l st events = true ->
  stored a l st ->
  Forall (settled a l) (run st events).2.
Proof.
intros Ha. revert st. induction events as [| ev events IH]; intros st Hret Hst.
- apply Forall_nil_2.
- simpl in Hret. apply andb_true_iff in Hret as [Hret Hrest].
  apply andb_true_iff in Hret as [Hdep Hroomy].
  rewrite run_cons. simpl.
  destruct (step_stored a l st ev Ha Hdep Hroomy Hst) as [Hst' Hnew].
  apply Forall_app. split; [exact Hnew |]. exact (IH _ Hrest Hst').
Qed.

Lemma app_eq_split {A} (l1 l2 n1 n2 : list A) (x : A) :
  l1 ++ l2 = n1 ++ x :: n2 ->
  (exists m, l1 = n1 ++ x :: m /\ n2 = m ++ l2) \/
  (exists m, n1 = l1 ++ m /\ l2 = m ++ x :: n2).
Proof.
revert n1. induction l1 as [| y l1 IH]; intros n1 Heq.
- right. exists n1. split; [reflexivity | exact Heq].
- destruct n1 as [| z n1]; simpl in Heq.
  + injection Heq as -> <-. left. exists l1. split; reflexivity.
  + injection Heq as -> Heq. destruct (IH n1 Heq) as [(m & -> & ->) | (m & -> & ->)].
    * left. exists m. split; reflexivity.
    * right. exists m. split; reflexivity.
Qed.

(** After the execution of a signal the history holds no further execution
    of it. *)
Lemma run_executed a l st events pre post :
  a <> EmptyString ->
  retained a l st events = true ->
  (run st events).2 = pre ++ executed a l :: post ->
  Forall (settled a l) post.
Proof.
intros Ha. revert st pre. induction events as [| ev events IH]; intros st pre Hret Hsplit.
- simpl in Hsplit. destruct pre; discriminate Hsplit.
- simpl in Hret. apply andb_true_iff in Hret as [Hret Hrest].
  apply andb_true_iff in Hret as [Hdep Hroomy].
  rewrite run_cons in Hsplit. simpl in Hsplit.
  apply app_eq_split in Hsplit as [(m & Hnew & ->) | (m & -> & Hlater)].
  + destruct (step_executed a l st ev pre m Hdep Hroomy Hnew) as [Hst' Hm].
    apply Forall_app. split; [exact Hm |]. exact (run_stored a l _ events Ha Hrest Hst').
  + exact (IH _ m Hrest Hlater).
Qed.

(** C1, as stated, fails in two ways.  First: a webhook is queued behind
    another job; 31 s later, past the window of the in-queue check, its replay
    is queued as well; the broker rejects the three attempts of the first job,
    and the listener of the second job places the order, so both replays
    reach the broker.  Second: a day after the order was placed and its id
    stored, the sweep deletes the id, and a replay is queued and places the
    order again.  In both executions the database answers every lookup, and
    in the first the processed id of the signal is retained throughout. *)
Lemma C1_replays_reach_the_broker_twice :
  let cfg := {| DEFAULT_ACCOUNT_NUMBER := "100"; SECONDARY_API_ACCOUNTS := [] |} in
  let s0 := initial cfg 1700000000000
              {| processed_webhook_ids := []; sfx_historical_orders := [] |} in
  let signal := {| d_a := Some "B"; d_t := Some 50%float; d_s := None; d_l := Some "123";
                   d_z := Some 0.01%float; d_m := None; d_r := None;
                   d_sy := Some "EURUSD"; d_id := Some "A1" |}%string in
  let other := {| d_a := Some "S"; d_t := Some 50%float; d_s := None; d_l := Some "456";
                  d_z := Some 0.01%float; d_m := None; d_r := None;
                  d_sy := Some "GBPUSD"; d_id := Some "B7" |}%string in
  let settings := {| trading_mode := "NORMAL"; exclusive_mode := 0;
                     asia_session_enabled := 1; london_session_enabled := 1;
                     new_york_session_enabled := 1; limbo_session_enabled := 1 |} in
  let quote := {| Quotes.symbol := "EURUSD"; Quotes.bid := 1.1%float;
                  Quotes.ask := 1.1002%float; Quotes.timestamp := 1700000000000;
                  Quotes.isStale := false |} in
  let filled := {| Orchestrator.order_id := 77; Orchestrator.order_symbol := "EURUSD";
                   Orchestrator.order_side := "BUY"; Orchestrator.order_volume := 0.01%float;
                   Orchestrator.order_openPrice := 1.1002%float;
                   Orchestrator.order_takeProfit := 1.1052%float;
                   Orchestrator.order_stopLoss := None;
                   Orchestrator.spreadAtOpen := 2%float |} in
  let refused := {| Orchestrator.response_status := Some 500 |} in
  let env (accepts : bool) :=
    {| accountSettings := settings; totalOpenOrders := Some 0%nat; lookupAvailable := true;
       totalOpenVolume := Some 0%float; ordersOnSameSide := Some 0%nat;
       trading := {| Orchestrator.marketDataAt := fun _ => inl quote;
                     Orchestrator.placeTradeAt :=
                       fun _ _ => if accepts then inl filled else inr refused |};
       lastQuote := Some {| Quotes.q_bid := 1.1%float; Quotes.q_ask := 1.1002%float;
                            Quotes.q_timestamp := 1700000000000 |};
       upsertAvailable := true; updateMaxSizeAvailable := true; storeAvailable := true |} in
  let late_replay :=
    [Receive other "0.1" true; Resume 0; Receive signal "0.2" true; Resume 0; Tick 31000;
     Receive signal "0.3" true; Resume 0; Run 0 (env true); Run 0 (env true);
     Run 0 (env false); Run 1 (env true)] in
  let after_sweep :=
    [Receive signal "0.2" true; Resume 0; Run 0 (env true); Run 0 (env true);
     Tick 86401000; Cleanup true; Receive signal "0.3" true; Resume 0; Run 0 (env true)] in
  retained "A1" "123" s0 late_replay = true /\
  snd (run s0 late_replay)
  = [Dequeued "B7_456_1700000000000" 0;
     Answered (Some "B7"%string) "456" (Queued "B7_456_1700000000000");
     Answered (Some "A1"%string) "123" (Queued "A1_123_1700000000000");
     Answered (Some "A1"%string) "123" (Queued "A1_123_1700000031000");
     Listener 0; BrokerCall (Some "B7"%string) "456" 1 true;
     Finished (Some "B7"%string) (Some "456"%string) None;
     Dequeued "A1_123_1700000000000" 1;
     Listener 0; Finished (Some "B7"%string) (Some "456"%string) (Some OrderAlreadyProcessed);
     Listener 1;
     BrokerCall (Some "A1"%string) "123" 1 false;
     BrokerCall (Some "A1"%string) "123" 2 false;
     BrokerCall (Some "A1"%string) "123" 3 false;
     Finished (Some "A1"%string) (Some "123"%string)
       (Some (TradeFailed (Orchestrator.PlaceTradeError refused)));
     Dequeued "A1_123_1700000031000" 2;
     Listener 2; BrokerCall (Some "A1"%string) "123" 1 true;
     Finished (Some "A1"%string) (Some "123"%string) None] /\
  snd (run s0 after_sweep)
  = [Dequeued "A1_123_1700000000000" 0;
     Answered (Some "A1"%string) "123" (Queued "A1_123_1700000000000");
     Listener 0; BrokerCall (Some "A1"%string) "123" 1 true;
     Finished (Some "A1"%string) (Some "123"%string) None;
     Listener 0; Finished (Some "A1"%string) (Some "123"%string) (Some OrderAlreadyProcessed);
     Dequeued "A1_123_1700086401000" 1;
     Answered (Some "A1"%string) "123" (Queued "A1_123_1700086401000");
     Listener 1; BrokerCall (Some "A1"%string) "123" 1 true;
     Finished (Some "A1"%string) (Some "123"%string) None].
Proof. repeat split; vm_compute; reflexivity. Qed.

Lemma settled_reading a l es :
  Forall (settled a l) es ->
  (forall k ok, BrokerCall (Some a) l k ok ∉ es) /\
  (executed a l ∉ es) /\
  (forall answer, Answered (Some a) l answer ∈ es ->
     answer = AlertAlreadyProcessed \/ answer = DuplicateIgnored).
Proof.
intros H. rewrite Forall_forall in H. split; [| split].
- intros k ok Hin. apply (H _ Hin). split; reflexivity.
- intros Hin. exact (settled_executed a l (H _ Hin)).
- intros answer Hin. exact (H _ Hin eq_refl eq_refl).
Qed.

(** C1, amended.  In an execution within the retention of the processed id
    of the signal (the runs for the signal find the database answering their
    lookup, and the run that places the order finds it taking the id; every
    periodic sweep keeps the row of the signal, which it does while the row
    is less than a day old and the table holds no more than 1000 rows that
    recent; and the set of processed ids stays below its limit),
    for a signal with a non-empty alert id: after the run of
    [processWebhookData] that placed the order and stored the id, the
    history holds no call of the broker for the signal, no second such run,
    and no answer to a replay other than "already processed" or
    "duplicate"; and for a signal that is stored when the execution begins
    the whole history is so. *)
Theorem C1_stored_signal_is_not_executed_again
    (st : State) (events : list Event) (alertId login : string) :
  alertId <> EmptyString ->
  retained alertId login st events = true ->
  (forall pre post,
     snd (run st events) = pre ++ executed alertId login :: post ->
     (forall k ok, BrokerCall (Some alertId) login k ok ∉ post) /\
     (executed alertId login ∉ post) /\
     (forall answer, Answered (Some alertId) login answer ∈ post ->
        answer = AlertAlreadyProcessed \/ answer = DuplicateIgnored)) /\
  (stored alertId login st ->
     (forall k ok, BrokerCall (Some alertId) login k ok ∉ snd (run st events)) /\
     (executed alertId login ∉ snd (run st events)) /\
     (forall answer, Answered (Some alertId) login answer ∈ snd (run st events) ->
        answer = AlertAlreadyProcessed \/ answer = DuplicateIgnored)).
Proof.
intros Ha Hret. split.
- intros pre post Hsplit. apply settled_reading.
  exact (run_executed alertId login st events pre post Ha Hret Hsplit).
- intros Hst. apply settled_reading. exact (run_stored alertId login st events Ha Hret Hst).
Qed.

(** The order is placed; an hour later the sweep runs, and a run for another
    signal finds the database not answering; the replays of the signal that
    follow, one while the database does not answer the lookup of the
    endpoint, are answered as duplicates and reach no call of the broker. *)
Lemma C1_replay_after_execution_witness :
  let cfg := {| DEFAULT_ACCOUNT_NUMBER := "100"; SECONDARY_API_ACCOUNTS := [] |} in
  let s0 := initial cfg 1700000000000
              {| processed_webhook_ids := []; sfx_historical_orders := [] |} in
  let signal := {| d_a := Some "B"; d_t := Some 50%float; d_s := None; d_l := Some "123";
                   d_z := Some 0.01%float; d_m := None; d_r := None;
                   d_sy := Some "EURUSD"; d_id := Some "A1" |}%string in
  let other := {| d_a := Some "S"; d_t := Some 50%float; d_s := None; d_l := Some "456";
                  d_z := Some 0.01%float; d_m := None; d_r := None;
                  d_sy := Some "GBPUSD"; d_id := Some "B7" |}%string in
  let settings := {| trading_mode := "NORMAL"; exclusive_mode := 0;
                     asia_session_enabled := 1; london_session_enabled := 1;
                     new_york_session_enabled := 1; limbo_session_enabled := 1 |} in
  let quote := {| Quotes.symbol := "EURUSD"; Quotes.bid := 1.1%float;
                  Quotes.ask := 1.1002%float; Quotes.timestamp := 1700000000000;
                  Quotes.isStale := false |} in
  let filled := {| Orchestrator.order_id := 77; Orchestrator.order_symbol := "EURUSD";
                   Orchestrator.order_side := "BUY"; Orchestrator.order_volume := 0.01%float;
                   Orchestrator.order_openPrice := 1.1002%float;
                   Orchestrator.order_takeProfit := 1.1052%float;
                   Orchestrator.order_stopLoss := None;
                   Orchestrator.spreadAtOpen := 2%float |} in
  let env (answers : bool) :=
    {| accountSettings := settings; totalOpenOrders := Some 0%nat; lookupAvailable := answers;
       totalOpenVolume := Some 0%float; ordersOnSameSide := Some 0%nat;
       trading := {| Orchestrator.marketDataAt := fun _ => inl quote;
                     Orchestrator.placeTradeAt := fun _ _ => inl filled |};
       lastQuote := Some {| Quotes.q_bid := 1.1%float; Quotes.q_ask := 1.1002%float;
                            Quotes.q_timestamp := 1700000000000 |};
       upsertAvailable := true; updateMaxSizeAvailable := answers;
       storeAvailable := answers |} in
  let events := [Receive signal "0.2" true; Resume 0; Run 0 (env true); Run 0 (env true);
                 Tick 3600000; Cleanup true;
                 Receive other "0.3" true; Resume 0; Run 0 (env false);
                 Receive signal "0.4" false; Resume 0;
                 Receive signal "0.5" true] in
  let before := [Dequeued "A1_123_1700000000000" 0;
                 Answered (Some "A1"%string) "123" (Queued "A1_123_1700000000000");
                 Listener 0; BrokerCall (Some "A1"%string) "123" 1 true] in
  let after := [Listener 0;
                Finished (Some "A1"%string) (Some "123"%string) (Some OrderAlreadyProcessed);
                Dequeued "B7_456_1700003600000" 1;
                Answered (Some "B7"%string) "456" (Queued "B7_456_1700003600000");
                Listener 1; BrokerCall (Some "B7"%string) "456" 1 true;
                Finished (Some "B7"%string) (Some "456"%string) (Some DatabaseWriteFailed);
                Answered (Some "A1"%string) "123" DuplicateIgnored;
                Answered (Some "A1"%string) "123" AlertAlreadyProcessed] in
  snd (run s0 events) = before ++ executed "A1" "123" :: after /\
  forall k ok, BrokerCall (Some "A1"%string) "123" k ok ∉ after.
Proof.
intros cfg s0 signal other settings quote filled env events before after.
assert (Hret : retained "A1" "123" s0 events = true) by (vm_compute; reflexivity).
assert (Hrun : snd (run s0 events) = before ++ executed "A1" "123" :: after)
  by (vm_compute; reflexivity).
split; [exact Hrun |].
destruct (C1_stored_signal_is_not_executed_again s0 events "A1" "123"
            ltac:(discriminate) Hret) as [H _].
exact (proj1 (H before after Hrun)).
Defined.

Lemma processed_filter (f : ProcessedRow -> bool) rows row :
  row ∈ List.filter f rows -> row ∈ rows.
Proof. rewrite !list_elem_of_In. intros H. apply filter_In in H. exact (proj1 H). Qed.

Lemma insertProcessed_rows db a l t row :
  row ∈ processed_webhook_ids (insertProcessed db a l t) ->
  row ∈ processed_webhook_ids db \/ (alert_id row = a /\ account_number row = l).
Proof.
unfold insertProcessed. destruct (selectProcessed db (Some a) l); simpl; [left; assumption |].
intros H. apply elem_of_app in H as [H | H]; [left; exact H |].
apply list_elem_of_singleton in H. subst row. right. split; reflexivity.
Qed.

Lemma storeProcessedId_rows available alertId login st row :
  row ∈ processed_webhook_ids (tables (storeProcessedId available alertId login st)) ->
  row ∈ processed_webhook_ids (tables st) \/
  (alertId = Some (alert_id row) /\ account_number row = login).
Proof.
unfold storeProcessedId. destruct available; [| left; assumption].
destruct alertId as [a |]; [| left; assumption]. cbv zeta.
intros H.
assert (Hin : row ∈ processed_webhook_ids (insertProcessed (tables st) a login (clock st))).
{ destruct (_ <? _)%nat in H; [| exact H].
  unfold cleanupOldProcessedIds, keepMostRecent in H. simpl in H.
  exact (processed_filter _ _ _ H). }
apply insertProcessed_rows in Hin as [Hin | [<- Hl]]; [left; exact Hin |].
right. split; [reflexivity | exact Hl].
Qed.

(** The table of processed ids across the critical section: unchanged when
    it ends with an error, and otherwise larger by the row of its signal at
    most. *)
Lemma criticalSection_table env data login action sym tp sl st :
  let r := criticalSection env data login action sym tp sl st in
  (r.1.1 <> None ->
   processed_webhook_ids (tables r.1.2) = processed_webhook_ids (tables st)) /\
  (forall row, row ∈ processed_webhook_ids (tables r.1.2) ->
     row ∈ processed_webhook_ids (tables st) \/
     (r.1.1 = None /\ d_id data = Some (alert_id row) /\ account_number row = login)).
Proof.
cbv zeta. apply criticalSection_cases.
- intros error. simpl. split; [reflexivity | intros row H; left; exact H].
- unfold placeAndRecord.
  destruct (Orchestrator.placeTradeWithRetry _ _ _) as [[result | e] actions]; cbv zeta.
  2: { simpl. split; [reflexivity | intros row H; left; exact H]. }
  destruct (lastQuote env).
  2: { simpl. rewrite tables_removePendingOrder. simpl.
       split; [reflexivity | intros row H; left; exact H]. }
  destruct (upsertAvailable env); simpl.
  2: { split; [reflexivity | intros row H; left; exact H]. }
  destruct (updateMaxSizeAvailable env); simpl.
  2: { split; [reflexivity | intros row H; left; exact H]. }
  split; [intros H; contradiction |].
  intros row H. apply storeProcessedId_rows in H as [H | [Hid Hl]].
  + left. rewrite tables_removePendingOrder in H. exact H.
  + right. split; [reflexivity |]. split; assumption.
Qed.

(** When the critical section ends with an error the set of processed ids
    is as it was. *)
Lemma criticalSection_failure_ids env data login action sym tp sl st :
  let r := criticalSection env data login action sym tp sl st in
  r.1.1 <> None -> processedIds r.1.2 = processedIds st.
Proof.
cbv zeta. apply criticalSection_cases.
- intros error _. reflexivity.
- unfold placeAndRecord.
  destruct (Orchestrator.placeTradeWithRetry _ _ _) as [[result | e] actions]; cbv zeta.
  2: { intros _. reflexivity. }
  destruct (lastQuote env).
  2: { intros _. simpl. rewrite processedIds_removePendingOrder. reflexivity. }
  destruct (upsertAvailable env); simpl; [| intros _; reflexivity].
  destruct (updateMaxSizeAvailable env); simpl; [| intros _; reflexivity].
  intros H. contradiction.
Qed.

(** A run of [processWebhookData]: when it ends with an error, the table and
    the set of processed ids are as they were; a row that it adds to the
    table is the row of its signal, and the run ends without an error. *)
Lemma processWebhookData_table env data st :
  let r := processWebhookData env data st in
  (r.1.1 <> None ->
   processed_webhook_ids (tables r.1.2) = processed_webhook_ids (tables st) /\
   processedIds r.1.2 = processedIds st) /\
  (forall row, row ∈ processed_webhook_ids (tables r.1.2) ->
     row ∈ processed_webhook_ids (tables st) \/
     executed (alert_id row) (account_number row) ∈ r.2).
Proof.
cbv zeta. unfold processWebhookData. cbv zeta.
destruct (present (d_l data)) as [login |];
  [| simpl; split; [intros _; split; reflexivity | intros row Hin; left; exact Hin]].
case_bool_decide;
  [simpl; split; [intros _; split; reflexivity | intros row Hin; left; exact Hin] |].
destruct (negb _);
  [simpl; split; [intros _; split; reflexivity | intros row Hin; left; exact Hin] |].
destruct (negb _);
  [simpl; split; [intros _; split; reflexivity | intros row Hin; left; exact Hin] |].
destruct (convertTradingViewPips _ _ _) as [takeProfit stopLoss].
match goal with |- context [criticalSection ?e ?d ?l ?a ?s ?t ?sl ?s0] =>
  pose proof (criticalSection_table e d l a s t sl s0) as [Hfail Hrow];
  pose proof (criticalSection_failure_ids e d l a s t sl s0) as Hids
end.
cbv zeta in Hfail, Hrow, Hids.
destruct (criticalSection _ _ _ _ _ _ _ _) as [[[error |] st'] entries]; simpl in *.
- split.
  + intros _. rewrite tables_removePendingOrder, processedIds_removePendingOrder.
    split; [apply Hfail | apply Hids]; discriminate.
  + intros row Hin. rewrite tables_removePendingOrder in Hin.
    destruct (Hrow row Hin) as [Hold | [Hnone _]]; [left; exact Hold | discriminate].
- split; [intros Hne; contradiction |].
  intros row Hin. destruct (Hrow row Hin) as [Hold | (_ & Hid & Hl)]; [left; exact Hold |].
  right. apply elem_of_app. right. apply list_elem_of_singleton.
  unfold executed. rewrite Hid, Hl. reflexivity.
Qed.

Lemma tables_whileQueue st : tables (whileQueue st).1 = tables st.
Proof. unfold whileQueue. destruct (queue st); reflexivity. Qed.

Lemma tables_processQueue st : tables (processQueue st).1 = tables st.
Proof.
unfold processQueue. destruct (processing st || bool_decide (queue st = [])); [reflexivity |].
apply (tables_whileQueue (set_processing true st)).
Qed.

Lemma tables_settle p fulfilled st : tables (settle p fulfilled st).1 = tables st.
Proof.
unfold settle. destruct (awaited st) as [[p' job] |]; [| reflexivity].
case_bool_decide; [| reflexivity].
destruct fulfilled; [rewrite tables_whileQueue; reflexivity |].
destruct (job_retries job <? maxRetries)%nat; [rewrite tables_whileQueue; reflexivity |].
pose proof (tables_whileQueue st) as Hw.
destruct (whileQueue st) as [st1 entries]. exact Hw.
Qed.

Lemma tables_requeue i st : tables (requeue i st).1 = tables st.
Proof.
unfold requeue. destruct (timers st !! i) as [[due job] |]; [| reflexivity].
destruct (due <=? clock st); [| reflexivity]. cbv zeta.
destruct (processing _); [reflexivity |]. rewrite tables_processQueue. reflexivity.
Qed.

Lemma tables_add data accountNumber st : tables (add data accountNumber st).1.2 = tables st.
Proof.
unfold add. cbv zeta.
match goal with |- context [processQueue ?s] =>
  pose proof (tables_processQueue s) as H; destruct (processQueue s) as [st2 entries] end.
destruct (processing _); [reflexivity | exact H].
Qed.

Lemma tables_receiveWebhook data random available st :
  tables (receiveWebhook data random available st).1 = tables st.
Proof.
unfold receiveWebhook. cbv zeta. destruct (orderExistsWithAlertId _ _ _ _); reflexivity.
Qed.

Lemma tables_resumeWebhook i st : tables (resumeWebhook i st).1 = tables st.
Proof.
unfold resumeWebhook. destruct (handlers st !! i) as [h |]; [| reflexivity]. cbv zeta.
destruct (checkForDuplicate _ _ _); [reflexivity |].
match goal with |- context [add ?d ?a ?s] =>
  pose proof (tables_add d a s) as H; destruct (add d a s) as [[jobId st2] entries] end.
exact H.
Qed.

Lemma cleanupProcessedIds_rows available st row :
  row ∈ processed_webhook_ids (tables (cleanupProcessedIds available st)) ->
  row ∈ processed_webhook_ids (tables st).
Proof.
unfold cleanupProcessedIds. destruct available; [| intros H; exact H]. cbv zeta.
destruct (1000 <? _)%nat; simpl; intros H.
- unfold keepMostRecent in H. simpl in H. apply processed_filter in H.
  unfold deleteOlderThan in H. simpl in H. exact (processed_filter _ _ _ H).
- unfold deleteOlderThan in H. simpl in H. exact (processed_filter _ _ _ H).
Qed.

(** A row enters the table of processed ids only in the event that runs
    [processWebhookData] for its signal to the end without an error. *)
Lemma step_new_row st ev row :
  row ∈ processed_webhook_ids (tables (step st ev).1) ->
  row ∈ processed_webhook_ids (tables st) \/
  executed (alert_id row) (account_number row) ∈ (step st ev).2.
Proof.
destruct ev as [elapsed | data random available | i | i env | i | available]; simpl.
- destruct (0 <=? elapsed); intros H; left; exact H.
- rewrite tables_receiveWebhook. intros H; left; exact H.
- rewrite tables_resumeWebhook. intros H; left; exact H.
- unfold runTask. destruct (listeners st !! i) as [task |]; [| intros H; left; exact H].
  cbv zeta.
  pose proof (processWebhookData_table env (task_data task)
                (set_listeners (delete i (listeners st)) st)) as [_ Hrow].
  cbv zeta in Hrow.
  destruct (processWebhookData _ _ _) as [[error st2] entries]. simpl in Hrow.
  pose proof (tables_settle (task_promise task) (bool_decide (error = None)) st2) as Hs.
  destruct (settle _ _ st2) as [st3 more]. simpl in *. rewrite Hs.
  intros H. destruct (Hrow row H) as [Hold | Hnew]; [left; exact Hold |].
  right. apply elem_of_cons. right. apply elem_of_app. left. exact Hnew.
- rewrite tables_requeue. intros H; left; exact H.
- intros H. left. exact (cleanupProcessedIds_rows _ _ _ H).
Qed.

Lemma run_new_row events : forall st row,
  row ∈ processed_webhook_ids (tables (run st events).1) ->
  row ∈ processed_webhook_ids (tables st) \/
  executed (alert_id row) (account_number row) ∈ (run st events).2.
Proof.
induction events as [| ev events IH]; intros st row; [intros H; left; exact H |].
rewrite run_cons. simpl. intros H.
destruct (IH _ _ H) as [Hmid | Hlater].
- destruct (step_new_row st ev row Hmid) as [Hold | Hnew]; [left; exact Hold |].
  right. apply elem_of_app. left. exact Hnew.
- right. apply elem_of_app. right. exact Hlater.
Qed.

(** C2, as stated, fails: the key of the signal is put in the in-memory set
    of processed ids when its job is taken from the queue, before any run of
    [processWebhookData], and it stays there when every run has failed.  The
    broker refuses every order of signal A1 for login 123: each run ends
    with the error of the third attempt, the queue retries the job three
    times and emits [jobFailed], no order is accepted and no run ends without
    an error.  The table then holds no row, the set still holds the key, and
    the same signal sent again a minute later is answered as a duplicate. *)
Lemma C2_key_is_marked_before_and_kept_after_failure :
  let cfg := {| DEFAULT_ACCOUNT_NUMBER := "100"; SECONDARY_API_ACCOUNTS := [] |} in
  let s0 := initial cfg 1700000000000
              {| processed_webhook_ids := []; sfx_historical_orders := [] |} in
  let signal := {| d_a := Some "B"; d_t := Some 50%float; d_s := None; d_l := Some "123";
                   d_z := Some 0.01%float; d_m := None; d_r := None;
                   d_sy := Some "EURUSD"; d_id := Some "A1" |}%string in
  let settings := {| trading_mode := "NORMAL"; exclusive_mode := 0;
                     asia_session_enabled := 1; london_session_enabled := 1;
                     new_york_session_enabled := 1; limbo_session_enabled := 1 |} in
  let quote := {| Quotes.symbol := "EURUSD"; Quotes.bid := 1.1%float;
                  Quotes.ask := 1.1002%float; Quotes.timestamp := 1700000000000;
                  Quotes.isStale := false |} in
  let env :=
    {| accountSettings := settings; totalOpenOrders := Some 0%nat; lookupAvailable := true;
       totalOpenVolume := Some 0%float; ordersOnSameSide := Some 0%nat;
       trading := {| Orchestrator.marketDataAt := fun _ => inl quote;
                     Orchestrator.placeTradeAt := fun _ _ =>
                       inr {| Orchestrator.response_status := Some 500 |} |};
       lastQuote := Some {| Quotes.q_bid := 1.1%float; Quotes.q_ask := 1.1002%float;
                            Quotes.q_timestamp := 1700000000000 |};
       upsertAvailable := true; updateMaxSizeAvailable := true; storeAvailable := true |} in
  let queued := [Receive signal "0.2" true; Resume 0] in
  let failing := [Run 0 env; Run 0 env; Tick 2000; Fire 0;
                  Run 0 env; Run 0 env; Tick 4000; Fire 0;
                  Run 0 env; Run 0 env; Tick 8000; Fire 0;
                  Run 0 env; Run 0 env] in
  let replay := [Tick 60000; Receive signal "0.3" true; Resume 0] in
  let st1 := fst (run s0 queued) in
  let st2 := fst (run st1 failing) in
  snd (run s0 queued)
  = [Dequeued "A1_123_1700000000000" 0;
     Answered (Some "A1"%string) "123" (Queued "A1_123_1700000000000")] /\
  processedIds st1 = ["A1_123"%string] /\
  existsb (fun e => match e with JobFailed _ => true | _ => false end)
          (snd (run st1 failing)) = true /\
  forallb (fun e => match e with
                    | BrokerCall _ _ _ true | Finished _ _ None => false
                    | _ => true
                    end) (snd (run st1 failing)) = true /\
  processed_webhook_ids (tables st2) = [] /\
  processedIds st2 = ["A1_123"%string] /\
  snd (run st2 replay) = [Answered (Some "A1"%string) "123" DuplicateIgnored].
Proof.
cbv zeta.
split; [vm_compute; reflexivity |].
split; [vm_compute; reflexivity |].
split; [vm_compute; reflexivity |].
split; [vm_compute; reflexivity |].
split; [vm_compute; reflexivity |].
split; [vm_compute; reflexivity |].
vm_compute; reflexivity.
Qed.

(** C2, amended.  The row of the durable table is written on success only:
    a row that an execution adds to [processed_webhook_ids] belongs to a
    signal whose run of [processWebhookData] ended without an error in that
    execution, and a run that ends with an error leaves the table and the
    in-memory set as they were.  The key of the in-memory set is written
    earlier: when the job is taken from the queue, before any run, whatever
    the outcome of the runs. *)
Theorem C2_durable_row_on_success_memory_key_at_dequeue :
  (forall st events row,
     row ∈ processed_webhook_ids (tables (fst (run st events))) ->
     row ∈ processed_webhook_ids (tables st) \/
     executed (alert_id row) (account_number row) ∈ snd (run st events)) /\
  (forall env data st,
     fst (fst (processWebhookData env data st)) <> None ->
     processed_webhook_ids (tables (snd (fst (processWebhookData env data st))))
     = processed_webhook_ids (tables st) /\
     processedIds (snd (fst (processWebhookData env data st))) = processedIds st) /\
  (forall st job rest i,
     queue st = job :: rest ->
     present (d_id (job_data job)) = Some i ->
     (length (processedIds st) + 1 <= processedIdsLimit)%nat ->
     snd (whileQueue st) = [Dequeued (job_id job) (promises st)] /\
     tables (fst (whileQueue st)) = tables st /\
     alertKey (Some i) (job_accountNumber job) ∈ processedIds (fst (whileQueue st)) /\
     checkForDuplicate (fst (whileQueue st)) (job_data job) (job_accountNumber job) = true).
Proof.
split; [exact (fun st events row => run_new_row events st row) |].
split.
{ intros env data st Herror.
  exact (proj1 (processWebhookData_table env data st) Herror). }
intros st job rest i Hqueue Hid Hroom.
destruct (markProcessed_room job (processedIds st) Hroom) as (_ & _ & Hkey).
specialize (Hkey i Hid).
unfold whileQueue. rewrite Hqueue. simpl.
split; [reflexivity |]. split; [reflexivity |]. split; [exact Hkey |].
unfold checkForDuplicate. simpl. rewrite Hid.
rewrite bool_decide_eq_true_2 by exact Hkey. reflexivity.
Qed.

(** The job of signal A1 for login 123, first in the queue of a server that
    has processed nothing yet. *)
Lemma C2_dequeue_witness :
  let cfg := {| DEFAULT_ACCOUNT_NUMBER := "100"; SECONDARY_API_ACCOUNTS := [] |} in
  let signal := {| d_a := Some "B"; d_t := Some 50%float; d_s := None; d_l := Some "123";
                   d_z := Some 0.01%float; d_m := None; d_r := None;
                   d_sy := Some "EURUSD"; d_id := Some "A1" |}%string in
  let job := {| job_id := "A1_123_1700000000000"; job_data := signal;
                job_timestamp := 1700000000000; job_retries := 0;
                job_accountNumber := "123" |} in
  let st := set_queue [job]
              (initial cfg 1700000000000
                 {| processed_webhook_ids := []; sfx_historical_orders := [] |}) in
  snd (whileQueue st) = [Dequeued "A1_123_1700000000000" 0] /\
  tables (fst (whileQueue st)) = tables st /\
  alertKey (Some "A1"%string) "123" ∈ processedIds (fst (whileQueue st)) /\
  checkForDuplicate (fst (whileQueue st)) signal "123" = true.
Proof.
intros cfg signal job st.
destruct C2_durable_row_on_success_memory_key_at_dequeue as (_ & _ & H).
apply (H st job [] "A1"%string).
- reflexivity.
- reflexivity.
- vm_compute. lia.
Defined.

End Idempotency.

Section PendingMarkers.
Import Js Database Pipeline.

Lemma isOrderPending_addPendingOrder l s st l' s' :
  isOrderPending (addPendingOrder l s st) l' s'
  = (bool_decide (l' = l) && bool_decide (toUpperCase s' = toUpperCase s))
    || isOrderPending st l' s'.
Proof.
unfold isOrderPending, addPendingOrder. simpl.
destruct (decide (l' = l)) as [-> | Hne].
- rewrite lookup_insert_eq. rewrite (bool_decide_eq_true_2 (l = l)) by reflexivity. simpl.
  destruct (pendingOrders st !! l) as [sides |]; simpl.
  + destruct (decide (toUpperCase s' = toUpperCase s)) as [Heq | Hs].
    * rewrite (bool_decide_eq_true_2 _ Heq). simpl. apply bool_decide_eq_true_2. (set_unfold; intuition congruence).
    * rewrite (bool_decide_eq_false_2 _ Hs). simpl. apply bool_decide_ext. (set_unfold; intuition congruence).
  + rewrite orb_false_r. apply bool_decide_ext. (set_unfold; intuition congruence).
- rewrite lookup_insert_ne by congruence.
  rewrite (bool_decide_eq_false_2 (l' = l)) by exact Hne. reflexivity.
Qed.

Lemma isOrderPending_removePendingOrder l s st l' s' :
  isOrderPending (removePendingOrder l s st) l' s'
  = isOrderPending st l' s'
    && negb (bool_decide (l' = l) && bool_decide (toUpperCase s' = toUpperCase s)).
Proof.
unfold isOrderPending, removePendingOrder.
destruct (decide (l' = l)) as [-> | Hne].
- rewrite (bool_decide_eq_true_2 (l = l)) by reflexivity. simpl.
  destruct (pendingOrders st !! l) as [sides |] eqn:Hl; [| rewrite Hl; reflexivity].
  case_bool_decide as Hempty; simpl.
  + rewrite lookup_delete_eq.
    destruct (decide (toUpperCase s' = toUpperCase s)) as [Heq | Hs].
    * rewrite (bool_decide_eq_true_2 _ Heq). simpl. rewrite andb_false_r. reflexivity.
    * rewrite (bool_decide_eq_false_2 _ Hs). simpl. rewrite andb_true_r.
      symmetry. apply bool_decide_eq_false_2. set_unfold.
      intros Hin. apply (Hempty (toUpperCase s')). split; assumption.
  + rewrite lookup_insert_eq.
    destruct (decide (toUpperCase s' = toUpperCase s)) as [Heq | Hs].
    * rewrite (bool_decide_eq_true_2 _ Heq). simpl. rewrite andb_false_r.
      apply bool_decide_eq_false_2. (set_unfold; intuition congruence).
    * rewrite (bool_decide_eq_false_2 _ Hs). simpl. rewrite andb_true_r.
      apply bool_decide_ext. (set_unfold; intuition congruence).
- rewrite (bool_decide_eq_false_2 (l' = l)) by exact Hne. simpl. rewrite andb_true_r.
  destruct (pendingOrders st !! l) as [sides |]; [| reflexivity].
  case_bool_decide; simpl.
  + rewrite lookup_delete_ne by congruence. reflexivity.
  + rewrite lookup_insert_ne by congruence. reflexivity.
Qed.

(** A pending marker is read back as it was set.  After [addPendingOrder]
    the login is pending on the side, after [removePendingOrder] it is not,
    both whatever the case of the side is written in; and neither changes
    what is pending for another login or another side. *)
Theorem pending_marker_round_trip l s st l' s' :
  isOrderPending (addPendingOrder l s st) l s = true /\
  isOrderPending (removePendingOrder l s st) l s = false /\
  (toUpperCase s' = toUpperCase s ->
   isOrderPending (addPendingOrder l s st) l s' = true /\
   isOrderPending (removePendingOrder l s st) l s' = false) /\
  (l' <> l \/ toUpperCase s' <> toUpperCase s ->
   isOrderPending (addPendingOrder l s st) l' s' = isOrderPending st l' s' /\
   isOrderPending (removePendingOrder l s st) l' s' = isOrderPending st l' s').
Proof.
rewrite !isOrderPending_addPendingOrder, !isOrderPending_removePendingOrder.
rewrite !(bool_decide_eq_true_2 (l = l)) by reflexivity.
rewrite !(bool_decide_eq_true_2 (toUpperCase s = toUpperCase s)) by reflexivity.
simpl. rewrite andb_false_r. split; [reflexivity |]. split; [reflexivity |]. split.
- intros Hs. rewrite (bool_decide_eq_true_2 _ Hs). simpl. rewrite andb_false_r.
  split; reflexivity.
- intros Hne.
  assert (Hb : bool_decide (l' = l) && bool_decide (toUpperCase s' = toUpperCase s) = false).
  { destruct Hne as [Hne | Hne]; rewrite (bool_decide_eq_false_2 _ Hne);
      [reflexivity | apply andb_false_r]. }
  rewrite Hb. simpl. rewrite andb_true_r. split; reflexivity.
Qed.

Lemma pendingOrders_storeProcessedId available alertId login st :
  pendingOrders (storeProcessedId available alertId login st) = pendingOrders st.
Proof.
unfold storeProcessedId. destruct available; [| reflexivity].
destruct alertId as [a |]; [| reflexivity]. cbv zeta.
destruct (_ <? _)%nat; reflexivity.
Qed.

Lemma isOrderPending_pendingOrders st st' l s :
  pendingOrders st' = pendingOrders st -> isOrderPending st' l s = isOrderPending st l s.
Proof. unfold isOrderPending. intros ->. reflexivity. Qed.

(** The markers after the critical section: those before it, and its own
    marker when it ends with an error. *)
Lemma criticalSection_markers env data login action sym tp sl st :
  let r := criticalSection env data login action sym tp sl st in
  forall l' s',
    isOrderPending r.1.2 l' s' = true ->
    (isOrderPending st l' s' = true /\
     (r.1.1 = None -> ~ (l' = login /\ toUpperCase s' = toUpperCase action))) \/
    (r.1.1 <> None /\ l' = login /\ toUpperCase s' = toUpperCase action).
Proof.
cbv zeta. apply criticalSection_cases.
- intros error l' s' H. simpl in *.
  destruct (decide (l' = login /\ toUpperCase s' = toUpperCase action)) as [[-> Hs] | Hn].
  + right. split; [discriminate |]. split; [reflexivity | exact Hs].
  + left. split; [exact H |]. intros [=].
- unfold placeAndRecord.
  destruct (Orchestrator.placeTradeWithRetry _ _ _) as [[result | e] actions]; cbv zeta.
  2: { intros l' s'. simpl. rewrite isOrderPending_addPendingOrder. intros H.
       apply orb_true_iff in H as [H | H].
       - apply andb_true_iff in H as [Hl Hs].
         apply bool_decide_eq_true_1 in Hl, Hs. right. split; [discriminate |]. split; assumption.
       - destruct (decide (l' = login /\ toUpperCase s' = toUpperCase action)) as [[-> Hs] | Hn].
         + right. split; [discriminate |]. split; [reflexivity | exact Hs].
         + left. split; [exact H | intros [=]]. }
  assert (Hrem : forall st0 l' s',
            isOrderPending (removePendingOrder login action st0) l' s' = true ->
            pendingOrders st0 = pendingOrders (addPendingOrder login action st) ->
            isOrderPending st l' s' = true /\
            ~ (l' = login /\ toUpperCase s' = toUpperCase action)).
  { intros st0 l' s' H Hp. rewrite isOrderPending_removePendingOrder in H.
    rewrite (isOrderPending_pendingOrders _ _ _ _ Hp), isOrderPending_addPendingOrder in H. apply andb_true_iff in H as [H Hn]. apply negb_true_iff in Hn.
    rewrite Hn in H. simpl in H. split; [exact H |].
    intros [Hl Hs]. rewrite (bool_decide_eq_true_2 _ Hl), (bool_decide_eq_true_2 _ Hs) in Hn.
    discriminate. }
  assert (Hadd : forall st0 l' s',
            isOrderPending st0 l' s' = true ->
            pendingOrders st0 = pendingOrders (addPendingOrder login action st) ->
            (isOrderPending st l' s' = true /\ ~ (l' = login /\ toUpperCase s' = toUpperCase action))
            \/ (l' = login /\ toUpperCase s' = toUpperCase action)).
  { intros st0 l' s' H Hp. rewrite (isOrderPending_pendingOrders _ _ _ _ Hp) in H.
    rewrite isOrderPending_addPendingOrder in H.
    destruct (decide (l' = login /\ toUpperCase s' = toUpperCase action)) as [Hy | Hn];
      [right; exact Hy |].
    left. split; [| exact Hn]. apply orb_true_iff in H as [H | H]; [| exact H].
    apply andb_true_iff in H as [Hl Hs]. apply bool_decide_eq_true_1 in Hl, Hs.
    contradiction Hn. split; assumption. }
  destruct (lastQuote env).
  2: { intros l' s' H. simpl in H. left.
       destruct (Hrem _ l' s' H eq_refl) as [H1 H2]. split; [exact H1 | intros [=]]. }
  destruct (upsertAvailable env); simpl.
  2: { intros l' s' H.
       destruct (Hadd _ l' s' H eq_refl) as [[H1 H2] | H2].
       - left. split; [exact H1 | intros [=]].
       - right. split; [discriminate | exact H2]. }
  destruct (updateMaxSizeAvailable env); simpl.
  2: { intros l' s' H.
       destruct (Hadd _ l' s' H eq_refl) as [[H1 H2] | H2].
       - left. split; [exact H1 | intros [=]].
       - right. split; [discriminate | exact H2]. }
  intros l' s' H. left.
  rewrite (isOrderPending_pendingOrders _ _ _ _ (pendingOrders_storeProcessedId _ _ _ _)) in H.
  destruct (Hrem _ l' s' H eq_refl) as [H1 H2].
  split; [exact H1 | intros _; exact H2].
Qed.

(** After a run of [processWebhookData], whatever its outcome, a pending
    marker is one that was there before the run; and when the run went as far
    as the critical section, the marker of its own login and side is not
    among them. *)
Theorem processWebhookData_leaves_no_marker env data st l' s' :
  isOrderPending (processWebhookData env data st).1.2 l' s' = true ->
  isOrderPending st l' s' = true /\
  ((processWebhookData env data st).1.2 = st \/
   ~ (Some l' = present (d_l data) /\
      toUpperCase s' = toUpperCase (default "UNKNOWN"%string (present (d_a data))))).
Proof.
unfold processWebhookData. cbv zeta.
destruct (present (d_l data)) as [login |];
  [| simpl; intros H; split; [exact H | left; reflexivity]].
case_bool_decide;
  [simpl; intros Hp; split; [exact Hp | left; reflexivity] |].
destruct (negb _); [simpl; intros Hp; split; [exact Hp | left; reflexivity] |].
destruct (negb _); [simpl; intros Hp; split; [exact Hp | left; reflexivity] |].
destruct (convertTradingViewPips _ _ _) as [takeProfit stopLoss].
match goal with |- context [criticalSection ?e ?d ?l ?a ?s ?t ?sl ?s0] =>
  pose proof (criticalSection_markers e d l a s t sl s0 l' s') as Hm
end.
cbv zeta in Hm.
destruct (criticalSection _ _ _ _ _ _ _ _) as [[[error |] st'] entries]; simpl in *.
- rewrite isOrderPending_removePendingOrder. intros Hp.
  apply andb_true_iff in Hp as [Hp Hn]. apply negb_true_iff in Hn.
  assert (Hown : ~ (l' = login /\
            toUpperCase s' = toUpperCase (default "UNKNOWN"%string (present (d_a data))))).
  { intros [Hl Hs]. rewrite (bool_decide_eq_true_2 _ Hl), (bool_decide_eq_true_2 _ Hs) in Hn.
    discriminate. }
  destruct (Hm Hp) as [[H1 _] | (_ & Hl & Hs)]; [| contradiction Hown; split; assumption].
  split; [exact H1 |]. right. intros [[= ->] Hs]. apply Hown. split; [reflexivity | exact Hs].
- intros Hp. destruct (Hm Hp) as [[H1 H2] | (Hne & _)]; [| contradiction].
  split; [exact H1 |]. right. intros [[= ->] Hs]. apply H2; [reflexivity |].
  split; [reflexivity | exact Hs].
Qed.

(** A signal for login 123 runs through its critical section while a sell
    of login 999 is pending: that marker is the one left. *)
Lemma processWebhookData_marker_witness :
  let cfg := {| DEFAULT_ACCOUNT_NUMBER := "100"; SECONDARY_API_ACCOUNTS := [] |} in
  let st := addPendingOrder "999" "S"
              (initial cfg 1700000000000
                 {| processed_webhook_ids := []; sfx_historical_orders := [] |}) in
  let signal := {| d_a := Some "B"; d_t := Some 50%float; d_s := None; d_l := Some "123";
                   d_z := Some 0.01%float; d_m := None; d_r := None;
                   d_sy := Some "EURUSD"; d_id := Some "A1" |}%string in
  let settings := {| trading_mode := "NORMAL"; exclusive_mode := 0;
                     asia_session_enabled := 1; london_session_enabled := 1;
                     new_york_session_enabled := 1; limbo_session_enabled := 1 |} in
  let quote := {| Quotes.symbol := "EURUSD"; Quotes.bid := 1.1%float;
                  Quotes.ask := 1.1002%float; Quotes.timestamp := 1700000000000;
                  Quotes.isStale := false |} in
  let filled := {| Orchestrator.order_id := 77; Orchestrator.order_symbol := "EURUSD";
                   Orchestrator.order_side := "BUY"; Orchestrator.order_volume := 0.01%float;
                   Orchestrator.order_openPrice := 1.1002%float;
                   Orchestrator.order_takeProfit := 1.1052%float;
                   Orchestrator.order_stopLoss := None;
                   Orchestrator.spreadAtOpen := 2%float |} in
  let env :=
    {| accountSettings := settings; totalOpenOrders := Some 0%nat; lookupAvailable := true;
       totalOpenVolume := Some 0%float; ordersOnSameSide := Some 0%nat;
       trading := {| Orchestrator.marketDataAt := fun _ => inl quote;
                     Orchestrator.placeTradeAt := fun _ _ => inl filled |};
       lastQuote := Some {| Quotes.q_bid := 1.1%float; Quotes.q_ask := 1.1002%float;
                            Quotes.q_timestamp := 1700000000000 |};
       upsertAvailable := true; updateMaxSizeAvailable := true; storeAvailable := true |} in
  isOrderPending (processWebhookData env signal st).1.2 "999" "S" = true /\
  isOrderPending (processWebhookData env signal st).1.2 "123" "B" = false /\
  isOrderPending st "999" "S" = true.
Proof.
intros cfg st signal settings quote filled env.
split; [vm_compute; reflexivity |]. split; [vm_compute; reflexivity |].
apply (processWebhookData_leaves_no_marker env signal st "999" "S").
vm_compute. reflexivity.
Defined.

End PendingMarkers.

Section DuplicateWindow.
Import Js Database Pipeline.

(** Jobs of other accounts and jobs queued 30 s ago or earlier never make a
    webhook a duplicate: with only such jobs in the queue, and its key not in
    the set of processed ids, the webhook is accepted. *)
Theorem checkForDuplicate_outside_window st data accountNumber :
  (forall i, present (d_id data) = Some i ->
     alertKey (Some i) accountNumber ∉ processedIds st) ->
  Forall (fun job => job_accountNumber job <> accountNumber \/
                     duplicateWindow <= clock st - job_timestamp job) (queue st) ->
  checkForDuplicate st data accountNumber = false.
Proof.
intros Hkey Hq. unfold checkForDuplicate. cbv zeta.
assert (Hfirst : match present (d_id data) with
                 | Some i => bool_decide (alertKey (Some i) accountNumber ∈ processedIds st)
                 | None => false
                 end = false).
{ destruct (present (d_id data)) as [i |]; [| reflexivity].
  apply bool_decide_eq_false_2. apply Hkey. reflexivity. }
rewrite Hfirst. simpl.
apply orb_false_iff. split.
- apply not_true_iff_false. intros H. apply existsb_exists in H as (job & Hin & Hjob).
  rewrite Forall_forall in Hq. apply list_elem_of_In in Hin. specialize (Hq job Hin).
  apply andb_true_iff in Hjob as [Hjob Hage]. apply andb_true_iff in Hjob as [_ Hacc].
  apply bool_decide_eq_true_1 in Hacc. apply Z.ltb_lt in Hage.
  destruct Hq as [Hq | Hq]; [contradiction | lia].
- apply not_true_iff_false. intros H. apply existsb_exists in H as (job & Hin & Hjob).
  rewrite Forall_forall in Hq. apply list_elem_of_In in Hin. specialize (Hq job Hin).
  apply andb_true_iff in Hjob as [Hjob Hage]. apply Z.ltb_lt in Hage.
  repeat (apply andb_true_iff in Hjob as [Hjob ?]).
  apply bool_decide_eq_true_1 in Hjob.
  destruct Hq as [Hq | Hq]; [contradiction | lia].
Qed.

(** The job of the same webhook was queued exactly 30 s ago: the webhook is
    accepted again. *)
Lemma checkForDuplicate_outside_window_witness :
  let buy := {| d_a := Some "B"; d_t := Some 50%float; d_s := None; d_l := Some "123";
                d_z := Some 0.01%float; d_m := None; d_r := None;
                d_sy := Some "EURUSD"; d_id := Some "A1" |}%string in
  let job := {| job_id := "A1_123_1700000000000"; job_data := buy;
                job_timestamp := 1700000000000; job_retries := 0;
                job_accountNumber := "123" |} in
  let st := set_clock 1700000030000
              (set_queue [job]
                 (initial {| DEFAULT_ACCOUNT_NUMBER := "100"; SECONDARY_API_ACCOUNTS := [] |}
                    1700000000000
                    {| processed_webhook_ids := []; sfx_historical_orders := [] |})) in
  checkForDuplicate st buy "123" = false.
Proof.
intros buy job st.
apply (checkForDuplicate_outside_window st buy "123").
- intros i _ Hin. vm_compute in Hin. inversion Hin.
- apply Forall_cons. split; [| apply Forall_nil_2].
  right. vm_compute. discriminate.
Defined.

End DuplicateWindow.

Section QueueMarking.
Import Js Database Pipeline.

Lemma markProcessed_key_kept job ids i :
  present (d_id (job_data job)) = Some i ->
  alertKey (Some i) (job_accountNumber job) ∉ ids \/ (length ids <= processedIdsLimit)%nat ->
  alertKey (Some i) (job_accountNumber job) ∈ markProcessed job ids.
Proof.
intros Hi Hroom. unfold markProcessed. rewrite Hi. cbv zeta.
set (key := alertKey (Some i) (job_accountNumber job)) in *.
unfold setAdd. destruct (decide (key ∈ ids)) as [Hin | Hnew].
- rewrite (bool_decide_eq_true_2 _ Hin).
  destruct Hroom as [Hn | Hlen]; [contradiction |].
  assert (Hb : (processedIdsLimit <? length ids)%nat = false) by (apply Nat.ltb_ge; exact Hlen).
  rewrite Hb. exact Hin.
- rewrite (bool_decide_eq_false_2 _ Hnew).
  destruct (processedIdsLimit <? length (ids ++ [key]))%nat eqn:Hb.
  + rewrite length_app. simpl. unfold processedIdsKept.
    rewrite drop_app_le by lia. apply elem_of_app. right.
    apply list_elem_of_singleton. reflexivity.
  + apply elem_of_app. right. apply list_elem_of_singleton. reflexivity.
Qed.

(** [processJob] keeps the set of processed ids bounded.  After it has
    marked a job with an alert id, the set holds at most 1000 keys, all of
    them the key of the job or keys from before, in their order and without
    repetition; the key of the job is in the set when it is new or the set
    was within the bound; and below the bound no key is lost. *)
Theorem markProcessed_bounds_the_set job ids i :
  present (d_id (job_data job)) = Some i ->
  let key := alertKey (Some i) (job_accountNumber job) in
  let ids' := markProcessed job ids in
  (length ids' <= processedIdsLimit)%nat /\
  (forall k, k ∈ ids' -> k = key \/ k ∈ ids) /\
  (NoDup ids -> NoDup ids') /\
  (key ∉ ids \/ (length ids <= processedIdsLimit)%nat -> key ∈ ids') /\
  ((length ids < processedIdsLimit)%nat -> ids ⊆ ids').
Proof.
intros Hi key ids'.
assert (Hadd : forall k, k ∈ setAdd key ids -> k = key \/ k ∈ ids).
{ intros k. unfold setAdd. case_bool_decide as Hin; [right; assumption |].
  rewrite elem_of_app, list_elem_of_singleton. tauto. }
assert (Hnd : NoDup ids -> NoDup (setAdd key ids)).
{ intros H. unfold setAdd. case_bool_decide as Hin; [exact H |].
  apply NoDup_app. split; [exact H |]. split; [| apply NoDup_singleton].
  intros x Hx Hx'. apply list_elem_of_singleton in Hx'. subst x. contradiction. }
split; [| split; [| split; [| split]]].
- subst ids'. unfold markProcessed. rewrite Hi. cbv zeta. fold key.
  destruct (processedIdsLimit <? length (setAdd key ids))%nat eqn:Hb.
  + rewrite length_drop. unfold processedIdsLimit, processedIdsKept in *.
    apply Nat.ltb_lt in Hb. lia.
  + apply Nat.ltb_ge in Hb. exact Hb.
- intros k. subst ids'. unfold markProcessed. rewrite Hi. cbv zeta. fold key.
  destruct (processedIdsLimit <? length (setAdd key ids))%nat.
  + intros Hk. apply Hadd. exact (elem_of_sublist _ _ _ Hk (sublist_drop _ _)).
  + apply Hadd.
- intros H. subst ids'. unfold markProcessed. rewrite Hi. cbv zeta. fold key.
  destruct (processedIdsLimit <? length (setAdd key ids))%nat; [| apply Hnd; exact H].
  apply (sublist_NoDup _ (setAdd key ids)); [apply Hnd; exact H | apply sublist_drop].
- exact (markProcessed_key_kept job ids i Hi).
- intros Hlen. subst ids'. unfold markProcessed. rewrite Hi. cbv zeta. fold key.
  pose proof (setAdd_length key ids) as Hl.
  assert (Hb : (processedIdsLimit <? length (setAdd key ids))%nat = false)
    by (apply Nat.ltb_ge; lia).
  rewrite Hb. apply setAdd_subseteq.
Qed.

(** The set is at its bound of 1000 keys when job A2 is marked: the newest
    500 keys are kept, A2 among them. *)
Lemma markProcessed_witness :
  let data := {| d_a := Some "B"; d_t := Some 50%float; d_s := None; d_l := Some "123";
                 d_z := Some 0.01%float; d_m := None; d_r := None;
                 d_sy := Some "EURUSD"; d_id := Some "A2" |}%string in
  let job := {| job_id := "A2_123_1700000000000"; job_data := data;
                job_timestamp := 1700000000000; job_retries := 0;
                job_accountNumber := "123" |} in
  let ids := map (fun n => showZ (Z.of_nat n)) (seq 0 1000) in
  (length (markProcessed job ids) <= processedIdsLimit)%nat /\
  "A2_123"%string ∈ markProcessed job ids.
Proof.
intros data job ids.
destruct (markProcessed_bounds_the_set job ids "A2") as (H1 & _ & _ & H2 & _).
- reflexivity.
- split; [exact H1 |]. apply H2. right. vm_compute. lia.
Defined.

(** What a webhook that was just queued is to [checkForDuplicate].  While
    the queue is busy the job waits in it, and the same webhook is a
    duplicate.  On an idle queue the job is taken out at once: a webhook with
    an alert id is then a duplicate by its key, which was marked when the job
    was taken, but the same webhook without an alert id is not recognised. *)
Theorem add_then_checkForDuplicate data accountNumber st :
  let st' := (add data accountNumber st).1.2 in
  (processing st = true \/ queue st <> [] ->
   checkForDuplicate st' data accountNumber = true) /\
  (forall i, present (d_id data) = Some i ->
     alertKey (Some i) accountNumber ∉ processedIds st \/
     (length (processedIds st) <= processedIdsLimit)%nat ->
     checkForDuplicate st' data accountNumber = true) /\
  (processing st = false -> queue st = [] -> present (d_id data) = None ->
   checkForDuplicate st' data accountNumber = false).
Proof.
cbv zeta.
set (job := {| job_id := (default (showZ (clock st)) (present (d_id data)) +:+ "_"
                          +:+ accountNumber +:+ "_" +:+ showZ (clock st))%string;
               job_data := data; job_timestamp := clock st; job_retries := 0;
               job_accountNumber := accountNumber |}).
assert (Hwaits : forall st0, clock st0 = clock st -> job ∈ queue st0 ->
          checkForDuplicate st0 data accountNumber = true).
{ intros st0 Hclock Hin. unfold checkForDuplicate. cbv zeta.
  apply orb_true_iff. left. apply orb_true_iff. right.
  apply existsb_exists. exists job. split; [apply list_elem_of_In; exact Hin |].
  simpl. rewrite !bool_decide_eq_true_2 by reflexivity. simpl.
  apply Z.ltb_lt. rewrite Hclock. unfold duplicateWindow. lia. }
assert (Hbusy : processing st = true \/ queue st <> [] ->
          checkForDuplicate (add data accountNumber st).1.2 data accountNumber = true).
{ intros Hb. unfold add. cbv zeta. fold job. cbn [processing set_queue].
  destruct (processing st) eqn:Hp.
  - cbn [fst snd]. apply Hwaits; [reflexivity |]. simpl.
    apply elem_of_app. right. apply list_elem_of_singleton. reflexivity.
  - destruct Hb as [Hb | Hb]; [discriminate Hb |].
    unfold processQueue. cbn [processing queue set_queue]. rewrite Hp. simpl.
    destruct (queue st) as [| first rest] eqn:Hq; [contradiction |].
    rewrite bool_decide_eq_false_2 by discriminate.
    unfold whileQueue. simpl. apply Hwaits; [reflexivity |]. simpl.
    apply elem_of_app. right. apply list_elem_of_singleton. reflexivity. }
split; [exact Hbusy |]. split.
- intros i Hi Hroom.
  destruct (processing st) eqn:Hp; [apply Hbusy; left; reflexivity |].
  destruct (queue st) as [| first rest] eqn:Hq; [| apply Hbusy; right; discriminate].
  unfold add. cbv zeta. fold job. cbn [processing set_queue]. rewrite Hp.
  unfold processQueue. cbn [processing queue set_queue]. rewrite Hp, Hq. simpl.
  unfold whileQueue. simpl. unfold checkForDuplicate. simpl. rewrite Hi.
  rewrite bool_decide_eq_true_2; [reflexivity |].
  apply (markProcessed_key_kept job (processedIds st) i Hi Hroom).
- intros Hp Hq Hid.
  unfold add. cbv zeta. fold job. cbn [processing set_queue]. rewrite Hp.
  unfold processQueue. cbn [processing queue set_queue]. rewrite Hp, Hq. simpl.
  unfold whileQueue. simpl. unfold checkForDuplicate. simpl. rewrite Hid. reflexivity.
Qed.

End QueueMarking.

Section ProcessedIdStore.
Import Js Database Pipeline Invariants.

Lemma NoDup_setAdd k ids : NoDup ids -> NoDup (setAdd k ids).
Proof.
intros Hnd. unfold setAdd. case_bool_decide as Hk; [exact Hnd |].
apply NoDup_app. split; [exact Hnd |]. split; [| apply NoDup_singleton].
intros x Hx Hx'. apply list_elem_of_singleton in Hx'. subst x. contradiction.
Qed.

Lemma NoDup_setOf_from keys : forall acc,
  NoDup acc -> NoDup (foldl (fun ids k => setAdd k ids) acc keys).
Proof.
induction keys as [| k keys IH]; intros acc Hnd; simpl; [exact Hnd |].
apply IH. apply NoDup_setAdd. exact Hnd.
Qed.

Lemma NoDup_setOf keys : NoDup (setOf keys).
Proof. apply NoDup_setOf_from. apply NoDup_nil_2. Qed.

Lemma sameRow_rowKey r1 r2 : sameRow r1 r2 = true <-> rowKey r1 = rowKey r2.
Proof.
unfold sameRow, rowKey. rewrite andb_true_iff, !bool_decide_eq_true.
split; [intros [-> ->]; reflexivity | intros [= -> ->]; split; reflexivity].
Qed.

Lemma NoDup_fmap_filter {A B} `{EqDecision B} (g : A -> B) (f : A -> bool) l :
  NoDup (g <$> l) -> NoDup (g <$> List.filter f l).
Proof.
induction l as [| a l IH]; simpl; [intros H; exact H |].
intros Hnd. apply NoDup_cons in Hnd as [Hna Hnd].
destruct (f a); simpl; [| apply IH; exact Hnd].
apply NoDup_cons. split; [| apply IH; exact Hnd].
intros Hin. apply Hna. apply list_elem_of_fmap in Hin as (b & Hb & Hin).
apply list_elem_of_fmap. exists b. split; [exact Hb |].
apply elem_of_filter_list in Hin. exact (proj1 Hin).
Qed.

(** With one row per pair, the rows that [keepMostRecent] keeps are no more
    than its limit. *)
Lemma keepMostRecent_length limit db :
  NoDup (rowKey <$> processed_webhook_ids db) ->
  (length (processed_webhook_ids (keepMostRecent limit db)) <= limit)%nat.
Proof.
intros Hnd. unfold keepMostRecent. cbv zeta. simpl.
set (kept := take limit (byRecency (processed_webhook_ids db))).
set (rows := List.filter _ _).
assert (Hk : (length kept <= limit)%nat) by (unfold kept; rewrite length_take; lia).
assert (Hsub : (rowKey <$> rows) ⊆+ (rowKey <$> kept)).
{ apply NoDup_submseteq.
  - apply NoDup_fmap_filter. exact Hnd.
  - intros key Hin. apply list_elem_of_fmap in Hin as (r & -> & Hr).
    apply elem_of_filter_list in Hr as [_ Hr].
    apply existsb_exists in Hr as (k & Hkin & Hsame).
    apply list_elem_of_fmap. exists k. split; [apply sameRow_rowKey; exact Hsame |].
    apply list_elem_of_In. exact Hkin. }
apply submseteq_length in Hsub. rewrite !length_fmap in Hsub. lia.
Qed.

(** The sweep [cleanupProcessedIds], when the database answers: the rows that
    remain are rows of the table that were processed within the last 24
    hours; the orders are untouched; the in-memory set is reloaded from the
    table, so it holds exactly the keys of the remaining rows, and every key
    that was in memory only is forgotten; and with one row per pair, as the
    table's [UNIQUE] constraint has it, no more than 1000 rows remain.  When
    the database does not answer nothing changes. *)
Theorem cleanupProcessedIds_postconditions st :
  let st' := cleanupProcessedIds true st in
  (forall row, row ∈ processed_webhook_ids (tables st') ->
     row ∈ processed_webhook_ids (tables st) /\
     clock st - 24 * 60 * 60 * 1000 <= processed_at row) /\
  sfx_historical_orders (tables st') = sfx_historical_orders (tables st) /\
  (forall key, key ∈ processedIds st' <->
     exists row, row ∈ processed_webhook_ids (tables st') /\
                 key = alertKey (Some (alert_id row)) (account_number row)) /\
  NoDup (processedIds st') /\
  (NoDup (rowKey <$> processed_webhook_ids (tables st)) ->
   (length (processed_webhook_ids (tables st')) <= 1000)%nat) /\
  cleanupProcessedIds false st = st.
Proof.
cbv zeta. unfold cleanupProcessedIds. cbv zeta.
set (swept := deleteOlderThan (clock st - 24 * 60 * 60 * 1000) (tables st)).
assert (Hswept : forall row, row ∈ processed_webhook_ids swept ->
          row ∈ processed_webhook_ids (tables st) /\
          clock st - 24 * 60 * 60 * 1000 <= processed_at row).
{ intros row H. unfold swept, deleteOlderThan in H. simpl in H.
  apply elem_of_filter_list in H as [Hin Hage]. split; [exact Hin |].
  apply negb_true_iff, Z.ltb_ge in Hage. exact Hage. }
assert (Hkeys : forall db key,
          key ∈ setOf (processedKeys db) <->
          exists row, row ∈ processed_webhook_ids db /\
                      key = alertKey (Some (alert_id row)) (account_number row)).
{ intros db key. rewrite elem_of_setOf. unfold processedKeys.
  rewrite list_elem_of_In, in_map_iff.
  split; intros (row & H1 & H2); exists row.
  - split; [apply list_elem_of_In; exact H2 | symmetry; exact H1].
  - split; [symmetry; exact H2 | apply list_elem_of_In; exact H1]. }
destruct (1000 <? length (processed_webhook_ids (tables (set_tables swept st))))%nat eqn:Hmany;
  simpl in *.
- split.
  { intros row H. apply Hswept. unfold keepMostRecent in H. simpl in H.
    apply elem_of_filter_list in H. exact (proj1 H). }
  split; [reflexivity |]. split; [apply Hkeys |]. split; [apply NoDup_setOf |].
  split; [| reflexivity].
  intros Hnd.
  assert (Hlen : (length (processed_webhook_ids (keepMostRecent processedIdsKept swept))
                  <= processedIdsKept)%nat).
  { apply keepMostRecent_length. unfold swept, deleteOlderThan. simpl.
    apply NoDup_fmap_filter. exact Hnd. }
  unfold keepMostRecent, swept, deleteOlderThan, processedIdsKept in Hlen. simpl in Hlen.
  unfold processedIdsKept. lia.
- split; [exact Hswept |]. split; [reflexivity |]. split; [apply Hkeys |].
  split; [apply NoDup_setOf |]. split; [| reflexivity].
  intros _. apply Nat.ltb_ge in Hmany. exact Hmany.
Qed.

(** Two rows, one of them older than a day at the time of the sweep. *)
Lemma cleanupProcessedIds_witness :
  let db := {| processed_webhook_ids :=
                 [{| alert_id := "A1"; account_number := "123";
                     processed_at := 1700000000000 |};
                  {| alert_id := "A2"; account_number := "123";
                     processed_at := 1700086400001 |}];
               sfx_historical_orders := [] |} in
  let st := set_clock 1700086401000
              (initial {| DEFAULT_ACCOUNT_NUMBER := "100"; SECONDARY_API_ACCOUNTS := [] |}
                 1700000000000 db) in
  (length (processed_webhook_ids (tables (cleanupProcessedIds true st))) <= 1000)%nat.
Proof.
intros db st.
destruct (cleanupProcessedIds_postconditions st) as (_ & _ & _ & _ & H & _).
apply H. vm_compute.
apply NoDup_cons. split; [| apply NoDup_singleton].
intros Hin. apply list_elem_of_singleton in Hin. discriminate Hin.
Defined.

End ProcessedIdStore.

Section QueueInvariants.
Import Js Database Pipeline Invariants.

Lemma sameQueue_refl st : sameQueue st st.
Proof. repeat split. Qed.

Lemma sameQueue_removePendingOrder l s st : sameQueue st (removePendingOrder l s st).
Proof.
unfold removePendingOrder. destruct (pendingOrders st !! l); [| apply sameQueue_refl].
case_bool_decide; repeat split.
Qed.

Lemma sameQueue_storeProcessedId available alertId login st :
  sameQueue st (storeProcessedId available alertId login st).
Proof.
unfold storeProcessedId. destruct available; [| apply sameQueue_refl].
destruct alertId as [a |]; [| repeat split]. cbv zeta.
destruct (_ <? _)%nat; repeat split.
Qed.

Lemma sameQueue_trans st1 st2 st3 : sameQueue st1 st2 -> sameQueue st2 st3 -> sameQueue st1 st3.
Proof.
intros (H1 & H2 & H3 & H4) (H1' & H2' & H3' & H4'). repeat split; congruence.
Qed.

Lemma sameQueue_criticalSection env data login action sym tp sl st :
  sameQueue st (criticalSection env data login action sym tp sl st).1.2.
Proof.
apply criticalSection_cases.
- intros error. apply sameQueue_refl.
- unfold placeAndRecord.
  destruct (Orchestrator.placeTradeWithRetry _ _ _) as [[result | e] actions]; cbv zeta.
  2: { repeat split. }
  destruct (lastQuote env).
  2: { simpl. eapply sameQueue_trans; [| apply sameQueue_removePendingOrder]. repeat split. }
  destruct (upsertAvailable env); simpl; [| repeat split].
  destruct (updateMaxSizeAvailable env); simpl; [| repeat split].
  eapply sameQueue_trans; [| apply sameQueue_storeProcessedId].
  eapply sameQueue_trans; [| apply sameQueue_removePendingOrder]. repeat split.
Qed.

Lemma sameQueue_processWebhookData env data st :
  sameQueue st (processWebhookData env data st).1.2.
Proof.
unfold processWebhookData. cbv zeta.
destruct (present (d_l data)) as [login |]; [| apply sameQueue_refl].
case_bool_decide; [apply sameQueue_refl |].
destruct (negb _); [apply sameQueue_refl |].
destruct (negb _); [apply sameQueue_refl |].
destruct (convertTradingViewPips _ _ _) as [takeProfit stopLoss].
match goal with |- context [criticalSection ?e ?d ?l ?a ?s ?t ?sl ?s0] =>
  pose proof (sameQueue_criticalSection e d l a s t sl s0) as Hq
end.
destruct (criticalSection _ _ _ _ _ _ _ _) as [[[error |] st'] entries]; simpl in *.
- eapply sameQueue_trans; [exact Hq | apply sameQueue_removePendingOrder].
- exact Hq.
Qed.

Lemma orderly_sameQueue st st' : sameQueue st st' -> orderly st -> orderly st'.
Proof.
intros (H1 & H2 & H3 & H4). unfold orderly. rewrite H1, H2, H3, H4. tauto.
Qed.

Lemma orderly_initial cfg t0 db : orderly (initial cfg t0 db).
Proof.
unfold orderly. simpl. split; [split; [discriminate | intros [x [=]]] |].
split; [reflexivity |]. split; [apply Forall_nil_2 |]. split; [apply Forall_nil_2 |].
intros p job [=].
Qed.

(** The loop head keeps the order when it is entered by a busy queue. *)
Lemma orderly_whileQueue st :
  processing st = true ->
  Forall (fun job => (job_retries job <= maxRetries)%nat) (queue st) ->
  Forall (fun timer => (job_retries timer.2 <= maxRetries)%nat) (timers st) ->
  orderly (whileQueue st).1.
Proof.
intros Hbusy Hq Ht. unfold whileQueue. destruct (queue st) as [| job rest] eqn:Hqueue; simpl.
- unfold orderly. simpl. rewrite Hqueue.
  split; [split; [discriminate | intros [x [=]]] |].
  split; [reflexivity |]. split; [apply Forall_nil_2 |]. split; [exact Ht |].
  intros p job [=].
- apply Forall_cons in Hq as [Hjob Hrest].
  unfold orderly. simpl. rewrite Hbusy.
  split; [split; [intros _; eexists; reflexivity | reflexivity] |].
  split; [discriminate |]. split; [exact Hrest |]. split; [exact Ht |].
  intros p job' [= _ <-]. exact Hjob.
Qed.

Lemma orderly_processQueue st :
  orderly st -> orderly (processQueue st).1.
Proof.
intros Ho. unfold processQueue.
destruct (processing st || bool_decide (queue st = [])) eqn:Hb; [exact Ho |].
apply orb_false_iff in Hb as [Hidle _].
destruct Ho as (_ & _ & Hq & Ht & _).
apply orderly_whileQueue; [reflexivity | exact Hq | exact Ht].
Qed.

Lemma orderly_push job st :
  (job_retries job <= maxRetries)%nat ->
  orderly st ->
  orderly (if processing (set_queue (queue st ++ [job]) st)
           then (set_queue (queue st ++ [job]) st, [])
           else processQueue (set_queue (queue st ++ [job]) st)).1.
Proof.
intros Hjob Ho. simpl.
assert (Hq : Forall (fun job => (job_retries job <= maxRetries)%nat) (queue st ++ [job])).
{ apply Forall_app. split; [apply Ho |]. apply Forall_cons. split; [exact Hjob | apply Forall_nil_2]. }
destruct (processing st) eqn:Hbusy; simpl.
- destruct Ho as (Ha & _ & _ & Ht & Hw). unfold orderly. simpl.
  split; [exact Ha |]. split; [rewrite Hbusy; discriminate |]. split; [exact Hq |].
  split; [exact Ht | exact Hw].
- unfold processQueue. simpl. rewrite Hbusy. simpl.
  assert (Hne : bool_decide (queue st ++ [job] = []) = false).
  { apply bool_decide_eq_false_2. intros H. apply app_eq_nil in H as [_ [=]]. }
  rewrite Hne. apply orderly_whileQueue; [reflexivity | exact Hq | apply Ho].
Qed.

Lemma orderly_add data accountNumber st :
  orderly st -> orderly (add data accountNumber st).1.2.
Proof.
intros Ho. unfold add. cbv zeta.
match goal with |- context [set_queue (queue st ++ [?j]) st] =>
  pose proof (orderly_push j st) as Hpush
end.
simpl in Hpush. specialize (Hpush ltac:(unfold maxRetries; lia) Ho).
simpl. destruct (processing st); simpl in *; [exact Hpush |].
destruct (processQueue _) as [st2 entries]. exact Hpush.
Qed.

Lemma elem_of_list_delete {A} (l : list A) : forall i x, x ∈ delete i l -> x ∈ l.
Proof.
induction l as [| a l IH]; intros [| i] x Hx; simpl in *.
- inversion Hx.
- inversion Hx.
- apply elem_of_cons. right. exact Hx.
- apply elem_of_cons in Hx as [-> | Hx]; [apply elem_of_cons; left; reflexivity |].
  apply elem_of_cons. right. exact (IH i x Hx).
Qed.

Lemma lookup_delete_Forall {A} (P : A -> Prop) (l : list A) i :
  Forall P l -> Forall P (delete i l).
Proof.
intros H. rewrite Forall_forall in *. intros x Hx. apply H.
exact (elem_of_list_delete l i x Hx).
Qed.

Lemma orderly_requeue i st : orderly st -> orderly (requeue i st).1.
Proof.
intros Ho. unfold requeue. destruct (timers st !! i) as [[due job] |] eqn:Hi; [| exact Ho].
destruct (due <=? clock st); [| exact Ho]. cbv zeta.
assert (Hjob : (job_retries job <= maxRetries)%nat).
{ destruct Ho as (_ & _ & _ & Ht & _). rewrite Forall_forall in Ht.
  apply (Ht (due, job)). apply list_elem_of_lookup. exists i. exact Hi. }
assert (Ho' : orderly (set_timers (delete i (timers st)) st)).
{ destruct Ho as (Ha & Hidle & Hq & Ht & Hw). unfold orderly. simpl.
  split; [exact Ha |]. split; [exact Hidle |]. split; [exact Hq |].
  split; [apply lookup_delete_Forall; exact Ht | exact Hw]. }
exact (orderly_push job _ Hjob Ho').
Qed.

Lemma orderly_settle p fulfilled st : orderly st -> orderly (settle p fulfilled st).1.
Proof.
intros Ho. unfold settle. destruct (awaited st) as [[p' job] |] eqn:Haw; [| exact Ho].
case_bool_decide; [| exact Ho].
destruct Ho as (Ha & Hidle & Hq & Ht & Hw).
assert (Hbusy : processing st = true) by (apply Ha; rewrite Haw; eexists; reflexivity).
specialize (Hw p' job Haw).
destruct fulfilled.
- apply orderly_whileQueue; assumption.
- destruct (job_retries job <? maxRetries)%nat eqn:Hr.
  + apply Nat.ltb_lt in Hr. apply orderly_whileQueue; simpl; [exact Hbusy | exact Hq |].
    apply Forall_app. split; [exact Ht |]. apply Forall_cons. split; [simpl; lia | apply Forall_nil_2].
  + pose proof (orderly_whileQueue st Hbusy Hq Ht) as Hw'.
    destruct (whileQueue st) as [st1 entries]. exact Hw'.
Qed.

Lemma orderly_step st ev : orderly st -> orderly (step st ev).1.
Proof.
intros Ho. destruct ev as [elapsed | data random available | i | i env | i | available]; simpl.
- destruct (0 <=? elapsed); [| exact Ho]. exact Ho.
- unfold receiveWebhook. cbv zeta. destruct (orderExistsWithAlertId _ _ _ _); exact Ho.
- unfold resumeWebhook. destruct (handlers st !! i) as [h |]; [| exact Ho]. cbv zeta.
  destruct (checkForDuplicate _ _ _); [exact Ho |].
  match goal with |- context [add ?d ?a ?s] =>
    pose proof (orderly_add d a s Ho) as Hadd; destruct (add d a s) as [[jobId st2] entries]
  end.
  exact Hadd.
- unfold runTask. destruct (listeners st !! i) as [task |]; [| exact Ho]. cbv zeta.
  pose proof (sameQueue_processWebhookData env (task_data task)
                (set_listeners (delete i (listeners st)) st)) as Hq.
  destruct (processWebhookData _ _ _) as [[error st2] entries]. simpl in Hq.
  assert (Ho2 : orderly st2) by (apply (orderly_sameQueue _ _ Hq); exact Ho).
  pose proof (orderly_settle (task_promise task) (bool_decide (error = None)) st2 Ho2) as Hs.
  destruct (settle _ _ st2) as [st3 more]. exact Hs.
- apply orderly_requeue. exact Ho.
- unfold cleanupProcessedIds. destruct available; [| exact Ho]. cbv zeta.
  destruct (1000 <? _)%nat; exact Ho.
Qed.

Lemma orderly_run events : forall st, orderly st -> orderly (run st events).1.
Proof.
induction events as [| ev events IH]; intros st Ho; [exact Ho |].
rewrite run_cons. simpl. apply IH. apply orderly_step. exact Ho.
Qed.

(** No job is stranded: in every state that the server reaches from its
    start, the queue is busy exactly while it awaits the promise of a job,
    and when it is idle no job is left waiting in it. *)
Theorem queue_never_strands_a_job cfg t0 db events :
  let st := (run (initial cfg t0 db) events).1 in
  (processing st = true <-> is_Some (awaited st)) /\
  (processing st = false -> queue st = []).
Proof.
cbv zeta. destruct (orderly_run events _ (orderly_initial cfg t0 db)) as (H1 & H2 & _).
split; assumption.
Qed.

(** The retry counter of a job never exceeds the cap of three, wherever the
    job is: in the queue, awaited, or waiting for its retry timer. *)
Theorem job_retries_bounded cfg t0 db events :
  let st := (run (initial cfg t0 db) events).1 in
  Forall (fun job => (job_retries job <= 3)%nat) (queue st) /\
  Forall (fun timer => (job_retries timer.2 <= 3)%nat) (timers st) /\
  (forall p job, awaited st = Some (p, job) -> (job_retries job <= 3)%nat).
Proof.
cbv zeta. destruct (orderly_run events _ (orderly_initial cfg t0 db)) as (_ & _ & H).
exact H.
Qed.

End QueueInvariants.

Section OrderRequests.
Import Js Instruments Orchestrator.

Lemma elem_of_placements_app a b x :
  x ∈ placements (a ++ b) <-> x ∈ placements a \/ x ∈ placements b.
Proof. unfold placements. rewrite omap_app, elem_of_app. reflexivity. Qed.

Lemma placements_attempt env args attempt k request :
  (k, request) ∈ placements (attemptTrade env args attempt).2 ->
  k = attempt /\
  exists marketData,
    marketDataAt env k = inl marketData /\
    Quotes.isStale marketData = false /\
    let specs := getInstrumentSpecs (symbol args) in
    let entryPrice :=
      if isBuy (side args) then Quotes.ask marketData else Quotes.bid marketData in
    let levels :=
      calculatePriceLevels (side args) entryPrice (takeProfitPips args) (stopLossPips args)
        specs in
    validatePriceLevels (side args) entryPrice (takeProfitPrice levels) (stopLossPrice levels)
      specs = Valid /\
    request = {| req_side := side args; req_amount := amount args;
                 req_loginNumber := loginNumber args;
                 req_takeProfitPrice := takeProfitPrice levels;
                 req_stopLossPrice := stopLossPrice levels;
                 req_reality := reality args; req_symbol := symbol args;
                 req_useSecondaryApi := useSecondaryApi args |}.
Proof.
unfold attemptTrade. cbv zeta.
destruct (marketDataAt env attempt) as [md | e] eqn:Hmd;
  [| simpl; intros H; inversion H].
destruct (Quotes.isStale md) eqn:Hstale; [simpl; intros H; inversion H |].
destruct (validatePriceLevels _ _ _ _ _) eqn:Hvalid; [| simpl; intros H; inversion H].
match goal with |- context [placeTradeAt env attempt ?r] =>
  assert (Hp : (k, request) ∈ placements [FetchMarketData attempt; PlaceTrade attempt r] ->
               k = attempt /\ request = r)
end.
{ intros H. unfold placements in H. simpl in H.
  apply list_elem_of_singleton in H. injection H as -> ->. split; reflexivity. }
destruct (placeTradeAt env attempt _); simpl; intros H; apply Hp in H as [-> ->];
  (split; [reflexivity |]); exists md; repeat split; assumption.
Qed.

Lemma placements_from env args maxRetries remaining : forall attempt lastError k request,
  (k, request) ∈ placements
     (placeTradeWithRetry_from env args maxRetries remaining attempt lastError).2 ->
  (attempt <= k < attempt + remaining)%nat /\
  (k, request) ∈ placements (attemptTrade env args k).2.
Proof.
induction remaining as [| remaining IH]; intros attempt lastError k request;
  [simpl; intros H; inversion H |].
cbn [placeTradeWithRetry_from].
pose proof (placements_attempt env args attempt k request) as Hone.
destruct (attemptTrade env args attempt) as [[result | error] actions] eqn:Hattempt.
- simpl in *. intros H. destruct (Hone H) as [-> _]. split; [lia |].
  rewrite Hattempt. exact H.
- specialize (IH (S attempt) (Some error) k request).
  destruct (placeTradeWithRetry_from env args maxRetries remaining (S attempt) (Some error))
    as [outcome rest].
  simpl in *. rewrite !elem_of_placements_app. intros [H | [H | H]].
  + destruct (Hone H) as [-> _]. split; [lia |]. rewrite Hattempt. exact H.
  + destruct (attempt <? maxRetries)%nat; inversion H.
  + destruct (IH H) as [Hk Hin]. split; [lia | exact Hin].
Qed.

(** Every order that [placeTradeWithRetry] sends to the broker is built at
    one of its attempts, between 1 and the cap, from the market data of that
    very attempt: the data are not flagged stale, the entry price is their
    ask for a buy and their bid for a sell, and the price levels of the request
    are the levels computed from that entry price, which have passed
    [validatePriceLevels]. *)
Theorem placeTradeWithRetry_sends_validated_levels env args maxRetries k request :
  (k, request) ∈ placements (placeTradeWithRetry env args maxRetries).2 ->
  (1 <= k <= maxRetries)%nat /\
  exists marketData,
    marketDataAt env k = inl marketData /\
    Quotes.isStale marketData = false /\
    let specs := getInstrumentSpecs (symbol args) in
    let entryPrice :=
      if isBuy (side args) then Quotes.ask marketData else Quotes.bid marketData in
    let levels :=
      calculatePriceLevels (side args) entryPrice (takeProfitPips args) (stopLossPips args)
        specs in
    validatePriceLevels (side args) entryPrice (takeProfitPrice levels) (stopLossPrice levels)
      specs = Valid /\
    request = {| req_side := side args; req_amount := amount args;
                 req_loginNumber := loginNumber args;
                 req_takeProfitPrice := takeProfitPrice levels;
                 req_stopLossPrice := stopLossPrice levels;
                 req_reality := reality args; req_symbol := symbol args;
                 req_useSecondaryApi := useSecondaryApi args |}.
Proof.
unfold placeTradeWithRetry. intros H.
apply placements_from in H as [Hk H]. split; [lia |].
exact (proj2 (placements_attempt env args k k request H)).
Qed.

(** A buy on EURUSD with a take profit of 50 pips, filled at the first
    attempt: the request carries the take profit of 1.105 computed from the
    ask of 1.1. *)
Lemma placeTradeWithRetry_levels_witness :
  let quote := {| Quotes.symbol := "EURUSD"; Quotes.bid := 1.0998; Quotes.ask := 1.1;
                  Quotes.timestamp := 1700000000000; Quotes.isStale := false |} in
  let filled := {| order_id := 77; order_symbol := "EURUSD"; order_side := "BUY";
                   order_volume := 0.01; order_openPrice := 1.1; order_takeProfit := 1.105;
                   order_stopLoss := None; spreadAtOpen := 2 |} in
  let env := {| marketDataAt := fun _ => inl quote; placeTradeAt := fun _ _ => inl filled |} in
  let args := {| side := "BUY"; amount := 0.01; loginNumber := "123"; takeProfitPips := 50;
                 stopLossPips := None; reality := "DEMO"; symbol := "EURUSD";
                 useSecondaryApi := false |} in
  let request := {| req_side := "BUY"; req_amount := 0.01; req_loginNumber := "123";
                    req_takeProfitPrice := 1.105; req_stopLossPrice := None;
                    req_reality := "DEMO"; req_symbol := "EURUSD";
                    req_useSecondaryApi := false |} in
  placements (placeTradeWithRetry env args defaultMaxRetries).2 = [(1%nat, request)] /\
  (1 <= 1 <= defaultMaxRetries)%nat.
Proof.
intros quote filled env args request.
split; [vm_compute; reflexivity |].
apply (placeTradeWithRetry_sends_validated_levels env args defaultMaxRetries 1%nat request).
vm_compute. apply list_elem_of_singleton. reflexivity.
Defined.

End OrderRequests.

Section LockWaiters.
Import Serializer Invariants.

Lemma enqueued_start logins : enqueued (start logins).
Proof.
intros i l H. simpl in H. apply list_lookup_fmap_Some in H as (x & Hx & _). discriminate Hx.
Qed.

Lemma enqueued_acquire i w : consistent w -> enqueued w -> enqueued (acquire i w).
Proof.
intros Hc Hq.
destruct (calls w !! i) as [[l ph] |] eqn:Hi; [| unfold acquire; rewrite Hi; exact Hq].
destruct ph; try (unfold acquire; rewrite Hi; exact Hq).
destruct (acquire_cases i w l Hc Hi)
  as (mutex & m & w2 & Hc2 & Hcalls & _ & Hlm & _ & Hm & Hfor & Hframe & ->).
assert (Hi2 : calls w2 !! i = Some {| login := l; phase := NotStarted |})
  by (rewrite Hcalls; exact Hi).
assert (Hold : forall j l', j <> i ->
          calls w2 !! j = Some {| login := l'; phase := Waiting |} ->
          exists m', (if decide (l' = l) then Some m else mutexFor w2 l') = Some m' /\
                     j ∈ waiting m').
{ intros j l' Hne Hj. rewrite Hcalls in Hj. destruct (Hq j l' Hj) as (m' & Hm' & Hin).
  destruct (decide (l' = l)) as [-> | Hl].
  - exists m. split; [reflexivity |].
    destruct Hfor as [Hfor | [Hfor _]]; rewrite Hfor in Hm'; [| discriminate Hm'].
    injection Hm' as <-. exact Hin.
  - exists m'. split; [rewrite (Hframe l' Hl); exact Hm' | exact Hin]. }
destruct (locked m) eqn:Hlk; intros j l' Hj; simpl in Hj;
  rewrite (setPhase_lookup _ _ _ _ j Hi2) in Hj;
  rewrite (mutexFor_update w2 l mutex _ _ _ _ l' Hc2 Hlm);
  destruct (decide (i = j)) as [<- | Hne].
- injection Hj as <-. destruct (decide (l = l)); [| contradiction].
  eexists. split; [reflexivity |]. simpl.
  apply elem_of_app. right. apply list_elem_of_singleton. reflexivity.
- destruct (Hold j l' ltac:(congruence) Hj) as (m' & Hm' & Hin).
  destruct (decide (l' = l)) as [-> | Hl].
  + injection Hm' as <-. eexists. split; [reflexivity |]. simpl.
    apply elem_of_app. left. exact Hin.
  + exists m'. split; assumption.
- discriminate Hj.
- destruct (Hold j l' ltac:(congruence) Hj) as (m' & Hm' & Hin).
  destruct (decide (l' = l)) as [-> | Hl].
  + injection Hm' as <-. eexists. split; [reflexivity |]. simpl. exact Hin.
  + exists m'. split; assumption.
Qed.

Lemma enqueued_leave i error w : consistent w -> enqueued w -> enqueued (leave i error w).
Proof.
intros Hc Hq.
destruct (calls w !! i) as [[l ph] |] eqn:Hi; [| unfold leave; rewrite Hi; exact Hq].
destruct ph; try (unfold leave; rewrite Hi; exact Hq).
destruct (leave_cases i error w l Hc Hi) as (mutex & m & Hlm & Hm & _ & ->).
assert (Hfor : mutexFor w l = Some m) by (unfold mutexFor; rewrite Hlm; exact Hm).
pose proof Hc as (held & _ & _ & Hmutex & _).
destruct (Hmutex l m Hfor) as (_ & _ & Hnd & Hwaiting).
destruct (waiting m) as [| next rest] eqn:Hwait; intros j l' Hj; simpl in Hj;
  rewrite (mutexFor_update w l mutex _ _ _ _ l' Hc Hlm).
- rewrite (setPhase_lookup _ _ _ _ j Hi) in Hj.
  destruct (decide (i = j)) as [<- | Hne]; [discriminate Hj |].
  destruct (Hq j l' Hj) as (m' & Hm' & Hin).
  destruct (decide (l' = l)) as [-> | Hl].
  + rewrite Hfor in Hm'. injection Hm' as <-. rewrite Hwait in Hin. inversion Hin.
  + exists m'. split; assumption.
- assert (Hnext : calls w !! next = Some {| login := l; phase := Waiting |}).
  { apply Hwaiting. apply elem_of_cons. left. reflexivity. }
  assert (Hnext' : setPhase i (Left error) (calls w) !! next
                   = Some {| login := l; phase := Waiting |}).
  { rewrite (setPhase_lookup _ _ _ _ next Hi).
    destruct (decide (i = next)) as [<- | _]; [| exact Hnext].
    rewrite Hi in Hnext. discriminate Hnext. }
  rewrite (setPhase_lookup _ _ _ _ j Hnext') in Hj.
  destruct (decide (next = j)) as [<- | Hne]; [discriminate Hj |].
  rewrite (setPhase_lookup _ _ _ _ j Hi) in Hj.
  destruct (decide (i = j)) as [<- | Hne']; [discriminate Hj |].
  destruct (Hq j l' Hj) as (m' & Hm' & Hin).
  destruct (decide (l' = l)) as [-> | Hl].
  + eexists. split; [reflexivity |]. simpl.
    rewrite Hfor in Hm'. injection Hm' as <-. rewrite Hwait in Hin.
    apply elem_of_cons in Hin as [-> | Hin]; [contradiction | exact Hin].
  + exists m'. split; assumption.
Qed.

Lemma enqueued_schedule moves :
  forall w, consistent w -> enqueued w -> enqueued (schedule w moves).
Proof.
induction moves as [| mv moves IH]; intros w Hc Hq; [exact Hq |].
simpl. destruct mv as [i | i error]; simpl.
- apply IH; [apply consistent_acquire; exact Hc | apply enqueued_acquire; assumption].
- apply IH; [apply consistent_leave; exact Hc | apply enqueued_leave; assumption].
Qed.

(** The lock of a login holds up the calls of that login only, and no call
    is left waiting for a lock that nobody holds.  For any calls of
    [processWebhookData] and any order of their moves: a call that is
    suspended in [acquire] waits for another call of its own login that is
    inside its critical section; and a call that reaches [acquire] while no
    call of its login is inside enters at once, whatever the calls of other
    logins do. *)
Theorem lock_holds_up_its_own_login_only (logins : list string) (moves : list Move) :
  let w := schedule (start logins) moves in
  (forall i l,
     calls w !! i = Some {| login := l; phase := Waiting |} ->
     exists j, j <> i /\ calls w !! j = Some {| login := l; phase := Critical |}) /\
  (forall i l,
     calls w !! i = Some {| login := l; phase := NotStarted |} ->
     (forall j, calls w !! j <> Some {| login := l; phase := Critical |}) ->
     calls (acquire i w) !! i = Some {| login := l; phase := Critical |}).
Proof.
intros w.
pose proof (consistent_schedule (start logins) moves (consistent_start logins)) as Hc.
pose proof (enqueued_schedule moves _ (consistent_start logins) (enqueued_start logins)) as Hq.
fold w in Hc, Hq.
pose proof Hc as (held & _ & Hheld & Hmutex & _).
split.
- intros i l Hi. destruct (Hq i l Hi) as (m & Hm & Hin).
  destruct (Hmutex l m Hm) as (Hlocked & Hfree & _).
  destruct (locked m) eqn:Hlk.
  + destruct (proj1 Hlocked eq_refl) as [j Hj]. apply Hheld in Hj.
    exists j. split; [| exact Hj]. intros ->. rewrite Hi in Hj. discriminate Hj.
  + rewrite (Hfree eq_refl) in Hin. inversion Hin.
- intros i l Hi Hnone.
  destruct (acquire_cases i w l Hc Hi)
    as (mutex & m & w2 & _ & Hcalls & _ & _ & _ & _ & Hfor & _ & ->).
  assert (Hlk : locked m = false).
  { destruct Hfor as [Hfor | [_ ->]]; [| reflexivity].
    destruct (Hmutex l m Hfor) as (Hlocked & _).
    destruct (locked m) eqn:Hlk; [| reflexivity].
    destruct (proj1 Hlocked eq_refl) as [j Hj]. apply Hheld in Hj.
    contradiction (Hnone j Hj). }
  rewrite Hlk. simpl. rewrite Hcalls, (setPhase_lookup _ _ _ _ i Hi).
  destruct (decide (i = i)); [reflexivity | contradiction].
Qed.

End LockWaiters.

Section ConnectionLifecycle.
Import Quotes Invariants.
Local Open Scope mgr_scope.

Lemma elem_of_keys_map_set {V} (m : JsMap V) k v x :
  x ∈ (map_set m k v).*1 <-> x = k \/ x ∈ m.*1.
Proof.
induction m as [| [k' v'] m IH]; simpl.
- rewrite list_elem_of_singleton, elem_of_nil. tauto.
- case_bool_decide as Hk; simpl.
  + subst k'. rewrite !elem_of_cons. tauto.
  + rewrite !elem_of_cons, IH. tauto.
Qed.

Lemma NoDup_map_set {V} (m : JsMap V) k v : NoDup m.*1 -> NoDup (map_set m k v).*1.
Proof.
induction m as [| [k' v'] m IH]; simpl; intros Hnd.
- apply NoDup_singleton.
- apply NoDup_cons in Hnd as [Hnotin Hnd]. case_bool_decide as Hk; simpl.
  + subst k'. apply NoDup_cons. split; assumption.
  + apply NoDup_cons. split; [| apply IH; exact Hnd].
    rewrite elem_of_keys_map_set. intros [-> | Hin]; [contradiction Hk; reflexivity |].
    contradiction.
Qed.

Lemma map_get_set {V} (m : JsMap V) k v k' :
  map_get (map_set m k v) k' = if bool_decide (k = k') then Some v else map_get m k'.
Proof.
induction m as [| [k0 v0] m IH]; simpl.
- reflexivity.
- destruct (decide (k0 = k)) as [-> | Hne].
  + rewrite (bool_decide_eq_true_2 (k = k)) by reflexivity. simpl.
    destruct (bool_decide (k = k')); reflexivity.
  + rewrite (bool_decide_eq_false_2 (k0 = k)) by exact Hne. simpl. rewrite IH.
    destruct (decide (k0 = k')) as [H0 | H0].
    * rewrite (bool_decide_eq_true_2 _ H0).
      rewrite (bool_decide_eq_false_2 (k = k')) by congruence. reflexivity.
    * rewrite (bool_decide_eq_false_2 _ H0). reflexivity.
Qed.

Lemma elem_of_keys_map_delete {V} (m : JsMap V) k x :
  x ∈ (map_delete m k).*1 -> x ∈ m.*1.
Proof.
induction m as [| [k' v'] m IH]; simpl; [intros H; exact H |].
case_bool_decide as Hk; simpl; rewrite !elem_of_cons; [tauto |].
intros [-> | Hin]; [left; reflexivity | right; apply IH; exact Hin].
Qed.

Lemma NoDup_map_delete {V} (m : JsMap V) k : NoDup m.*1 -> NoDup (map_delete m k).*1.
Proof.
induction m as [| [k' v'] m IH]; simpl; intros Hnd; [exact Hnd |].
apply NoDup_cons in Hnd as [Hnotin Hnd]. case_bool_decide; simpl; [exact Hnd |].
apply NoDup_cons. split; [| apply IH; exact Hnd].
intros Hin. apply Hnotin. exact (elem_of_keys_map_delete m k k' Hin).
Qed.

Lemma map_get_None {V} (m : JsMap V) k : map_get m k = None <-> k ∉ m.*1.
Proof.
induction m as [| [k' v'] m IH]; simpl.
- split; [intros _; apply not_elem_of_nil | reflexivity].
- rewrite not_elem_of_cons. case_bool_decide as Hk.
  + split; [discriminate | intros [Hne _]; contradiction Hne; symmetry; exact Hk].
  + rewrite IH. split; [intros H; split; [congruence | exact H] | intros [_ H]; exact H].
Qed.

Lemma map_get_delete_eq {V} (m : JsMap V) k :
  NoDup m.*1 -> map_get (map_delete m k) k = None.
Proof.
induction m as [| [k' v'] m IH]; simpl; intros Hnd; [reflexivity |].
apply NoDup_cons in Hnd as [Hnotin Hnd]. case_bool_decide as Hk; simpl.
- subst k'. apply map_get_None. exact Hnotin.
- rewrite (bool_decide_eq_false_2 _ Hk). apply IH. exact Hnd.
Qed.

Lemma map_get_delete_ne {V} (m : JsMap V) k k' :
  k' <> k -> map_get (map_delete m k) k' = map_get m k'.
Proof.
intros Hne. induction m as [| [k0 v0] m IH]; simpl; [reflexivity |].
case_bool_decide as Hk; simpl.
- subst k0. rewrite (bool_decide_eq_false_2 (k = k')) by congruence. reflexivity.
- rewrite IH. reflexivity.
Qed.

(** The computations that touch the connection of one key only. *)
Lemma confined_ret {A} key (a : A) : confined key (ret a).
Proof. intros w Hnd. simpl. split; [exact Hnd |]. split; reflexivity. Qed.

Lemma confined_throw {A} key e : confined key (@throw A e).
Proof. intros w Hnd. simpl. split; [exact Hnd |]. split; reflexivity. Qed.

Lemma confined_ended {A} key : confined key (fun w => (@ScriptEnded A, w)).
Proof. intros w Hnd. simpl. split; [exact Hnd |]. split; reflexivity. Qed.

Lemma confined_bind {A B} key (m : M A) (k : A -> M B) :
  confined key m -> (forall a, confined key (k a)) -> confined key (bind m k).
Proof.
intros Hm Hk w Hnd. unfold bind. destruct (Hm w Hnd) as (H1 & H2 & H3).
destruct (m w) as [[a | e |] w1]; cbn [fst snd] in *.
- destruct (Hk a w1 H1) as (H4 & H5 & H6). split; [exact H4 |]. split.
  + intros k' Hne. rewrite (H5 k' Hne). apply H2. exact Hne.
  + rewrite H6. exact H3.
- split; [exact H1 |]. split; assumption.
- split; [exact H1 |]. split; assumption.
Qed.

Lemma confined_try_catch {A} key (m : M A) handler :
  confined key m -> (forall e, confined key (handler e)) -> confined key (try_catch m handler).
Proof.
intros Hm Hk w Hnd. unfold try_catch. destruct (Hm w Hnd) as (H1 & H2 & H3).
destruct (m w) as [[a | e |] w1]; cbn [fst snd] in *.
- split; [exact H1 |]. split; assumption.
- destruct (Hk e w1 H1) as (H4 & H5 & H6). split; [exact H4 |]. split.
  + intros k' Hne. rewrite (H5 k' Hne). apply H2. exact Hne.
  + rewrite H6. exact H3.
- split; [exact H1 |]. split; assumption.
Qed.

Lemma confined_Date_now key : confined key Date_now.
Proof. intros w Hnd. simpl. split; [exact Hnd |]. split; reflexivity. Qed.

Lemma confined_elapse key ms : confined key (elapse ms).
Proof. intros w Hnd. simpl. split; [exact Hnd |]. split; reflexivity. Qed.

Lemma confined_next_response key : confined key next_response.
Proof.
intros w Hnd. unfold next_response. destruct (script w); simpl;
  (split; [exact Hnd |]; split; reflexivity).
Qed.

Lemma confined_get_connection key : confined key (get_connection key).
Proof. intros w Hnd. simpl. split; [exact Hnd |]. split; reflexivity. Qed.

Lemma confined_set_connection key c : confined key (set_connection key c).
Proof.
intros w Hnd. simpl. split; [apply NoDup_map_set; exact Hnd |]. split; [| reflexivity].
intros k Hne. rewrite map_get_set.
rewrite (bool_decide_eq_false_2 (key = k)) by congruence. reflexivity.
Qed.

Lemma confined_delete_connection key : confined key (delete_connection key).
Proof.
intros w Hnd. simpl. split; [apply NoDup_map_delete; exact Hnd |]. split; [| reflexivity].
intros k Hne. apply map_get_delete_ne. exact Hne.
Qed.

Ltac confine :=
  repeat first
    [ apply confined_ret | apply confined_throw | apply confined_ended
    | apply confined_Date_now | apply confined_elapse | apply confined_next_response
    | apply confined_get_connection | apply confined_set_connection
    | apply confined_delete_connection
    | apply confined_bind; [| intros ?] | apply confined_try_catch; [| intros ?]
    | match goal with
      | |- confined _ (match ?x with _ => _ end) => destruct x
      | |- confined _ (if ?b then _ else _) => destruct b
      end ].

Lemma confined_establishConnection key syms : confined key (establishConnection syms).
Proof. unfold establishConnection. confine. Qed.

Lemma confined_createConnection_from key remaining :
  forall attempt maxRetries syms lastError,
    confined key (createConnection_from remaining attempt maxRetries syms lastError).
Proof.
induction remaining as [| remaining IH]; intros attempt maxRetries syms lastError; simpl.
- apply confined_throw.
- apply confined_try_catch; [apply confined_establishConnection |].
  intros e. apply confined_bind; [unfold sleep; confine | intros _; apply IH].
Qed.

Lemma confined_waitForQuote key c sym timeout : confined key (waitForQuote key c sym timeout).
Proof. unfold waitForQuote, awaitQuoteUpdate. confine. Qed.

Lemma confined_ensureConnection sym :
  confined (getConnectionKey [sym]) (ensureConnection sym).
Proof.
unfold ensureConnection, createConnection. cbv zeta.
apply confined_bind; [apply confined_get_connection | intros found].
apply confined_bind; [apply confined_Date_now | intros t0].
destruct found as [c |].
- destruct (isConnectionHealthy t0 c); [apply confined_ret |].
  apply confined_bind; [apply confined_set_connection | intros _].
  apply confined_bind; [apply confined_delete_connection | intros _].
  apply confined_bind; [apply confined_createConnection_from | intros c'].
  apply confined_bind; [apply confined_set_connection | intros _; apply confined_ret].
- apply confined_bind; [apply confined_createConnection_from | intros c'].
  apply confined_bind; [apply confined_set_connection | intros _; apply confined_ret].
Qed.

Lemma confined_connectForOrder_try sym :
  confined (getConnectionKey [sym]) (connectForOrder_try sym).
Proof.
unfold connectForOrder_try. cbv zeta.
apply confined_bind; [apply confined_ensureConnection | intros c0].
apply confined_bind; [apply confined_set_connection | intros _].
apply confined_bind; [apply confined_Date_now | intros t1].
destruct (freshQuote t1 _ sym) as [existingQuote |].
- apply confined_bind; [apply confined_set_connection | intros _; apply confined_ret].
- apply confined_bind; [apply confined_waitForQuote | intros quote].
  confine.
Qed.

Lemma confined_connectForOrder_catch sym attempt maxRetries :
  confined (getConnectionKey [sym]) (connectForOrder_catch sym attempt maxRetries).
Proof. unfold connectForOrder_catch, sleep. cbv zeta. confine. Qed.

Lemma confined_connectForOrder_from sym remaining :
  forall attempt maxRetries lastError,
    confined (getConnectionKey [sym])
      (connectForOrder_from remaining attempt maxRetries sym lastError).
Proof.
induction remaining as [| remaining IH]; intros attempt maxRetries lastError; simpl.
- apply confined_throw.
- apply confined_try_catch; [apply confined_connectForOrder_try |].
  intros e. apply confined_bind; [apply confined_connectForOrder_catch | intros _; apply IH].
Qed.

(** The [catch] block leaves no connection under the key of the symbol. *)
Lemma connectForOrder_catch_forgets sym attempt maxRetries w :
  NoDup (connections w).*1 ->
  (connectForOrder_catch sym attempt maxRetries w).1 = Returned tt /\
  map_get (connections (connectForOrder_catch sym attempt maxRetries w).2)
          (getConnectionKey [sym]) = None.
Proof.
intros Hnd. unfold connectForOrder_catch. cbv zeta.
generalize (getConnectionKey [sym]). intros key.
unfold bind, get_connection, set_connection, delete_connection, ret, sleep, elapse.
destruct (map_get (connections w) key) as [c |] eqn:Hget;
  destruct (attempt <? Z.of_nat maxRetries); cbn [fst snd connections].
- split; [reflexivity |]. apply map_get_delete_eq. apply NoDup_map_set. exact Hnd.
- split; [reflexivity |]. apply map_get_delete_eq. apply NoDup_map_set. exact Hnd.
- split; [reflexivity | exact Hget].
- split; [reflexivity | exact Hget].
Qed.

Lemma connectForOrder_from_failure sym remaining :
  forall attempt maxRetries lastError w e,
    NoDup (connections w).*1 ->
    (connectForOrder_from (S remaining) attempt maxRetries sym lastError w).1 = Thrown e ->
    map_get (connections (connectForOrder_from (S remaining) attempt maxRetries sym lastError
                            w).2) (getConnectionKey [sym]) = None.
Proof.
induction remaining as [| remaining IH]; intros attempt maxRetries lastError w e Hnd.
- cbn [connectForOrder_from]. unfold try_catch.
  destruct (confined_connectForOrder_try sym w Hnd) as (Hnd1 & _).
  destruct (connectForOrder_try sym w) as [[md | error |] w1]; cbn [fst snd] in *;
    [discriminate | | discriminate].
  unfold bind. destruct (connectForOrder_catch_forgets sym attempt maxRetries w1 Hnd1)
    as (Hr & Hnone).
  destruct (connectForOrder_catch sym attempt maxRetries w1) as [o w2]. cbn [fst snd] in *.
  subst o. cbn [throw fst snd]. intros _. exact Hnone.
- remember (S remaining) as n eqn:Hn. cbn [connectForOrder_from]. unfold try_catch.
  destruct (confined_connectForOrder_try sym w Hnd) as (Hnd1 & _).
  destruct (connectForOrder_try sym w) as [[md | error |] w1]; cbn [fst snd] in *;
    [discriminate | | discriminate].
  unfold bind. destruct (connectForOrder_catch_forgets sym attempt maxRetries w1 Hnd1)
    as (Hr & Hnone).
  destruct (confined_connectForOrder_catch sym attempt maxRetries w1 Hnd1) as (Hnd2 & _).
  destruct (connectForOrder_catch sym attempt maxRetries w1) as [o w2]. cbn [fst snd] in *.
  subst o n. intros H. exact (IH _ _ _ w2 e Hnd2 H).
Qed.

(** [connectForOrder] works on the connection of its symbol only: the
    connections stored under other keys and the count of forced reconnects
    are as before, whatever the outcome; and when it fails after at least one
    round, no connection is left under the key of the symbol. *)
Theorem connectForOrder_touches_its_connection_only sym maxRetries w :
  NoDup (connections w).*1 ->
  let r := connectForOrder sym maxRetries w in
  (forall key, key <> getConnectionKey [sym] ->
     map_get (connections r.2) key = map_get (connections w) key) /\
  totalReconnects r.2 = totalReconnects w /\
  (forall e, r.1 = Thrown e -> (0 < maxRetries)%nat ->
     map_get (connections r.2) (getConnectionKey [sym]) = None).
Proof.
intros Hnd r. subst r. unfold connectForOrder.
destruct (confined_connectForOrder_from sym maxRetries 1 maxRetries None w Hnd)
  as (_ & Hframe & Hcount).
split; [exact Hframe |]. split; [exact Hcount |].
intros e He Hpos. destruct maxRetries as [| n]; [lia |].
exact (connectForOrder_from_failure sym n 1 (S n) None w e Hnd He).
Qed.

(** A closed connection is stored for EURUSD and the socket cannot be opened
    again: after the one round the connection is gone. *)
Lemma connectForOrder_failure_witness :
  let stale := {| ws_open := false; symbols := ∅; lastActivity := 1699999000000;
                  requestId := 4; quotes := ∅; disconnectAt := None;
                  createdAt := 1699999000000; reconnectCount := 0 |} in
  let w := {| connections := [("EURUSD"%string, stale)]; totalReconnects := 0;
              now := 1700000000000; script := [OpenTimedOut; OpenTimedOut; OpenTimedOut] |} in
  map_get (connections w) (getConnectionKey ["EURUSD"%string]) = Some stale /\
  map_get (connections (connectForOrder "EURUSD" 1 w).2) (getConnectionKey ["EURUSD"%string])
  = None.
Proof.
intros stale w. split; [reflexivity |].
destruct (connectForOrder_touches_its_connection_only "EURUSD" 1%nat w) as (_ & _ & H).
- apply NoDup_singleton.
- apply (H (FailedToGetMarketData "EURUSD" 1
              (Some (FailedToEstablish 3 (Some WebSocketConnectionTimeout))))).
  + vm_compute. reflexivity.
  + lia.
Defined.

End ConnectionLifecycle.

Section AccountSettings.
Import Js Pipeline Settings.

Variable rowid : string -> option Z.

Lemma selectSettings_key db l k :
  rowid l = Some k -> selectSettings rowid db l = account_settings db !! k.
Proof. intros H. unfold selectSettings. rewrite H. reflexivity. Qed.

(** The statements touch the row of their login only, and never whether the
    database answers. *)
Lemma updateSettings_frame change l db k' :
  rowid l <> Some k' ->
  account_settings (updateSettings rowid change l db) !! k' = account_settings db !! k'.
Proof.
intros Hne. unfold updateSettings. destruct (rowid l) as [k |]; [| reflexivity].
simpl. apply lookup_alter_ne. congruence.
Qed.

Lemma insertSettings_frame l m e now db db' k' :
  insertSettings rowid l m e now db = Some db' ->
  rowid l <> Some k' ->
  account_settings db' !! k' = account_settings db !! k'.
Proof.
unfold insertSettings. destruct (rowid l) as [k |]; [| discriminate].
intros [= <-] Hne. simpl. apply lookup_insert_ne. congruence.
Qed.

Lemma setAccountTradingMode_frame now l m db k' :
  rowid l <> Some k' ->
  account_settings (setAccountTradingMode rowid now l m db).2 !! k' = account_settings db !! k'.
Proof.
intros Hne. unfold setAccountTradingMode. destruct (answers db); [| reflexivity].
destruct (selectSettings rowid db l).
- apply updateSettings_frame. exact Hne.
- destruct (insertSettings rowid l m 0 now db) as [db' |] eqn:Hi; [| reflexivity].
  exact (insertSettings_frame _ _ _ _ _ _ _ Hi Hne).
Qed.

Lemma updateExclusiveMode_frame now l enabled db k' :
  rowid l <> Some k' ->
  account_settings (updateExclusiveMode rowid now l enabled db).2 !! k'
  = account_settings db !! k'.
Proof.
intros Hne. unfold updateExclusiveMode. destruct (answers db); [| reflexivity].
destruct (selectSettings rowid db l).
- apply updateSettings_frame. exact Hne.
- destruct (insertSettings rowid l _ _ now db) as [db' |] eqn:Hi; [| reflexivity].
  exact (insertSettings_frame _ _ _ _ _ _ _ Hi Hne).
Qed.

Lemma getAccountSettings_frame now l db k' :
  rowid l <> Some k' ->
  account_settings (getAccountSettings rowid now l db).2 !! k' = account_settings db !! k'.
Proof.
intros Hne. unfold getAccountSettings. destruct (answers db); [| reflexivity].
destruct (selectSettings rowid db l); [reflexivity |].
apply setAccountTradingMode_frame. exact Hne.
Qed.

Lemma updateSessionSettings_frame now l s db k' :
  rowid l <> Some k' ->
  account_settings (updateSessionSettings rowid now l s db).2 !! k'
  = account_settings db !! k'.
Proof.
intros Hne. unfold updateSessionSettings. cbv zeta.
destruct (answers (getAccountSettings rowid now l db).2); cbn [snd].
- rewrite updateSettings_frame by exact Hne. apply getAccountSettings_frame. exact Hne.
- apply getAccountSettings_frame. exact Hne.
Qed.

Lemma answers_updateSettings change l db :
  answers (updateSettings rowid change l db) = answers db.
Proof. unfold updateSettings. destruct (rowid l); reflexivity. Qed.

Lemma answers_setAccountTradingMode now l m db :
  answers (setAccountTradingMode rowid now l m db).2 = answers db.
Proof.
unfold setAccountTradingMode. destruct (answers db) eqn:Ha; [| exact Ha].
destruct (selectSettings rowid db l); simpl.
- rewrite answers_updateSettings. exact Ha.
- unfold insertSettings. destruct (rowid l); exact Ha.
Qed.

Lemma answers_updateExclusiveMode now l enabled db :
  answers (updateExclusiveMode rowid now l enabled db).2 = answers db.
Proof.
unfold updateExclusiveMode. destruct (answers db) eqn:Ha; [| exact Ha].
destruct (selectSettings rowid db l); simpl.
- rewrite answers_updateSettings. exact Ha.
- unfold insertSettings. destruct (rowid l); exact Ha.
Qed.

Lemma answers_getAccountSettings now l db :
  answers (getAccountSettings rowid now l db).2 = answers db.
Proof.
unfold getAccountSettings. destruct (answers db) eqn:Ha; [| exact Ha].
destruct (selectSettings rowid db l); [exact Ha |]. simpl.
rewrite answers_setAccountTradingMode. exact Ha.
Qed.

Lemma answers_updateSessionSettings now l s db :
  answers (updateSessionSettings rowid now l s db).2 = answers db.
Proof.
unfold updateSessionSettings. cbv zeta.
destruct (answers (getAccountSettings rowid now l db).2) eqn:Ha; cbn [snd].
- rewrite answers_updateSettings. rewrite answers_getAccountSettings. reflexivity.
- rewrite answers_getAccountSettings. reflexivity.
Qed.

Lemma setAccountTradingMode_row now l m db k :
  rowid l = Some k -> answers db = true ->
  (setAccountTradingMode rowid now l m db).1 = true /\
  account_settings (setAccountTradingMode rowid now l m db).2 !! k
  = Some match account_settings db !! k with
         | Some old => withTradingMode m now old
         | None => newRow k m 0 now
         end.
Proof.
intros Hk Ha. unfold setAccountTradingMode. rewrite Ha, (selectSettings_key _ _ _ Hk).
destruct (account_settings db !! k) as [old |] eqn:Hold.
- split; [reflexivity |]. unfold updateSettings. rewrite Hk. simpl.
  rewrite lookup_alter_eq, Hold. reflexivity.
- unfold insertSettings. rewrite Hk. split; [reflexivity |]. simpl. apply lookup_insert_eq.
Qed.

Lemma updateExclusiveMode_row now l enabled db k :
  rowid l = Some k -> answers db = true ->
  (updateExclusiveMode rowid now l enabled db).1 = true /\
  account_settings (updateExclusiveMode rowid now l enabled db).2 !! k
  = Some match account_settings db !! k with
         | Some old => withExclusiveMode (if enabled then 1 else 0) now old
         | None => newRow k "NORMAL" (if enabled then 1 else 0) now
         end.
Proof.
intros Hk Ha. unfold updateExclusiveMode. rewrite Ha, (selectSettings_key _ _ _ Hk).
destruct (account_settings db !! k) as [old |] eqn:Hold.
- split; [reflexivity |]. unfold updateSettings. rewrite Hk. simpl.
  rewrite lookup_alter_eq, Hold. reflexivity.
- unfold insertSettings. rewrite Hk. split; [reflexivity |]. simpl. apply lookup_insert_eq.
Qed.

Lemma getAccountSettings_row now l db k :
  rowid l = Some k -> answers db = true ->
  account_settings (getAccountSettings rowid now l db).2 !! k
  = Some (default (newRow k "NORMAL" 0 now) (account_settings db !! k)) /\
  (getAccountSettings rowid now l db).1
  = match account_settings db !! k with
    | Some row => Stored row
    | None => Defaults l now
    end.
Proof.
intros Hk Ha. unfold getAccountSettings. rewrite Ha, (selectSettings_key _ _ _ Hk).
destruct (account_settings db !! k) as [old |] eqn:Hold; simpl.
- split; [exact Hold | reflexivity].
- destruct (setAccountTradingMode_row now l "NORMAL" db k Hk Ha) as [_ Hrow].
  rewrite Hold in Hrow. split; [exact Hrow | reflexivity].
Qed.

Lemma getAccountSettings_stored now l db k row :
  rowid l = Some k -> answers db = true -> account_settings db !! k = Some row ->
  getAccountSettings rowid now l db = (Stored row, db).
Proof.
intros Hk Ha Hrow. unfold getAccountSettings.
rewrite Ha, (selectSettings_key _ _ _ Hk), Hrow. reflexivity.
Qed.

Lemma updateSessionSettings_row now l s db k :
  rowid l = Some k -> answers db = true ->
  (updateSessionSettings rowid now l s db).1 = true /\
  account_settings (updateSessionSettings rowid now l s db).2 !! k
  = Some (withSessions s now (default (newRow k "NORMAL" 0 now) (account_settings db !! k))).
Proof.
intros Hk Ha. unfold updateSessionSettings. cbv zeta.
rewrite answers_getAccountSettings, Ha. split; [reflexivity |]. cbn [snd].
unfold updateSettings. rewrite Hk. simpl. rewrite lookup_alter_eq.
rewrite (proj1 (getAccountSettings_row now l db k Hk Ha)). reflexivity.
Qed.

(** Read your writes.  For a login that reads as an integer, on a database
    that answers, each of the three updates succeeds, and the settings read
    afterwards are the stored row: the row as it was, or the row of default
    settings for a login that had none, with the updated field and the time of
    the update. *)
Theorem settings_updates_read_back now later l k db :
  rowid l = Some k -> answers db = true ->
  let old := account_settings db !! k in
  (forall m,
     let r := setAccountTradingMode rowid now l m db in
     r.1 = true /\
     getAccountSettings rowid later l r.2
     = (Stored match old with
               | Some row => withTradingMode m now row
               | None => newRow k m 0 now
               end, r.2)) /\
  (forall enabled,
     let r := updateExclusiveMode rowid now l enabled db in
     r.1 = true /\
     getAccountSettings rowid later l r.2
     = (Stored match old with
               | Some row => withExclusiveMode (if enabled then 1 else 0) now row
               | None => newRow k "NORMAL" (if enabled then 1 else 0) now
               end, r.2)) /\
  (forall s,
     let r := updateSessionSettings rowid now l s db in
     r.1 = true /\
     getAccountSettings rowid later l r.2
     = (Stored (withSessions s now (default (newRow k "NORMAL" 0 now) old)), r.2)).
Proof.
intros Hk Ha old. split; [| split].
- intros m r. destruct (setAccountTradingMode_row now l m db k Hk Ha) as [Hok Hrow].
  split; [exact Hok |]. apply (getAccountSettings_stored later l _ k); [exact Hk | | exact Hrow].
  unfold r. rewrite answers_setAccountTradingMode. exact Ha.
- intros enabled r.
  destruct (updateExclusiveMode_row now l enabled db k Hk Ha) as [Hok Hrow].
  split; [exact Hok |]. apply (getAccountSettings_stored later l _ k); [exact Hk | | exact Hrow].
  unfold r. rewrite answers_updateExclusiveMode. exact Ha.
- intros s r. destruct (updateSessionSettings_row now l s db k Hk Ha) as [Hok Hrow].
  split; [exact Hok |]. apply (getAccountSettings_stored later l _ k); [exact Hk | | exact Hrow].
  unfold r. rewrite answers_updateSessionSettings. exact Ha.
Qed.

(** Reading the settings of a login that has no row creates the row of
    default settings, so the next reading finds it, and it agrees with the
    defaults that the first reading returned. *)
Theorem getAccountSettings_creates_default_row now later l k db :
  rowid l = Some k -> answers db = true -> account_settings db !! k = None ->
  let first := getAccountSettings rowid now l db in
  let second := getAccountSettings rowid later l first.2 in
  first.1 = Defaults l now /\
  second = (Stored (newRow k "NORMAL" 0 now), first.2) /\
  toAccountSettings second.1 = toAccountSettings first.1.
Proof.
intros Hk Ha Hnone first second.
destruct (getAccountSettings_row now l db k Hk Ha) as [Hrow Hres].
rewrite Hnone in Hrow, Hres. simpl in Hrow.
assert (Hsecond : second = (Stored (newRow k "NORMAL" 0 now), first.2)).
{ apply (getAccountSettings_stored later l _ k); [exact Hk | | exact Hrow].
  unfold first. rewrite answers_getAccountSettings. exact Ha. }
split; [exact Hres |]. split; [exact Hsecond |].
rewrite Hsecond. unfold first. rewrite Hres. reflexivity.
Qed.

(** No statement of the settings layer touches the row of another login. *)
Theorem settings_of_other_logins_untouched now l db k' :
  rowid l <> Some k' ->
  (forall m, account_settings (setAccountTradingMode rowid now l m db).2 !! k'
             = account_settings db !! k') /\
  (forall enabled, account_settings (updateExclusiveMode rowid now l enabled db).2 !! k'
                   = account_settings db !! k') /\
  (forall s, account_settings (updateSessionSettings rowid now l s db).2 !! k'
             = account_settings db !! k') /\
  account_settings (getAccountSettings rowid now l db).2 !! k' = account_settings db !! k' /\
  (forall body, account_settings (postAccountSettings rowid now l body db).2 !! k'
                = account_settings db !! k').
Proof.
intros Hne.
split; [intros m; apply setAccountTradingMode_frame; exact Hne |].
split; [intros e; apply updateExclusiveMode_frame; exact Hne |].
split; [intros s; apply updateSessionSettings_frame; exact Hne |].
split; [apply getAccountSettings_frame; exact Hne |].
intros body.
assert (Hsessions : forall db1,
          account_settings (postSessions rowid now l body db1).2 !! k'
          = account_settings db1 !! k').
{ intros db1. unfold postSessions. cbv zeta.
  match goal with |- context [getAccountSettings rowid now l ?d] =>
    pose proof (getAccountSettings_frame now l d k' Hne) as Hg;
    destruct (getAccountSettings rowid now l d) as [settings db2]
  end.
  simpl in *. rewrite Hg. destruct (_ || _); [| reflexivity].
  apply updateSessionSettings_frame. exact Hne. }
assert (Hmode : forall db1,
          account_settings (postExclusiveMode rowid now l body db1).2 !! k'
          = account_settings db1 !! k').
{ intros db1. unfold postExclusiveMode.
  destruct (body_exclusive_mode body) as [v |]; [| apply Hsessions].
  pose proof (updateExclusiveMode_frame now l (exclusiveRequested v) db1 k' Hne) as He.
  destruct (updateExclusiveMode rowid now l (exclusiveRequested v) db1) as [success db2].
  simpl in He. destruct success; [rewrite Hsessions |]; exact He. }
unfold postAccountSettings.
destruct (body_tradingMode body) as [v |]; [| apply Hmode].
destruct (json_truthy v); [| apply Hmode].
destruct v as [x | b | m | |]; try reflexivity.
destruct (array_includes _ m); [| reflexivity].
pose proof (setAccountTradingMode_frame now l m db k' Hne) as Hs.
destruct (setAccountTradingMode rowid now l m db) as [success db1].
simpl in Hs. destruct success; [rewrite Hmode |]; exact Hs.
Qed.

(** When the settings cannot be read, because the database does not answer
    or the login has no row, every gate of the critical section that depends
    on them is open: the run goes on to the duplicate check, whatever the
    side, the session and the open orders. *)
Theorem unreadable_settings_open_every_gate now l db env data action sym tp sl st :
  answers db = false \/ selectSettings rowid db l = None ->
  accountSettings env = toAccountSettings (getAccountSettings rowid now l db).1 ->
  criticalSection env data l action sym tp sl st
  = checkAndPlace env data l action sym tp sl st.
Proof.
intros Hunread Henv.
assert (Hdefault : (getAccountSettings rowid now l db).1 = Defaults l now).
{ unfold getAccountSettings. destruct (answers db); [| reflexivity].
  destruct Hunread as [Hdown | Hnone]; [discriminate Hdown |]. rewrite Hnone. reflexivity. }
rewrite Hdefault in Henv. unfold criticalSection. cbv zeta. rewrite Henv. simpl.
destruct (Sessions.getCurrentTradingSession (clock st)) as [[| | |] |]; reflexivity.
Qed.

(** The endpoint answers with the settings as they are after the request:
    for a login that reads as an integer, on a database that answers, a body
    whose trading mode is absent, falsy or one of the three modes is answered
    with settings that agree with the row that the table then holds for the
    login, and in that row every field that the body holds has the requested
    value, the exclusive mode and the sessions as 1 or 0. *)
Theorem postAccountSettings_reads_back now l k body db :
  rowid l = Some k -> answers db = true ->
  (forall v, body_tradingMode body = Some v -> json_truthy v = true ->
     exists m, v = JString m /\ m ∈ ["NORMAL"; "BUY_ONLY"; "SELL_ONLY"]%string) ->
  exists result row,
    (postAccountSettings rowid now l body db).1 = Settled result /\
    account_settings (postAccountSettings rowid now l body db).2 !! k = Some row /\
    toAccountSettings result = toAccountSettings (Stored row) /\
    (forall m, body_tradingMode body = Some (JString m) -> m <> EmptyString ->
       trading_mode row = m) /\
    (forall v, body_exclusive_mode body = Some v ->
       exclusive_mode row = if exclusiveRequested v then 1 else 0) /\
    (forall v, body_asia_session body = Some v ->
       asia_session row = if json_truthy v then 1 else 0) /\
    (forall v, body_london_session body = Some v ->
       london_session row = if json_truthy v then 1 else 0) /\
    (forall v, body_new_york_session body = Some v ->
       new_york_session row = if json_truthy v then 1 else 0) /\
    (forall v, body_limbo_session body = Some v ->
       limbo_session row = if json_truthy v then 1 else 0).
Proof.
intros Hk Ha Hvalid.
assert (Hsessions : forall db1,
          answers db1 = true ->
          exists result row,
            (postSessions rowid now l body db1).1 = Settled result /\
            account_settings (postSessions rowid now l body db1).2 !! k = Some row /\
            toAccountSettings result = toAccountSettings (Stored row) /\
            (forall old, account_settings db1 !! k = Some old ->
               trading_mode row = trading_mode old /\
               exclusive_mode row = exclusive_mode old) /\
            (forall v, body_asia_session body = Some v ->
               asia_session row = if json_truthy v then 1 else 0) /\
            (forall v, body_london_session body = Some v ->
               london_session row = if json_truthy v then 1 else 0) /\
            (forall v, body_new_york_session body = Some v ->
               new_york_session row = if json_truthy v then 1 else 0) /\
            (forall v, body_limbo_session body = Some v ->
               limbo_session row = if json_truthy v then 1 else 0)).
{ intros db1 Ha1. unfold postSessions. cbv zeta.
  set (s := {| set_asia_session := flag (body_asia_session body);
               set_london_session := flag (body_london_session body);
               set_new_york_session := flag (body_new_york_session body);
               set_limbo_session := flag (body_limbo_session body) |}).
  destruct (_ || _) eqn:Hany.
  - destruct (updateSessionSettings_row now l s db1 k Hk Ha1) as [_ Hrow].
    erewrite getAccountSettings_stored;
      [| exact Hk | rewrite answers_updateSessionSettings; exact Ha1 | exact Hrow].
    eexists _, _. split; [reflexivity |]. split; [exact Hrow |]. split; [reflexivity |].
    split; [intros old Hold; rewrite Hold; split; reflexivity |].
    unfold withSessions, s, flag. simpl.
    repeat split; intros v Hv; rewrite Hv; reflexivity.
  - apply orb_false_iff in Hany as [Hany Hlimbo].
    apply orb_false_iff in Hany as [Hany Hny].
    apply orb_false_iff in Hany as [Hasia Hlondon].
    assert (Hnone : forall o : option Json, bool_decide (is_Some (flag o)) = false -> o = None).
    { intros [v |] H; [| reflexivity]. apply bool_decide_eq_false_1 in H.
      contradiction H. eexists. reflexivity. }
    apply Hnone in Hasia, Hlondon, Hny, Hlimbo.
    destruct (getAccountSettings_row now l db1 k Hk Ha1) as [Hrow Hres].
    destruct (getAccountSettings rowid now l db1) as [result db2]. simpl in *.
    eexists result, _. split; [reflexivity |]. split; [exact Hrow |].
    split; [rewrite Hres; destruct (account_settings db1 !! k); reflexivity |].
    split; [intros old Hold; rewrite Hold; split; reflexivity |].
    rewrite Hasia, Hlondon, Hny, Hlimbo. repeat split; intros v [=]. }
assert (Hmode : forall db1,
          answers db1 = true ->
          exists result row,
            (postExclusiveMode rowid now l body db1).1 = Settled result /\
            account_settings (postExclusiveMode rowid now l body db1).2 !! k = Some row /\
            toAccountSettings result = toAccountSettings (Stored row) /\
            (forall old, account_settings db1 !! k = Some old ->
               trading_mode row = trading_mode old) /\
            (forall v, body_exclusive_mode body = Some v ->
               exclusive_mode row = if exclusiveRequested v then 1 else 0) /\
            (forall v, body_asia_session body = Some v ->
               asia_session row = if json_truthy v then 1 else 0) /\
            (forall v, body_london_session body = Some v ->
               london_session row = if json_truthy v then 1 else 0) /\
            (forall v, body_new_york_session body = Some v ->
               new_york_session row = if json_truthy v then 1 else 0) /\
            (forall v, body_limbo_session body = Some v ->
               limbo_session row = if json_truthy v then 1 else 0)).
{ intros db1 Ha1. unfold postExclusiveMode.
  destruct (body_exclusive_mode body) as [v |].
  - destruct (updateExclusiveMode_row now l (exclusiveRequested v) db1 k Hk Ha1)
      as [Hok Hrow].
    pose proof (answers_updateExclusiveMode now l (exclusiveRequested v) db1) as Ha2.
    destruct (updateExclusiveMode rowid now l (exclusiveRequested v) db1) as [success db2].
    simpl in Hok, Hrow, Ha2. subst success. rewrite Ha1 in Ha2.
    destruct (Hsessions db2 Ha2) as (result & row & H1 & H2 & H3 & Hkeep & Hs).
    exists result, row. split; [exact H1 |]. split; [exact H2 |]. split; [exact H3 |].
    destruct (Hkeep _ Hrow) as [Hm He].
    split.
    { intros old Hold. rewrite Hm, Hold. reflexivity. }
    split; [| exact Hs].
    intros v' [= <-]. rewrite He. destruct (account_settings db1 !! k); reflexivity.
  - destruct (Hsessions db1 Ha1) as (result & row & H1 & H2 & H3 & Hkeep & Hs).
    exists result, row. split; [exact H1 |]. split; [exact H2 |]. split; [exact H3 |].
    split; [intros old Hold; exact (proj1 (Hkeep old Hold)) |].
    split; [intros v [=] | exact Hs]. }
assert (Hrest : forall db1,
          answers db1 = true ->
          (forall m, body_tradingMode body = Some (JString m) -> m <> EmptyString ->
             exists old, account_settings db1 !! k = Some old /\ trading_mode old = m) ->
          exists result row,
            (postExclusiveMode rowid now l body db1).1 = Settled result /\
            account_settings (postExclusiveMode rowid now l body db1).2 !! k = Some row /\
            toAccountSettings result = toAccountSettings (Stored row) /\
            (forall m, body_tradingMode body = Some (JString m) -> m <> EmptyString ->
               trading_mode row = m) /\
            (forall v, body_exclusive_mode body = Some v ->
               exclusive_mode row = if exclusiveRequested v then 1 else 0) /\
            (forall v, body_asia_session body = Some v ->
               asia_session row = if json_truthy v then 1 else 0) /\
            (forall v, body_london_session body = Some v ->
               london_session row = if json_truthy v then 1 else 0) /\
            (forall v, body_new_york_session body = Some v ->
               new_york_session row = if json_truthy v then 1 else 0) /\
            (forall v, body_limbo_session body = Some v ->
               limbo_session row = if json_truthy v then 1 else 0)).
{ intros db1 Ha1 Hset.
  destruct (Hmode db1 Ha1) as (result & row & H1 & H2 & H3 & Hkeep & Hs).
  exists result, row. split; [exact H1 |]. split; [exact H2 |]. split; [exact H3 |].
  split; [| exact Hs].
  intros m Hm Hne. destruct (Hset m Hm Hne) as (old & Hold & <-). exact (Hkeep old Hold). }
unfold postAccountSettings.
destruct (body_tradingMode body) as [v |] eqn:Hv.
2: { apply Hrest; [exact Ha |]. intros m [=]. }
destruct (json_truthy v) eqn:Htruthy.
2: { apply Hrest; [exact Ha |]. intros m [= ->] Hne. simpl in Htruthy.
     apply negb_false_iff, bool_decide_eq_true_1 in Htruthy. contradiction. }
destruct (Hvalid v eq_refl Htruthy) as (m & -> & Hin).
unfold array_includes. rewrite (bool_decide_eq_true_2 _ Hin).
destruct (setAccountTradingMode_row now l m db k Hk Ha) as [Hok Hrow].
pose proof (answers_setAccountTradingMode now l m db) as Ha1.
destruct (setAccountTradingMode rowid now l m db) as [success db1].
simpl in Hok, Hrow, Ha1. subst success. rewrite Ha in Ha1.
apply Hrest; [exact Ha1 |].
intros m' [= <-] _. eexists. split; [exact Hrow |].
destruct (account_settings db !! k); reflexivity.
Qed.

End AccountSettings.

Section AccountSettingsExamples.
Import Js Pipeline Settings.

(** Login 123 is set to buy-only on an empty table and read afterwards. *)
Lemma settings_updates_witness :
  let rowid123 := fun l : string => if bool_decide (l = "123"%string) then Some 123 else None in
  let emptyDb := {| answers := true; account_settings := ∅ |} in
  let r := setAccountTradingMode rowid123 1700000000000 "123" "BUY_ONLY" emptyDb in
  r.1 = true /\
  getAccountSettings rowid123 1700000060000 "123" r.2
  = (Stored (newRow 123 "BUY_ONLY" 0 1700000000000), r.2).
Proof.
intros rowid123 emptyDb r. subst r.
destruct (settings_updates_read_back rowid123 1700000000000 1700000060000 "123" 123 emptyDb)
  as (H & _ & _); [reflexivity | reflexivity |].
exact (H "BUY_ONLY"%string).
Defined.

(** Login 123 is read twice on an empty table. *)
Lemma getAccountSettings_default_row_witness :
  let rowid123 := fun l : string => if bool_decide (l = "123"%string) then Some 123 else None in
  let emptyDb := {| answers := true; account_settings := ∅ |} in
  let first := getAccountSettings rowid123 1700000000000 "123" emptyDb in
  let second := getAccountSettings rowid123 1700000060000 "123" first.2 in
  first.1 = Defaults "123" 1700000000000 /\
  second = (Stored (newRow 123 "NORMAL" 0 1700000000000), first.2) /\
  toAccountSettings second.1 = toAccountSettings first.1.
Proof.
intros rowid123 emptyDb.
apply (getAccountSettings_creates_default_row rowid123 1700000000000 1700000060000 "123" 123
         emptyDb); reflexivity.
Defined.

(** An update for login 123 leaves the row of login 456 alone. *)
Lemma settings_of_other_logins_witness :
  let rowid123 := fun l : string => if bool_decide (l = "123"%string) then Some 123 else None in
  let db := {| answers := true;
               account_settings := {[ 456 := newRow 456 "SELL_ONLY" 1 1690000000000 ]} |} in
  account_settings (setAccountTradingMode rowid123 1700000000000 "123" "BUY_ONLY" db).2 !! 456
  = account_settings db !! 456.
Proof.
intros rowid123 db.
destruct (settings_of_other_logins_untouched rowid123 1700000000000 "123" db 456) as (H & _).
- vm_compute. discriminate.
- exact (H "BUY_ONLY"%string).
Defined.

(** A sell for login 123 in exclusive buy-only times: with a database that
    does not answer, the signal goes on to the duplicate check. *)
Lemma unreadable_settings_witness :
  let rowid123 := fun l : string => if bool_decide (l = "123"%string) then Some 123 else None in
  let db := {| answers := false;
               account_settings := {[ 123 := newRow 123 "BUY_ONLY" 1 1690000000000 ]} |} in
  let cfg := {| DEFAULT_ACCOUNT_NUMBER := "100"; SECONDARY_API_ACCOUNTS := [] |} in
  let st := initial cfg 1700000000000
              {| Database.processed_webhook_ids := []; Database.sfx_historical_orders := [] |} in
  let signal := {| d_a := Some "S"; d_t := Some 50%float; d_s := None; d_l := Some "123";
                   d_z := Some 0.01%float; d_m := None; d_r := None;
                   d_sy := Some "EURUSD"; d_id := Some "A1" |}%string in
  let quote := {| Quotes.symbol := "EURUSD"; Quotes.bid := 1.1%float;
                  Quotes.ask := 1.1002%float; Quotes.timestamp := 1700000000000;
                  Quotes.isStale := false |} in
  let filled := {| Orchestrator.order_id := 77; Orchestrator.order_symbol := "EURUSD";
                   Orchestrator.order_side := "SELL"; Orchestrator.order_volume := 0.01%float;
                   Orchestrator.order_openPrice := 1.1%float;
                   Orchestrator.order_takeProfit := 1.095%float;
                   Orchestrator.order_stopLoss := None;
                   Orchestrator.spreadAtOpen := 2%float |} in
  let env :=
    {| accountSettings := toAccountSettings (getAccountSettings rowid123 1700000000000 "123" db).1;
       totalOpenOrders := Some 2%nat; lookupAvailable := true;
       totalOpenVolume := Some 0.02%float; ordersOnSameSide := Some 1%nat;
       trading := {| Orchestrator.marketDataAt := fun _ => inl quote;
                     Orchestrator.placeTradeAt := fun _ _ => inl filled |};
       lastQuote := Some {| Quotes.q_bid := 1.1%float; Quotes.q_ask := 1.1002%float;
                            Quotes.q_timestamp := 1700000000000 |};
       upsertAvailable := true; updateMaxSizeAvailable := true; storeAvailable := true |} in
  criticalSection env signal "123" "S" "EURUSD" 50%float None st
  = checkAndPlace env signal "123" "S" "EURUSD" 50%float None st.
Proof.
intros rowid123 db cfg st signal quote filled env.
apply (unreadable_settings_open_every_gate rowid123 1700000000000 "123" db).
- left. reflexivity.
- reflexivity.
Defined.

(** A request that sets login 123 to sell-only and switches the Asia session
    off, on an empty table. *)
Lemma postAccountSettings_witness :
  let rowid123 := fun l : string => if bool_decide (l = "123"%string) then Some 123 else None in
  let emptyDb := {| answers := true; account_settings := ∅ |} in
  let body := {| body_tradingMode := Some (JString "SELL_ONLY"); body_exclusive_mode := None;
                 body_asia_session := Some (JBoolean false); body_london_session := None;
                 body_new_york_session := None; body_limbo_session := None |} in
  exists result row,
    (postAccountSettings rowid123 1700000000000 "123" body emptyDb).1 = Settled result /\
    account_settings (postAccountSettings rowid123 1700000000000 "123" body emptyDb).2 !! 123
    = Some row /\
    toAccountSettings result = toAccountSettings (Stored row) /\
    trading_mode row = "SELL_ONLY"%string /\
    asia_session row = 0.
Proof.
intros rowid123 emptyDb body.
destruct (postAccountSettings_reads_back rowid123 1700000000000 "123" 123 body emptyDb)
  as (result & row & H1 & H2 & H3 & H4 & _ & H5 & _).
- reflexivity.
- reflexivity.
- intros v [= <-] _. exists "SELL_ONLY"%string. split; [reflexivity |].
  apply (bool_decide_unpack _). vm_compute. exact I.
- exists result, row. split; [exact H1 |]. split; [exact H2 |]. split; [exact H3 |].
  split; [apply (H4 "SELL_ONLY"%string); [reflexivity | discriminate] |].
  exact (H5 (JBoolean false) eq_refl).
Defined.

End AccountSettingsExamples.

Section SchemaMigrations.
Import Schema.

#[local] Opaque getExpectedColumns.

Lemma hasColumn_app cols cols' n :
  hasColumn (cols ++ cols') n = hasColumn cols n || hasColumn cols' n.
Proof. unfold hasColumn. apply existsb_app. Qed.

Lemma hasColumn_true cols n :
  hasColumn cols n = true <-> exists c, c ∈ cols /\ name c = n.
Proof.
unfold hasColumn. rewrite existsb_exists.
split; intros (c & Hin & Hc); exists c.
- apply bool_decide_eq_true in Hc. split; [apply list_elem_of_In; exact Hin | exact Hc].
- split; [apply list_elem_of_In; exact Hin | apply bool_decide_eq_true; exact Hc].
Qed.

Lemma declares_app cols cols' n :
  declares (cols ++ cols') n = declares cols n || declares cols' n.
Proof. unfold declares. apply existsb_app. Qed.

Lemma declares_true cols n :
  declares cols n = true <-> exists c, c ∈ cols /\ sameName (name c) n = true.
Proof.
unfold declares. rewrite existsb_exists.
split; intros (c & Hin & Hc); exists c; (split; [apply list_elem_of_In; exact Hin | exact Hc]).
Qed.

(** A column that is found by its name is found without regard to case. *)
Lemma hasColumn_declares cols n : hasColumn cols n = true -> declares cols n = true.
Proof.
intros H. apply hasColumn_true in H as (c & Hin & <-). apply declares_true.
exists c. split; [exact Hin |]. apply bool_decide_eq_true. reflexivity.
Qed.

(** No two expected columns differ by the case of their letters only. *)
Lemma expected_sameName c c' :
  c ∈ getExpectedColumns -> c' ∈ getExpectedColumns ->
  sameName (name c) (name c') = true -> name c = name c'.
Proof.
intros Hc Hc'.
assert (Hall : Forall (fun c => Forall (fun c' =>
                 sameName (name c) (name c') = true -> name c = name c')
                 getExpectedColumns) getExpectedColumns)
  by (apply (bool_decide_unpack _); vm_compute; exact I).
rewrite Forall_forall in Hall. pose proof (Hall c Hc) as Hrow.
rewrite Forall_forall in Hrow. exact (Hrow c' Hc').
Qed.

(** The expected column of a name. *)
Lemma expected_find n :
  n ∈ name <$> getExpectedColumns ->
  exists i c, list_find (fun col => name col = n) getExpectedColumns = Some (i, c) /\
              name c = n /\ c ∈ getExpectedColumns.
Proof.
intros Hin. apply list_elem_of_fmap in Hin as (c0 & -> & Hc0).
destruct (list_find (fun col => name col = name c0) getExpectedColumns) as [[i c] |] eqn:Hf.
- apply list_find_Some in Hf as (Hi & Hn & _). exists i, c. split; [reflexivity |].
  split; [exact Hn |]. apply list_elem_of_lookup. exists i. exact Hi.
- apply list_find_None in Hf. rewrite Forall_forall in Hf. contradiction (Hf c0 Hc0).
  reflexivity.
Qed.

Lemma set_tables_id db cols t :
  tables db !! t = Some cols -> set_tables (<[t := cols ++ []]> (tables db)) db = db.
Proof.
intros H. unfold set_tables. rewrite app_nil_r, insert_id by exact H.
destruct db; reflexivity.
Qed.

(** The loop over the missing columns, on a database that answers: each
    name that is an expected column, is not declared by the table in any
    case of its letters and comes once is added at the end of the table,
    while the table has room. *)
Lemma addMissingColumns_spec missing : forall db cols,
  answers db = true ->
  tables db !! "sfx_historical_orders"%string = Some cols ->
  NoDup missing ->
  (forall n, n ∈ missing -> n ∈ name <$> getExpectedColumns /\ declares cols n = false) ->
  (length cols + length missing <= SQLITE_MAX_COLUMN)%nat ->
  exists added,
    (addMissingColumns missing db).2
    = set_tables (<["sfx_historical_orders"%string := cols ++ added]> (tables db)) db /\
    name <$> added = missing /\
    (forall c, c ∈ added -> c ∈ getExpectedColumns) /\
    Forall (fun r => result_success r = true) (addMissingColumns missing db).1 /\
    result_column <$> (addMissingColumns missing db).1 = missing.
Proof.
induction missing as [| n missing IH]; intros db cols Ha Hcols Hnd Hmissing Hroom.
- exists []. simpl. rewrite (set_tables_id db cols _ Hcols).
  split; [reflexivity |].
  split; [reflexivity |]. split; [intros c H; inversion H |].
  split; [apply Forall_nil_2 | reflexivity].
- apply NoDup_cons in Hnd as [Hn Hnd].
  destruct (Hmissing n ltac:(apply elem_of_cons; left; reflexivity)) as [Hexp Hnot].
  destruct (expected_find n Hexp) as (i & c & Hfind & Hname & Hin).
  assert (Hexact : hasColumn cols n = false).
  { destruct (hasColumn cols n) eqn:Hh; [| reflexivity].
    apply hasColumn_declares in Hh. congruence. }
  cbn [addMissingColumns]. rewrite Hfind.
  unfold addMissingColumn, columnExists, addColumn, table_info.
  rewrite Ha, Hcols. cbn [from_option id]. rewrite Hname, Hexact, Hnot.
  cbn [length] in Hroom.
  destruct (Nat.leb_spec SQLITE_MAX_COLUMN (length cols)) as [Hfull | _]; [lia |].
  set (db1 := set_tables (<["sfx_historical_orders"%string := cols ++ [c]]> (tables db)) db).
  destruct (IH db1 (cols ++ [c])) as (added & Hdb & Hnames & Hadded & Hok & Hcolumns).
  + exact Ha.
  + simpl. apply lookup_insert_eq.
  + exact Hnd.
  + intros n' Hn'.
    destruct (Hmissing n' ltac:(apply elem_of_cons; right; exact Hn')) as [He Hc].
    split; [exact He |]. rewrite declares_app, Hc. simpl. rewrite orb_false_r.
    destruct (sameName (name c) n') eqn:Hs; [| reflexivity]. exfalso.
    apply list_elem_of_fmap in He as (c' & -> & Hc').
    apply (expected_sameName c c' Hin Hc') in Hs. rewrite Hname in Hs.
    rewrite <- Hs in Hn'. contradiction.
  + rewrite length_app. simpl. lia.
  + destruct (addMissingColumns missing db1) as [results db'] eqn:Hloop. cbn [fst snd] in *.
    exists (c :: added). split.
    { rewrite Hdb. unfold db1, set_tables. simpl.
      rewrite insert_insert_eq, <- app_assoc. reflexivity. }
    split; [rewrite fmap_cons, Hname, Hnames; reflexivity |].
    split.
    { intros c' Hc'. apply elem_of_cons in Hc' as [-> | Hc']; [exact Hin | exact (Hadded c' Hc')]. }
    split; [apply Forall_cons; split; [reflexivity | exact Hok] |].
    rewrite fmap_cons, Hcolumns. reflexivity.
Qed.

(** Whatever the loop is given, it leaves the table of orders with the
    columns it had followed by expected columns, none of which the table
    declared already in any case of its letters. *)
Lemma addMissingColumns_added missing : forall db cols,
  tables db !! "sfx_historical_orders"%string = Some cols ->
  exists added,
    (addMissingColumns missing db).2
    = set_tables (<["sfx_historical_orders"%string := cols ++ added]> (tables db)) db /\
    Forall (fun c => c ∈ getExpectedColumns /\ declares cols (name c) = false) added.
Proof.
induction missing as [| n missing IH]; intros db cols Hcols.
- exists []. simpl. rewrite (set_tables_id db cols _ Hcols). split; [reflexivity | constructor].
- cbn [addMissingColumns].
  destruct (list_find _ getExpectedColumns) as [[i c] |] eqn:Hfind.
  + apply list_find_Some in Hfind as (Hi & Hname & _).
    assert (Hin : c ∈ getExpectedColumns) by (apply list_elem_of_lookup; exists i; exact Hi).
    unfold addMissingColumn, columnExists, addColumn, table_info.
    rewrite Hcols. cbn [from_option id].
    assert (Hsame : forall success,
      exists added,
        (let '(results, db') := addMissingColumns missing db in
         ({| result_column := n; result_success := success |} :: results, db')).2
        = set_tables (<["sfx_historical_orders"%string := cols ++ added]> (tables db)) db /\
        Forall (fun c => c ∈ getExpectedColumns /\ declares cols (name c) = false) added).
    { intros success. destruct (IH db cols Hcols) as (added & Hdb & Hall).
      destruct (addMissingColumns missing db) as [results db']. exists added.
      split; assumption. }
    destruct (answers db) eqn:Ha; [| apply Hsame].
    destruct (hasColumn cols (name c)); [apply Hsame |].
    destruct (declares cols (name c)) eqn:Hd; [apply Hsame |].
    destruct (_ <=? _)%nat; [apply Hsame |].
    set (db1 := set_tables (<["sfx_historical_orders"%string := cols ++ [c]]> (tables db)) db).
    destruct (IH db1 (cols ++ [c])) as (added & Hdb & Hall); [simpl; apply lookup_insert_eq |].
    destruct (addMissingColumns missing db1) as [results db'] eqn:Hloop. cbn [fst snd] in *.
    exists (c :: added). split.
    { rewrite Hdb. unfold db1, set_tables. simpl.
      rewrite insert_insert_eq, <- app_assoc. reflexivity. }
    apply Forall_cons. split; [split; assumption |].
    eapply Forall_impl; [exact Hall |]. intros c' [Hc' Hd']. split; [exact Hc' |].
    rewrite declares_app in Hd'. apply orb_false_iff in Hd'. exact (proj1 Hd').
  + destruct (IH db cols Hcols) as (added & Hdb & Hall).
    destruct (addMissingColumns missing db) as [results db']. exists added.
    split; assumption.
Qed.

Lemma expected_names_NoDup : NoDup (name <$> getExpectedColumns).
Proof. apply (bool_decide_unpack _). vm_compute. exact I. Qed.

Lemma missing_spec cols :
  let missing :=
    omap (fun expectedCol =>
            if hasColumn cols (name expectedCol) then None else Some (name expectedCol))
         getExpectedColumns in
  NoDup missing /\
  (forall n, n ∈ missing <-> n ∈ name <$> getExpectedColumns /\ hasColumn cols n = false).
Proof.
cbv zeta. pose proof expected_names_NoDup as Hnd. revert Hnd.
generalize getExpectedColumns as expected.
induction expected as [| e expected IH]; intros Hnd; simpl.
- split; [apply NoDup_nil_2 |]. intros n. rewrite elem_of_nil. tauto.
- simpl in Hnd. apply NoDup_cons in Hnd as [He Hnd]. destruct (IH Hnd) as [IH1 IH2].
  destruct (hasColumn cols (name e)) eqn:Hhas.
  + split; [exact IH1 |]. intros n. rewrite IH2, elem_of_cons.
    split; [intros [H1 H2]; split; [right; exact H1 | exact H2] |].
    intros [[-> | H1] H2]; [congruence | split; assumption].
  + split.
    * apply NoDup_cons. split; [| exact IH1]. intros Hin. apply IH2 in Hin as [Hin _].
      contradiction.
    * intros n. rewrite !elem_of_cons, IH2.
      split; [intros [-> | [H1 H2]]; [split; [left; reflexivity | exact Hhas]
                                     | split; [right; exact H1 | exact H2]] |].
      intros [[-> | H1] H2]; [left; reflexivity | right; split; assumption].
Qed.

Lemma table_info_insert db t cols :
  table_info (set_tables (<[t := cols]> (tables db)) db) t = cols.
Proof. unfold table_info. cbn [tables set_tables]. rewrite lookup_insert_eq. reflexivity. Qed.

Lemma validateDatabaseSchema_answers db :
  answers db = true ->
  validateDatabaseSchema db
  = let missing :=
      omap (fun expectedCol =>
              if hasColumn (table_info db "sfx_historical_orders") (name expectedCol)
              then None else Some (name expectedCol)) getExpectedColumns in
    {| isValid := bool_decide (missing = []); missingColumns := missing |}.
Proof. intros Ha. unfold validateDatabaseSchema. rewrite Ha. reflexivity. Qed.

Lemma missingColumns_spec db cols :
  answers db = true ->
  tables db !! "sfx_historical_orders"%string = Some cols ->
  NoDup (missingColumns (validateDatabaseSchema db)) /\
  (forall n, n ∈ missingColumns (validateDatabaseSchema db) <->
     n ∈ name <$> getExpectedColumns /\ hasColumn cols n = false).
Proof.
intros Ha Hcols. rewrite (validateDatabaseSchema_answers db Ha). cbv zeta.
cbn [missingColumns]. unfold table_info. rewrite Hcols. simpl.
exact (missing_spec cols).
Qed.

Lemma isValid_spec db cols :
  answers db = true ->
  tables db !! "sfx_historical_orders"%string = Some cols ->
  isValid (validateDatabaseSchema db) = true <->
  forall n, n ∈ name <$> getExpectedColumns -> hasColumn cols n = true.
Proof.
intros Ha Hcols. destruct (missingColumns_spec db cols Ha Hcols) as [_ Hin].
rewrite (validateDatabaseSchema_answers db Ha) in *. cbv zeta in *.
cbn [isValid missingColumns] in *. rewrite bool_decide_eq_true. split.
- intros Hnil n Hn. destruct (hasColumn cols n) eqn:Hh; [reflexivity |].
  exfalso. assert (Hm := proj2 (Hin n) (conj Hn Hh)). rewrite Hnil in Hm. inversion Hm.
- intros Hall.
  match goal with |- ?m = [] => destruct m as [| n rest] eqn:Hrest; [reflexivity |] end.
  exfalso. destruct (proj1 (Hin n) ltac:(apply elem_of_cons; left; reflexivity)) as [Hn Hh].
  rewrite (Hall n Hn) in Hh. discriminate.
Qed.

Lemma isValid_insert db cols :
  answers db = true ->
  isValid (validateDatabaseSchema
             (set_tables (<["sfx_historical_orders"%string := cols]> (tables db)) db)) = true <->
  forall n, n ∈ name <$> getExpectedColumns -> hasColumn cols n = true.
Proof.
intros Ha. apply isValid_spec; [exact Ha |]. simpl. apply lookup_insert_eq.
Qed.

(** What [runDatabaseMigrations] does to a database that answers and holds
    the table of orders: the table keeps its columns and gains expected
    columns that it did not declare. *)
Lemma runDatabaseMigrations_added db cols :
  answers db = true ->
  tables db !! "sfx_historical_orders"%string = Some cols ->
  let r := runDatabaseMigrations db in
  r.1.1 = isValid (validateDatabaseSchema r.2) /\
  exists added,
    r.2 = set_tables (<["sfx_historical_orders"%string := cols ++ added]> (tables db)) db /\
    Forall (fun c => c ∈ getExpectedColumns /\ declares cols (name c) = false) added.
Proof.
intros Ha Hcols r. unfold r, runDatabaseMigrations. cbv zeta.
destruct (isValid (validateDatabaseSchema db)) eqn:Hvalid.
- cbn [fst snd]. split; [symmetry; exact Hvalid |]. exists [].
  rewrite (set_tables_id db cols _ Hcols). split; [reflexivity | constructor].
- destruct (addMissingColumns_added (missingColumns (validateDatabaseSchema db)) db cols Hcols)
    as (added & Hdb & Hall).
  destruct (addMissingColumns _ db) as [results db']. cbn [fst snd] in *.
  split; [reflexivity |]. exists added. split; assumption.
Qed.

Lemma runDatabaseMigrations_spec db cols :
  answers db = true ->
  tables db !! "sfx_historical_orders"%string = Some cols ->
  let missing := missingColumns (validateDatabaseSchema db) in
  let r := runDatabaseMigrations db in
  ((forall n, n ∈ missing -> declares cols n = false) ->
   (length cols + length missing <= SQLITE_MAX_COLUMN)%nat ->
   r.1.1 = true /\
   isValid (validateDatabaseSchema r.2) = true /\
   Forall (fun result => result_success result = true) r.1.2 /\
   result_column <$> r.1.2 = missing /\
   exists added,
     r.2 = set_tables (<["sfx_historical_orders"%string := cols ++ added]> (tables db)) db /\
     name <$> added = missing /\
     (forall c, c ∈ added -> c ∈ getExpectedColumns)) /\
  ((exists n, n ∈ missing /\ declares cols n = true) ->
   r.1.1 = false /\ isValid (validateDatabaseSchema r.2) = false).
Proof.
intros Ha Hcols missing r.
destruct (missingColumns_spec db cols Ha Hcols) as [Hnd Hin]. fold missing in Hnd, Hin.
split.
- intros Hclean Hroom. unfold r, runDatabaseMigrations. cbv zeta.
  destruct (isValid (validateDatabaseSchema db)) eqn:Hvalid.
  + cbn [fst snd]. split; [reflexivity |]. split; [exact Hvalid |]. split; [apply Forall_nil_2 |].
    assert (Hnil : missing = []).
    { unfold missing. rewrite (validateDatabaseSchema_answers db Ha) in *.
      cbn [isValid missingColumns] in *. apply bool_decide_eq_true in Hvalid. exact Hvalid. }
    rewrite Hnil. split; [reflexivity |]. exists [].
    rewrite (set_tables_id db cols _ Hcols).
    split; [reflexivity |]. split; [reflexivity | intros c H; inversion H].
  + destruct (addMissingColumns_spec missing db cols Ha Hcols Hnd
                (fun n H => conj (proj1 (proj1 (Hin n) H)) (Hclean n H)) Hroom)
      as (added & Hdb & Hnames & Hadded & Hok & Hcolumns).
    fold missing.
    destruct (addMissingColumns missing db) as [results db'] eqn:Hloop. cbn [fst snd] in *.
    assert (Hfinal : isValid (validateDatabaseSchema db') = true).
    { rewrite Hdb. apply (isValid_insert db (cols ++ added) Ha).
      intros n Hn. rewrite hasColumn_app.
        destruct (hasColumn cols n) eqn:Hh; [reflexivity |]. simpl.
        assert (Hm : n ∈ missing) by (apply Hin; split; assumption).
        rewrite <- Hnames in Hm. apply list_elem_of_fmap in Hm as (c & -> & Hc).
        apply hasColumn_true. exists c. split; [exact Hc | reflexivity]. }
    split; [exact Hfinal |]. split; [exact Hfinal |]. split; [exact Hok |].
    split; [exact Hcolumns |]. exists added. split; [exact Hdb |]. split; assumption.
- intros (n & Hn & Hclash).
  destruct (runDatabaseMigrations_added db cols Ha Hcols) as (Hres & added & Hdb & Hall).
  fold r in Hres, Hdb.
  assert (Hinvalid : isValid (validateDatabaseSchema r.2) = false).
  { destruct (isValid (validateDatabaseSchema r.2)) eqn:Hv; [| reflexivity]. exfalso.
    rewrite Hdb in Hv.
    pose proof (proj1 (isValid_insert db (cols ++ added) Ha) Hv) as Hv'.
    clear Hv. rename Hv' into Hv.
    destruct (proj1 (Hin n) Hn) as [Hexp Hmiss].
    specialize (Hv n Hexp). rewrite hasColumn_app, Hmiss in Hv. simpl in Hv.
    apply hasColumn_true in Hv as (c & Hc & Hname).
    rewrite Forall_forall in Hall. destruct (Hall c Hc) as [_ Hd].
    rewrite Hname in Hd. congruence. }
  split; [rewrite Hres; exact Hinvalid | exact Hinvalid].
Qed.

(** On a database that answers and holds the table of orders.  When the
    table declares none of the missing columns under a name that differs by
    the case of its letters, and has room for them, [runDatabaseMigrations]
    reports success; afterwards the schema is valid; the table has the
    columns it had, in their order, followed by the expected columns that
    were missing, each added once; every column was reported as added; and
    no other table has changed.  When the table declares a missing column
    under a name that differs by the case of its letters, SQLite refuses
    the column, and [runDatabaseMigrations] reports failure and leaves the
    schema invalid. *)
Theorem runDatabaseMigrations_completes db cols :
  answers db = true ->
  tables db !! "sfx_historical_orders"%string = Some cols ->
  let missing := missingColumns (validateDatabaseSchema db) in
  let r := runDatabaseMigrations db in
  ((forall n, n ∈ missing -> declares cols n = false) ->
   (length cols + length missing <= SQLITE_MAX_COLUMN)%nat ->
   r.1.1 = true /\
   isValid (validateDatabaseSchema r.2) = true /\
   Forall (fun result => result_success result = true) r.1.2 /\
   result_column <$> r.1.2 = missing /\
   exists added,
     r.2 = set_tables (<["sfx_historical_orders"%string := cols ++ added]> (tables db)) db /\
     name <$> added = missing /\
     (forall c, c ∈ added -> c ∈ getExpectedColumns)) /\
  ((exists n, n ∈ missing /\ declares cols n = true) ->
   r.1.1 = false /\ isValid (validateDatabaseSchema r.2) = false).
Proof. exact (runDatabaseMigrations_spec db cols). Qed.


Lemma extends_refl db : extends db db.
Proof.
split; [reflexivity |]. split; [| reflexivity].
intros t cols H. exists []. rewrite app_nil_r. exact H.
Qed.

Lemma extends_trans db1 db2 db3 : extends db1 db2 -> extends db2 db3 -> extends db1 db3.
Proof.
intros (Ha & H12 & Hi) (Ha' & H23 & Hi'). split; [congruence |]. split.
- intros t cols H. destruct (H12 t cols H) as (added & H2).
  destruct (H23 t _ H2) as (added' & H3). exists (added ++ added').
  rewrite H3, app_assoc. reflexivity.
- etrans; eassumption.
Qed.

Lemma extends_set_tables db t cols added :
  tables db !! t = Some cols ->
  extends db (set_tables (<[t := cols ++ added]> (tables db)) db).
Proof.
intros Ht. split; [reflexivity |]. split; [| reflexivity].
intros t' cols' H. simpl. destruct (decide (t = t')) as [<- | Hne].
- rewrite lookup_insert_eq. rewrite Ht in H. injection H as <-. exists added. reflexivity.
- rewrite lookup_insert_ne by exact Hne. exists []. rewrite app_nil_r. exact H.
Qed.

(** An added column goes to the end of its table, which did not declare it;
    the other tables are as they were. *)
Lemma addColumn_Some t col db db' :
  addColumn t col db = Some db' ->
  exists cols, tables db !! t = Some cols /\ declares cols (name col) = false /\
               db' = set_tables (<[t := cols ++ [col]]> (tables db)) db.
Proof.
unfold addColumn. destruct (answers db); [| discriminate].
destruct (tables db !! t) as [cols |]; [| discriminate].
destruct (declares cols (name col)) eqn:Hd; [discriminate |].
destruct (_ <=? _)%nat; [discriminate |]. intros [= <-].
exists cols. split; [reflexivity |]. split; [exact Hd | reflexivity].
Qed.

Lemma extends_addColumn t col db db' : addColumn t col db = Some db' -> extends db db'.
Proof.
intros H. apply addColumn_Some in H as (cols & Ht & _ & ->).
apply extends_set_tables. exact Ht.
Qed.

Lemma createTableIfNotExists_Some t cols db db' :
  createTableIfNotExists t cols db = Some db' <->
  answers db = true /\
  ((is_Some (tables db !! t) /\ db' = db) \/
   (tables db !! t = None /\ (t ∉ indexes db) /\
    db' = set_tables (<[t := cols]> (tables db)) db)).
Proof.
unfold createTableIfNotExists. destruct (answers db); [| split; [discriminate | intros [? _]; discriminate]].
destruct (tables db !! t) as [old |] eqn:Ht.
- split.
  + intros [= <-]. split; [reflexivity |]. left. split; [eexists; reflexivity | reflexivity].
  + intros [_ [[_ ->] | [? _]]]; [reflexivity | discriminate].
- case_bool_decide as Hi.
  + split; [discriminate |]. intros [_ [[[? ?] _] | (_ & Hn & _)]]; [discriminate | contradiction].
  + split.
    * intros [= <-]. split; [reflexivity |]. right. split; [reflexivity |]. split; [exact Hi | reflexivity].
    * intros [_ [[[? ?] _] | (_ & _ & ->)]]; [discriminate | reflexivity].
Qed.

(** What a created table leaves as it was. *)
Lemma createTableIfNotExists_frame t cols db db' :
  createTableIfNotExists t cols db = Some db' ->
  extends db db' /\ answers db' = true /\ indexes db' = indexes db /\
  tables db' !! t = Some (default cols (tables db !! t)) /\
  (forall t', t' <> t -> tables db' !! t' = tables db !! t').
Proof.
intros H. apply createTableIfNotExists_Some in H as [Ha [[[old Ht] ->] | (Ht & _ & ->)]].
- split; [apply extends_refl |]. split; [exact Ha |]. split; [reflexivity |].
  split; [rewrite Ht; reflexivity | reflexivity].
- split.
  { split; [reflexivity |]. split; [| reflexivity]. intros t' cols' H. simpl.
    rewrite lookup_insert_ne by congruence. exists []. rewrite app_nil_r. exact H. }
  split; [exact Ha |]. split; [reflexivity |]. simpl. rewrite Ht, lookup_insert_eq.
  split; [reflexivity |]. intros t' Hne. apply lookup_insert_ne. congruence.
Qed.

Lemma createIndexIfNotExists_Some i t names db db' :
  createIndexIfNotExists i t names db = Some db' <->
  answers db = true /\
  exists cols, tables db !! t = Some cols /\ tables db !! i = None /\
    ((i ∈ indexes db /\ db' = db) \/
     ((i ∉ indexes db) /\ forallb (declares cols) names = true /\
      db' = set_indexes ({[i]} ∪ indexes db) db)).
Proof.
unfold createIndexIfNotExists.
destruct (answers db); [| split; [discriminate | intros [? _]; discriminate]].
destruct (tables db !! t) as [cols |] eqn:Ht;
  [| split; [discriminate | intros [_ (? & ? & _)]; discriminate]].
case_bool_decide as Hname.
{ split; [discriminate |]. intros [_ (? & _ & Hn & _)]. rewrite Hn in Hname.
  destruct Hname; discriminate. }
assert (Hnone : tables db !! i = None).
{ destruct (tables db !! i) eqn:Hi; [| reflexivity]. exfalso. apply Hname. eexists. reflexivity. }
case_bool_decide as Hi.
{ split.
  - intros [= <-]. split; [reflexivity |]. exists cols. split; [reflexivity |].
    split; [exact Hnone |]. left. split; [exact Hi | reflexivity].
  - intros [_ (? & _ & _ & [[_ ->] | [Hn _]])]; [reflexivity | contradiction]. }
destruct (forallb (declares cols) names) eqn:Hall.
- split.
  + intros [= <-]. split; [reflexivity |]. exists cols. split; [reflexivity |].
    split; [exact Hnone |]. right. split; [exact Hi |]. split; [exact Hall | reflexivity].
  + intros [_ (? & _ & _ & [[Hn _] | (_ & _ & ->)])]; [contradiction | reflexivity].
- split; [discriminate |].
  intros [_ (cols' & [= <-] & _ & [[Hn _] | (_ & Hd & _)])]; [contradiction | congruence].
Qed.

Lemma createIndexIfNotExists_frame i t names db db' :
  createIndexIfNotExists i t names db = Some db' ->
  extends db db' /\ tables db' = tables db /\ i ∈ indexes db'.
Proof.
intros H. apply createIndexIfNotExists_Some in H as [Ha (cols & _ & _ & [[Hi ->] | (_ & _ & ->)])].
- split; [apply extends_refl |]. split; [reflexivity | exact Hi].
- split.
  { split; [reflexivity |]. split.
    - intros t' cols' H. exists []. rewrite app_nil_r. exact H.
    - simpl. set_solver. }
  split; [reflexivity |]. simpl. set_solver.
Qed.

Lemma extends_execAll statements : forall db,
  Forall (fun statement => forall d d', statement d = Some d' -> extends d d') statements ->
  extends db (execAll statements db).2.
Proof.
induction statements as [| statement rest IH]; intros db H; simpl; [apply extends_refl |].
apply Forall_cons in H as [Hs Hrest].
destruct (statement db) as [db' |] eqn:Hdb; [| apply extends_refl].
apply (extends_trans _ db'); [exact (Hs _ _ Hdb) | apply IH; exact Hrest].
Qed.

(** The statements of [execAll] on another table leave a table alone. *)
Lemma execAll_addColumn_frame t cols0 : forall db t', t' <> t ->
  tables ((execAll (map (fun col => addColumn t col) cols0) db).2) !! t' = tables db !! t'.
Proof.
induction cols0 as [| col rest IH]; intros db t' Hne; simpl; [reflexivity |].
destruct (addColumn t col db) as [db' |] eqn:Hadd; [| reflexivity].
rewrite (IH db' t' Hne).
apply addColumn_Some in Hadd as (cols & _ & _ & ->). simpl.
apply lookup_insert_ne. congruence.
Qed.

Lemma migrateAccountSettings_spec db :
  extends db (migrateAccountSettings db).2 /\
  tables ((migrateAccountSettings db).2) !! "sfx_historical_orders"%string
  = tables db !! "sfx_historical_orders"%string.
Proof.
assert (Hadd : forall cols0,
          Forall (fun statement => forall d d', statement d = Some d' -> extends d d')
                 (map (fun col => addColumn "account_settings" col) cols0)).
{ intros cols0. apply Forall_forall. intros statement Hin.
  apply list_elem_of_In, in_map_iff in Hin as (col & <- & _).
  intros d d'. apply extends_addColumn. }
assert (Hframe : forall cols0 d,
          tables ((execAll (map (fun col => addColumn "account_settings" col) cols0) d).2)
            !! "sfx_historical_orders"%string
          = tables d !! "sfx_historical_orders"%string).
{ intros cols0 d. apply execAll_addColumn_frame. discriminate. }
unfold migrateAccountSettings. destruct (answers db); [| split; [apply extends_refl | reflexivity]].
cbv zeta.
set (sessions := [integerDefault "asia_session" "1"; integerDefault "london_session" "1";
                  integerDefault "new_york_session" "1"; integerDefault "limbo_session" "1"]).
change [addColumn "account_settings" (integerDefault "asia_session" "1");
        addColumn "account_settings" (integerDefault "london_session" "1");
        addColumn "account_settings" (integerDefault "new_york_session" "1");
        addColumn "account_settings" (integerDefault "limbo_session" "1")]
  with (map (fun col => addColumn "account_settings" col) sessions).
change [addColumn "account_settings" (integerDefault "exclusive_mode" "0")]
  with (map (fun col => addColumn "account_settings" col) [integerDefault "exclusive_mode" "0"]).
destruct (negb (hasColumn _ "asia_session")).
- pose proof (extends_execAll _ db (Hadd sessions)) as He.
  pose proof (Hframe sessions db) as Hf.
  destruct (execAll _ db) as [ok db1]. cbn [snd] in *.
  destruct ok; [| split; assumption].
  destruct (negb (hasColumn _ "exclusive_mode")); [| split; assumption].
  split.
  + apply (extends_trans _ db1); [exact He | apply extends_execAll; apply Hadd].
  + rewrite Hframe. exact Hf.
- destruct (negb (hasColumn _ "exclusive_mode")); [| split; [apply extends_refl | reflexivity]].
  split; [apply extends_execAll; apply Hadd | apply Hframe].
Qed.

Lemma migrateMaxobalertColumn_extends db : extends db (migrateMaxobalertColumn db).2.
Proof.
unfold migrateMaxobalertColumn. destruct (negb _); [| apply extends_refl].
destruct (addColumn _ _ db) as [db' |] eqn:Hadd; [| apply extends_refl].
exact (extends_addColumn _ _ _ _ Hadd).
Qed.

Lemma validateDatabaseSchema_ext db db' :
  answers db' = answers db ->
  tables db' !! "sfx_historical_orders"%string = tables db !! "sfx_historical_orders"%string ->
  validateDatabaseSchema db' = validateDatabaseSchema db.
Proof.
intros Ha Ht. unfold validateDatabaseSchema, table_info. rewrite Ha, Ht. reflexivity.
Qed.

Lemma valid_has_expected db n :
  isValid (validateDatabaseSchema db) = true ->
  n ∈ name <$> getExpectedColumns ->
  hasColumn (table_info db "sfx_historical_orders") n = true.
Proof.
unfold validateDatabaseSchema. destruct (answers db); [| discriminate]. cbv zeta.
cbn [isValid]. intros Hvalid Hn. apply bool_decide_eq_true in Hvalid.
destruct (hasColumn _ n) eqn:Hhas; [reflexivity |]. exfalso.
assert (Hin : n ∈ omap (fun expectedCol =>
                          if hasColumn (table_info db "sfx_historical_orders")
                                       (name expectedCol)
                          then None else Some (name expectedCol)) getExpectedColumns)
  by (apply missing_spec; split; assumption).
rewrite Hvalid in Hin. inversion Hin.
Qed.

Lemma upsertOrder_columns_expected c :
  c ∈ upsertOrder_columns -> c ∈ name <$> getExpectedColumns.
Proof.
intros H.
assert (Hall : Forall (fun c => c ∈ name <$> getExpectedColumns) upsertOrder_columns)
  by (apply (bool_decide_unpack _); vm_compute; exact I).
rewrite Forall_forall in Hall. exact (Hall c H).
Qed.

Lemma created_has_expected n :
  n ∈ name <$> getExpectedColumns -> hasColumn created_sfx_historical_orders n = true.
Proof.
intros H.
assert (Hall : Forall (fun n => hasColumn created_sfx_historical_orders n = true)
                      (name <$> getExpectedColumns))
  by (apply (bool_decide_unpack _); vm_compute; exact I).
rewrite Forall_forall in Hall. exact (Hall n H).
Qed.

(** The steps of [initializeDatabase]. *)
Lemma initializeDatabase_Some db db' :
  initializeDatabase db = Some db' <->
  exists db1 db2 db3 db3',
    createTableIfNotExists "sfx_historical_orders" created_sfx_historical_orders db = Some db1 /\
    createTableIfNotExists "account_settings" created_account_settings db1 = Some db2 /\
    createTableIfNotExists "processed_webhook_ids" created_processed_webhook_ids db2
    = Some db3 /\
    createIndexIfNotExists "idx_processed_webhook_ids_lookup" "processed_webhook_ids"
      ["alert_id"; "account_number"]%string db3 = Some db3' /\
    db' = (migrateMaxobalertColumn
             (migrateAccountSettings
                (if negb (isValid (validateDatabaseSchema db3'))
                 then (runDatabaseMigrations db3').2 else db3')).2).2.
Proof.
unfold initializeDatabase. split.
- destruct (createTableIfNotExists "sfx_historical_orders" _ db) as [db1 |] eqn:H1;
    [| discriminate].
  cbn [mbind option_bind].
  destruct (createTableIfNotExists "account_settings" _ db1) as [db2 |] eqn:H2;
    [| discriminate].
  cbn [mbind option_bind].
  destruct (createTableIfNotExists "processed_webhook_ids" _ db2) as [db3 |] eqn:H3;
    [| discriminate].
  cbn [mbind option_bind].
  destruct (createIndexIfNotExists _ _ _ db3) as [db3' |] eqn:H4; [| discriminate].
  cbn [mbind option_bind]. intros [= <-]. exists db1, db2, db3, db3'.
  split; [reflexivity |]. split; [exact H2 |]. split; [exact H3 |]. split; [exact H4 |].
  reflexivity.
- intros (db1 & db2 & db3 & db3' & -> & H2 & H3 & H4 & ->). cbn [mbind option_bind].
  rewrite H2. cbn [mbind option_bind]. rewrite H3. cbn [mbind option_bind].
  rewrite H4. reflexivity.
Qed.

(** [initializeDatabase], on whatever database the file holds.  Its own
    statements go through, and the function returns, exactly when the
    database answers, no index has the name of one of the three tables that
    is to be created, no table has the name of the index, and the index is
    there or the table of processed ids declares its two columns.  When the
    function returns, every table that was there has kept its columns, in
    their order, the three tables and the index exist, and, where the table
    of orders was not there or declared none of its missing columns under a
    name of another case and had room for them, the table of orders passes
    [validateDatabaseSchema] and has every column that the [INSERT] of
    [upsertOrder] names.  On an empty database the tables are created as
    declared; on a table of orders that declares [findObType] in capital
    letters the function returns with the schema invalid. *)
Theorem initializeDatabase_postconditions :
  (forall db,
     is_Some (initializeDatabase db) <->
     answers db = true /\
     (forall t, t ∈ ["sfx_historical_orders"; "account_settings";
                     "processed_webhook_ids"]%string ->
        tables db !! t = None -> t ∉ indexes db) /\
     tables db !! "idx_processed_webhook_ids_lookup"%string = None /\
     ("idx_processed_webhook_ids_lookup"%string ∈ indexes db \/
      forall cols, tables db !! "processed_webhook_ids"%string = Some cols ->
        declares cols "alert_id" = true /\ declares cols "account_number" = true)) /\
  (forall db db',
     initializeDatabase db = Some db' ->
     extends db db' /\
     is_Some (tables db' !! "sfx_historical_orders"%string) /\
     is_Some (tables db' !! "account_settings"%string) /\
     is_Some (tables db' !! "processed_webhook_ids"%string) /\
     "idx_processed_webhook_ids_lookup"%string ∈ indexes db' /\
     ((forall cols, tables db !! "sfx_historical_orders"%string = Some cols ->
         (forall n, n ∈ missingColumns (validateDatabaseSchema db) -> declares cols n = false) /\
         (length cols + length (missingColumns (validateDatabaseSchema db))
          <= SQLITE_MAX_COLUMN)%nat) ->
      isValid (validateDatabaseSchema db') = true /\
      (forall c, c ∈ upsertOrder_columns ->
         hasColumn (table_info db' "sfx_historical_orders") c = true))) /\
  initializeDatabase {| answers := true; tables := ∅; indexes := ∅ |}
  = Some {| answers := true;
            tables := {[ "sfx_historical_orders"%string := created_sfx_historical_orders;
                         "account_settings"%string := created_account_settings;
                         "processed_webhook_ids"%string := created_processed_webhook_ids ]};
            indexes := {[ "idx_processed_webhook_ids_lookup"%string ]} |} /\
  (exists db',
     initializeDatabase
       {| answers := true;
          tables := {[ "sfx_historical_orders"%string :=
                         [column "order_id" "TEXT"; column "FINDOBTYPE" "TEXT"] ]};
          indexes := ∅ |} = Some db' /\
     isValid (validateDatabaseSchema db') = false /\
     missingColumns (validateDatabaseSchema db') = ["findObType"%string]).
Proof.
split; [| split; [| split]].
- intros db. split.
  + intros [db' H]. apply initializeDatabase_Some in H as (db1 & db2 & db3 & db3' & H1 & H2 & H3 & H4 & _).
    pose proof (createTableIfNotExists_frame _ _ _ _ H1) as (_ & Ha1 & Hi1 & Ht1 & Hf1).
    pose proof (createTableIfNotExists_frame _ _ _ _ H2) as (_ & Ha2 & Hi2 & Ht2 & Hf2).
    pose proof (createTableIfNotExists_frame _ _ _ _ H3) as (_ & Ha3 & Hi3 & Ht3 & Hf3).
    apply createTableIfNotExists_Some in H1 as [Ha H1].
    apply createTableIfNotExists_Some in H2 as [_ H2].
    apply createTableIfNotExists_Some in H3 as [_ H3].
    apply createIndexIfNotExists_Some in H4 as [_ (cols & Hcols & Hname & H4)].
    split; [exact Ha |]. split; [| split].
    * intros t Ht Hnone.
      apply elem_of_cons in Ht as [-> | Ht].
      { destruct H1 as [[[? Hs] _] | (_ & Hn & _)]; [congruence | exact Hn]. }
      apply elem_of_cons in Ht as [-> | Ht].
      { rewrite <- Hi1. rewrite <- (Hf1 "account_settings"%string) in Hnone by discriminate.
        destruct H2 as [[[? Hs] _] | (_ & Hn & _)]; [congruence | exact Hn]. }
      apply list_elem_of_singleton in Ht as ->.
      rewrite <- Hi1, <- Hi2.
      rewrite <- (Hf1 "processed_webhook_ids"%string) in Hnone by discriminate.
      rewrite <- (Hf2 "processed_webhook_ids"%string) in Hnone by discriminate.
      destruct H3 as [[[? Hs] _] | (_ & Hn & _)]; [congruence | exact Hn].
    * rewrite <- (Hf1 "idx_processed_webhook_ids_lookup"%string) by discriminate.
      rewrite <- (Hf2 "idx_processed_webhook_ids_lookup"%string) by discriminate.
      rewrite <- (Hf3 "idx_processed_webhook_ids_lookup"%string) by discriminate.
      exact Hname.
    * rewrite <- Hi1, <- Hi2, <- Hi3.
      destruct H4 as [[Hin _] | (_ & Hall & _)]; [left; exact Hin |]. right.
      intros cols0 Hcols0.
      rewrite <- (Hf1 "processed_webhook_ids"%string) in Hcols0 by discriminate.
      rewrite <- (Hf2 "processed_webhook_ids"%string) in Hcols0 by discriminate.
      rewrite Hcols0 in Ht3. simpl in Ht3. rewrite Ht3 in Hcols. injection Hcols as <-.
      simpl in Hall. rewrite andb_true_r in Hall. apply andb_true_iff in Hall. exact Hall.
  + intros (Ha & Hidx & Hname & Hcolumns).
    assert (Hcreate : forall t cols d,
              answers d = true -> indexes d = indexes db ->
              tables d !! t = tables db !! t ->
              t ∈ ["sfx_historical_orders"; "account_settings";
                   "processed_webhook_ids"]%string ->
              exists d', createTableIfNotExists t cols d = Some d').
    { intros t cols d Had Hid Htd Ht. unfold createTableIfNotExists. rewrite Had.
      destruct (tables d !! t) as [old |] eqn:Hold; [eexists; reflexivity |].
      rewrite bool_decide_eq_false_2; [eexists; reflexivity |].
      rewrite Hid. apply Hidx; [exact Ht | congruence]. }
    destruct (Hcreate "sfx_historical_orders"%string created_sfx_historical_orders db)
      as [db1 H1]; [exact Ha | reflexivity | reflexivity | repeat constructor |].
    pose proof (createTableIfNotExists_frame _ _ _ _ H1) as (_ & Ha1 & Hi1 & Ht1 & Hf1).
    destruct (Hcreate "account_settings"%string created_account_settings db1)
      as [db2 H2]; [exact Ha1 | exact Hi1 | apply Hf1; discriminate | repeat constructor |].
    pose proof (createTableIfNotExists_frame _ _ _ _ H2) as (_ & Ha2 & Hi2 & Ht2 & Hf2).
    destruct (Hcreate "processed_webhook_ids"%string created_processed_webhook_ids db2)
      as [db3 H3];
      [exact Ha2 | congruence
      | rewrite Hf2 by discriminate; apply Hf1; discriminate | repeat constructor |].
    pose proof (createTableIfNotExists_frame _ _ _ _ H3) as (_ & Ha3 & Hi3 & Ht3 & Hf3).
    assert (H4 : is_Some (createIndexIfNotExists "idx_processed_webhook_ids_lookup"
                            "processed_webhook_ids" ["alert_id"; "account_number"]%string db3)).
    { unfold createIndexIfNotExists. rewrite Ha3, Ht3.
      rewrite (Hf3 "idx_processed_webhook_ids_lookup"%string) by discriminate.
      rewrite (Hf2 "idx_processed_webhook_ids_lookup"%string) by discriminate.
      rewrite (Hf1 "idx_processed_webhook_ids_lookup"%string) by discriminate.
      rewrite Hname.
      rewrite (bool_decide_eq_false_2 (is_Some None)) by (intros [? ?]; discriminate).
      case_bool_decide as Hin; [eexists; reflexivity |].
      rewrite Hi3, Hi2, Hi1 in Hin.
      destruct Hcolumns as [Hin' | Hcolumns]; [contradiction |].
      rewrite (Hf2 "processed_webhook_ids"%string) by discriminate.
      rewrite (Hf1 "processed_webhook_ids"%string) by discriminate.
      destruct (tables db !! "processed_webhook_ids"%string) as [cols |] eqn:Hcols.
      - destruct (Hcolumns cols eq_refl) as [Hc1 Hc2]. simpl. rewrite Hc1, Hc2.
        eexists. reflexivity.
      - eexists. reflexivity. }
    destruct H4 as [db3' H4]. eexists. apply initializeDatabase_Some.
    exists db1, db2, db3, db3'. repeat (split; [eassumption |]). reflexivity.
- intros db db' H.
  apply initializeDatabase_Some in H as (db1 & db2 & db3 & db3' & H1 & H2 & H3 & H4 & Hdb').
  pose proof (createTableIfNotExists_frame _ _ _ _ H1) as (He1 & Ha1 & Hi1 & Ht1 & Hf1).
  pose proof (createTableIfNotExists_frame _ _ _ _ H2) as (He2 & Ha2 & Hi2 & Ht2 & Hf2).
  pose proof (createTableIfNotExists_frame _ _ _ _ H3) as (He3 & Ha3 & Hi3 & Ht3 & Hf3).
  pose proof (createIndexIfNotExists_frame _ _ _ _ _ H4) as (He3' & Htab & Hindex).
  apply createTableIfNotExists_Some in H1 as [Ha _].
  assert (Ha3' : answers db3' = true) by (rewrite (proj1 He3'); exact Ha3).
  assert (Horders : tables db3' !! "sfx_historical_orders"%string
                    = Some (default created_sfx_historical_orders
                              (tables db !! "sfx_historical_orders"%string))).
  { rewrite Htab, (Hf3 "sfx_historical_orders"%string) by discriminate.
    rewrite (Hf2 "sfx_historical_orders"%string) by discriminate. exact Ht1. }
  set (cols3 := default created_sfx_historical_orders
                  (tables db !! "sfx_historical_orders"%string)) in *.
  set (db4 := if negb (isValid (validateDatabaseSchema db3'))
              then (runDatabaseMigrations db3').2 else db3') in *.
  assert (He4 : extends db3' db4).
  { unfold db4. destruct (negb _); [| apply extends_refl].
    destruct (runDatabaseMigrations_added db3' cols3 Ha3' Horders) as (_ & added & -> & _).
    apply extends_set_tables. exact Horders. }
  destruct (migrateAccountSettings_spec db4) as [He5 Hf5].
  set (db5 := (migrateAccountSettings db4).2) in *.
  pose proof (migrateMaxobalertColumn_extends db5) as He6. rewrite <- Hdb' in He6.
  assert (Hext3 : extends db3' db').
  { apply (extends_trans _ db4); [exact He4 |]. apply (extends_trans _ db5); assumption. }
  assert (Hext : extends db db').
  { apply (extends_trans _ db1); [exact He1 |]. apply (extends_trans _ db2); [exact He2 |].
    apply (extends_trans _ db3); [exact He3 |]. apply (extends_trans _ db3'); assumption. }
  assert (Hkept : forall t cols, tables db3' !! t = Some cols -> is_Some (tables db' !! t)).
  { intros t cols Ht. destruct (proj1 (proj2 Hext3) _ _ Ht) as (added & Hs).
    eexists. exact Hs. }
  split; [exact Hext |].
  split; [exact (Hkept _ _ Horders) |].
  split.
  { apply (Hkept _ (default created_account_settings (tables db1 !! "account_settings"%string))).
    rewrite Htab, (Hf3 "account_settings"%string) by discriminate. exact Ht2. }
  split.
  { apply (Hkept _ (default created_processed_webhook_ids
                      (tables db2 !! "processed_webhook_ids"%string))).
    rewrite Htab. exact Ht3. }
  split; [apply (proj2 (proj2 Hext3)); exact Hindex |].
  intros Hclean.
  assert (Hsame : validateDatabaseSchema db3'
                  = validateDatabaseSchema
                      (set_tables (<["sfx_historical_orders"%string := cols3]> (tables db)) db)).
  { apply validateDatabaseSchema_ext; [simpl; congruence |].
    simpl. rewrite lookup_insert_eq. exact Horders. }
  assert (Hv4 : isValid (validateDatabaseSchema db4) = true).
  { unfold db4. destruct (isValid (validateDatabaseSchema db3')) eqn:Hvalid; cbn [negb];
      [exact Hvalid |].
    destruct (tables db !! "sfx_historical_orders"%string) as [cols |] eqn:Hcols.
    - assert (Heq : validateDatabaseSchema db3' = validateDatabaseSchema db).
      { apply validateDatabaseSchema_ext; [congruence |]. rewrite Horders, Hcols. reflexivity. }
      destruct (Hclean cols eq_refl) as [Hcase Hroom].
      destruct (runDatabaseMigrations_spec db3' cols Ha3' Horders) as [Hok _].
      cbv zeta in Hok. rewrite Heq in Hok.
      exact (proj1 (proj2 (Hok Hcase Hroom))).
    - exfalso. unfold cols3 in Horders. simpl in Horders.
      assert (Hv : isValid (validateDatabaseSchema db3') = true).
      { apply (isValid_spec db3' created_sfx_historical_orders Ha3' Horders).
        exact created_has_expected. }
      congruence. }
  assert (Ha4 : answers db4 = true) by (rewrite (proj1 He4); exact Ha3').
  assert (Ha5 : answers db5 = true) by (rewrite (proj1 He5); exact Ha4).
  assert (Hv5 : isValid (validateDatabaseSchema db5) = true).
  { rewrite (validateDatabaseSchema_ext db4 db5); [exact Hv4 | congruence | exact Hf5]. }
  assert (H6 : (migrateMaxobalertColumn db5).2 = db5).
  { unfold migrateMaxobalertColumn, columnExists. rewrite Ha5.
    rewrite (valid_has_expected db5 "maxobalert" Hv5); [reflexivity |].
    apply (bool_decide_unpack _). vm_compute. exact I. }
  rewrite H6 in Hdb'. subst db'. split; [exact Hv5 |].
  intros c Hc. apply valid_has_expected; [exact Hv5 |].
  apply upsertOrder_columns_expected. exact Hc.
- vm_compute. reflexivity.
- eexists. split; [vm_compute; reflexivity |]. split; vm_compute; reflexivity.
Qed.

(** A table of orders from an early version, with two columns only, is
    brought up to the expected schema. *)
Lemma runDatabaseMigrations_witness :
  let legacy := [column "order_id" "TEXT"; column "login" "TEXT"] in
  let db := {| answers := true; tables := {[ "sfx_historical_orders"%string := legacy ]};
               indexes := ∅ |} in
  (runDatabaseMigrations db).1.1 = true /\
  isValid (validateDatabaseSchema (runDatabaseMigrations db).2) = true.
Proof.
intros legacy db.
destruct (runDatabaseMigrations_completes db legacy) as [Hok _].
- reflexivity.
- apply lookup_singleton_eq.
- destruct Hok as (H1 & H2 & _).
  + intros n Hn.
    assert (Hall : Forall (fun n => declares legacy n = false)
                          (missingColumns (validateDatabaseSchema db)))
      by (apply (bool_decide_unpack _); vm_compute; exact I).
    rewrite Forall_forall in Hall. exact (Hall n Hn).
  + vm_compute. lia.
  + split; [exact H1 | exact H2].
Defined.

End SchemaMigrations.

Section BrokerClient.
Import Js Instruments Broker.
Local Open Scope api_scope.

(** What a computation sends. *)
Lemma post_sends request w :
  (post request w = (ScriptEnded, w)) \/
  exists elapsed reply rest,
    script w = (elapsed, reply) :: rest /\
    (post request w).2 = {| tokens := tokens w; now := now w + elapsed; script := rest;
                            quoteAt := quoteAt w; sent := sent w ++ [request] |} /\
    (post request w).1 = match reply with
                         | Rejected status => Thrown (RequestFailed status)
                         | _ => Returned reply
                         end.
Proof.
unfold post. destruct (script w) as [| [elapsed reply] rest]; [left; reflexivity |].
right. exists elapsed, reply, rest. split; [reflexivity |].
destruct reply; split; reflexivity.
Qed.

(** [getAccessToken]: with a cached token nothing is sent and nothing
    changes; otherwise one authentication request for its key is sent, and
    on an answer the token and its expiry, one hour after the call, are
    stored for that key only. *)
Lemma getAccessToken_spec (secondary : bool) (w : World) :
  let held := tokens w in
  let stored := if secondary then cached (secondaryAccessToken held)
                                         (secondaryTokenExpiration held) (now w)
                else cached (accessToken held) (tokenExpiration held) (now w) in
  match stored with
  | Some tok => getAccessToken secondary w = (Returned tok, w)
  | None =>
      sent (getAccessToken secondary w).2 = sent w \/
      (sent (getAccessToken secondary w).2 = sent w ++ [AuthRequest secondary] /\
       match (getAccessToken secondary w).1 with
       | Returned tok =>
           (exists token,
              tok = default EmptyString (Pipeline.present token) /\
              tokens (getAccessToken secondary w).2
              = if secondary
                then {| accessToken := accessToken held; secondaryAccessToken := token;
                        tokenExpiration := tokenExpiration held;
                        secondaryTokenExpiration := Some (now w + hour) |}
                else {| accessToken := token;
                        secondaryAccessToken := secondaryAccessToken held;
                        tokenExpiration := Some (now w + hour);
                        secondaryTokenExpiration := secondaryTokenExpiration held |})
       | Thrown e => tokens (getAccessToken secondary w).2 = held /\
                     (exists status, e = RequestFailed status)
       | ScriptEnded => tokens (getAccessToken secondary w).2 = held
       end)
  end.
Proof.
cbv zeta. unfold getAccessToken, bind, Date_now, get_tokens.
destruct secondary.
- destruct (cached (secondaryAccessToken (tokens w)) _ _) as [tok |]; [reflexivity |].
  destruct (post_sends (AuthRequest true) w) as [-> | (e & reply & rest & Hs & Hw & Ho)];
    [left; reflexivity |].
  right. destruct (post (AuthRequest true) w) as [o w1]. simpl in Hw, Ho. subst w1 o.
  destruct reply as [token | | | status]; simpl.
  + split; [reflexivity |]. exists token. split; reflexivity.
  + split; reflexivity.
  + split; reflexivity.
  + split; [reflexivity |]. split; [reflexivity |]. exists status. reflexivity.
- destruct (cached (accessToken (tokens w)) _ _) as [tok |]; [reflexivity |].
  destruct (post_sends (AuthRequest false) w) as [-> | (e & reply & rest & Hs & Hw & Ho)];
    [left; reflexivity |].
  right. destruct (post (AuthRequest false) w) as [o w1]. simpl in Hw, Ho. subst w1 o.
  destruct reply as [token | | | status]; simpl.
  + split; [reflexivity |]. exists token. split; reflexivity.
  + split; reflexivity.
  + split; reflexivity.
  + split; [reflexivity |]. split; [reflexivity |]. exists status. reflexivity.
Qed.

Lemma cached_Some token expiration t tok :
  cached token expiration t = Some tok <->
  Pipeline.present token = Some tok /\ exists e, expiration = Some e /\ e <> 0 /\ t < e.
Proof.
unfold cached. destruct (Pipeline.present token) as [tok' |].
- destruct expiration as [e |].
  + destruct (e =? 0) eqn:He; simpl.
    * apply Z.eqb_eq in He. split; [discriminate |].
      intros (_ & e' & [= <-] & Hne & _). contradiction.
    * apply Z.eqb_neq in He. destruct (t <? e) eqn:Ht.
      -- apply Z.ltb_lt in Ht. split.
         ++ intros [= <-]. split; [reflexivity |]. exists e. repeat split; assumption.
         ++ intros ([= <-] & _). reflexivity.
      -- apply Z.ltb_ge in Ht. split; [discriminate |].
         intros (_ & e' & [= <-] & _ & Hlt). lia.
  + split; [discriminate |]. intros (_ & e & [=] & _).
- split; [discriminate |]. intros ([=] & _).
Qed.

Lemma getAccessToken_cached (secondary : bool) w tok :
  (if secondary
   then cached (secondaryAccessToken (tokens w)) (secondaryTokenExpiration (tokens w)) (now w)
   else cached (accessToken (tokens w)) (tokenExpiration (tokens w)) (now w)) = Some tok ->
  getAccessToken secondary w = (Returned tok, w).
Proof.
intros H. pose proof (getAccessToken_spec secondary w) as Hs. cbv zeta in Hs.
rewrite H in Hs. exact Hs.
Qed.

(** A token is fetched once an hour at most.  When [getAccessToken] at a
    time that is not negative returns a non-empty token, there is an expiry
    ahead, one hour after the call when the token was requested, up to which
    every later call for the same key returns the same token without
    sending a request and without changing anything, as long as the stored
    tokens are as they were. *)
Theorem getAccessToken_reuses_the_token (secondary : bool) w tok w1 :
  0 <= now w ->
  getAccessToken secondary w = (Returned tok, w1) ->
  tok <> EmptyString ->
  exists expiry,
    now w < expiry /\
    (sent w1 = sent w \/ expiry = now w + hour) /\
    forall w2, tokens w2 = tokens w1 -> now w2 < expiry ->
      getAccessToken secondary w2 = (Returned tok, w2).
Proof.
intros Hnow Hget Htok.
pose proof (getAccessToken_spec secondary w) as Hs. cbv zeta in Hs.
destruct (if secondary
          then cached (secondaryAccessToken (tokens w)) (secondaryTokenExpiration (tokens w))
                 (now w)
          else cached (accessToken (tokens w)) (tokenExpiration (tokens w)) (now w))
  as [tok' |] eqn:Hc.
- rewrite Hs in Hget. injection Hget as <- <-.
  assert (Hex : exists e, now w < e /\
            forall w2, tokens w2 = tokens w -> now w2 < e ->
              (if secondary
               then cached (secondaryAccessToken (tokens w2))
                      (secondaryTokenExpiration (tokens w2)) (now w2)
               else cached (accessToken (tokens w2)) (tokenExpiration (tokens w2)) (now w2))
              = Some tok').
  { destruct secondary; apply cached_Some in Hc as (Hp & e & He & Hne & Hlt);
      exists e; (split; [exact Hlt |]); intros w2 -> Hlt2; apply cached_Some;
      (split; [exact Hp |]); exists e; repeat split; assumption. }
  destruct Hex as (e & Hlt & Hall). exists e. split; [exact Hlt |].
  split; [left; reflexivity |]. intros w2 Ht Hlt2.
  apply getAccessToken_cached. apply Hall; assumption.
- rewrite Hget in Hs. simpl in Hs.
  exists (now w + hour). split; [unfold hour; lia |].
  destruct Hs as [Hs | (Hsent & token & -> & Htokens)].
  + (* nothing was sent: the script had ended *)
    exfalso. unfold getAccessToken, bind, Date_now, get_tokens in Hget.
    destruct secondary; rewrite Hc in Hget; unfold post in Hget;
      destruct (script w) as [| [e reply] rest]; try discriminate Hget;
      destruct reply; try discriminate Hget; simpl in Hget; injection Hget as _ <-;
      simpl in Hs; apply (f_equal length) in Hs; rewrite length_app in Hs; simpl in Hs; lia.
  + split; [right; reflexivity |]. intros w2 Ht Hlt2.
    apply getAccessToken_cached. rewrite Ht, Htokens.
    assert (Hp : Pipeline.present token = Some (default EmptyString (Pipeline.present token))).
    { destruct (Pipeline.present token); [reflexivity | contradiction Htok; reflexivity]. }
    destruct secondary; simpl; apply cached_Some; (split; [exact Hp |]);
      exists (now w + hour); (split; [reflexivity |]); split; unfold hour in *; lia.
Qed.

Lemma getAccessToken_sends (secondary : bool) w :
  sent (getAccessToken secondary w).2 = sent w \/
  sent (getAccessToken secondary w).2 = sent w ++ [AuthRequest secondary].
Proof.
pose proof (getAccessToken_spec secondary w) as Hs. cbv zeta in Hs.
destruct (if secondary then _ else _) as [tok |].
- rewrite Hs. left. reflexivity.
- destruct Hs as [Hs | [Hs _]]; [left | right]; exact Hs.
Qed.

Lemma marketOrdersSent_app a b :
  marketOrdersSent (a ++ b) = marketOrdersSent a ++ marketOrdersSent b.
Proof. unfold marketOrdersSent. apply omap_app. Qed.

Lemma authRequestsSent_app a b :
  authRequestsSent (a ++ b) = authRequestsSent a ++ authRequestsSent b.
Proof. unfold authRequestsSent. apply omap_app. Qed.

(** One attempt of [placeTrade]: at most one authentication request, for its
    key, and then at most one order; a response is returned only for an order
    that was sent, and it holds a market order. *)
Lemma sendMarketOrder_sends body sym specs (secondary : bool) noQuote w :
  exists new,
    sent (sendMarketOrder body sym specs secondary noQuote w).2 = sent w ++ new /\
    Forall (fun r => r = AuthRequest secondary \/ exists tok, r = MarketOrderRequest body tok)
           new /\
    (length (marketOrdersSent new) <= 1)%nat /\
    (length (authRequestsSent new) <= 1)%nat /\
    (forall response,
       (sendMarketOrder body sym specs secondary noQuote w).1 = Returned response ->
       response_marketOrders response <> [] /\ marketOrdersSent new = [body]).
Proof.
unfold sendMarketOrder, bind, getQuoteForSymbol.
destruct (quoteAt w sym (now w)) as [quote |].
2: { exists []. cbn [snd fst throw]. rewrite app_nil_r. split; [reflexivity |].
     split; [apply Forall_nil_2 |]. split; [cbn; lia |]. split; [cbn; lia |].
     intros response [=]. }
pose proof (getAccessToken_sends secondary w) as Hsends.
assert (Hauth : exists pre,
          sent (getAccessToken secondary w).2 = sent w ++ pre /\
          (pre = [] \/ pre = [AuthRequest secondary])).
{ destruct Hsends as [H | H]; [exists [] | exists [AuthRequest secondary]].
  - rewrite app_nil_r. split; [exact H | left; reflexivity].
  - split; [exact H | right; reflexivity]. }
clear Hsends. destruct Hauth as (pre & Hpre & Hshape).
assert (Hpre_ok :
          Forall (fun r => r = AuthRequest secondary \/
                           exists tok, r = MarketOrderRequest body tok) pre /\
          marketOrdersSent pre = [] /\ (length (authRequestsSent pre) <= 1)%nat).
{ destruct Hshape as [-> | ->].
  - split; [apply Forall_nil_2 |]. split; [reflexivity | cbn; lia].
  - split; [apply Forall_cons; split; [left; reflexivity | apply Forall_nil_2] |].
    split; [reflexivity | cbn; lia]. }
destruct Hpre_ok as (Hall & Hnone & Hone).
destruct (getAccessToken secondary w) as [[tok | e |] w1]; cbn [fst snd] in *.
2, 3: exists pre; split; [exact Hpre |]; split; [exact Hall |];
      split; [rewrite Hnone; cbn; lia |]; split; [exact Hone |]; intros response [=].
destruct (post_sends (MarketOrderRequest body tok) w1)
  as [Hend | (elapsed & reply & rest & Hscript & Hw & Ho)].
- rewrite Hend. exists pre. split; [exact Hpre |]. split; [exact Hall |].
  split; [rewrite Hnone; cbn; lia |]. split; [exact Hone |]. intros response [=].
- destruct (post (MarketOrderRequest body tok) w1) as [o w2]. cbn [fst snd] in Hw, Ho.
  exists (pre ++ [MarketOrderRequest body tok]).
  assert (Hsent : sent w2 = sent w ++ pre ++ [MarketOrderRequest body tok]).
  { rewrite Hw. cbn [sent]. rewrite Hpre, app_assoc. reflexivity. }
  split.
  { rewrite Ho. destruct reply as [token | orders | [[| order orders] |] | status];
      cbn; exact Hsent. }
  split.
  { apply Forall_app. split; [exact Hall |].
    apply Forall_cons. split; [right; exists tok; reflexivity | apply Forall_nil_2]. }
  split; [rewrite marketOrdersSent_app, Hnone; cbn; lia |].
  split; [rewrite authRequestsSent_app; cbn; rewrite app_nil_r; exact Hone |].
  intros response. rewrite Ho.
  destruct reply as [token | orders | [[| order orders] |] | status]; cbn;
    intros [=]; subst response.
  split; [discriminate |]. rewrite marketOrdersSent_app, Hnone. reflexivity.
Qed.

Lemma allowed_market body (secondary : bool) new :
  Forall (fun r => r = AuthRequest secondary \/ exists tok, r = MarketOrderRequest body tok)
         new ->
  Forall (fun b => b = body) (marketOrdersSent new) /\
  Forall (fun k => k = secondary) (authRequestsSent new).
Proof.
induction new as [| r new IH]; intros H; [split; apply Forall_nil_2 |].
apply Forall_cons in H as [Hr H]. destruct (IH H) as [IH1 IH2].
destruct Hr as [-> | (tok & ->)]; cbn.
- split; [exact IH1 |]. apply Forall_cons. split; [reflexivity | exact IH2].
- split; [| exact IH2]. apply Forall_cons. split; [reflexivity | exact IH1].
Qed.

(** [placeTrade] sends the order at most twice, with one and the same body
    and so the same [RequestId]; its authentication requests are for the key
    of the account, the secondary one also for the login 3979937; a response
    is returned only after an order was sent, and it holds a market order;
    and a volume below the minimum of the instrument is refused before
    anything is sent or changed. *)
Theorem placeTrade_sends_at_most_two_orders side amount loginNumber takeProfitPrice
    stopLossPrice reality sym (useSecondaryApi : bool) w :
  let r := placeTrade side amount loginNumber takeProfitPrice stopLossPrice reality sym
             useSecondaryApi w in
  let key := useSecondaryApi || bool_decide (loginNumber = "3979937"%string) in
  let minLotSize :=
    match type (getInstrumentSpecs sym) with index => 0.1 | forex => 0.01 end%float in
  exists new,
    sent r.2 = sent w ++ new /\
    (length (marketOrdersSent new) <= 2)%nat /\
    (exists body, Forall (fun b => b = body) (marketOrdersSent new)) /\
    Forall (fun k => k = key) (authRequestsSent new) /\
    (forall response,
       r.1 = Returned response ->
       response_marketOrders response <> [] /\ marketOrdersSent new <> []) /\
    ((amount <? minLotSize)%float = true ->
     r = (Thrown (VolumeBelowMinimum amount minLotSize), w) /\ new = []).
Proof.
cbv zeta.
remember (placeTrade side amount loginNumber takeProfitPrice stopLossPrice reality sym
            useSecondaryApi w) as r eqn:Hr.
unfold placeTrade in Hr. cbv zeta in Hr.
destruct (amount <? _)%float eqn:Hlow.
{ exists []. subst r. cbn [throw fst snd]. rewrite app_nil_r. split; [reflexivity |].
  split; [cbn; lia |].
  split; [exists {| Reality := ""; Login := 0; Symbol := ""; Side := ""; Volume := 0;
                    TakeProfit := 0; StopLoss := None; IsFIFO := false; RequestId := "";
                    Activity := "" |}; apply Forall_nil_2 |].
  split; [apply Forall_nil_2 |]. split; [intros response [=] |].
  intros _. split; reflexivity. }
unfold bind at 1 in Hr. unfold Date_now in Hr. cbv beta iota in Hr.
set (body := {| Reality := toUpperCase reality; Login := parseInt loginNumber; Symbol := sym;
                Side := _; Volume := amount; TakeProfit := _; StopLoss := _; IsFIFO := false;
                RequestId := _; Activity := _ |}) in Hr.
set (key := useSecondaryApi || bool_decide (loginNumber = "3979937"%string)) in *.
set (specs := getInstrumentSpecs sym) in *.
unfold try_catch in Hr. subst r.
destruct (sendMarketOrder_sends body sym specs key (NoMarketQuote sym) w)
  as (new1 & Hsent1 & Hall1 & Hm1 & Ha1 & Hret1).
destruct (sendMarketOrder body sym specs key (NoMarketQuote sym) w) as [[response | e |] w1];
  cbn [fst snd] in *.
- exists new1. split; [exact Hsent1 |]. split; [lia |].
  destruct (allowed_market _ _ _ Hall1) as [Hb Hk].
  split; [exists body; exact Hb |]. split; [exact Hk |].
  split; [| discriminate].
  intros response' Hr. injection Hr as Hr. subst response'.
  destruct (Hret1 response eq_refl) as [H1 H2].
  split; [exact H1 | rewrite H2; discriminate].
- destruct (unauthorized e).
  + unfold bind at 1. unfold clearAccessTokens, bind, get_tokens, set_tokens. cbn [fst snd].
    match goal with |- context [sendMarketOrder body sym specs key ?q ?w2] =>
      destruct (sendMarketOrder_sends body sym specs key q w2)
        as (new2 & Hsent2 & Hall2 & Hm2 & Ha2 & Hret2);
      destruct (sendMarketOrder body sym specs key q w2) as [o2 w3]
    end.
    cbn [fst snd sent] in *.
    exists (new1 ++ new2). split; [rewrite Hsent2, Hsent1, app_assoc; reflexivity |].
    split; [rewrite marketOrdersSent_app, length_app; lia |].
    destruct (allowed_market _ _ _ (proj2 (Forall_app _ _ _) (conj Hall1 Hall2))) as [Hb Hk].
    split; [exists body; exact Hb |]. split; [exact Hk |].
    split; [| discriminate].
    intros response Hr. destruct (Hret2 response Hr) as [H1 H2].
    split; [exact H1 |]. rewrite marketOrdersSent_app, H2.
    intros H. apply app_eq_nil in H as [_ [=]].
  + cbn [throw fst snd]. exists new1. split; [exact Hsent1 |]. split; [lia |].
    destruct (allowed_market _ _ _ Hall1) as [Hb Hk].
    split; [exists body; exact Hb |]. split; [exact Hk |].
    split; [intros response [=] | discriminate].
- exists new1. split; [exact Hsent1 |]. split; [lia |].
  destruct (allowed_market _ _ _ Hall1) as [Hb Hk].
  split; [exists body; exact Hb |]. split; [exact Hk |].
  split; [intros response [=] | discriminate].
Qed.

(** The retry of [getActiveOrders] goes by [useSecondaryApi] as it was
    passed.  For the login 3979937 asked without it, the first request
    carries the cached token of the secondary key; when it is answered with
    401, the tokens of the primary key are cleared, the rejected token of the
    secondary key stays cached, and the request is repeated with the primary
    key. *)
Theorem getActiveOrders_retry_uses_the_key_as_passed reality page limit w tok elapsed rest :
  cached (secondaryAccessToken (tokens w)) (secondaryTokenExpiration (tokens w)) (now w)
    = Some tok ->
  script w = (elapsed, Rejected (Some 401)) :: rest ->
  getActiveOrders "3979937" reality false page limit w =
  requestActiveOrders "3979937" reality page limit false
    {| tokens := {| accessToken := None;
                    secondaryAccessToken := secondaryAccessToken (tokens w);
                    tokenExpiration := None;
                    secondaryTokenExpiration := secondaryTokenExpiration (tokens w) |};
       now := now w + elapsed;
       script := rest;
       quoteAt := quoteAt w;
       sent := sent w ++ [ActiveOrdersRequest (parseInt "3979937") reality page limit tok] |}.
Proof.
intros Hc Hs. unfold getActiveOrders. cbv zeta.
replace (false || bool_decide ("3979937"%string = "3979937"%string)) with true
  by (symmetry; apply bool_decide_eq_true_2; reflexivity).
unfold try_catch.
assert (Hfirst : requestActiveOrders "3979937" reality page limit true w =
                 (Thrown (RequestFailed (Some 401)),
                  {| tokens := tokens w; now := now w + elapsed; script := rest;
                     quoteAt := quoteAt w;
                     sent := sent w ++ [ActiveOrdersRequest (parseInt "3979937") reality page
                                          limit tok] |})).
{ unfold requestActiveOrders. unfold bind at 1.
  rewrite (getAccessToken_cached true w tok Hc).
  unfold bind, post. rewrite Hs. reflexivity. }
rewrite Hfirst. cbn [unauthorized].
unfold bind at 1. unfold clearAccessTokens, bind, get_tokens, set_tokens. reflexivity.
Qed.

(** A token fetched at the start is returned again half an hour later
    without a request. *)
Lemma getAccessToken_witness :
  let w := {| tokens := {| accessToken := None; secondaryAccessToken := None;
                           tokenExpiration := None; secondaryTokenExpiration := None |};
              now := 1700000000000; script := [(250, TokenReply (Some "T1"%string))];
              quoteAt := fun _ _ => None; sent := [] |} in
  let w1 := (getAccessToken false w).2 in
  let w2 := {| tokens := tokens w1; now := 1700001800000; script := [];
               quoteAt := fun _ _ => None; sent := sent w1 |} in
  sent w1 = [AuthRequest false] /\
  getAccessToken false w2 = (Returned "T1"%string, w2).
Proof.
intros w w1 w2. split; [reflexivity |].
destruct (getAccessToken_reuses_the_token false w "T1" w1) as (expiry & _ & [Hs | He] & H).
- vm_compute. discriminate.
- reflexivity.
- discriminate.
- discriminate Hs.
- apply H; [reflexivity |]. rewrite He. vm_compute. reflexivity.
Defined.

(** The cached token of the secondary key is rejected for login 3979937:
    the request is repeated with a token of the primary key, and the
    rejected token is still cached. *)
Lemma getActiveOrders_retry_witness :
  let w := {| tokens := {| accessToken := None; secondaryAccessToken := Some "S1"%string;
                           tokenExpiration := None;
                           secondaryTokenExpiration := Some 1700003600000 |};
              now := 1700000000000;
              script := [(200, Rejected (Some 401)); (250, TokenReply (Some "P1"%string));
                         (200, ActiveOrdersReply None)];
              quoteAt := fun _ _ => None; sent := [] |} in
  let r := getActiveOrders "3979937" "LIVE" false 1 100 w in
  r.1 = Returned [] /\
  sent r.2 = [ActiveOrdersRequest 3979937 "LIVE" 1 100 "S1"; AuthRequest false;
              ActiveOrdersRequest 3979937 "LIVE" 1 100 "P1"] /\
  secondaryAccessToken (tokens r.2) = Some "S1"%string.
Proof.
intros w r. subst r.
rewrite (getActiveOrders_retry_uses_the_key_as_passed "LIVE" 1 100 w "S1" 200
           [(250, TokenReply (Some "P1"%string)); (200, ActiveOrdersReply None)]).
- vm_compute. repeat split.
- reflexivity.
- reflexivity.
Defined.

End BrokerClient.

Section PipValueTables.
Import Js Instruments PipValues.


End PipValueTables.
